(* ===== verification/_CoqProject ===== *)
-Q . S2P
Prelude.v
GoString.v
Flags.v
Json.v
Env.v
Authorization.v
Actions.v
DescribeNodes.v
ListAlerts.v
AwsFilters.v
AwsGet.v
AwsWrite.v
AwsApi.v
Await.v
Backplane.v
Executor.v
Pipeline.v
Models.v
Sql.v
Store.v
StoreSpec.v
StoreApi.v
TimeText.v
Stores.v
Worker.v
Catalog.v
Http.v
Auth.v
Handlers.v
Server.v
Config.v
RtaClient.v
RtaCommands.v
RtaTree.v
Openapi.v
Effects.v
Edge.v
Shutdown.v
Migrations.v
StoreOpen.v
OcmClient.v
Startup.v
ActionCli.v
TestClient.v
