(* ===== verification/Prelude.v ===== *)
(** rosa-trusted-actions: a model of the service and its command lines, with the
    theorems that make it correct.

    The service runs a fixed catalog of actions - reads and a few writes - on managed
    clusters and their AWS accounts, for callers an identity provider vouches for. A run
    goes through these parts:

      request -> middlewares -> API handlers -> store (a queue) -> worker pool
              -> executor -> a scope's authorizer -> cluster or AWS -> audit and store

    * The packages and the files that model them

    Foundations
    - [Prelude]: Go errors and [errors.Is]/[errors.As], [(value, error)] results,
      state-passing code with early returns, 64-bit integers, shared tactics.
    - [GoString], [Json], [TimeText]: the parts of strings, strconv, sort, encoding/json
      and time the program uses, on byte strings.
    - [Env]: the data passed between the packages, and the environment: every call to
      the Kubernetes API, the AWS SDK, OCM, backplane and the clock, answered from the
      calls made before. The calls made are part of the state.

    Execution (internal/authorization, actions, awsapi, ocm, backplane, executor, audit)
    - [Authorization]: both authorizers, and the policies they decide as predicates.
    - [Actions], [DescribeNodes], [ListAlerts]: the action interfaces, the registry and
      the six Kubernetes actions. [AwsFilters], [AwsGet], [AwsWrite]: the AWS read and
      the two AWS writes.
    - [AwsApi]: the client providers, the cluster lookup and its cache. [Await]: the
      goroutine, channel and select around a credential call. [Backplane]: the
      sessions of the Kubernetes scope and the transport that carries their token.
      [OcmClient]: the OCM connection and its credentials.
    - [Executor]: [Execute], the two scopes and the audit logger. [Pipeline]: the executor
      as cmd/server assembles it, and its end-to-end guarantees.

    Persistence and work (internal/models, store, worker)
    - [Models]: executions, outputs and audit entries. [Sql]: the database as an
      interface with laws. [Store]: the operations both stores share, over a dialect.
      [StoreSpec]: their contracts. [StoreApi]: the store interface and the abstract
      queue. [Stores]: the two dialects, their laws, and an engine in memory.
      [Migrations], [StoreOpen]: the schema's migrations and opening a store.
    - [Worker]: the runner, and the pool as a step relation.

    API (internal/catalog, auth, handlers, middleware, openapi, config, cmd/server)
    - [Catalog], [Http], [Auth], [Handlers], [Server], [Openapi]: the catalog, the request
      context, authentication and roles, the seven operations, the middleware stack, and
      the generated wrappers that bind a request's parameters.
    - [Edge]: what is around them - access log, request ids, the recovery of panics, the
      health check, token verification - as runServer stacks it. [Effects]: handling a
      request as a sequence of atomic steps on what it shares with the workers.
    - [Config]: loading the configuration and the decisions taken before serving.
      [Startup]: runServer from the command line's flags to the running server.
      [Shutdown]: the running process - requests, workers, the signal, the deadline - as a
      step relation, to its exit code.

    Command lines (internal/rta, cmd/rta, cmd/action-cli, cmd/test-client)
    - [Flags]: declared flags, and a parsed command line.
    - [RtaClient], [RtaCommands], [RtaTree]: the API client, the commands of rta and the
      command tree that declares them.
    - [ActionCli]: running one action through the modelled executor. [TestClient]:
      submitting a run and polling it.

    A definition has the name of the function it models, prefixed by its type or package
    where Go's methods would clash; records have the fields of the structs.

    * What the theorems show

    - Nothing happens without permission: [Pipeline.policy_enforced] (the policy gates
      every call), [Pipeline.kube_run_least_privilege] (a run's calls are covered by the
      rules its session was created with), [Pipeline.write_justified] (a mutation names
      the requested instance, after its ownership was read), [Server.api_requires_role]
      and [Openapi.checked_action_is_run] (the caller's role is checked, for the action
      that runs), [Config.startup_is_safe], [Config.load_fails_closed] and
      [ActionCli.action_cli_stays_in_policy].
    - The guarantees of the parts are those of the assembled server:
      [Edge.edge_creates_only_authorised] (whatever arrives, handling it is a sequence of
      atomic steps that create only runs the caller is authorised for),
      [Startup.server_runs_what_was_asked] (however such steps interleave with the workers,
      what a worker claims was pending before or created by one of them) and
      [Startup.configured_policy_reaches_runs] (it runs under the lists the environment
      states).
    - The server starts, serves and ends: [Startup.server_starts_ready],
      [Edge.edge_answers_and_logs] (every request is answered and logged),
      [Shutdown.server_end_state], [Shutdown.shutdown_terminates],
      [Await.await_frees_caller_and_goroutine].
    - Tokens stay where they belong: [Backplane.token_confined],
      [RtaClient.client_confines_token], [RtaClient.redirects_stop_and_stay_secure],
      [OcmClient.server_ocm_client_credentialed].
    - Runs and requests are audited: [Pipeline.execute_audited] (one record per execution),
      [Server.requests_audited] (one entry per authenticated request whose handler returns,
      stored unless the store fails).
    - Every accepted run is executed at most once, and none is lost: [Worker.claimed_at_most_once],
      [Worker.status_moves_forward], [Worker.shutdown_loses_nothing] over all reachable
      states of the pool; [Worker.run_succeeded_sound]; [Handlers.run_request_stored];
      [RtaCommands.run_submits_once]; [RtaTree.commands_read_what_they_declare].
    - The stores implement an abstract queue: [StoreApi.store_refines_queue], from the
      contracts of [StoreSpec] (claiming, updating, listing, paging) for any engine with
      SQL's meaning and any dialect, and keep the audit log and answer the pages that the
      interfaces of [StoreApi] promise the API; [TimeText.stored_time_spec] is what SQLite's dialect
      needs; [Models.params_roundtrip], [StoreSpec.create_then_get] are the round trips.
      [Migrations.migrations_safe] and [StoreOpen.store_New_opens]: under any failures the
      schema is what the recorded migrations make of it.
    - Reads return what they should: [AwsGet.awsget_reads_every_page],
      [AwsFilters.parseAWSFilters_spec], [DescribeNodes.describe_node_correlates],
      [AwsApi.provider_cluster_spec], [Backplane.buildCreateRequest_grants],
      [Catalog.catalog_agrees], [Handlers.list_pages_answered].
    - Some theorems also state behaviour that is not what it means to be:
      [Handlers.unchecked_limit_findings], [Pipeline.kube_policy_judges_params],
      [Edge.edge_answers_and_logs] (the access log has no request id) and
      [Shutdown.server_end_state] (an execution cut off by the deadline or a crash stays
      recorded as running).

    * Assumptions, bounds and fuel

    The environment, the SQL engine, net/url, net/http, the JSON codec, uuids, the JWT
    parser, the OCM and AWS SDKs, the parameter binder, the router and the library
    middlewares are parameters.
    Where a theorem needs something of them it is a class of laws named after it
    ([SqlLaws], [GoJsonLaws], [GoUUIDLaws], [BinderLaws], [EdgeLibraryLaws], ...), each satisfied by an
    instance of its file or of [Stores].

    - Paginated AWS reads stop with the context's error after [page_budget] pages, the
      number the deadline of a run leaves time for; the theorems hold for every budget,
      and [AwsGet.awsget_reads_every_page] says what a read gives on either side of it.
    - Ten rounds of [follow_redirects] are enough for any answers, by
      [redirects_stop_and_stay_secure].
    - Trimming a string takes at most its length in rounds.
    - The wait of rta run is given the ticks and the deadline its select sees; it returns
      whenever the deadline is among them. A deadline is always set by the command. The
      test client sets none: its loop has a number of polls, and no result beyond it.
    - The pool is a relation: a step is one store operation, one run or one channel or
      context event of one worker, interleaved in any order. The process adds the atomic
      steps of requests and of the main goroutine. Its shutdown needs no fuel: at most
      [4 * concurrency + 3] steps of its own are left when the signal has come.
    - One process works on the store at a time; what a second one would do to the first
      one's executions is outside.
    - Go's int is 64 bits wide; where the code's arithmetic can wrap, it does
      ([wrap64]).

    * Not modelled

    - Log lines other than the access, panic and audit lines, and the format of any.
    - What CORS, real-IP and the timeout middleware do beyond passing a request on or
      answering it, the matching of a path to a route, and the HTTP server's own timeouts:
      library code. That a timeout may answer while its handler still runs.
    - YAML decoding and the parsing of a command line: the configuration and the flags
      arrive decoded.
    - SQL text: statements are an inductive type with SQL's meaning as a law, so a typo in
      a query is outside; the embedded migration scripts are the script engine's.
    - The layout of tables printed by rta: the printed values are kept.
    - tests/proxy-backplane: a test double of backplane. *)

From stdpp Require Export base strings pretty gmap list sorting.
From Stdlib Require Export ZArith Lia.

Declare Scope go_scope.
Delimit Scope go_scope with go.
Open Scope go_scope.
#[global] Open Scope Z_scope.

(** ** Go errors

    The sentinels are the values the program compares with [errors.Is]; [EText]
    is [errors.New]/[fmt.Errorf] without [%w]; [EWrap msg e] is
    [fmt.Errorf("msg: %w", e)] and [EWrapIn] one with text after the cause; [EFailure] is [*executor.Failure] and
    [EFailureNil] one whose [Cause] is nil. [EPanic] is not an error value but a
    run-time panic (a nil dereference), kept apart so that it can be excluded. *)

Inductive sentinel := ErrNotFound | ErrNoRows | ErrTxDone | ErrCanceled | ErrDeadline.

#[global] Instance sentinel_eq_dec : EqDecision sentinel.
Proof. solve_decision. Defined.

Inductive gerror :=
| ESentinel (s : sentinel)
| EText (msg : string)
| EWrap (msg : string) (cause : gerror)
| EWrapIn (before : string) (cause : gerror) (after : string)
| EFailure (msg : string) (cause : gerror)
| EFailureNil (msg : string)
| EPanic.

Definition sentinel_text (s : sentinel) : string :=
  match s with
  | ErrNotFound => "not found"
  | ErrNoRows => "sql: no rows in result set"
  | ErrTxDone => "sql: transaction has already been committed or rolled back"
  | ErrCanceled => "context canceled"
  | ErrDeadline => "context deadline exceeded"
  end.

(** [err.Error()]. *)
Fixpoint error_text (e : gerror) : string :=
  match e with
  | ESentinel s => sentinel_text s
  | EText m => m
  | EWrap m c => m +:+ ": " +:+ error_text c
  | EWrapIn m c m' => m +:+ error_text c +:+ m'
  | EFailureNil m => m
  | EPanic => "runtime error: invalid memory address or nil pointer dereference"
  | EFailure m c => m +:+ ": " +:+ error_text c
  end.

(** [errors.Is(err, sentinel)]: walks the [Unwrap] chain. *)
Fixpoint errors_is (e : gerror) (s : sentinel) : bool :=
  match e with
  | ESentinel s' => bool_decide (s' = s)
  | EText _ | EPanic => false
  | EWrap _ c | EWrapIn _ c _ => errors_is c s
  | EFailureNil _ => false
  | EFailure _ c => errors_is c s
  end.

(** [errors.As(err, &failure)]: the first [*Failure] of the chain. *)
Fixpoint errors_as_failure (e : gerror) : option (string * option gerror) :=
  match e with
  | EFailure m c => Some (m, Some c)
  | EFailureNil m => Some (m, None)
  | EWrap _ c | EWrapIn _ c _ => errors_as_failure c
  | _ => None
  end.

(** ** The [(value, error)] result of a Go function *)

Inductive res (A : Type) :=
| Ok (a : A)
| Err (e : gerror).
Arguments Ok {A} a.
Arguments Err {A} e.

Definition res_bind {A B} (r : res A) (k : A → res B) : res B :=
  match r with Ok a => k a | Err e => Err e end.

Definition res_map {A B} (f : A → B) (r : res A) : res B :=
  match r with Ok a => Ok (f a) | Err e => Err e end.

(** [if err != nil { return fmt.Errorf("msg: %w", err) }] *)
Definition wrap_err {A} (msg : string) (r : res A) : res A :=
  match r with Ok a => Ok a | Err e => Err (EWrap msg e) end.

Definition is_ok {A} (r : res A) : bool := match r with Ok _ => true | Err _ => false end.

Notation "'let?' x ':=' r 'in' k" := (res_bind r (λ x, k))
  (at level 10, x pattern, r at level 100, k at level 200,
   format "'[v' 'let?'  x  ':='  r  'in' '/' k ']'") : go_scope.

(** ** Stateful Go code

    [M S A] is code that runs in a state [S] and returns an [A]; the state
    carries the environment the code talks to. *)

Definition M (S A : Type) : Type := S → A * S.

Definition ret {S A} (a : A) : M S A := λ s, (a, s).
Definition bind {S A B} (m : M S A) (k : A → M S B) : M S B :=
  λ s, let '(a, s') := m s in k a s'.
(** Sequencing with an early [return err]. *)
Definition bind_res {S A B} (m : M S (res A)) (k : A → M S (res B)) : M S (res B) :=
  λ s, let '(r, s') := m s in
       match r with Ok a => k a s' | Err e => (Err e, s') end.
Definition wrap_errM {S A} (msg : string) (m : M S (res A)) : M S (res A) :=
  bind m (λ r, ret (wrap_err msg r)).

Notation "'do' x <- m ; k" := (bind m (λ x, k))
  (at level 10, x pattern, m at level 100, k at level 200,
   format "'[v' 'do'  x  <-  m ;  '/' k ']'") : go_scope.
Notation "'do?' x <- m ; k" := (bind_res m (λ x, k))
  (at level 10, x pattern, m at level 100, k at level 200,
   format "'[v' 'do?'  x  <-  m ;  '/' k ']'") : go_scope.

(** ** Tactics *)

(** Case analysis on the next [match]/[if] of the goal or the context. *)
Ltac go_cases :=
  repeat (case_match; simplify_eq/=).

(** Destructs the pairs [let '(a, s) := m in _] leaves behind. *)
Ltac go_pairs :=
  repeat match goal with
  | H : context [ let '(_, _) := ?m in _ ] |- _ => destruct m eqn:?; simplify_eq/=
  | |- context [ let '(_, _) := ?m in _ ] => destruct m eqn:?; simplify_eq/=
  end.

(** Runs symbolic stateful code: unfolds the monad and splits on every answer. *)
Ltac go_run :=
  repeat (progress (unfold bind, bind_res, ret, wrap_errM, wrap_err, res_bind, res_map in *;
                    simplify_eq/=; go_pairs; go_cases)).

(** Closes a decidable goal without variables by computing the decision. *)
Ltac decide_closed := refine (bool_decide_unpack _ _); vm_compute; exact I.

Create HintDb go discriminated.
Create Rewrite HintDb go_rw.

(** ** Generic lemmas *)

Section generic.
Context {S A B C : Type}.

Lemma bind_ret_l (a : A) (k : A → M S B) : bind (ret a) k = k a.
Proof. reflexivity. Qed.

Lemma bind_assoc (m : M S A) (f : A → M S B) (g : B → M S C) s :
  bind (bind m f) g s = bind m (λ a, bind (f a) g) s.
Proof. unfold bind. by destruct (m s). Qed.

Lemma res_bind_ok (r : res A) (k : A → res B) (b : B) :
  res_bind r k = Ok b ↔ ∃ a, r = Ok a ∧ k a = Ok b.
Proof. destruct r; naive_solver. Qed.
End generic.

#[export] Hint Rewrite @bind_ret_l : go_rw.

(** [mapM]-style loop of a Go [for range] whose body may [return err]. *)
Fixpoint res_each {A B} (f : A → res B) (l : list A) : res (list B) :=
  match l with
  | [] => Ok []
  | a :: l' => let? b := f a in let? bs := res_each f l' in Ok (b :: bs)
  end.

Lemma res_each_ok {A B} (f : A → res B) l bs :
  res_each f l = Ok bs ↔ Forall2 (λ a b, f a = Ok b) l bs.
Proof.
  revert bs. induction l as [|a l IH]; intros bs; simpl.
  - split; [intros [= <-]; constructor | by inversion 1].
  - split.
    + intros (b & Hb & (bs' & Hbs & [= <-])%res_bind_ok)%res_bind_ok.
      constructor; [done | by apply IH].
    + inversion 1 as [|? b ? bs' Hb Hbs]; subst. rewrite Hb. simpl.
      apply IH in Hbs. by rewrite Hbs.
Qed.

Lemma res_each_map {A B} (f : A → res B) (g : A → B) l :
  (∀ a, a ∈ l → f a = Ok (g a)) → res_each f l = Ok (g <$> l).
Proof.
  intros H. apply res_each_ok. induction l as [|a l IH]; simpl; constructor.
  - apply H. by left.
  - apply IH. intros. apply H. by right.
Qed.

(** ** Machine integers: Go's [int] and [int64] are 64-bit here. *)

Definition max_int64 : Z := 2 ^ 63 - 1.
Definition min_int64 : Z := - 2 ^ 63.
Definition in_int64 (z : Z) : bool := (min_int64 <=? z) && (z <=? max_int64).
(** Two's-complement wrap-around of a 64-bit signed operation. *)
Definition wrap64 (z : Z) : Z := (z + 2 ^ 63) `mod` 2 ^ 64 - 2 ^ 63.

Lemma wrap64_id z : in_int64 z = true → wrap64 z = z.
Proof.
  unfold in_int64, wrap64, min_int64, max_int64. intros H.
  rewrite Z.mod_small; lia.
Qed.

Lemma wrap64_range z : in_int64 (wrap64 z) = true.
Proof.
  unfold in_int64, wrap64, min_int64, max_int64.
  pose proof (Z.mod_pos_bound (z + 2 ^ 63) (2 ^ 64)). lia.
Qed.

#[export] Hint Resolve wrap64_range : go.

(** [errors.Is] sees through [fmt.Errorf("...: %w", err)]. *)
Lemma errors_is_wrap msg e s : errors_is (EWrap msg e) s = errors_is e s.
Proof. reflexivity. Qed.
#[export] Hint Rewrite errors_is_wrap : go_rw.
