(* ===== verification/GoString.v ===== *)
(** The byte-string functions of Go's standard library the program uses
    ([strings], [strconv], [sort.Strings], [fmt]'s %q and %d), written out on
    byte strings, with the round-trip and ordering lemmas the components share. *)

From S2P Require Import Prelude.
From Stdlib Require Import Ascii.

(** [strings.HasPrefix]; [drop_prefix p s] is the rest of [s] after [p]. *)
Fixpoint drop_prefix (p s : string) : option string :=
  match p, s with
  | EmptyString, _ => Some s
  | String a p', String b s' => if Ascii.eqb a b then drop_prefix p' s' else None
  | String _ _, EmptyString => None
  end.

Definition has_prefix (p s : string) : bool :=
  match drop_prefix p s with Some _ => true | None => false end.

(** [strings.TrimPrefix(s, p)]. *)
Definition trim_prefix (s p : string) : string :=
  match drop_prefix p s with Some r => r | None => s end.

Lemma drop_prefix_app p s : drop_prefix p (p +:+ s) = Some s.
Proof.
  induction p as [|a p IH]; [done|].
  change (String a p +:+ s) with (String a (p +:+ s)). simpl.
  by rewrite Ascii.eqb_refl.
Qed.

Lemma drop_prefix_Some p s r : drop_prefix p s = Some r → s = p +:+ r.
Proof.
  revert s. induction p as [|a p IH]; intros [|b s] H; simplify_eq/=; [done..|].
  destruct (Ascii.eqb_spec a b) as [->|]; [|done].
  change (String b p +:+ r) with (String b (p +:+ r)). f_equal. by apply IH.
Qed.

Lemma has_prefix_spec p s : has_prefix p s = true ↔ ∃ r, s = p +:+ r.
Proof.
  unfold has_prefix. destruct (drop_prefix p s) eqn:E; split; try done.
  - intros _. eexists. by apply drop_prefix_Some.
  - intros [r ->]. by rewrite drop_prefix_app in E.
Qed.

Lemma string_app_assoc s1 s2 s3 : s1 +:+ (s2 +:+ s3) = (s1 +:+ s2) +:+ s3.
Proof. induction s1 as [|a s1 IH]; [done|]. unfold String.app in *. simpl. by rewrite IH. Qed.

Lemma string_app_nil_r s : s +:+ "" = s.
Proof. induction s as [|a s IH]; [done|]. unfold String.app in *. simpl. by rewrite IH. Qed.

Lemma string_app_cons a s1 s2 : String a s1 +:+ s2 = String a (s1 +:+ s2).
Proof. reflexivity. Qed.

Lemma string_app_inj_l p s1 s2 : p +:+ s1 = p +:+ s2 → s1 = s2.
Proof.
  intros H. pose proof (drop_prefix_app p s1) as H1. rewrite H in H1.
  rewrite drop_prefix_app in H1. congruence.
Qed.

Fixpoint mem_char (c : ascii) (s : string) : bool :=
  match s with
  | EmptyString => false
  | String a s' => Ascii.eqb a c || mem_char c s'
  end.

(** ** [strings.Split(s, c)] and [strings.Join] *)

Fixpoint split_char (c : ascii) (s : string) : list string :=
  match s with
  | EmptyString => [""]
  | String a s' =>
      if Ascii.eqb a c then "" :: split_char c s'
      else match split_char c s' with
           | [] => [String a ""]
           | w :: ws => String a w :: ws
           end
  end.

Fixpoint join (sep : string) (l : list string) : string :=
  match l with
  | [] => ""
  | [w] => w
  | w :: ws => w +:+ sep +:+ join sep ws
  end.

Lemma split_char_nonempty c s : split_char c s ≠ [].
Proof. destruct s; simpl; [done|]. repeat case_match; done. Qed.

Lemma join_split c s : join (String c "") (split_char c s) = s.
Proof.
  induction s as [|a s IH]; [done|]. simpl.
  pose proof (split_char_nonempty c s) as Hne.
  destruct (Ascii.eqb_spec a c) as [->|].
  - destruct (split_char c s) as [|w ws]; [done|].
    change (join (String c "") ("" :: w :: ws))
      with ("" +:+ String c "" +:+ join (String c "") (w :: ws)).
    by rewrite IH.
  - destruct (split_char c s) as [|w ws]; [done|]. rewrite <- IH.
    destruct ws; reflexivity.
Qed.

Lemma split_char_no_sep c s w : w ∈ split_char c s → mem_char c w = false.
Proof.
  revert w. induction s as [|a s IH]; intros w; simpl.
  - intros ->%list_elem_of_singleton. done.
  - destruct (Ascii.eqb a c) eqn:Ha.
    + intros [->|Hw]%elem_of_cons; [done|by apply IH].
    + destruct (split_char c s) as [|w0 ws].
      * intros ->%list_elem_of_singleton. simpl. by rewrite Ha.
      * intros [->|Hw]%elem_of_cons.
        -- simpl. rewrite Ha. apply IH. by left.
        -- apply IH. by right.
Qed.

Lemma split_char_single c w : mem_char c w = false → split_char c w = [w].
Proof.
  induction w as [|a w IH]; [done|]. simpl. intros [Ha Hw]%orb_false_elim.
  rewrite Ha, IH; done.
Qed.

Lemma split_char_app c w s :
  mem_char c w = false → split_char c (w +:+ String c s) = w :: split_char c s.
Proof.
  induction w as [|a w IH]; simpl; [by rewrite Ascii.eqb_refl|].
  intros [Ha Hw]%orb_false_elim. by rewrite Ha, IH.
Qed.

Lemma split_join c ws :
  ws ≠ [] → (∀ w, w ∈ ws → mem_char c w = false) →
  split_char c (join (String c "") ws) = ws.
Proof.
  induction ws as [|w ws IH]; [done|]. intros _ Hc. destruct ws as [|w' ws].
  - apply split_char_single, Hc. by left.
  - change (join (String c "") (w :: w' :: ws))
      with (w +:+ String c (join (String c "") (w' :: ws))).
    rewrite split_char_app by (apply Hc; by left).
    f_equal. apply IH; [done|]. intros. apply Hc. by right.
Qed.

(** [strings.Cut(s, c)]: the parts around the first [c], if there is one. *)
Fixpoint cut (c : ascii) (s : string) : option (string * string) :=
  match s with
  | EmptyString => None
  | String a s' =>
      if Ascii.eqb a c then Some ("", s')
      else match cut c s' with
           | None => None
           | Some (l, r) => Some (String a l, r)
           end
  end.

Lemma cut_Some c s l r : cut c s = Some (l, r) → s = l +:+ String c r ∧ mem_char c l = false.
Proof.
  revert l r. induction s as [|a s IH]; [done|]. intros l r. simpl.
  destruct (Ascii.eqb a c) eqn:Ha; intros H; simplify_eq/=.
  - apply Ascii.eqb_eq in Ha as ->. done.
  - destruct (cut c s) as [[l' r']|] eqn:E; simplify_eq/=.
    destruct (IH _ _ eq_refl) as [-> Hm]. rewrite string_app_cons. by rewrite Ha, Hm.
Qed.

Lemma cut_app c l r : mem_char c l = false → cut c (l +:+ String c r) = Some (l, r).
Proof.
  induction l as [|a l IH]; simpl; [by rewrite Ascii.eqb_refl|].
  intros [Ha Hl]%orb_false_elim. by rewrite Ha, IH.
Qed.

Lemma cut_None c s : cut c s = None ↔ mem_char c s = false.
Proof.
  induction s as [|a s IH]; [done|]. simpl. destruct (Ascii.eqb a c); simpl; [done|].
  destruct (cut c s) as [[]|]; naive_solver.
Qed.

(** ** [strings.TrimSpace]

    The UTF-8 encodings of the runes of [unicode.IsSpace]. *)

Definition bytes (l : list nat) : string :=
  foldr (λ n s, String (ascii_of_nat n) s) "" l.

Definition space_encodings : list string :=
  bytes <$>
    ([ [9]; [10]; [11]; [12]; [13]; [32]; [0xC2; 0x85]; [0xC2; 0xA0]; [0xE1; 0x9A; 0x80] ]
     ++ ((λ n, [0xE2; 0x80; n]) <$>
          [0x80; 0x81; 0x82; 0x83; 0x84; 0x85; 0x86; 0x87; 0x88; 0x89; 0x8A; 0xA8; 0xA9; 0xAF])
     ++ [ [0xE2; 0x81; 0x9F]; [0xE3; 0x80; 0x80] ])%nat.

Definition strip_one (encs : list string) (s : string) : option string :=
  foldr (λ e acc, match drop_prefix e s with Some r => Some r | None => acc end) None encs.

(** A space is at least one byte, so [String.length s] rounds are enough. *)
Fixpoint strip_all (fuel : nat) (encs : list string) (s : string) : string :=
  match fuel with
  | O => s
  | S n => match strip_one encs s with Some r => strip_all n encs r | None => s end
  end.

Fixpoint string_rev_app (s acc : string) : string :=
  match s with EmptyString => acc | String a s' => string_rev_app s' (String a acc) end.
Definition string_rev (s : string) : string := string_rev_app s "".

Definition trim_left (s : string) : string := strip_all (String.length s) space_encodings s.
Definition trim_right (s : string) : string :=
  string_rev (strip_all (String.length s) (string_rev <$> space_encodings) (string_rev s)).
Definition trim_space (s : string) : string := trim_right (trim_left s).

Example trim_space_ascii : trim_space "  a b	 " = "a b".
Proof. reflexivity. Qed.

(** [strings.TrimRight(s, "/")] for a one-byte cutset. *)
Definition trim_right_char (c : ascii) (s : string) : string :=
  string_rev (strip_all (String.length s) [String c ""] (string_rev s)).

(** ** [strconv.Atoi]: optional sign, decimal digits, 64-bit range *)

Definition digit_val (a : ascii) : option Z :=
  let n := Z.of_nat (nat_of_ascii a) in
  if (48 <=? n) && (n <=? 57) then Some (n - 48) else None.

Fixpoint digits_val (acc : Z) (s : string) : option Z :=
  match s with
  | EmptyString => Some acc
  | String a s' =>
      match digit_val a with
      | Some d => digits_val (10 * acc + d) s'
      | None => None
      end
  end.

Definition atoi (s : string) : option Z :=
  let digits (neg : bool) (t : string) :=
    match t with
    | EmptyString => None
    | _ =>
        match digits_val 0 t with
        | None => None
        | Some v =>
            let v := if neg then - v else v in
            if in_int64 v then Some v else None
        end
    end in
  match s with
  | String "+" t => digits false t
  | String "-" t => digits true t
  | _ => digits false s
  end.

Lemma atoi_range s v : atoi s = Some v → in_int64 v = true.
Proof.
  unfold atoi. intros H.
  repeat match type of H with
  | context [match ?x with _ => _ end] => destruct x eqn:?; simplify_eq/=; try done
  end.
Qed.

(** [strconv.ParseBool]. *)
Definition parse_bool (s : string) : option bool :=
  if bool_decide (s ∈ ["1"; "t"; "T"; "TRUE"; "true"; "True"]) then Some true
  else if bool_decide (s ∈ ["0"; "f"; "F"; "FALSE"; "false"; "False"]) then Some false
  else None.

(** ** [fmt]: %d and %q

    [%q] escapes the quote, the backslash and the ASCII control characters;
    bytes from 0x80 on are passed through, which is what Go does for printable
    runes of valid UTF-8. *)

Definition hex_digit (n : nat) : ascii :=
  ascii_of_nat (if Nat.ltb n 10 then 48 + n else 87 + n)%nat.

Definition quote_char (a : ascii) : string :=
  let n := nat_of_ascii a in
  if Nat.eqb n 34 then bytes [92; 34]%nat
  else if Nat.eqb n 92 then bytes [92; 92]%nat
  else if Nat.eqb n 7 then bytes [92; 97]%nat
  else if Nat.eqb n 8 then bytes [92; 98]%nat
  else if Nat.eqb n 9 then bytes [92; 116]%nat
  else if Nat.eqb n 10 then bytes [92; 110]%nat
  else if Nat.eqb n 11 then bytes [92; 118]%nat
  else if Nat.eqb n 12 then bytes [92; 102]%nat
  else if Nat.eqb n 13 then bytes [92; 114]%nat
  else if Nat.ltb n 32 || Nat.eqb n 127
  then bytes [92; 120]%nat +:+ (String (hex_digit (n / 16)) (String (hex_digit (n mod 16)) ""))
  else String a "".

Fixpoint quote_body (s : string) : string :=
  match s with EmptyString => "" | String a s' => quote_char a +:+ quote_body s' end.

Definition dquote : string := bytes [34]%nat.
Definition quoted (s : string) : string := dquote +:+ quote_body s +:+ dquote.

(** [%d]. *)
Definition dec (z : Z) : string := pretty z.

(** ** [sort.Strings] *)

Definition sort_strings (l : list string) : list string := merge_sort String.le l.

Lemma sort_strings_perm l : sort_strings l ≡ₚ l.
Proof. apply merge_sort_Permutation. Qed.

Lemma sort_strings_sorted l : StronglySorted String.le (sort_strings l).
Proof. apply StronglySorted_merge_sort; apply _. Qed.

Lemma elem_of_sort_strings x l : x ∈ sort_strings l ↔ x ∈ l.
Proof. by rewrite sort_strings_perm. Qed.

(** Sorting forgets the order it was given: the reason the program sorts what
    it collected from a map. *)
Lemma sort_strings_canonical l1 l2 : l1 ≡ₚ l2 → sort_strings l1 = sort_strings l2.
Proof.
  intros Hp. apply (StronglySorted_unique String.le); try apply sort_strings_sorted.
  by rewrite !sort_strings_perm.
Qed.

Lemma sort_strings_NoDup l : NoDup l → NoDup (sort_strings l).
Proof. by rewrite sort_strings_perm. Qed.

#[export] Hint Resolve sort_strings_perm sort_strings_sorted atoi_range : go.

(** [slices.Contains] *)
Definition contains (l : list string) (x : string) : bool := bool_decide (x ∈ l).

Lemma contains_true l x : contains l x = true ↔ x ∈ l.
Proof. unfold contains. by rewrite bool_decide_eq_true. Qed.
Lemma contains_false l x : contains l x = false ↔ x ∉ l.
Proof. unfold contains. by rewrite bool_decide_eq_false. Qed.
