(* ===== verification/Flags.v ===== *)
(** The command lines' flags: what a command declares, and a parsed command line as the
    values cobra's [Flags()] answers by name. *)

From S2P Require Import Prelude.

(** A flag's type with its default. *)
Inductive flag_type := TString (d : string) | TBool (d : bool) | TStringSlice | TDuration (d : Z).
Record flag_decl := { fd_name : string; fd_type : flag_type; fd_required : bool }.
Definition flag (name : string) (t : flag_type) : flag_decl :=
  {| fd_name := name; fd_type := t; fd_required := false |}.
Definition string_flag (name : string) : flag_decl := flag name (TString "").
Definition bool_flag (name : string) : flag_decl := flag name (TBool false).
(** [MarkFlagRequired]. *)
Definition mark_required (d : flag_decl) : flag_decl :=
  {| fd_name := d.(fd_name); fd_type := d.(fd_type); fd_required := true |}.

(** [cmd.Flags()]. *)
Record flags := {
  fl_string : string → string; fl_bool : string → bool; fl_slice : string → list string;
  fl_duration : string → Z }.

(** Every flag has its default. *)
Definition flag_default (ds : list flag_decl) (name : string) : option flag_type :=
  fd_type <$> List.find (λ d, bool_decide (d.(fd_name) = name)) ds.
Definition defaults (ds : list flag_decl) : flags :=
  {| fl_string := λ n, match flag_default ds n with Some (TString d) => d | _ => "" end;
     fl_bool := λ n, match flag_default ds n with Some (TBool d) => d | _ => false end;
     fl_slice := λ _, [];
     fl_duration := λ n, match flag_default ds n with Some (TDuration d) => d | _ => 0 end |}.

(** Two readings of a command line that agree on some names. *)
Definition agree_on (names : list string) (f g : flags) : Prop :=
  ∀ n, n ∈ names → f.(fl_string) n = g.(fl_string) n ∧ f.(fl_bool) n = g.(fl_bool) n
                   ∧ f.(fl_slice) n = g.(fl_slice) n ∧ f.(fl_duration) n = g.(fl_duration) n.
