(* ===== verification/Json.v ===== *)
(** Decoded JSON ([interface{}] trees) and the map helpers of
    internal/actions/actions.go that work on them: [setIfPresent],
    [pruneUnset] and [pruneUnsetList].

    A [map[string]interface{}] is an association list with distinct keys; a
    number is kept as its literal, since the program only passes numbers on. *)

From S2P Require Import Prelude GoString.
From Stdlib Require Import Ascii.

Inductive json :=
| JNull
| JBool (b : bool)
| JNum (lit : string)
| JStr (s : string)
| JArr (vs : list json)
| JObj (kvs : list (string * json)).

Notation object := (list (string * json)).

(** [m[key]] on a map of [interface{}]: nil when the key is absent. *)
Fixpoint oget (o : object) (k : string) : option json :=
  match o with
  | [] => None
  | (k', v) :: o' => if bool_decide (k' = k) then Some v else oget o' k
  end.
Definition oget_nil (o : object) (k : string) : json := default JNull (oget o k).

(** [m[key] = v]. *)
Fixpoint oset (o : object) (k : string) (v : json) : object :=
  match o with
  | [] => [(k, v)]
  | (k', v') :: o' => if bool_decide (k' = k) then (k, v) :: o' else (k', v') :: oset o' k v
  end.

(** The type assertions [v.(string)], [v.([]interface{})],
    [v.(map[string]interface{})], and their comma-ok zero values. *)
Definition as_str (v : json) : option string := match v with JStr s => Some s | _ => None end.
Definition as_arr (v : json) : option (list json) := match v with JArr l => Some l | _ => None end.
Definition as_obj (v : json) : option object := match v with JObj o => Some o | _ => None end.
Definition str_or_empty (v : json) : string := default "" (as_str v).

Definition is_null (v : json) : bool := match v with JNull => true | _ => false end.

(** Induction over the nested type. *)
Section json_ind.
Variable P : json → Prop.
Hypothesis Hnull : P JNull.
Hypothesis Hbool : ∀ b, P (JBool b).
Hypothesis Hnum : ∀ s, P (JNum s).
Hypothesis Hstr : ∀ s, P (JStr s).
Hypothesis Harr : ∀ vs, Forall P vs → P (JArr vs).
Hypothesis Hobj : ∀ o, Forall (λ kv, P kv.2) o → P (JObj o).

Fixpoint json_nested_ind (v : json) : P v :=
  match v with
  | JNull => Hnull
  | JBool b => Hbool b
  | JNum s => Hnum s
  | JStr s => Hstr s
  | JArr vs =>
      Harr vs ((fix go l : Forall P l :=
                  match l with
                  | [] => Forall_nil_2 P
                  | x :: l' => Forall_cons_2 P x l' (json_nested_ind x) (go l')
                  end) vs)
  | JObj o =>
      Hobj o ((fix go l : Forall (λ kv, P kv.2) l :=
                 match l with
                 | [] => Forall_nil_2 _
                 | x :: l' => Forall_cons_2 (λ kv, P kv.2) x l' (json_nested_ind x.2) (go l')
                 end) o)
  end.
End json_ind.

(** ** [setIfPresent] *)
Definition setIfPresent (m : object) (key : string) (value : json) : object :=
  if is_null value then m else oset m key value.

(** The loops [for _, key := range keys { setIfPresent(m, key, src[key]) }]. *)
Definition copy_present (keys : list string) (src m : object) : object :=
  foldl (λ m key, setIfPresent m key (oget_nil src key)) m keys.

(** ** [pruneUnset], [pruneUnsetList]

    [prune_value] is the [switch typed := value.(type)] both loops share: maps
    and slices are edited in place, everything else is left alone. *)
Fixpoint prune_value (v : json) : json :=
  match v with
  | JObj o =>
      JObj ((fix go (l : object) : object :=
               match l with
               | [] => []
               | (k, x) :: l' => if is_null x then go l' else (k, prune_value x) :: go l'
               end) o)
  | JArr vs => JArr (map prune_value vs)
  | _ => v
  end.

Fixpoint pruneUnset (o : object) : object :=
  match o with
  | [] => []
  | (k, x) :: o' => if is_null x then pruneUnset o' else (k, prune_value x) :: pruneUnset o'
  end.

Definition pruneUnsetList (vs : list json) : list json := map prune_value vs.

Lemma prune_value_obj o : prune_value (JObj o) = JObj (pruneUnset o).
Proof. simpl. f_equal. Qed.

Lemma prune_value_arr vs : prune_value (JArr vs) = JArr (pruneUnsetList vs).
Proof. reflexivity. Qed.

Lemma is_null_prune v : is_null (prune_value v) = is_null v.
Proof. by destruct v. Qed.

(** ** Lookup lemmas *)

Lemma oget_oset_eq o k v : oget (oset o k v) k = Some v.
Proof.
  induction o as [|[k' v'] o IH]; simpl.
  - by rewrite bool_decide_eq_true_2.
  - case_bool_decide; simpl; [by rewrite bool_decide_eq_true_2|].
    by rewrite bool_decide_eq_false_2.
Qed.

Lemma oget_oset_ne o k k' v : k ≠ k' → oget (oset o k v) k' = oget o k'.
Proof.
  intros Hne. induction o as [|[k1 v1] o IH]; simpl.
  - by rewrite bool_decide_eq_false_2.
  - case_bool_decide; subst; simpl.
    + by rewrite !bool_decide_eq_false_2 by done.
    + case_bool_decide; [done|]. done.
Qed.

Lemma oget_setIfPresent_ne o k k' v : k ≠ k' → oget (setIfPresent o k v) k' = oget o k'.
Proof. unfold setIfPresent. destruct (is_null v); [done|]. apply oget_oset_ne. Qed.

Lemma oget_setIfPresent_eq o k v :
  oget (setIfPresent o k v) k = if is_null v then oget o k else Some v.
Proof. unfold setIfPresent. destruct (is_null v); [done|]. apply oget_oset_eq. Qed.

(** What the copy loops build: every listed key that is set, nothing else. *)
Lemma oget_copy_present keys src m k :
  NoDup keys →
  oget (copy_present keys src m) k =
  if bool_decide (k ∈ keys) && negb (is_null (oget_nil src k)) then oget src k else oget m k.
Proof.
  unfold copy_present. revert m. induction keys as [|key keys IH]; intros m; [done|].
  intros [Hnin Hnd]%NoDup_cons. simpl. rewrite IH by done.
  destruct (decide (k = key)) as [->|Hne].
  - rewrite (bool_decide_eq_false_2 (key ∈ keys)) by done.
    rewrite (bool_decide_eq_true_2 (key ∈ key :: keys)) by left. simpl.
    rewrite oget_setIfPresent_eq. unfold oget_nil.
    destruct (oget src key) as [v|]; simpl; [by destruct v|done].
  - rewrite oget_setIfPresent_ne by done.
    rewrite (bool_decide_ext (k ∈ key :: keys) (k ∈ keys)); [done|].
    rewrite elem_of_cons. naive_solver.
Qed.

Definition keys (o : object) : list string := o.*1.

Lemma oget_None o k : oget o k = None ↔ k ∉ keys o.
Proof.
  induction o as [|[k' v] o IH]; simpl; [set_solver|].
  case_bool_decide; subst; [set_solver|]. rewrite IH. set_solver.
Qed.

(** Pruning keeps exactly the non-null members. *)
Lemma pruneUnset_keys o k : k ∈ keys (pruneUnset o) → k ∈ keys o.
Proof.
  induction o as [|[k' v] o IH]; simpl; [done|].
  destruct (is_null v); set_solver.
Qed.

Lemma oget_pruneUnset o k :
  NoDup (keys o) →
  oget (pruneUnset o) k =
  match oget o k with
  | Some v => if is_null v then None else Some (prune_value v)
  | None => None
  end.
Proof.
  induction o as [|[k' v] o IH]; [done|]. intros [Hnin Hnd]%NoDup_cons. simpl.
  case_bool_decide as Hk.
  - subst k'. destruct (is_null v) eqn:Hv; simpl; [|by rewrite bool_decide_eq_true_2].
    rewrite IH by done. by rewrite (proj2 (oget_None o k)).
  - destruct (is_null v); simpl; [by apply IH|].
    rewrite bool_decide_eq_false_2 by done. by apply IH.
Qed.

(** No map of the tree holds a nil value; slices keep theirs. *)
Fixpoint no_unset (v : json) : bool :=
  match v with
  | JObj o => forallb (λ kv, negb (is_null kv.2) && no_unset kv.2) o
  | JArr vs => forallb no_unset vs
  | _ => true
  end.

Lemma no_unset_prune v : no_unset (prune_value v) = true.
Proof.
  induction v as [| | | |vs IH|o IH] using json_nested_ind; try done.
  - rewrite prune_value_arr. simpl. induction IH as [|x l Hx _ IH]; [done|].
    simpl. by rewrite Hx, IH.
  - rewrite prune_value_obj. simpl. induction IH as [|[k x] l Hx _ IH]; [done|].
    simpl in *. destruct (is_null x) eqn:Hn; [done|]. simpl.
    by rewrite is_null_prune, Hn, Hx, IH.
Qed.

Lemma prune_no_unset v : no_unset v = true → prune_value v = v.
Proof.
  induction v as [| | | |vs IH|o IH] using json_nested_ind; try done.
  - rewrite prune_value_arr. simpl. intros H. f_equal.
    induction IH as [|x l Hx _ IH]; [done|]. simpl in *.
    apply andb_true_iff in H as [H1 H2]. by rewrite Hx, IH.
  - rewrite prune_value_obj. simpl. intros H. f_equal.
    induction IH as [|[k x] l Hx _ IH]; [done|]. simpl in *.
    apply andb_true_iff in H as [[H1 H2]%andb_true_iff H3].
    destruct (is_null x); [done|]. by rewrite Hx, IH.
Qed.

(** A path through a tree: a map key or a slice index. *)
Inductive hop := Key (k : string) | Index (i : nat).

Fixpoint at_path (v : json) (p : list hop) : option json :=
  match p with
  | [] => Some v
  | h :: p' =>
      match v, h with
      | JObj o, Key k => match oget o k with Some x => at_path x p' | None => None end
      | JArr vs, Index i => match vs !! i with Some x => at_path x p' | None => None end
      | _, _ => None
      end
  end.

(** Keys are distinct in every map of the tree (what a Go map guarantees). *)
Fixpoint wf_json (v : json) : bool :=
  match v with
  | JObj o => bool_decide (NoDup (keys o)) && forallb (λ kv, wf_json kv.2) o
  | JArr vs => forallb wf_json vs
  | _ => true
  end.

Lemma oget_elem o k v : oget o k = Some v → (k, v) ∈ o.
Proof.
  induction o as [|[k' v'] o IH]; [done|]. simpl. case_bool_decide; intros; simplify_eq; set_solver.
Qed.

Lemma forallb_elem {A} (f : A → bool) l x : forallb f l = true → x ∈ l → f x = true.
Proof. rewrite forallb_forall. intros H Hx. by apply H, list_elem_of_In. Qed.
#[export] Hint Resolve forallb_elem : go.

Lemma at_path_null p v : is_null v = true → at_path v p = if p is [] then Some v else None.
Proof. destruct v; try done. by destruct p. Qed.

(** Pruning changes nothing a caller can see except that it drops unset map
    members: it leaves no nil member in any map at any depth, every path to a
    non-nil value still leads to that value pruned, nothing new appears, and
    pruning twice is pruning once. *)
Theorem pruneUnset_spec v p :
  wf_json v = true →
  no_unset (prune_value v) = true
  ∧ prune_value (prune_value v) = prune_value v
  ∧ match at_path v p with
    | Some x => is_null x = false → at_path (prune_value v) p = Some (prune_value x)
    | None => at_path (prune_value v) p = None
    end.
Proof.
  intros Hwf. split; [apply no_unset_prune|].
  split; [apply prune_no_unset, no_unset_prune|].
  revert v Hwf. induction p as [|h p IH]; intros v Hwf; [done|].
  destruct v as [| | | |vs|o]; try done; destruct h as [k|i]; try done.
  - rewrite prune_value_arr. simpl. unfold pruneUnsetList.
    rewrite list_lookup_fmap. destruct (vs !! i) as [x|] eqn:Hx; [|done]. simpl.
    apply IH. eapply forallb_elem; [apply Hwf | by eapply list_elem_of_lookup_2].
  - rewrite prune_value_obj. simpl in Hwf |- *.
    apply andb_true_iff in Hwf as [Hnd Hall]. apply bool_decide_eq_true in Hnd.
    rewrite oget_pruneUnset by done.
    destruct (oget o k) as [x|] eqn:Hx; [|done].
    destruct (is_null x) eqn:Hn.
    + rewrite at_path_null by done. destruct p; simpl; congruence.
    + apply IH. apply oget_elem in Hx. eapply (forallb_elem _ _ (k, x)) in Hall; done.
Qed.

Lemma pruneUnset_spec_witness :
  prune_value (JObj [("a", JNull); ("b", JArr [JNull; JObj [("c", JNull); ("d", JNum "1")]])])
  = JObj [("b", JArr [JNull; JObj [("d", JNum "1")]])]
  ∧ at_path (prune_value (JObj [("a", JNull); ("b", JArr [JNull; JObj [("d", JNum "1")]])]))
            [Key "b"; Index 1; Key "d"] = Some (JNum "1").
Proof.
  split; [reflexivity|].
  pose proof (pruneUnset_spec
    (JObj [("a", JNull); ("b", JArr [JNull; JObj [("d", JNum "1")]])])
    [Key "b"; Index 1; Key "d"] ltac:(vm_compute; reflexivity)) as (_ & _ & H).
  exact (H eq_refl).
Defined.

(** ** [encoding/json]

    Parsing and printing JSON text is the standard library's; the components
    that need it take it as an argument. [json_marshal] prints a tree. *)
Class GoJson := {
  json_unmarshal : string → res json;
  json_marshal : json → string }.

(** The trees [json.Marshal] and [json.Unmarshal] carry unchanged: ASCII text
    (invalid UTF-8 is replaced), integers a float64 holds exactly, and map keys in
    the sorted order [Marshal] prints. *)
Fixpoint ascii_only (s : string) : bool :=
  match s with
  | EmptyString => true
  | String a s' => (nat_of_ascii a <? 128)%nat && ascii_only s'
  end.
Definition exact_number (lit : string) : bool :=
  match atoi lit with
  | Some z => bool_decide (lit = dec z) && (Z.abs z <=? 2 ^ 53)
  | None => false
  end.
Definition canonical_keys (o : object) : bool :=
  bool_decide (NoDup (keys o)) && bool_decide (sort_strings (keys o) = keys o)
  && forallb ascii_only (keys o).
Fixpoint json_canonical (v : json) : bool :=
  match v with
  | JNull | JBool _ => true
  | JNum lit => exact_number lit
  | JStr s => ascii_only s
  | JArr vs => forallb json_canonical vs
  | JObj o => canonical_keys o && forallb (λ kv, json_canonical kv.2) o
  end.

(** What the stores rely on: a canonical tree printed by [json.Marshal] parses
    back to itself. *)
Class GoJsonLaws (J : GoJson) : Prop := {
  json_roundtrip : ∀ v, json_canonical v = true → json_unmarshal (json_marshal v) = Ok v }.

(** ** A codec that satisfies the laws

    Any injective printing does; this one goes through stdpp's countable trees.
    It is what the examples instantiate [GoJson] with. *)
Module TreeCodec.

Fixpoint to_tree (v : json) : gen_tree string :=
  match v with
  | JNull => GenNode 0 []
  | JBool b => GenNode 1 [GenLeaf (if b then "t" else "f")]
  | JNum lit => GenNode 2 [GenLeaf lit]
  | JStr s => GenNode 3 [GenLeaf s]
  | JArr vs => GenNode 4 (to_tree <$> vs)
  | JObj o => GenNode 5 ((λ kv, GenNode 6 [GenLeaf kv.1; to_tree kv.2]) <$> o)
  end.

Fixpoint of_tree (t : gen_tree string) : json :=
  match t with
  | GenNode 1 [GenLeaf s] => JBool (bool_decide (s = "t"))
  | GenNode 2 [GenLeaf s] => JNum s
  | GenNode 3 [GenLeaf s] => JStr s
  | GenNode 4 ts => JArr (of_tree <$> ts)
  | GenNode 5 ts =>
      JObj ((λ t, match t with
                  | GenNode _ [GenLeaf k; t'] => (k, of_tree t')
                  | _ => ("", JNull)
                  end) <$> ts)
  | _ => JNull
  end.

Lemma of_to_tree v : of_tree (to_tree v) = v.
Proof.
  induction v as [|b| | |vs IH|o IH] using json_nested_ind; simpl; try done.
  - by destruct b.
  - f_equal. rewrite <- list_fmap_compose. rewrite <- (list_fmap_id vs) at 2.
    apply Forall_fmap_ext. by eapply Forall_impl.
  - f_equal. rewrite <- list_fmap_compose. rewrite <- (list_fmap_id o) at 2.
    apply Forall_fmap_ext. eapply Forall_impl; [exact IH|]. intros [k v] Hv. simpl in *. by rewrite Hv.
Qed.

Fixpoint print_pos (p : positive) : string :=
  match p with
  | xH => ""
  | xO p => String "0" (print_pos p)
  | xI p => String "1" (print_pos p)
  end.
Fixpoint parse_pos (s : string) : positive :=
  match s with
  | EmptyString => xH
  | String a s' => if Ascii.eqb a "0"%char then xO (parse_pos s') else xI (parse_pos s')
  end.
Lemma parse_print p : parse_pos (print_pos p) = p.
Proof. induction p; simpl; congruence. Qed.

Definition codec : GoJson :=
  {| json_marshal := λ v, print_pos (encode (to_tree v));
     json_unmarshal := λ s, match decode (parse_pos s) with
                            | Some t => Ok (of_tree t)
                            | None => Err (EText "invalid character")
                            end |}.

Lemma codec_laws : GoJsonLaws codec.
Proof. split. intros v _. simpl. by rewrite parse_print, decode_encode, of_to_tree. Qed.
End TreeCodec.
