(* ===== verification/Env.v ===== *)
(** The data the execution pipeline passes between its packages
    (internal/backplane/backplane.go, internal/awsapi/awsapi.go,
    internal/actions/actions.go, internal/audit/audit.go) and the environment
    it runs in.

    Everything outside the repository - the Kubernetes API, the AWS SDK, OCM,
    the backplane service, the clock - is a [call]; an environment answers each
    call from the calls made so far, so no assumption is made about it. The
    history of calls is part of the state, which lets a theorem say which calls
    an operation makes and in which order. *)

From S2P Require Import Prelude GoString Json.

(** ** Kubernetes and backplane data *)

(** [schema.GroupVersionResource]. *)
Record gvr := GVR { gvr_group : string; gvr_version : string; gvr_resource : string }.

(** [backplane.RBACRule]. *)
Record RBACRule := {
  rule_namespace : string;
  rule_apiGroups : list string;
  rule_resources : list string;
  rule_resourceNames : list string;
  rule_verbs : list string }.

(** The request types of the backplane API client. *)
Record bp_policy_rule := {
  pr_apiGroups : list string;
  pr_resources : list string;
  pr_verbs : list string;
  pr_resourceNames : option (list string) }.
Record bp_role := { role_namespace : string; role_rules : list bp_policy_rule }.
Record bp_create_request := {
  cr_name : string;
  cr_customerDataAccess : bool;
  cr_clusterRoleRules : list bp_policy_rule;
  cr_roles : list bp_role }.

(** A REST configuration: where its requests go, and the host its bearer token
    is sent to ([None]: the credentials are the kubeconfig's own). *)
Record rest_config := { rc_host : string; rc_trusted : option string }.

(** ** Targets, requests and results of actions *)

(** [actions.ResourceTarget]. *)
Record ResourceTarget := {
  rt_group : string;
  rt_version : string;
  rt_resource : string;
  rt_namespace : string;
  rt_name : string;
  rt_clusterScoped : bool }.

(** [actions.AWSTarget]. *)
Record AWSTarget := {
  at_region : string;
  at_resource : string;
  at_id : string;
  at_infraID : string }.

(** [actions.Target]: a value of one of the two scopes. *)
Inductive target := TKube (t : ResourceTarget) | TAws (t : AWSTarget).

(** [map[string]string]; [params[k]] is the empty string when absent. *)
Notation strmap := (gmap string string).
Definition param (m : strmap) (k : string) : string := default "" (m !! k).

(** [actions.ActionResult]; a nil [Resources] is [None]. *)
Record ActionResult := { ar_resources : option (list object); ar_message : string }.

(** ** AWS data *)

(** [awsapi.Service] is a string type with these constants. *)
Definition ServiceEC2 : string := "ec2".
Definition ServiceELB : string := "elb".
Definition ServiceELBv2 : string := "elbv2".
Definition ServiceCloudTrail : string := "cloudtrail".
Definition ServiceRoute53 : string := "route53".

(** What an [aws.Config] was loaded from; a service client is identified by it. *)
Record aws_credentials := {
  cred_key : string; cred_secret : string; cred_token : string; cred_region : string }.
Record aws_config := {
  ac_region : string;
  ac_credentials : option aws_credentials;
  ac_endpoint : option string;
  ac_proxy : option string }.

(** [awsapi.Clients]: a field is nil when its service was not requested. *)
Record Clients := {
  c_EC2 : option aws_config;
  c_ELB : option aws_config;
  c_ELBv2 : option aws_config;
  c_CloudTrail : option aws_config;
  c_Route53 : option aws_config }.
Definition no_clients : Clients := Build_Clients None None None None None.

(** [ec2types.Instance]: the fields the code reads, and the whole object as the
    JSON the SDK marshals it to. *)
Record ec2_instance := {
  i_id : option string;
  i_tags : list (option string * option string);
  i_json : object }.

(** [ec2types.InstanceStateChange]: previous and current state names. *)
Record state_change := { sc_previous : option string; sc_current : option string }.

(** [ec2types.Filter] and the like: a name and its values. *)
Record aws_filter := { f_name : string; f_values : list string }.

(** The input of one paginated SDK read. *)
Record page_input := {
  pi_operation : string;
  pi_ids : list (string * list string);
  pi_filters : list aws_filter;
  pi_start : option Z }.
Definition plain_input (op : string) : page_input := Build_page_input op [] [] None.

(** [route53.ListResourceRecordSetsInput] and its output. *)
Record record_cursor := {
  rs_name : option string; rs_type : option string; rs_identifier : option string }.
Record record_page := { rp_records : list object; rp_truncated : bool; rp_next : record_cursor }.

(** ** OCM data *)

(** The fields of [cmv1.Cluster] the program reads. *)
Record cluster := {
  cl_id : string; cl_region : string; cl_infraID : string; cl_provider : string }.
Record cluster_list := { cll_status : Z; cll_total : Z; cll_items : list cluster }.

(** ** Audit records *)

(** [audit.Decision] and [audit.Outcome]; the zero value is the empty string. *)
Inductive decision := DecisionUnset | DecisionAllowed | DecisionDenied.
Inductive outcome := OutcomeUnset | OutcomeSuccess | OutcomeFailure | OutcomeSkipped.

(** [audit.Record]; a nil [Target] is [None]. *)
Record audit_record := {
  rec_timestamp : Z;
  rec_callerID : string;
  rec_action : string;
  rec_target : option target;
  rec_clusterID : string;
  rec_decision : decision;
  rec_denyReason : string;
  rec_outcome : outcome;
  rec_error : string }.

#[global] Instance decision_eq_dec : EqDecision decision.
Proof. solve_decision. Defined.
#[global] Instance outcome_eq_dec : EqDecision outcome.
Proof. solve_decision. Defined.

(** ** Calls to the outside and their answers *)

Inductive call :=
| CNow
| CAudit (r : audit_record)
(* backplane and kubeconfig *)
| CCreateTrustedAction (baseURL clusterID : string) (req : bp_create_request)
| CLoadKubeconfig (path : string)
| CNewDynamic (c : rest_config)
| CNewClientset (c : rest_config)
(* the dynamic client; a [None] namespace is a cluster-scoped request *)
| CKubeGet (c : rest_config) (g : gvr) (ns : option string) (name : string)
| CKubeList (c : rest_config) (g : gvr) (ns : option string) (labelSel fieldSel : string)
| CKubeDelete (c : rest_config) (g : gvr) (ns : option string) (name : string)
| CKubePatch (c : rest_config) (g : gvr) (ns : option string) (name data : string)
| CPodExec (c : rest_config) (ns pod container : string) (command : list string)
(* AWS *)
| CLoadAwsConfig (c : aws_config)
| CDescribeInstances (c : aws_config) (ids : list string)
| CRebootInstances (c : aws_config) (ids : list string)
| CTerminateInstances (c : aws_config) (ids : list string)
| CAwsPage (c : aws_config) (input : page_input) (page : nat)
| CTargetHealth (c : aws_config) (arn : string)
| CRecordSets (c : aws_config) (zone : string) (start : record_cursor)
(* OCM and backplane-cli *)
| CClusterSearch (search : string) (size : Z)
| CCloudCredentials (c : cluster) (url arn : string) (proxy awsProxy : option string)
| CAccessReview (self : bool) (username action resource : string).

(** The answer's type. [CAwsPage] answers the page's objects and whether the
    paginator has more; an [option gerror] is an error-only result; [CPodExec] the
    error of building the executor, or what the stream wrote to standard output and
    standard error and its error. The
    credential call races with its context: [inl] is the context's error, when it
    ended first. *)
Definition resp (c : call) : Type :=
  match c with
  | CNow => Z
  | CAudit _ => unit
  | CCreateTrustedAction _ _ _ => res (Z * string * res (string * string))
  | CLoadKubeconfig _ => res rest_config
  | CNewDynamic _ | CNewClientset _ => option gerror
  | CKubeGet _ _ _ _ | CKubePatch _ _ _ _ _ => res object
  | CKubeList _ _ _ _ _ => res (list object)
  | CKubeDelete _ _ _ _ => option gerror
  | CPodExec _ _ _ _ _ => res (string * string * option gerror)
  | CLoadAwsConfig _ => option gerror
  | CDescribeInstances _ _ => res (list (list ec2_instance))
  | CRebootInstances _ _ => option gerror
  | CTerminateInstances _ _ => res (list state_change)
  | CAwsPage _ _ _ => res (list object * bool)
  | CTargetHealth _ _ => res (list object)
  | CRecordSets _ _ _ => res record_page
  | CClusterSearch _ _ => res cluster_list
  | CCloudCredentials _ _ _ _ _ => sentinel + res (option aws_credentials)
  | CAccessReview _ _ _ _ => res (option bool)
  end.

(** An environment answers a call from the history of calls before it. *)
Class Env := respond : list call → ∀ c : call, resp c.

(** A cached OCM cluster record and when it expires. *)
Record cached_cluster := { cc_cluster : cluster; cc_expires : Z }.

(** The state of the pipeline: the calls made, and the cluster cache of
    [CloudCredentialsProvider]. *)
Record world := World {
  w_calls : list call;
  w_cache : gmap string cached_cluster }.
Definition fresh_world : world := World [] ∅.

Lemma world_app_nil w : World (w.(w_calls) ++ []) w.(w_cache) = w.
Proof. rewrite app_nil_r. by destruct w. Qed.

Notation W := (M world).

Definition perform `{Env} (c : call) : W (resp c) :=
  λ w, (respond w.(w_calls) c, World (w.(w_calls) ++ [c]) w.(w_cache)).

(** [if err != nil] on an error-only answer. *)
Definition err_only {A} (e : option gerror) (a : A) : res A :=
  match e with None => Ok a | Some e => Err e end.

(** ** Which calls an operation makes

    [makes P m]: run from any state, [m] only appends calls, all satisfying
    [P]. The lemmas follow the structure of the code, so [solve_makes] proves
    it for a whole handler. *)
Definition makes {A} (P : call → Prop) (m : W A) : Prop :=
  ∀ w, ∃ new, (m w).2.(w_calls) = w.(w_calls) ++ new ∧ Forall P new.

Section makes.
Context `{Env} {A B : Type} (P : call → Prop).

Lemma makes_ret (a : A) : makes P (ret a).
Proof. intros w. exists []. by rewrite app_nil_r. Qed.

Lemma makes_perform c : P c → makes P (perform c).
Proof. intros Hc w. exists [c]. split; [done|]. by constructor. Qed.

Lemma makes_bind (m : W A) (k : A → W B) :
  makes P m → (∀ a, makes P (k a)) → makes P (bind m k).
Proof.
  intros Hm Hk w. unfold bind. destruct (Hm w) as (n1 & E1 & F1).
  destruct (m w) as [a w1]. simpl in E1. destruct (Hk a w1) as (n2 & E2 & F2).
  exists (n1 ++ n2). rewrite E2, E1, app_assoc. split; [done|]. by apply Forall_app.
Qed.

Lemma makes_bind_res (m : W (res A)) (k : A → W (res B)) :
  makes P m → (∀ a, makes P (k a)) → makes P (bind_res m k).
Proof.
  intros Hm Hk w. unfold bind_res. destruct (Hm w) as (n1 & E1 & F1).
  destruct (m w) as [[a|e] w1]; simpl in E1; [|exists n1; done].
  destruct (Hk a w1) as (n2 & E2 & F2).
  exists (n1 ++ n2). rewrite E2, E1, app_assoc. split; [done|]. by apply Forall_app.
Qed.
End makes.

Lemma makes_wrap_errM {A} (P : call → Prop) msg (m : W (res A)) :
  makes P m → makes P (wrap_errM msg m).
Proof. intros. unfold wrap_errM. apply makes_bind; [done|]. intros. apply makes_ret. Qed.

Lemma makes_weaken {A} (P Q : call → Prop) (m : W A) :
  (∀ c, P c → Q c) → makes P m → makes Q m.
Proof. intros HPQ Hm w. destruct (Hm w) as (n & E & F). exists n. split; [done|]. by eapply Forall_impl. Qed.

Create HintDb makes discriminated.
#[export] Hint Resolve makes_ret makes_perform makes_bind makes_bind_res makes_wrap_errM : makes.

(** Walks the code, splitting on its conditions. *)
Ltac solve_makes :=
  repeat match goal with
  | |- ∀ _, _ => intro
  | |- makes _ (ret _) => apply makes_ret
  | |- makes _ (perform _) => apply makes_perform; simpl; try done
  | |- makes _ (bind_res _ _) => apply makes_bind_res
  | |- makes _ (bind _ _) => apply makes_bind
  | |- makes _ (wrap_errM _ _) => apply makes_wrap_errM
  | |- makes _ (if ?b then _ else _) => destruct b eqn:?
  | |- makes _ (match ?x with _ => _ end) => destruct x eqn:?
  end; eauto with makes.
