(* ===== verification/Authorization.v ===== *)
(** internal/authorization: the Kubernetes authorizer (authorization.go) and
    the AWS authorizer (aws.go), with the policies they decide as predicates. *)

From S2P Require Import Prelude GoString.

(** [authorization.Result]. *)
Record auth_result := AuthResult { Allowed : bool; Reason : string }.

(** A Go [map[string]bool] whose values are all [true] is the set of its keys:
    [m[k]] is membership and [len(m)] the size. *)
Definition stringSet (values : list string) : gset string :=
  foldl (λ set value, {[value]} ∪ set) ∅ values.

Lemma stringSet_acc values (acc : gset string) x :
  x ∈ foldl (λ set value, {[value]} ∪ set) acc values ↔ x ∈ values ∨ x ∈ acc.
Proof.
  revert acc. induction values as [|v vs IH]; intros acc; simpl.
  - set_solver.
  - rewrite IH. set_solver.
Qed.

Lemma elem_of_stringSet values x : x ∈ stringSet values ↔ x ∈ values.
Proof. unfold stringSet. rewrite stringSet_acc. set_solver. Qed.

Lemma stringSet_empty values : size (stringSet values) = 0%nat ↔ values = [].
Proof.
  rewrite size_empty_iff, <- elem_of_equiv_empty_L || rewrite size_empty_iff.
  split.
  - intros H. destruct values as [|v vs]; [done|].
    assert (v ∈ stringSet (v :: vs)) by (apply elem_of_stringSet; by left). set_solver.
  - intros ->. done.
Qed.

#[export] Hint Rewrite elem_of_stringSet stringSet_empty : go_rw.

(** ** Kubernetes requests *)
Module Kube.

(** [authorization.Request]. *)
Record request := Request {
  Namespace : string;
  ResourceType : string;
  ResourceName : string;
  ClusterScoped : bool }.

(** [authorizer]. *)
Record authorizer := Authorizer {
  allowedNamespaces : gset string;
  allowedSecrets : gset string }.

(** [New]. *)
Definition New (namespaces secrets : list string) : authorizer :=
  {| allowedNamespaces := stringSet namespaces; allowedSecrets := stringSet secrets |}.

Definition secret_key (req : request) : string :=
  req.(Namespace) +:+ "/" +:+ req.(ResourceName).

(** [authorizer.Authorize]. *)
Definition Authorize (a : authorizer) (req : request) : auth_result :=
  if Nat.eqb (size a.(allowedNamespaces)) 0 then
    AuthResult true "permissive (no namespace allowlist configured)"
  else if bool_decide (req.(Namespace) = "") && negb req.(ClusterScoped) then
    AuthResult false "namespace is required for namespaced resources"
  else if negb (bool_decide (req.(Namespace) = ""))
          && negb (bool_decide (req.(Namespace) ∈ a.(allowedNamespaces))) then
    AuthResult false ("namespace not in allowlist: " +:+ req.(Namespace))
  else if bool_decide (req.(ResourceType) = "secrets")
          && (bool_decide (req.(ResourceName) = "")
              || negb (bool_decide (secret_key req ∈ a.(allowedSecrets)))) then
    AuthResult false ("secrets access denied: " +:+ secret_key req +:+ " not in allowlist")
  else AuthResult true "authorized".

(** The policy, stated on the configured lists instead of the code's branches. *)
Definition permitted (namespaces secrets : list string) (req : request) : Prop :=
  namespaces = []
  ∨ ((req.(Namespace) ∈ namespaces ∧ req.(Namespace) ≠ ""
      ∨ req.(Namespace) = "" ∧ req.(ClusterScoped) = true)
     ∧ (req.(ResourceType) = "secrets" →
        req.(ResourceName) ≠ "" ∧ secret_key req ∈ secrets)).

End Kube.

(** ** AWS requests *)
Module Aws.

(** [AWSRequest]. *)
Record request := Request {
  Region : string;
  Resource : string;
  Operation : string }.

(** [AWSPolicy]. *)
Record policy := Policy {
  AllowedRegions : list string;
  AllowedOperations : list string }.

(** [awsAuthorizer]. *)
Record authorizer := Authorizer {
  allowedRegions : gset string;
  allowedOperations : gset string }.

(** [NewAWS]. *)
Definition NewAWS (p : policy) : authorizer :=
  {| allowedRegions := stringSet p.(AllowedRegions);
     allowedOperations := stringSet p.(AllowedOperations) |}.

(** [awsAuthorizer.Authorize]. *)
Definition Authorize (a : authorizer) (req : request) : auth_result :=
  if bool_decide (req.(Resource) = "") then AuthResult false "resource is required"
  else if Nat.eqb (size a.(allowedRegions)) 0 then
    AuthResult false "no AWS region allowlist configured"
  else if bool_decide (req.(Region) = "") then AuthResult false "region is required"
  else if negb (bool_decide (req.(Region) ∈ a.(allowedRegions))) then
    AuthResult false ("region not in allowlist: " +:+ req.(Region))
  else if negb (bool_decide (req.(Operation) = ""))
          && negb (bool_decide (req.(Operation) ∈ a.(allowedOperations))) then
    AuthResult false ("AWS write operation not permitted: " +:+ req.(Operation))
  else AuthResult true "authorized".

(** The AWS policy on the configured lists: no permissive mode. *)
Definition permitted (p : policy) (req : request) : Prop :=
  req.(Resource) ≠ "" ∧ req.(Region) ≠ "" ∧ req.(Region) ∈ p.(AllowedRegions)
  ∧ (req.(Operation) = "" ∨ req.(Operation) ∈ p.(AllowedOperations)).

(** [DefaultAllowedRegions] and [DefaultAllowedOperations]. *)
Definition DefaultAllowedRegions : list string := [].
Definition DefaultAllowedOperations : list string := [].

End Aws.

(** ** Properties *)

(** Splits on every test of an authorizer and closes the branch by the policy. *)
Ltac decide_auth :=
  repeat case_bool_decide; simpl; rewrite ?elem_of_stringSet, ?elem_of_nil in *;
  intuition (congruence || done).

Lemma kube_authorize_permitted namespaces secrets req :
  Allowed (Kube.Authorize (Kube.New namespaces secrets) req) = true
  ↔ Kube.permitted namespaces secrets req.
Proof.
  unfold Kube.Authorize, Kube.permitted, Kube.New. simpl.
  destruct (Nat.eqb_spec (size (stringSet namespaces)) 0) as [H|H];
    rewrite stringSet_empty in H.
  { tauto. }
  destruct (Kube.ClusterScoped req); decide_auth.
Qed.

(** The Kubernetes authorizer allows exactly the requests its configured
    lists permit; an empty namespace list permits everything, and with a list a
    secret is reachable only by its exact allow-listed namespace/name. *)
Theorem kube_authorize_spec namespaces secrets req :
  Allowed (Kube.Authorize (Kube.New namespaces secrets) req) = true
  ↔ Kube.permitted namespaces secrets req.
Proof. apply kube_authorize_permitted. Qed.

Lemma aws_authorize_permitted p req :
  Allowed (Aws.Authorize (Aws.NewAWS p) req) = true ↔ Aws.permitted p req.
Proof.
  destruct p as [rs os]. unfold Aws.Authorize, Aws.permitted, Aws.NewAWS. simpl.
  destruct (Nat.eqb_spec (size (stringSet rs)) 0) as [H|H];
    rewrite stringSet_empty in H; [subst rs|]; decide_auth.
Qed.

(** The AWS authorizer allows exactly what the policy names: it fails
    closed on an empty region list, a missing resource or region, and a write
    needs both the region and its operation listed. *)
Theorem aws_authorize_spec p req :
  Allowed (Aws.Authorize (Aws.NewAWS p) req) = true ↔ Aws.permitted p req.
Proof. apply aws_authorize_permitted. Qed.
