(* ===== verification/Actions.v ===== *)
(** internal/actions: the action interfaces and shared helpers (actions.go),
    and the Kubernetes actions get.go, delete.go, patch.go and
    get_pull_secret_email.go.

    The theorem of this file is least privilege: every call an action makes on
    the cluster is covered by the RBAC rules it declares. *)

From S2P Require Import Prelude GoString Json Env.
From Stdlib Require Import Ascii.

(** ** Interfaces *)

(** [PodExecutor.Exec] (backplane/client.go, kubeconfig.go): the command's output, or an
    error that quotes what it wrote to standard error. *)
Definition PodExecutor_Exec `{Env} (c : rest_config) (namespace pod container : string) (command : list string)
  : W (res string) :=
  do? (out, err) <- wrap_errM "failed to create SPDY executor" (perform (CPodExec c namespace pod container command));
  let '(stdout, stderr) := out in
  match err with
  | Some e => ret (Err (EWrapIn "exec failed: " e (" (stderr: " +:+ stderr +:+ ")")))
  | None => ret (Ok stdout)
  end.

(** [KubeClients]; a nil [PodExecutor] is [None]. *)
Record KubeClients := { kc_dynamic : rest_config; kc_podExecutor : option rest_config }.

Record KubeActionRequest := {
  kr_target : ResourceTarget;
  kr_clusterVersion : string;
  kr_params : strmap }.

Record AWSActionRequest := { ar_target : AWSTarget; ar_params : strmap }.

(** [KubeAction]. *)
Record KubeAction := {
  ka_name : string;
  ka_requiredRBAC : ResourceTarget → list RBACRule;
  ka_usesPodExec : bool;
  ka_execute : KubeClients → KubeActionRequest → W (res ActionResult) }.

(** [AWSAction]. *)
Record AWSAction := {
  aa_name : string;
  aa_requiredServices : AWSTarget → list string;
  aa_execute : Clients → AWSActionRequest → W (res ActionResult) }.

(** [AWSWriteAction]: an AWS action with an operation and a fixed resource. *)
Record AWSWriteAction := {
  aw_action : AWSAction;
  aw_operation : string;
  aw_resource : string }.

(** [Action]: the dynamic type decides the type assertions
    [action.(KubeAction)], [action.(AWSAction)] and [action.(AWSWriteAction)]. *)
Inductive action :=
| ActKube (a : KubeAction)
| ActAws (a : AWSAction)
| ActAwsWrite (a : AWSWriteAction)
| ActOther (name : string).

Definition action_name (a : action) : string :=
  match a with
  | ActKube k => k.(ka_name)
  | ActAws k => k.(aa_name)
  | ActAwsWrite w => w.(aw_action).(aa_name)
  | ActOther n => n
  end.
Definition as_kube (a : action) : option KubeAction :=
  match a with ActKube k => Some k | _ => None end.
Definition as_aws (a : action) : option AWSAction :=
  match a with ActAws k => Some k | ActAwsWrite w => Some w.(aw_action) | _ => None end.
Definition as_aws_write (a : action) : option AWSWriteAction :=
  match a with ActAwsWrite w => Some w | _ => None end.

(** [RegisterActionFactory] and [CreateAction]: the registry maps a name to the
    action its factory builds (the factories take no arguments). *)
Definition RegisterActionFactory (a : action) (reg : gmap string action) : gmap string action :=
  <[action_name a := a]> reg.
Definition CreateAction (reg : gmap string action) (actionName : string) : option action :=
  reg !! actionName.
(** [GetActionsNames]: map iteration order is unspecified, so the names are sorted. *)
Definition GetActionsNames (reg : gmap string action) : list string :=
  sort_strings (map_to_list reg).*1.

(** ** Helpers of actions.go *)

Definition is_empty (s : string) : bool := bool_decide (s = "").

Definition scopeLabel (namespace : string) : string :=
  if is_empty namespace then "cluster scope" else namespace.

(** [resourceClient]: the namespace the request is made in. *)
Definition resourceClient (t : ResourceTarget) : res (option string) :=
  if t.(rt_clusterScoped) then
    if negb (is_empty t.(rt_namespace)) then
      Err (EText ("namespace must be empty for cluster-scoped resource " +:+ t.(rt_resource)))
    else Ok None
  else if is_empty t.(rt_namespace) then
    Err (EText ("namespace is required for namespaced resource " +:+ t.(rt_resource)))
  else Ok (Some t.(rt_namespace)).

(** [resourcesFrom]: the unstructured objects' maps. *)
Definition resourcesFrom (objects : list object) : option (list object) := Some objects.

Definition target_gvr (t : ResourceTarget) : gvr :=
  GVR t.(rt_group) t.(rt_version) t.(rt_resource).

(** "<resource>/<name> in <scope>" *)
Definition object_label (t : ResourceTarget) : string :=
  t.(rt_resource) +:+ "/" +:+ t.(rt_name) +:+ " in " +:+ scopeLabel t.(rt_namespace).

(** The rule get, patch and delete build: one verb on one resource type,
    narrowed to the named object. *)
Definition target_rule (t : ResourceTarget) (names verbs : list string) : RBACRule :=
  {| rule_namespace := t.(rt_namespace); rule_apiGroups := [t.(rt_group)];
     rule_resources := [t.(rt_resource)]; rule_resourceNames := names; rule_verbs := verbs |}.

(** ** get.go *)
Section with_env.
Context `{Env}.

Definition get_requiredRBAC (t : ResourceTarget) : list RBACRule :=
  [ if is_empty t.(rt_name) then target_rule t [] ["list"]
    else target_rule t [t.(rt_name)] ["get"] ].

Definition get_execute (clients : KubeClients) (req : KubeActionRequest) : W (res ActionResult) :=
  let t := req.(kr_target) in
  let g := target_gvr t in
  do? ns <- ret (resourceClient t);
  if is_empty t.(rt_name) then
    do? items <- wrap_errM ("failed to list " +:+ t.(rt_resource) +:+ " in " +:+ scopeLabel t.(rt_namespace))
      (perform (CKubeList clients.(kc_dynamic) g ns "" ""));
    ret (Ok {| ar_resources := resourcesFrom items;
               ar_message := "listed " +:+ dec (Z.of_nat (length items)) +:+ " " +:+ t.(rt_resource)
                             +:+ " in " +:+ scopeLabel t.(rt_namespace) |})
  else
    do? obj <- wrap_errM ("failed to get " +:+ object_label t)
      (perform (CKubeGet clients.(kc_dynamic) g ns t.(rt_name)));
    ret (Ok {| ar_resources := resourcesFrom [obj]; ar_message := "got " +:+ object_label t |}).

Definition GetAction : KubeAction :=
  {| ka_name := "get"; ka_requiredRBAC := get_requiredRBAC; ka_usesPodExec := false;
     ka_execute := get_execute |}.

(** ** delete.go *)

Definition write_requiredRBAC (verb : string) (t : ResourceTarget) : list RBACRule :=
  [ target_rule t (if is_empty t.(rt_name) then [] else [t.(rt_name)]) [verb] ].

Definition delete_requiredRBAC : ResourceTarget → list RBACRule := write_requiredRBAC "delete".

Definition delete_execute (clients : KubeClients) (req : KubeActionRequest) : W (res ActionResult) :=
  let t := req.(kr_target) in
  if is_empty t.(rt_name) then ret (Err (EText "delete action requires a resource name")) else
  do? ns <- ret (resourceClient t);
  do? _ <- wrap_errM ("failed to delete " +:+ object_label t)
    (bind (perform (CKubeDelete clients.(kc_dynamic) (target_gvr t) ns t.(rt_name)))
          (λ e, ret (err_only e tt)));
  ret (Ok {| ar_resources := None; ar_message := "deleted " +:+ object_label t |}).

Definition DeleteAction : KubeAction :=
  {| ka_name := "delete"; ka_requiredRBAC := delete_requiredRBAC; ka_usesPodExec := false;
     ka_execute := delete_execute |}.

(** ** patch.go *)

Definition patch_requiredRBAC : ResourceTarget → list RBACRule := write_requiredRBAC "patch".

Definition patch_execute (clients : KubeClients) (req : KubeActionRequest) : W (res ActionResult) :=
  let t := req.(kr_target) in
  if is_empty t.(rt_name) then ret (Err (EText "patch action requires a resource name")) else
  let patchData := param req.(kr_params) "patch" in
  if is_empty patchData then
    ret (Err (EText "patch action requires 'patch' parameter with JSON merge patch body"))
  else
  do? ns <- ret (resourceClient t);
  do? obj <- wrap_errM ("failed to patch " +:+ object_label t)
    (perform (CKubePatch clients.(kc_dynamic) (target_gvr t) ns t.(rt_name) patchData));
  ret (Ok {| ar_resources := resourcesFrom [obj]; ar_message := "patched " +:+ object_label t |}).

Definition PatchAction : KubeAction :=
  {| ka_name := "patch"; ka_requiredRBAC := patch_requiredRBAC; ka_usesPodExec := false;
     ka_execute := patch_execute |}.

End with_env.

(** ** get_pull_secret_email.go *)

Definition secretsGVR : gvr := GVR "" "v1" "secrets".
Definition pullSecretNamespace : string := "openshift-config".
Definition pullSecretName : string := "pull-secret".
Definition pullSecretRegistry : string := "cloud.openshift.com".

(** [base64.StdEncoding.DecodeString]: CR and LF are skipped, padding is
    required, and it ends the text. *)
Definition b64_value (a : ascii) : option Z :=
  let n := Z.of_nat (nat_of_ascii a) in
  if (65 <=? n) && (n <=? 90) then Some (n - 65)
  else if (97 <=? n) && (n <=? 122) then Some (n - 71)
  else if (48 <=? n) && (n <=? 57) then Some (n + 4)
  else if n =? 43 then Some 62
  else if n =? 47 then Some 63 else None.

Definition byte_of_Z (z : Z) : ascii := ascii_of_nat (Z.to_nat (z `mod` 256)).

Fixpoint b64_quads (l : list ascii) : option string :=
  match l with
  | [] => Some ""
  | a :: b :: c :: d :: l' =>
      match b64_value a, b64_value b with
      | Some x, Some y =>
          let b1 := byte_of_Z (Z.lor (Z.shiftl x 2) (Z.shiftr y 4)) in
          if bool_decide (c = "="%char) then
            if bool_decide (d = "="%char ∧ l' = []) then Some (String b1 "") else None
          else
            match b64_value c with
            | None => None
            | Some z =>
                let b2 := byte_of_Z (Z.lor (Z.shiftl y 4) (Z.shiftr z 2)) in
                if bool_decide (d = "="%char) then
                  if bool_decide (l' = []) then Some (String b1 (String b2 "")) else None
                else
                  match b64_value d, b64_quads l' with
                  | Some u, Some rest =>
                      Some (String b1 (String b2 (String (byte_of_Z (Z.lor (Z.shiftl z 6) u)) rest)))
                  | _, _ => None
                  end
            end
      | _, _ => None
      end
  | _ => None
  end.

Definition is_crlf (a : ascii) : bool :=
  Nat.eqb (nat_of_ascii a) 10 || Nat.eqb (nat_of_ascii a) 13.

Definition base64_decode (s : string) : option string :=
  b64_quads (List.filter (λ a, negb (is_crlf a)) (String.list_ascii_of_string s)).

Example base64_decode_hello : base64_decode "aGVsbG8=" = Some "hello".
Proof. vm_compute. reflexivity. Qed.

(** Struct keys match up to case folding ([encoding/json]); besides the ASCII
    letters, U+017F folds to s and U+212A to k. *)
Fixpoint fold_key (s : string) : string :=
  match s with
  | EmptyString => ""
  | String a s' =>
      let n := nat_of_ascii a in
      match drop_prefix (bytes [0xC5; 0xBF]%nat) s, drop_prefix (bytes [0xE2; 0x84; 0xAA]%nat) s with
      | Some _, _ => String "s" (match s' with String _ t => fold_key t | _ => "" end)
      | _, Some _ => String "k" (match s' with String _ (String _ t) => fold_key t | _ => "" end)
      | None, None =>
          String (if (Nat.leb 65 n && Nat.leb n 90)%nat then ascii_of_nat (n + 32) else a) (fold_key s')
      end
  end.

(** Decoding one JSON value into [struct { Email string `json:"email"` }]. *)
Definition decode_entry (v : json) : option string :=
  match v with
  | JNull => Some ""
  | JObj o =>
      foldl (λ acc kv,
        match acc with
        | None => None
        | Some email =>
            if bool_decide (fold_key kv.1 = "email") then
              match kv.2 with JStr s => Some s | JNull => Some email | _ => None end
            else Some email
        end) (Some "") o
  | _ => None
  end.

(** ... and into [map[string]struct{...}]; a repeated host is decoded afresh. *)
Definition decode_auths (o : object) (m : strmap) : option strmap :=
  foldl (λ acc kv,
    match acc, decode_entry kv.2 with
    | Some m, Some email => Some (<[kv.1 := email]> m)
    | _, _ => None
    end) (Some m) o.

(** ... and the document into [struct { Auths map[...] `json:"auths"` }].
    [None] is a type mismatch, which [json.Unmarshal] reports as an error. *)
Definition decode_docker_config (v : json) : option strmap :=
  match v with
  | JNull => Some ∅
  | JObj o =>
      foldl (λ acc kv,
        match acc with
        | None => None
        | Some m =>
            if bool_decide (fold_key kv.1 = "auths") then
              match kv.2 with JNull => Some ∅ | JObj a => decode_auths a m | _ => None end
            else Some m
        end) (Some ∅) o
  | _ => None
  end.

Section with_json.
Context `{Env} `{GoJson}.

Definition pull_secret_label : string := pullSecretNamespace +:+ "/" +:+ pullSecretName.

(** [extractEmail]. *)
Definition extractEmail (secret : object) : res string :=
  match as_obj (oget_nil secret "data") with
  | None => Err (EText ("secret " +:+ pull_secret_label +:+ " has no data field"))
  | Some data =>
      let encoded := str_or_empty (oget_nil data ".dockerconfigjson") in
      if is_empty encoded then
        Err (EText ("secret " +:+ pull_secret_label +:+ " has no .dockerconfigjson key"))
      else
      match base64_decode encoded with
      | None => Err (EWrap "failed to base64-decode .dockerconfigjson" (EText "illegal base64 data"))
      | Some decoded =>
          let? doc := wrap_err "failed to parse .dockerconfigjson" (json_unmarshal decoded) in
          match decode_docker_config doc with
          | None => Err (EWrap "failed to parse .dockerconfigjson" (EText "json: cannot unmarshal"))
          | Some auths =>
              match auths !! pullSecretRegistry with
              | None => Err (EText ("no auth entry for " +:+ pullSecretRegistry +:+ " in pull secret"))
              | Some email =>
                  if is_empty email
                  then Err (EText ("no email found in " +:+ pullSecretRegistry +:+ " auth entry"))
                  else Ok email
              end
          end
      end
  end.

Definition pullsecret_requiredRBAC (_ : ResourceTarget) : list RBACRule :=
  [ {| rule_namespace := pullSecretNamespace; rule_apiGroups := [""];
       rule_resources := ["secrets"]; rule_resourceNames := [pullSecretName];
       rule_verbs := ["get"] |} ].

Definition pullsecret_execute (clients : KubeClients) (_ : KubeActionRequest)
    : W (res ActionResult) :=
  do? secret <- wrap_errM ("failed to get secret " +:+ pull_secret_label)
    (perform (CKubeGet clients.(kc_dynamic) secretsGVR (Some pullSecretNamespace) pullSecretName));
  do? email <- ret (extractEmail secret);
  ret (Ok {| ar_resources := Some [[("email", JStr email)]];
             ar_message := "retrieved pull secret email" |}).

Definition GetPullSecretEmailAction : KubeAction :=
  {| ka_name := "get-pull-secret-email"; ka_requiredRBAC := pullsecret_requiredRBAC;
     ka_usesPodExec := false; ka_execute := pullsecret_execute |}.

End with_json.

(** ** Least privilege

    A Kubernetes call as the API server authorizes it, and when an RBAC rule
    grants it: a rule without a namespace becomes a cluster role. *)
Record access := Access {
  acc_verb : string; acc_group : string; acc_resource : string;
  acc_namespace : option string; acc_name : string }.

Definition rule_grants (r : RBACRule) (a : access) : bool :=
  (is_empty r.(rule_namespace) || bool_decide (a.(acc_namespace) = Some r.(rule_namespace)))
  && contains r.(rule_apiGroups) a.(acc_group)
  && contains r.(rule_resources) a.(acc_resource)
  && contains r.(rule_verbs) a.(acc_verb)
  && (bool_decide (r.(rule_resourceNames) = []) || contains r.(rule_resourceNames) a.(acc_name)).

(** The access a call needs on the cluster of [c], if it goes to a cluster. *)
Definition cluster_access (c : call) : option (rest_config * access) :=
  match c with
  | CKubeGet h g ns n => Some (h, Access "get" g.(gvr_group) g.(gvr_resource) ns n)
  | CKubeList h g ns _ _ => Some (h, Access "list" g.(gvr_group) g.(gvr_resource) ns "")
  | CKubeDelete h g ns n => Some (h, Access "delete" g.(gvr_group) g.(gvr_resource) ns n)
  | CKubePatch h g ns n _ => Some (h, Access "patch" g.(gvr_group) g.(gvr_resource) ns n)
  | CPodExec h ns pod _ _ => Some (h, Access "create" "" "pods/exec" (Some ns) pod)
  | _ => None
  end.

(** [granted clients rules c]: [c] is a call on the cluster through one of the
    clients, and some rule grants the access it needs. *)
Definition granted (clients : KubeClients) (rules : list RBACRule) (c : call) : Prop :=
  match cluster_access c with
  | Some (h, a) =>
      (h = clients.(kc_dynamic) ∨ clients.(kc_podExecutor) = Some h)
      ∧ existsb (λ r, rule_grants r a) rules = true
  | None => False
  end.

(** An action is least-privileged when, whatever the target, params and the
    cluster's answers, it only makes calls its declared rules grant. *)
Definition least_privileged (a : KubeAction) : Prop :=
  ∀ clients req,
    makes (granted clients (a.(ka_requiredRBAC) req.(kr_target))) (a.(ka_execute) clients req).

Lemma rule_grants_target t verb names ns name :
  resourceClient t = Ok ns → names = [] ∨ names = [name] →
  rule_grants (target_rule t names [verb])
    (Access verb t.(rt_group) t.(rt_resource) ns name) = true.
Proof.
  unfold resourceClient, rule_grants, target_rule, contains, is_empty. simpl.
  intros Hns Hnames. rewrite !(bool_decide_eq_true_2 (_ ∈ [_])) by (by left). simpl.
  assert (bool_decide (names = []) || bool_decide (name ∈ names) = true) as ->.
  { destruct Hnames as [->| ->]; [done|]. rewrite orb_true_iff. right.
    apply bool_decide_eq_true. by left. }
  rewrite !andb_true_r. repeat case_match; simplify_eq/=; repeat case_bool_decide; simplify_eq/=; done.
Qed.

Lemma makes_ret_bind {A B} (P : call → Prop) (r : res A) (k : A → W (res B)) :
  (∀ a, r = Ok a → makes P (k a)) → makes P (bind_res (ret r) k).
Proof.
  intros Hk. destruct r as [a|e].
  - intros w. exact (Hk a eq_refl w).
  - intros w. exists []. by rewrite app_nil_r.
Qed.

Section least_privilege.
Context `{Env} `{GoJson}.

(** Closes the call of a target-shaped action by [rule_grants_target]. *)
Ltac grant_target :=
  split; [by left|]; cbn; rewrite orb_false_r;
  apply rule_grants_target; [done|]; auto.

Lemma get_least_privileged : least_privileged GetAction.
Proof.
  intros clients req. simpl. unfold get_execute, get_requiredRBAC.
  apply makes_ret_bind. intros ns Hns.
  destruct (is_empty _) eqn:?; solve_makes; grant_target.
Qed.

Lemma delete_least_privileged : least_privileged DeleteAction.
Proof.
  intros clients req. simpl. unfold delete_execute, delete_requiredRBAC, write_requiredRBAC.
  destruct (is_empty _) eqn:?; [solve_makes|].
  apply makes_ret_bind. intros ns Hns. solve_makes; grant_target.
Qed.

Lemma patch_least_privileged : least_privileged PatchAction.
Proof.
  intros clients req. simpl. unfold patch_execute, patch_requiredRBAC, write_requiredRBAC.
  destruct (is_empty _) eqn:?; [solve_makes|]. destruct (is_empty (param _ _)); [solve_makes|].
  apply makes_ret_bind. intros ns Hns. solve_makes; grant_target.
Qed.

Lemma pullsecret_least_privileged : least_privileged GetPullSecretEmailAction.
Proof.
  intros clients req. simpl. unfold pullsecret_execute. solve_makes.
  split; [by left|]. reflexivity.
Qed.

End least_privilege.
