(* ===== verification/DescribeNodes.v ===== *)
(** internal/actions/describe_nodes.go: the composite read that correlates
    nodes with their pods, events and lease. *)

From S2P Require Import Prelude GoString Json Env Actions.

Definition nodesGVR : gvr := GVR "" "v1" "nodes".
Definition podsGVR : gvr := GVR "" "v1" "pods".
Definition eventsGVR : gvr := GVR "" "v1" "events".
Definition leasesGVR : gvr := GVR "coordination.k8s.io" "v1" "leases".
Definition kubeNodeLeaseNamespace : string := "kube-node-lease".

Definition cluster_rule (group resource : string) (names verbs : list string) : RBACRule :=
  {| rule_namespace := ""; rule_apiGroups := [group]; rule_resources := [resource];
     rule_resourceNames := names; rule_verbs := verbs |}.

Definition nodes_requiredRBAC (t : ResourceTarget) : list RBACRule :=
  let nodesRule :=
    if negb (is_empty t.(rt_name)) then cluster_rule "" "nodes" [t.(rt_name)] ["get"]
    else cluster_rule "" "nodes" [] ["list"] in
  [ nodesRule; cluster_rule "" "pods" [] ["list"]; cluster_rule "" "events" [] ["list"];
    cluster_rule "coordination.k8s.io" "leases" [] ["list"] ].

(** [unstructured.GetName] and [GetNamespace]: nested strings under metadata. *)
Definition meta_string (o : object) (field : string) : string :=
  match as_obj (oget_nil o "metadata") with
  | Some m => str_or_empty (oget_nil m field)
  | None => ""
  end.
Definition get_name (o : object) : string := meta_string o "name".
Definition get_namespace (o : object) : string := meta_string o "namespace".

(** ** Shaping pods and events *)

(** [extractContainers]. *)
Definition extract_container (c : json) : option json :=
  match as_obj c with
  | None => None
  | Some cm =>
      let entry := [("name", oget_nil cm "name")] in
      Some (JObj (match oget cm "resources" with
                  | Some r => oset entry "resources" r
                  | None => entry
                  end))
  end.
Definition extractContainers (raw : json) : json :=
  match as_arr raw with
  | None => JArr []
  | Some containers => JArr (omap extract_container containers)
  end.

(** [extractContainerStatuses]. *)
Definition extract_status (s : json) : option json :=
  match as_obj s with
  | None => None
  | Some sm =>
      Some (JObj (copy_present ["ready"; "restartCount"; "state"; "lastState"] sm
                    [("name", oget_nil sm "name")]))
  end.
Definition extractContainerStatuses (raw : json) : json :=
  match as_arr raw with
  | None => JArr []
  | Some statuses => JArr (omap extract_status statuses)
  end.

(** [extractPod]. *)
Definition extractPod (pod : object) : json :=
  let result := [("name", JStr (get_name pod)); ("namespace", JStr (get_namespace pod))] in
  let result :=
    match as_obj (oget_nil pod "spec") with
    | Some spec =>
        oset (oset result "containers" (extractContainers (oget_nil spec "containers")))
             "initContainers" (extractContainers (oget_nil spec "initContainers"))
    | None => result
    end in
  JObj (match as_obj (oget_nil pod "status") with
        | Some status =>
            oset (oset (copy_present ["phase"; "startTime"] status result)
                    "containerStatuses" (extractContainerStatuses (oget_nil status "containerStatuses")))
                 "initContainerStatuses" (extractContainerStatuses (oget_nil status "initContainerStatuses"))
        | None => result
        end).

(** [extractEvent]. *)
Definition extractEvent (event : object) : json :=
  JObj (copy_present
          ["type"; "reason"; "message"; "source"; "firstTimestamp"; "lastTimestamp"; "count"]
          event []).

(** ** Grouping by node: the maps the loops fill, appending in list order *)

Definition append_at (m : gmap string (list json)) (k : string) (v : json)
    : gmap string (list json) :=
  <[k := default [] (m !! k) ++ [v]]> m.

(** The node a pod or an event belongs to, [None] when the loop skips it. *)
Definition pod_node (pod : object) : option string :=
  match as_obj (oget_nil pod "spec") with
  | None => None
  | Some spec =>
      match as_str (oget_nil spec "nodeName") with
      | None => None
      | Some n => if is_empty n then None else Some n
      end
  end.

Definition event_node (event : object) : option string :=
  match as_obj (oget_nil event "involvedObject") with
  | None => None
  | Some involved =>
      if negb (bool_decide (str_or_empty (oget_nil involved "kind") = "Node")) then None
      else match as_str (oget_nil involved "name") with
           | None => None
           | Some n => if is_empty n then None else Some n
           end
  end.

(** The loop shape [groupPodsByNode] and [groupEventsByNode] share. *)
Definition group_by (node : object → option string) (shape : object → json)
    (items : list object) : gmap string (list json) :=
  foldl (λ m item, match node item with Some n => append_at m n (shape item) | None => m end)
        ∅ items.

Definition groupPodsByNode : list object → gmap string (list json) := group_by pod_node extractPod.
Definition groupEventsByNode : list object → gmap string (list json) := group_by event_node extractEvent.

(** [indexLeasesByNode]: a later lease of the same name replaces an earlier one. *)
Definition indexLeasesByNode (leases : list object) : gmap string json :=
  foldl (λ m lease, let name := get_name lease in
                    if is_empty name then m else <[name := oget_nil lease "spec"]> m) ∅ leases.

(** [reshapeNode]. *)
Definition reshapeNode (node : object) (pods events : list json) (lease : json) : object :=
  let out := [("name", JStr (get_name node)); ("pods", JArr pods); ("events", JArr events);
              ("lease", lease)] in
  let out :=
    match as_obj (oget_nil node "metadata") with
    | Some metadata => copy_present ["labels"; "annotations"; "creationTimestamp"] metadata out
    | None => out
    end in
  let out :=
    match as_obj (oget_nil node "spec") with
    | Some spec =>
        copy_present ["taints"; "unschedulable"; "providerID"; "podCIDR"; "podCIDRs"] spec out
    | None => out
    end in
  match as_obj (oget_nil node "status") with
  | Some status =>
      setIfPresent (copy_present ["conditions"; "addresses"; "capacity"; "allocatable"] status out)
        "systemInfo" (oget_nil status "nodeInfo")
  | None => out
  end.

(** ** Execute *)
Section with_env.
Context `{Env}.

Definition fetch_nodes (h : rest_config) (name : string) : W (res (list object)) :=
  if negb (is_empty name) then
    do? node <- wrap_errM ("failed to get node " +:+ name) (perform (CKubeGet h nodesGVR None name));
    ret (Ok [node])
  else wrap_errM "failed to list nodes" (perform (CKubeList h nodesGVR None "" "")).

Definition pod_selector (name : string) : string :=
  "status.phase!=Succeeded,status.phase!=Failed"
  +:+ (if negb (is_empty name) then ",spec.nodeName=" +:+ name else "").
Definition event_selector (name : string) : string :=
  "involvedObject.kind=Node"
  +:+ (if negb (is_empty name) then ",involvedObject.name=" +:+ name else "").

Definition describe_node (podsByNode eventsByNode : gmap string (list json))
    (leaseByNode : gmap string json) (node : object) : object :=
  let name := get_name node in
  reshapeNode node (default [] (podsByNode !! name)) (default [] (eventsByNode !! name))
    (default JNull (leaseByNode !! name)).

Definition nodes_execute (clients : KubeClients) (req : KubeActionRequest) : W (res ActionResult) :=
  let h := clients.(kc_dynamic) in
  let name := req.(kr_target).(rt_name) in
  do? nodeItems <- fetch_nodes h name;
  do? pods <- wrap_errM "failed to list pods"
    (perform (CKubeList h podsGVR (Some "") "" (pod_selector name)));
  do? events <- wrap_errM "failed to list events"
    (perform (CKubeList h eventsGVR (Some "") "" (event_selector name)));
  do? leases <- wrap_errM "failed to list leases"
    (perform (CKubeList h leasesGVR (Some kubeNodeLeaseNamespace) "" ""));
  let resources :=
    map (describe_node (groupPodsByNode pods) (groupEventsByNode events) (indexLeasesByNode leases))
        nodeItems in
  ret (Ok {| ar_resources := Some resources;
             ar_message := if negb (is_empty name) then "described node " +:+ name
                           else "described " +:+ dec (Z.of_nat (length resources)) +:+ " nodes" |}).

Definition DescribeNodesAction : KubeAction :=
  {| ka_name := "describe-nodes"; ka_requiredRBAC := nodes_requiredRBAC;
     ka_usesPodExec := false; ka_execute := nodes_execute |}.

End with_env.

(** ** Properties *)

(** The list a group accumulates is the matching items in order: the map
    equals a per-node filter of the input. *)
Definition items_of (node : object → option string) (shape : object → json)
    (items : list object) (n : string) : list json :=
  shape <$> filter (λ item, node item = Some n) items.

Lemma group_by_acc node shape items m n :
  default [] (foldl (λ m item, match node item with
                               | Some n => append_at m n (shape item) | None => m end) m items !! n)
  = default [] (m !! n) ++ items_of node shape items n.
Proof.
  unfold items_of. revert m. induction items as [|x items IH]; intros m; simpl.
  - by rewrite app_nil_r.
  - rewrite IH, filter_cons. destruct (decide (node x = Some n)) as [E|E].
    + rewrite E. unfold append_at. rewrite lookup_insert_eq. simpl. by rewrite <- app_assoc.
    + destruct (node x) as [k|]; [|done].
      unfold append_at. by rewrite lookup_insert_ne by congruence.
Qed.

Lemma group_by_lookup node shape items n :
  default [] (group_by node shape items !! n) = items_of node shape items n.
Proof. unfold group_by. by rewrite group_by_acc, lookup_empty. Qed.

(** No pod or event is lost or invented: every item with a node is in exactly
    one group. *)
Lemma items_of_elem node shape items n v :
  v ∈ items_of node shape items n ↔ ∃ item, item ∈ items ∧ node item = Some n ∧ v = shape item.
Proof.
  unfold items_of. rewrite list_elem_of_fmap. split.
  - intros (x & -> & [Hn Hx]%list_elem_of_filter). eauto.
  - intros (x & Hx & Hn & ->). exists x. split; [done|]. by apply list_elem_of_filter.
Qed.

Lemma oget_copy_other ks src m k : k ∉ ks → NoDup ks → oget (copy_present ks src m) k = oget m k.
Proof. intros Hk Hnd. rewrite oget_copy_present by done. by rewrite bool_decide_eq_false_2. Qed.

(** The four correlated members of a node survive the copies that follow. *)
Lemma reshapeNode_core node pods events lease k :
  k ∈ ["name"; "pods"; "events"; "lease"] →
  oget (reshapeNode node pods events lease) k =
  oget [("name", JStr (get_name node)); ("pods", JArr pods); ("events", JArr events);
        ("lease", lease)] k.
Proof.
  intros Hk. unfold reshapeNode.
  assert (∀ ks src m, NoDup ks → Forall (λ x, x ∉ ["name"; "pods"; "events"; "lease"]) ks →
          oget (copy_present ks src m) k = oget m k) as Hcopy.
  { intros ks src m Hnd Hdisj. apply oget_copy_other; [|done].
    intros Hin. rewrite Forall_forall in Hdisj. by eapply Hdisj. }
  assert ("systemInfo" ≠ k).
  { intros <-. revert Hk. change ("systemInfo" ∉ ["name"; "pods"; "events"; "lease"]). decide_closed. }
  repeat (case_match || (rewrite oget_setIfPresent_ne by done)
          || (rewrite Hcopy by decide_closed)); done.
Qed.

(** Describe-nodes correlates exactly: the entry of a node carries, in list
    order, the shaped pods whose spec.nodeName is that node and the shaped
    events about it, and nothing of another node. *)
Theorem describe_node_correlates pods events leases node :
  let out := describe_node (groupPodsByNode pods) (groupEventsByNode events)
               (indexLeasesByNode leases) node in
  oget out "name" = Some (JStr (get_name node))
  ∧ oget out "pods" = Some (JArr (items_of pod_node extractPod pods (get_name node)))
  ∧ oget out "events" = Some (JArr (items_of event_node extractEvent events (get_name node))).
Proof.
  unfold describe_node. cbv zeta. rewrite !reshapeNode_core by decide_closed. simpl.
  unfold groupPodsByNode, groupEventsByNode. by rewrite !group_by_lookup.
Qed.

Lemma nodes_least_privileged `{Env} : least_privileged DescribeNodesAction.
Proof.
  intros clients req. simpl. unfold nodes_execute, fetch_nodes, nodes_requiredRBAC.
  destruct (is_empty _) eqn:He; simpl; solve_makes; (split; [by left|]);
    simpl; unfold rule_grants, contains; simpl;
    rewrite ?(bool_decide_eq_true_2 (_ ∈ [_])) by (by left); reflexivity || done.
Qed.
