(* ===== verification/ListAlerts.v ===== *)
(** internal/actions/list_alerts.go: alerts from Prometheus and silences from
    Alertmanager, read by running wget in their pods. *)

From S2P Require Import Prelude GoString Json Env Actions DescribeNodes.
From Stdlib Require Import Ascii.

Definition defaultMonitoringNamespace : string := "openshift-monitoring".
Definition prometheusPort : Z := 9090.
Definition alertmanagerPort : Z := 9093.

Definition in_quotes (s : string) : string := dquote +:+ s +:+ dquote.

Definition alertsNamespaceQuery : string :=
  "namespace=~" +:+ in_quotes "^$|^default$|^openshift-.*|^kube-.*|^redhat-.*"
  +:+ ",namespace!~" +:+ in_quotes "^redhat-rhmi-.*".

Definition alerts_namespace (t : ResourceTarget) : string :=
  if is_empty t.(rt_namespace) then defaultMonitoringNamespace else t.(rt_namespace).

Definition alerts_requiredRBAC (t : ResourceTarget) : list RBACRule :=
  let ns := alerts_namespace t in
  [ {| rule_namespace := ns; rule_apiGroups := [""]; rule_resources := ["pods"];
       rule_resourceNames := []; rule_verbs := ["list"] |};
    {| rule_namespace := ns; rule_apiGroups := [""]; rule_resources := ["pods/exec"];
       rule_resourceNames := []; rule_verbs := ["create"] |} ].

(** [buildAlertsQuery]. *)
Definition buildAlertsQuery (alertstate : string) : string :=
  let parts :=
    if bool_decide (alertstate = "firing") then ["alertstate=" +:+ in_quotes "firing"]
    else if bool_decide (alertstate = "pending") then ["alertstate=" +:+ in_quotes "pending"]
    else [] in
  "ALERTS{" +:+ join "," (parts ++ [alertsNamespaceQuery]) +:+ "}".

(** ** [url.Values.Encode]: keys sorted, [url.QueryEscape] on both sides *)

Definition upper_hex (n : nat) : ascii := ascii_of_nat (if Nat.ltb n 10 then 48 + n else 55 + n)%nat.

Definition query_escape_char (a : ascii) : string :=
  let n := nat_of_ascii a in
  if (Nat.leb 48 n && Nat.leb n 57) || (Nat.leb 65 n && Nat.leb n 90) || (Nat.leb 97 n && Nat.leb n 122)
     || Nat.eqb n 45 || Nat.eqb n 95 || Nat.eqb n 46 || Nat.eqb n 126
  then String a ""
  else if Nat.eqb n 32 then "+"
  else String "%" (String (upper_hex (n / 16)) (String (upper_hex (n mod 16)) "")).

Fixpoint query_escape (s : string) : string :=
  match s with EmptyString => "" | String a s' => query_escape_char a +:+ query_escape s' end.

Definition encode_values (params : strmap) : string :=
  join "&" (map (λ k, query_escape k +:+ "=" +:+ query_escape (param params k))
                (sort_strings (map_to_list params).*1)).

(** ** Extraction *)

(** [extractAlert]. *)
Definition extractAlert (metric : object) : json :=
  JObj (copy_present
          ["alertname"; "job"; "namespace"; "exported_namespace"; "pod"; "service"; "alertstate"]
          metric []).

(** The [metric] of one result entry, [None] when the loop skips it. *)
Definition entry_metric (r : json) : option object :=
  match as_obj r with
  | Some entry => as_obj (oget_nil entry "metric")
  | None => None
  end.

Definition metric_severity (metric : object) : string := str_or_empty (oget_nil metric "severity").

(** [extractAlerts]: the loop's two accumulators, critical and warning. A nil
    slice is [None]; it is returned only when the response has no result list. *)
Definition alert_step (includeCritical includeWarning : bool)
    (acc : list json * list json) (r : json) : list json * list json :=
  let '(critical, warning) := acc in
  match entry_metric r with
  | None => acc
  | Some metric =>
      let sev := metric_severity metric in
      let alert := extractAlert metric in
      if bool_decide (sev = "critical") && includeCritical then (critical ++ [alert], warning)
      else if bool_decide (sev = "warning") && includeWarning then (critical, warning ++ [alert])
      else acc
  end.

Definition alert_results (resp : object) : option (list json) :=
  match as_obj (oget_nil resp "data") with
  | None => None
  | Some data => as_arr (oget_nil data "result")
  end.

Definition wants (severity level : string) : bool :=
  is_empty severity || bool_decide (severity = level).

Definition extractAlerts (resp : object) (severity : string)
    : option (list json) * option (list json) :=
  match alert_results resp with
  | None => (None, None)
  | Some results =>
      let '(critical, warning) :=
        foldl (alert_step (wants severity "critical") (wants severity "warning")) ([], []) results in
      (Some critical, Some warning)
  end.

(** [extractSilences]. *)
Definition silence_entry (s : json) : option json :=
  match as_obj s with
  | None => None
  | Some silence =>
      match as_obj (oget_nil silence "status") with
      | None => None
      | Some status =>
          if negb (bool_decide (str_or_empty (oget_nil status "state") = "active")) then None
          else Some (JObj (copy_present ["id"; "createdBy"; "comment"; "startsAt"; "endsAt"; "matchers"]
                             silence []))
      end
  end.
Definition extractSilences (data : list json) : list json := omap silence_entry data.

(** ** Execute *)

Definition slice_json (l : option (list json)) : json :=
  match l with Some vs => JArr vs | None => JNull end.
Definition slice_len (l : option (list json)) : Z := Z.of_nat (length (default [] l)).

Section with_env.
Context `{Env} `{GoJson}.

(** [discoverPod]. *)
Definition discoverPod (h : rest_config) (namespace appName : string) : W (res string) :=
  do? pods <- wrap_errM "failed to list pods"
    (perform (CKubeList h podsGVR (Some namespace) ("app.kubernetes.io/name=" +:+ appName) ""));
  ret (match pods with
       | [] => Err (EText ("no " +:+ appName +:+ " pod found in namespace " +:+ namespace))
       | pod :: _ => Ok (get_name pod)
       end).

(** [execCurl]; the 30-second context timeout bounds the call itself. *)
Definition execCurl (h : rest_config) (namespace pod container : string) (port : Z)
    (path : string) (params : strmap) : W (res string) :=
  let u := "http://localhost:" +:+ dec port +:+ path in
  let u := if bool_decide (params = ∅) then u else u +:+ "?" +:+ encode_values params in
  wrap_errM "exec failed"
    (PodExecutor_Exec h namespace pod container ["wget"; "-qO-"; "-T"; "25"; u]).

(** [queryViaExec] and [queryViaExecArray]: JSON null decodes to a nil map or slice. *)
Definition queryViaExec (h : rest_config) (namespace pod container : string) (port : Z)
    (path : string) (params : strmap) : W (res object) :=
  do? raw <- execCurl h namespace pod container port path params;
  ret (wrap_err "failed to parse response"
         (let? v := json_unmarshal raw in
          match v with
          | JObj o => Ok o | JNull => Ok []
          | _ => Err (EText "json: cannot unmarshal")
          end)).

Definition queryViaExecArray (h : rest_config) (namespace pod container : string) (port : Z)
    (path : string) (params : strmap) : W (res (list json)) :=
  do? raw <- execCurl h namespace pod container port path params;
  ret (wrap_err "failed to parse response"
         (let? v := json_unmarshal raw in
          match v with
          | JArr l => Ok l | JNull => Ok []
          | _ => Err (EText "json: cannot unmarshal")
          end)).

Definition alerts_state (params : strmap) : string :=
  if is_empty (param params "state") then "firing" else param params "state".

(** The two [switch] statements that refuse a severity or a state. *)
Definition check_alert_params (params : strmap) : res (string * string) :=
  let severity := param params "severity" in
  let state := alerts_state params in
  if negb (contains [""; "critical"; "warning"] severity) then
    Err (EText ("invalid severity " +:+ quoted severity +:+ ", must be one of: critical, warning"))
  else if negb (contains ["firing"; "pending"; "all"] state) then
    Err (EText ("invalid alert state " +:+ quoted state
                +:+ ", must be one of: firing, pending, all"))
  else Ok (severity, state).

Definition fetch_silences (h exec : rest_config) (ns : string) : W (res (list json)) :=
  do? amPod <- wrap_errM ("failed to discover alertmanager pod in " +:+ ns)
    (discoverPod h ns "alertmanager");
  do? silencesResp <- wrap_errM "failed to query alertmanager silences"
    (queryViaExecArray exec ns amPod "alertmanager" alertmanagerPort "/api/v2/silences" ∅);
  ret (Ok (extractSilences silencesResp)).

Definition alerts_execute (clients : KubeClients) (req : KubeActionRequest) : W (res ActionResult) :=
  match clients.(kc_podExecutor) with
  | None => ret (Err (EText "list-alerts requires a pod executor"))
  | Some exec =>
      let h := clients.(kc_dynamic) in
      let ns := alerts_namespace req.(kr_target) in
      do? (severity, state) <- ret (check_alert_params req.(kr_params));
      let includeSilences := bool_decide (param req.(kr_params) "silences" = "true") in
      do? promPod <- wrap_errM ("failed to discover prometheus pod in " +:+ ns)
        (discoverPod h ns "prometheus");
      do? alertsResp <- wrap_errM "failed to query prometheus"
        (queryViaExec exec ns promPod "prometheus" prometheusPort "/api/v1/query"
           {["query" := buildAlertsQuery state]});
      let '(critical, warning) := extractAlerts alertsResp severity in
      let result := [("alerts", JObj [("critical", slice_json critical);
                                      ("warning", slice_json warning)])] in
      let msg := dec (slice_len critical) +:+ " critical, " +:+ dec (slice_len warning)
                 +:+ " warning alerts" in
      if includeSilences then
        do? silences <- fetch_silences h exec ns;
        ret (Ok {| ar_resources := Some [oset result "silences" (JArr silences)];
                   ar_message := msg +:+ ", " +:+ dec (Z.of_nat (length silences))
                                 +:+ " active silences" |})
      else ret (Ok {| ar_resources := Some [result]; ar_message := msg |})
  end.

Definition ListAlertsAction : KubeAction :=
  {| ka_name := "list-alerts"; ka_requiredRBAC := alerts_requiredRBAC;
     ka_usesPodExec := true; ka_execute := alerts_execute |}.

Lemma alerts_least_privileged : least_privileged ListAlertsAction.
Proof.
  intros clients req. simpl. unfold alerts_execute.
  destruct (kc_podExecutor clients) as [exec|] eqn:He; [|solve_makes].
  unfold fetch_silences, discoverPod, queryViaExec, queryViaExecArray, execCurl, PodExecutor_Exec.
  solve_makes; (split; [by auto|]); unfold alerts_requiredRBAC, rule_grants, contains; simpl;
    rewrite ?(bool_decide_eq_true_2 (Some _ = Some _)) by done;
    rewrite ?orb_true_r; reflexivity.
Qed.

End with_env.

(** ** Properties *)

(** The alerts of one level, in the order Prometheus returned them. *)
Definition alerts_at (level : string) (results : list json) : list json :=
  extractAlert <$> filter (λ m, metric_severity m = level) (omap entry_metric results).

Lemma alert_fold ic iw results c w :
  foldl (alert_step ic iw) (c, w) results =
  (c ++ (if ic then alerts_at "critical" results else []),
   w ++ (if iw then alerts_at "warning" results else [])).
Proof.
  unfold alerts_at. revert c w. induction results as [|r results IH]; intros c w.
  - simpl. by destruct ic, iw; rewrite !app_nil_r.
  - cbn [foldl omap list_omap]. unfold alert_step at 2.
    destruct (entry_metric r) as [m|]; [|by rewrite IH].
    rewrite !filter_cons.
    destruct (decide (metric_severity m = "critical")) as [E|E].
    + rewrite E, decide_False, (bool_decide_eq_true_2 ("critical" = "critical")),
        (bool_decide_eq_false_2 ("critical" = "warning")) by done.
      destruct ic; simpl; rewrite IH; [by rewrite <- app_assoc|done].
    + rewrite (bool_decide_eq_false_2 (_ = "critical")) by done. simpl.
      destruct (decide (metric_severity m = "warning")) as [E'|E'].
      * rewrite bool_decide_eq_true_2 by done.
        destruct iw; simpl; rewrite IH; [by rewrite <- app_assoc|done].
      * rewrite bool_decide_eq_false_2 by done. simpl. by rewrite IH.
Qed.

(** List-alerts reports, for each level the severity filter asks for, exactly
    the alerts of that severity in Prometheus order, and none of the level it
    excludes; a response without a result list gives nil lists. *)
Theorem extractAlerts_spec resp severity :
  extractAlerts resp severity =
  match alert_results resp with
  | None => (None, None)
  | Some results =>
      (Some (if wants severity "critical" then alerts_at "critical" results else []),
       Some (if wants severity "warning" then alerts_at "warning" results else []))
  end.
Proof.
  unfold extractAlerts. destruct (alert_results resp); [|done].
  rewrite alert_fold. done.
Qed.
