(* ===== verification/AwsFilters.v ===== *)
(** The caller-supplied filters of aws-get: [parseAWSFilters]
    (internal/actions/aws_get.go), [ec2Filters] (aws_ec2.go), [arnOrName]
    (aws_elb.go) and [cloudTrailAttributes] (aws_cloudtrail.go), with a
    reference definition of what a filter expression means. *)

From S2P Require Import Prelude GoString Env Actions.
From Stdlib Require Import Ascii.

(** ** [parseAWSFilters]

    The loop's state: the [values] map and the [names] in order of appearance. *)
Record filter_state := { fs_values : gmap string (list string); fs_names : list string }.

Definition is_blank (s : string) : bool := is_empty (trim_space s).

(** [strings.Cut(pair, "=")] and the trims around it. *)
Definition parse_pair (entry : string) : res (string * string) :=
  match cut "="%char entry with
  | None => Err (EText ("invalid filter " +:+ quoted entry +:+ ": expected Name=Value"))
  | Some (name, value) =>
      let name := trim_space name in
      if is_empty name then Err (EText ("invalid filter " +:+ quoted entry +:+ ": expected Name=Value"))
      else Ok (name, trim_space value)
  end.

Definition filter_add (st : filter_state) (nv : string * string) : filter_state :=
  let '(name, value) := nv in
  {| fs_values := <[name := default [] (st.(fs_values) !! name) ++ [value]]> st.(fs_values);
     fs_names := match st.(fs_values) !! name with
                 | Some _ => st.(fs_names)
                 | None => st.(fs_names) ++ [name]
                 end |}.

Fixpoint filter_loop (pairs : list string) (st : filter_state) : res filter_state :=
  match pairs with
  | [] => Ok st
  | entry :: pairs' =>
      let entry := trim_space entry in
      if is_empty entry then filter_loop pairs' st
      else let? nv := parse_pair entry in filter_loop pairs' (filter_add st nv)
  end.

Definition parseAWSFilters (raw : string) : res (list aws_filter) :=
  if is_blank raw then Ok []
  else
    let? st := filter_loop (split_char ","%char raw) {| fs_values := ∅; fs_names := [] |} in
    if bool_decide (st.(fs_names) = []) then
      Err (EText ("invalid filters " +:+ quoted raw +:+ ": no Name=Value pairs found"))
    else
      Ok (map (λ name, {| f_name := name; f_values := default [] (st.(fs_values) !! name) |})
              (sort_strings st.(fs_names))).

(** [ec2Filters]: the same filters, in the SDK's type. *)
Definition ec2Filters (params : strmap) : res (list aws_filter) :=
  parseAWSFilters (param params "filters").

(** [arnOrName]: the ARN list and the name list of an ELBv2 input. *)
Definition arnOrName (id : string) : list string * list string :=
  if has_prefix "arn:" id then ([id], []) else ([], [id]).

(** [cloudTrailAttributes]: at most one attribute, with one value and a known
    key. The key set is the SDK's enumeration. *)
Definition cloudTrailAttributeKeys (known : list string) : list string := sort_strings known.

Definition cloudTrailAttributes (known : list string) (raw : string) : res (list aws_filter) :=
  let? filters := parseAWSFilters raw in
  match filters with
  | [] => Ok []
  | [flt] =>
      match flt.(f_values) with
      | [value] =>
          if negb (contains known flt.(f_name)) then
            Err (EText ("unknown cloudtrail-events filter " +:+ quoted flt.(f_name)
                        +:+ ", must be one of: " +:+ join ", " (cloudTrailAttributeKeys known)))
          else Ok [ {| f_name := flt.(f_name); f_values := [value] |} ]
      | vs => Err (EText ("cloudtrail-events filter " +:+ quoted flt.(f_name)
                          +:+ " accepts a single value, got " +:+ dec (Z.of_nat (length vs))))
      end
  | _ => Err (EText ("cloudtrail-events accepts a single filter, got "
                     +:+ dec (Z.of_nat (length filters))))
  end.

(** ** Reference semantics of a filter expression *)

(** The non-empty entries of the comma-separated list. *)
Definition filter_entries (raw : string) : list string :=
  filter (λ p, p ≠ "") (trim_space <$> split_char ","%char raw).

(** Each distinct name, in sorted order, with its values in order of appearance. *)
Definition values_of (pairs : list (string * string)) (name : string) : list string :=
  (filter (λ nv, nv.1 = name) pairs).*2.
Definition meaning (pairs : list (string * string)) : list aws_filter :=
  (λ name, {| f_name := name; f_values := values_of pairs name |})
    <$> sort_strings (remove_dups pairs.*1).

Lemma filter_loop_pairs raws st :
  filter_loop raws st =
  let? pairs := res_each parse_pair (filter (λ p, p ≠ "") (trim_space <$> raws)) in
  Ok (foldl filter_add st pairs).
Proof.
  revert st. induction raws as [|p raws IH]; intros st; [done|].
  cbn [filter_loop fmap list_fmap]. rewrite filter_cons. unfold is_empty.
  destruct (decide (trim_space p = "")) as [E|E].
  - rewrite bool_decide_eq_true_2, decide_False by (done || tauto). apply IH.
  - rewrite bool_decide_eq_false_2, decide_True by done. simpl.
    destruct (parse_pair (trim_space p)) as [nv|e]; [|done]. simpl. rewrite IH.
    by destruct (res_each _ _).
Qed.

(** What the two accumulators hold after a run of pairs. *)
Definition accumulated (st : filter_state) (pairs : list (string * string)) : Prop :=
  (∀ name, st.(fs_values) !! name
           = if bool_decide (name ∈ pairs.*1) then Some (values_of pairs name) else None)
  ∧ NoDup st.(fs_names)
  ∧ (∀ name, name ∈ st.(fs_names) ↔ name ∈ pairs.*1).

Lemma values_of_snoc pairs name value k :
  values_of (pairs ++ [(name, value)]) k
  = values_of pairs k ++ (if bool_decide (name = k) then [value] else []).
Proof.
  unfold values_of. rewrite filter_app, fmap_app. f_equal. rewrite filter_cons. simpl.
  case_bool_decide; [by rewrite decide_True|by rewrite decide_False].
Qed.

Lemma values_of_absent pairs k : k ∉ pairs.*1 → values_of pairs k = [].
Proof.
  intros Hk. unfold values_of. induction pairs as [|[n v] ps IH]; [done|].
  rewrite filter_cons. simpl in *. rewrite decide_False by set_solver. apply IH. set_solver.
Qed.

Lemma accumulated_add st pairs nv :
  accumulated st pairs → accumulated (filter_add st nv) (pairs ++ [nv]).
Proof.
  destruct nv as [name value]. intros (Hv & Hnd & Hn). unfold accumulated. simpl.
  split; [|split].
  - intros k. rewrite values_of_snoc, fmap_app. simpl. destruct (decide (name = k)) as [->|Hne].
    + rewrite lookup_insert_eq, !bool_decide_eq_true_2 by set_solver. f_equal.
      rewrite Hv. case_bool_decide; simpl; [done|]. by rewrite values_of_absent.
    + rewrite lookup_insert_ne, Hv, (bool_decide_eq_false_2 (name = k)), app_nil_r by done.
      erewrite bool_decide_ext; [done|]. set_solver.
  - specialize (Hv name). destruct (fs_values st !! name); [done|].
    apply NoDup_app. split; [done|]. split; [|apply NoDup_singleton].
    intros k Hk Hk'. apply list_elem_of_singleton in Hk' as ->. apply Hn in Hk.
    rewrite bool_decide_eq_true_2 in Hv; done.
  - intros k. specialize (Hv name). rewrite fmap_app. simpl.
    destruct (fs_values st !! name); [|set_solver].
    rewrite Hn. split; [set_solver|]. intros [?|Hk]%elem_of_app; [done|].
    apply list_elem_of_singleton in Hk as ->. case_bool_decide; done.
Qed.

Lemma accumulated_fold pairs st done :
  accumulated st done → accumulated (foldl filter_add st pairs) (done ++ pairs).
Proof.
  revert st done. induction pairs as [|nv ps IH]; intros st d Hacc; simpl.
  - by rewrite app_nil_r.
  - replace (d ++ nv :: ps) with ((d ++ [nv]) ++ ps) by (by rewrite <- app_assoc).
    apply IH. by apply accumulated_add.
Qed.

Lemma accumulated_empty : accumulated {| fs_values := ∅; fs_names := [] |} [].
Proof. split; [done|]. split; [constructor|done]. Qed.

Lemma names_sorted st pairs :
  accumulated st pairs → sort_strings st.(fs_names) = sort_strings (remove_dups pairs.*1).
Proof.
  intros (_ & Hnd & Hn). apply sort_strings_canonical, NoDup_Permutation; [done|apply NoDup_remove_dups|].
  intros k. by rewrite elem_of_remove_dups.
Qed.

(** The accumulator loop is the reference semantics. *)
Lemma parseAWSFilters_eq raw :
  parseAWSFilters raw =
  if is_blank raw then Ok []
  else
    let? pairs := res_each parse_pair (filter_entries raw) in
    if bool_decide (pairs = [])
    then Err (EText ("invalid filters " +:+ quoted raw +:+ ": no Name=Value pairs found"))
    else Ok (meaning pairs).
Proof.
  unfold parseAWSFilters. destruct (is_blank raw); [done|].
  rewrite filter_loop_pairs. unfold filter_entries.
  destruct (res_each _ _) as [pairs|e]; [|done]. simpl.
  pose proof (accumulated_fold pairs _ [] accumulated_empty) as Hacc. simpl in Hacc.
  rewrite (names_sorted _ _ Hacc). destruct Hacc as (Hv & _ & Hn).
  destruct pairs as [|p ps] eqn:Hp; [done|]. rewrite <- Hp in *.
  rewrite !bool_decide_eq_false_2.
  - f_equal. apply list_fmap_ext. intros i name Hi. rewrite Hv, bool_decide_eq_true_2; [done|].
    apply elem_of_remove_dups, elem_of_sort_strings. by eapply list_elem_of_lookup_2.
  - by rewrite Hp.
  - intros E. specialize (Hn p.1). rewrite E, Hp in Hn. set_solver.
Qed.

(** [parseAWSFilters] computes the meaning of the expression: a blank one is
    no filter; otherwise every entry must be Name=Value with a name (the first
    bad entry is reported), there must be at least one, and the result lists each
    name once, sorted, with its values in order of appearance. *)
Theorem parseAWSFilters_spec raw :
  parseAWSFilters raw =
  if is_blank raw then Ok []
  else
    let? pairs := res_each parse_pair (filter_entries raw) in
    if bool_decide (pairs = [])
    then Err (EText ("invalid filters " +:+ quoted raw +:+ ": no Name=Value pairs found"))
    else Ok (meaning pairs).
Proof. apply parseAWSFilters_eq. Qed.

Example parseAWSFilters_example :
  parseAWSFilters " b=2 ,a=1,, b = 3" =
  Ok [ {| f_name := "a"; f_values := ["1"] |}; {| f_name := "b"; f_values := ["2"; "3"] |} ].
Proof. vm_compute. reflexivity. Qed.

(** A CloudTrail lookup is never sent an attribute the service would refuse:
    an accepted expression gives no attribute or exactly one, with one value and
    a key of the enumeration, and only the blank expression gives none. *)
Theorem cloudTrailAttributes_spec known raw attrs :
  cloudTrailAttributes known raw = Ok attrs →
  (attrs = [] ∧ is_blank raw = true)
  ∨ ∃ name value, attrs = [ {| f_name := name; f_values := [value] |} ] ∧ name ∈ known
                  ∧ parseAWSFilters raw = Ok attrs.
Proof.
  unfold cloudTrailAttributes. intros (fs & Hfs & H)%res_bind_ok.
  destruct fs as [|f [|f' fs]]; simplify_eq/=.
  - left. split; [done|]. rewrite parseAWSFilters_eq in Hfs.
    destruct (is_blank raw); [done|]. apply res_bind_ok in Hfs as (ps & _ & Hps).
    case_bool_decide as Hne; simplify_eq. unfold meaning in Hps.
    destruct ps as [|p ps]; [done|]. exfalso.
    assert (p.1 ∈ sort_strings (remove_dups (p :: ps).*1)) as Hin.
    { apply elem_of_sort_strings, elem_of_remove_dups. by left. }
    destruct (sort_strings _); [by inversion Hin|done].
  - right. destruct f as [name vs]; simpl in *. destruct vs as [|v [|v' vs]]; try done.
    destruct (contains known name) eqn:Hc; simpl in H; simplify_eq.
    apply contains_true in Hc. eauto 10.
Qed.

Lemma cloudTrailAttributes_spec_witness :
  cloudTrailAttributes ["EventName"; "Username"] "EventName=RunInstances"
    = Ok [ {| f_name := "EventName"; f_values := ["RunInstances"] |} ]
  ∧ ([ {| f_name := "EventName"; f_values := ["RunInstances"] |} ] = []
       ∧ is_blank "EventName=RunInstances" = true
     ∨ ∃ name value,
        [ {| f_name := "EventName"; f_values := ["RunInstances"] |} ]
        = [ {| f_name := name; f_values := [value] |} ]
        ∧ name ∈ ["EventName"; "Username"]
        ∧ parseAWSFilters "EventName=RunInstances"
          = Ok [ {| f_name := "EventName"; f_values := ["RunInstances"] |} ]).
Proof.
  split; [vm_compute; reflexivity|].
  apply (cloudTrailAttributes_spec ["EventName"; "Username"] "EventName=RunInstances").
  vm_compute. reflexivity.
Defined.
