(* ===== verification/AwsGet.v ===== *)
(** internal/actions/aws_get.go and its reads: aws_ec2.go, aws_elb.go,
    aws_cloudtrail.go, aws_route53.go, and [awsResourcesFrom] of actions.go.

    The SDK is a parameter ([AwsSdk]): how it marshals an object, the CloudTrail
    key enumeration, and [page_budget], the number of pages a read can fetch
    before the execution's deadline cancels its context. A loop that runs out of
    it ends with the context's error. *)

From S2P Require Import Prelude GoString Json Env Actions AwsFilters.
From Stdlib Require Import Ascii.

Class AwsSdk := {
  aws_marshal : object → res string;
  lookup_attribute_keys : list string;
  page_budget : nat }.

(** [time.ParseDuration], in nanoseconds. *)
Class GoDuration := parse_duration : string → res Z.

Definition second_ns : Z := 1000000000.
Definition minute_ns : Z := 60 * second_ns.
Definition hour_ns : Z := 60 * minute_ns.

Definition cloudTrailLookbackDefault : Z := 2 * hour_ns.
Definition CloudTrailLookbackMax : Z := 7 * 24 * hour_ns.

Section aws_get.
Context `{Env} `{GoJson} `{AwsSdk} `{GoDuration}.

(** [awsResourcesFrom]. *)
Definition aws_resource_from (o : object) : res object :=
  let? raw := wrap_err "failed to serialize AWS object" (aws_marshal o) in
  let? resource := wrap_err "failed to convert AWS object"
    (let? v := json_unmarshal raw in
     match v with
     | JObj o => Ok o | JNull => Ok []
     | _ => Err (EText "json: cannot unmarshal")
     end) in
  Ok (pruneUnset resource).
Definition awsResourcesFrom (objects : list object) : res (list object) :=
  res_each aws_resource_from objects.

(** Using a nil service client is a nil dereference. *)
Definition with_client {A} (c : option aws_config) (k : aws_config → W (res A)) : W (res A) :=
  match c with Some h => k h | None => ret (Err EPanic) end.

(** [for paginator.HasMorePages() { page, err := paginator.NextPage(ctx); ... }]:
    a paginator has a first page, and then as many as the service says. *)
Fixpoint paginate (fuel : nat) (h : aws_config) (input : page_input) (msg : string)
    (page : nat) (acc : list object) : W (res (list object)) :=
  match fuel with
  | O => ret (Err (EWrap msg (ESentinel ErrDeadline)))
  | S fuel' =>
      do? (items, more) <- wrap_errM msg (perform (CAwsPage h input page));
      if more then paginate fuel' h input msg (S page) (acc ++ items)
      else ret (Ok (acc ++ items))
  end.

Definition read_pages (h : aws_config) (input : page_input) (msg : string) : W (res (list object)) :=
  paginate page_budget h input msg 0 [].

(** ** aws_ec2.go: each read sets its own id field and shares the filters. *)

Definition ec2_input (op idField : string) (req : AWSActionRequest) : res page_input :=
  let? filters := ec2Filters req.(ar_params) in
  let id := req.(ar_target).(at_id) in
  Ok {| pi_operation := op;
        pi_ids := if negb (is_empty id) then [(idField, [id])] else [];
        pi_filters := filters; pi_start := None |}.

Definition in_region (what : string) (req : AWSActionRequest) : string :=
  what +:+ " in " +:+ req.(ar_target).(at_region).

(** The instances inside a reservation object. *)
Definition reservation_instances (reservation : object) : list object :=
  omap as_obj (default [] (as_arr (oget_nil reservation "Instances"))).

Definition describeEC2Instances (clients : Clients) (req : AWSActionRequest) : W (res (list object)) :=
  do? input <- ret (ec2_input "DescribeInstances" "InstanceIds" req);
  with_client clients.(c_EC2) (λ h,
    do? reservations <- read_pages h input (in_region "failed to describe EC2 instances" req);
    ret (awsResourcesFrom (flat_map reservation_instances reservations))).

Definition describeEC2SecurityGroups (clients : Clients) (req : AWSActionRequest) : W (res (list object)) :=
  do? input <- ret (ec2_input "DescribeSecurityGroups" "GroupIds" req);
  with_client clients.(c_EC2) (λ h,
    do? groups <- read_pages h input (in_region "failed to describe EC2 security groups" req);
    ret (awsResourcesFrom groups)).

Definition describeEC2Subnets (clients : Clients) (req : AWSActionRequest) : W (res (list object)) :=
  do? input <- ret (ec2_input "DescribeSubnets" "SubnetIds" req);
  with_client clients.(c_EC2) (λ h,
    do? subnets <- read_pages h input (in_region "failed to describe EC2 subnets" req);
    ret (awsResourcesFrom subnets)).

Definition describeEC2RouteTables (clients : Clients) (req : AWSActionRequest) : W (res (list object)) :=
  do? input <- ret (ec2_input "DescribeRouteTables" "RouteTableIds" req);
  with_client clients.(c_EC2) (λ h,
    do? tables <- read_pages h input (in_region "failed to describe EC2 route tables" req);
    ret (awsResourcesFrom tables)).

Definition describeEC2Vpcs (clients : Clients) (req : AWSActionRequest) : W (res (list object)) :=
  do? input <- ret (ec2_input "DescribeVpcs" "VpcIds" req);
  with_client clients.(c_EC2) (λ h,
    do? vpcs <- read_pages h input (in_region "failed to describe EC2 VPCs" req);
    ret (awsResourcesFrom vpcs)).

Definition describeEC2DhcpOptions (clients : Clients) (req : AWSActionRequest) : W (res (list object)) :=
  do? input <- ret (ec2_input "DescribeDhcpOptions" "DhcpOptionsIds" req);
  with_client clients.(c_EC2) (λ h,
    do? options <- read_pages h input (in_region "failed to describe EC2 DHCP options" req);
    ret (awsResourcesFrom options)).

(** ** aws_elb.go *)

(** The ids an ELBv2 input gets from [arnOrName]. *)
Definition elbv2_ids (arnField : string) (id : string) : list (string * list string) :=
  if negb (is_empty id) then
    let '(arns, names) := arnOrName id in [(arnField, arns); ("Names", names)]
  else [].

Definition describeLoadBalancers (clients : Clients) (req : AWSActionRequest) : W (res (list object)) :=
  let input := {| pi_operation := "elbv2.DescribeLoadBalancers";
                  pi_ids := elbv2_ids "LoadBalancerArns" req.(ar_target).(at_id);
                  pi_filters := []; pi_start := None |} in
  with_client clients.(c_ELBv2) (λ h,
    do? balancers <- read_pages h input (in_region "failed to describe load balancers" req);
    ret (awsResourcesFrom balancers)).

Definition describeClassicLoadBalancers (clients : Clients) (req : AWSActionRequest) : W (res (list object)) :=
  let id := req.(ar_target).(at_id) in
  let input := {| pi_operation := "elb.DescribeLoadBalancers";
                  pi_ids := if negb (is_empty id) then [("LoadBalancerNames", [id])] else [];
                  pi_filters := []; pi_start := None |} in
  with_client clients.(c_ELB) (λ h,
    do? balancers <- read_pages h input (in_region "failed to describe classic load balancers" req);
    ret (awsResourcesFrom balancers)).

Definition describeTargetGroups (clients : Clients) (req : AWSActionRequest) : W (res (list object)) :=
  let input := {| pi_operation := "elbv2.DescribeTargetGroups";
                  pi_ids := elbv2_ids "TargetGroupArns" req.(ar_target).(at_id);
                  pi_filters := []; pi_start := None |} in
  with_client clients.(c_ELBv2) (λ h,
    do? groups <- read_pages h input (in_region "failed to describe target groups" req);
    ret (awsResourcesFrom groups)).

Definition describeTargetHealth (clients : Clients) (req : AWSActionRequest) : W (res (list object)) :=
  with_client clients.(c_ELBv2) (λ h,
    do? out <- wrap_errM (in_region ("failed to describe target health for " +:+ req.(ar_target).(at_id)) req)
      (perform (CTargetHealth h req.(ar_target).(at_id)));
    ret (awsResourcesFrom out)).

(** ** aws_cloudtrail.go *)

Definition parse_lookback (params : strmap) : res Z :=
  let raw := trim_space (param params "since") in
  if is_empty raw then Ok cloudTrailLookbackDefault
  else
    let? parsed := wrap_err ("invalid since " +:+ quoted raw
                             +:+ ": expected a duration such as 30m, 2h or 48h") (parse_duration raw) in
    if parsed <=? 0 then Err (EText ("invalid since " +:+ quoted raw +:+ ": must be positive"))
    else if CloudTrailLookbackMax <? parsed then
      Err (EText ("invalid since " +:+ quoted raw +:+ ": the longest supported lookback is 168h0m0s"))
    else Ok parsed.

Definition lookupCloudTrailEvents (clients : Clients) (req : AWSActionRequest) : W (res (list object)) :=
  do? lookback <- ret (parse_lookback req.(ar_params));
  do? attributes <- ret (cloudTrailAttributes lookup_attribute_keys (param req.(ar_params) "filters"));
  do now <- perform CNow;
  let input := {| pi_operation := "LookupEvents"; pi_ids := []; pi_filters := attributes;
                  pi_start := Some (now - lookback) |} in
  with_client clients.(c_CloudTrail) (λ h,
    do? events <- read_pages h input (in_region "failed to look up CloudTrail events" req);
    ret (awsResourcesFrom events)).

(** ** aws_route53.go *)

Definition describeHostedZones (clients : Clients) (req : AWSActionRequest) : W (res (list object)) :=
  with_client clients.(c_Route53) (λ h,
    do? zones <- read_pages h (plain_input "ListHostedZones") "failed to list Route 53 hosted zones";
    ret (awsResourcesFrom zones)).

Fixpoint record_sets_loop (fuel : nat) (h : aws_config) (zone : string) (cursor : record_cursor)
    (acc : list object) : W (res (list object)) :=
  let msg := "failed to list Route 53 record sets in zone " +:+ zone in
  match fuel with
  | O => ret (Err (EWrap msg (ESentinel ErrDeadline)))
  | S fuel' =>
      do? out <- wrap_errM msg (perform (CRecordSets h zone cursor));
      let acc := acc ++ out.(rp_records) in
      if negb out.(rp_truncated) then ret (Ok acc)
      else record_sets_loop fuel' h zone out.(rp_next) acc
  end.

Definition describeRecordSets (clients : Clients) (req : AWSActionRequest) : W (res (list object)) :=
  with_client clients.(c_Route53) (λ h,
    do? records <- record_sets_loop page_budget h req.(ar_target).(at_id)
                     (Build_record_cursor None None None) [];
    ret (awsResourcesFrom records)).

(** ** The registry of readable resources (aws_get.go) *)

Inductive awsIDSupport := awsIDOptional | awsIDRequired | awsIDUnsupported.

#[local] Instance awsIDSupport_eq_dec : EqDecision awsIDSupport.
Proof. solve_decision. Defined.

Record awsResourceDescriptor := {
  d_service : string;
  d_describe : Clients → AWSActionRequest → W (res (list object));
  d_id : awsIDSupport;
  d_idDescription : string;
  d_params : list string }.

Definition awsTargetParams : list string := ["resource"; "id"].

Definition awsResources : gmap string awsResourceDescriptor :=
  list_to_map
    [ ("ec2-instances", Build_awsResourceDescriptor ServiceEC2 describeEC2Instances awsIDOptional "" ["filters"]);
      ("ec2-security-groups", Build_awsResourceDescriptor ServiceEC2 describeEC2SecurityGroups awsIDOptional "" ["filters"]);
      ("ec2-subnets", Build_awsResourceDescriptor ServiceEC2 describeEC2Subnets awsIDOptional "" ["filters"]);
      ("ec2-route-tables", Build_awsResourceDescriptor ServiceEC2 describeEC2RouteTables awsIDOptional "" ["filters"]);
      ("ec2-vpcs", Build_awsResourceDescriptor ServiceEC2 describeEC2Vpcs awsIDOptional "" ["filters"]);
      ("ec2-dhcp-options", Build_awsResourceDescriptor ServiceEC2 describeEC2DhcpOptions awsIDOptional "" ["filters"]);
      ("load-balancers", Build_awsResourceDescriptor ServiceELBv2 describeLoadBalancers awsIDOptional "" []);
      ("load-balancers-classic", Build_awsResourceDescriptor ServiceELB describeClassicLoadBalancers awsIDOptional "" []);
      ("target-groups", Build_awsResourceDescriptor ServiceELBv2 describeTargetGroups awsIDOptional "" []);
      ("target-health", Build_awsResourceDescriptor ServiceELBv2 describeTargetHealth awsIDRequired
         "the ARN of the target group whose targets to report on" []);
      ("cloudtrail-events", Build_awsResourceDescriptor ServiceCloudTrail lookupCloudTrailEvents awsIDUnsupported "" ["filters"; "since"]);
      ("route53-hosted-zones", Build_awsResourceDescriptor ServiceRoute53 describeHostedZones awsIDUnsupported "" []);
      ("route53-record-sets", Build_awsResourceDescriptor ServiceRoute53 describeRecordSets awsIDRequired
         "the ID of the hosted zone whose records to list" []) ].

(** [AWSResourceNames]. *)
Definition AWSResourceNames : list string := sort_strings (map_to_list awsResources).*1.

(** [validate]: the id rules, then the first unknown param in sorted order. *)
Definition nonblank_params (params : strmap) : list string :=
  sort_strings (filter (λ kv : string * string, is_blank kv.2 = false) (map_to_list params)).*1.

Definition param_accepted (d : awsResourceDescriptor) (name : string) : bool :=
  contains awsTargetParams name || contains d.(d_params) name.

Definition validate (d : awsResourceDescriptor) (req : AWSActionRequest) : res unit :=
  let t := req.(ar_target) in
  if bool_decide (d.(d_id) = awsIDRequired) && is_empty t.(at_id) then
    Err (EText ("resource " +:+ quoted t.(at_resource) +:+ " requires an id: " +:+ d.(d_idDescription)))
  else if bool_decide (d.(d_id) = awsIDUnsupported) && negb (is_empty t.(at_id)) then
    Err (EText ("resource " +:+ quoted t.(at_resource) +:+ " cannot be read by id, only listed"))
  else
    match List.filter (λ name, negb (param_accepted d name)) (nonblank_params req.(ar_params)) with
    | [] => Ok tt
    | name :: _ =>
        let accepted := match d.(d_params) with
                        | [] => "it accepts no params"
                        | ps => "it accepts: " +:+ join ", " ps
                        end in
        Err (EText ("resource " +:+ quoted t.(at_resource) +:+ " does not accept the " +:+ quoted name
                    +:+ " param, " +:+ accepted))
    end.

(** [message]. *)
Definition read_message (d : awsResourceDescriptor) (req : AWSActionRequest) (count : Z) : string :=
  let t := req.(ar_target) in
  if bool_decide (d.(d_id) = awsIDRequired) then
    "listed " +:+ dec count +:+ " " +:+ t.(at_resource) +:+ " for " +:+ t.(at_id) +:+ " in " +:+ t.(at_region)
  else if negb (is_empty t.(at_id)) then
    "got " +:+ t.(at_resource) +:+ "/" +:+ t.(at_id) +:+ " in " +:+ t.(at_region)
  else "listed " +:+ dec count +:+ " " +:+ t.(at_resource) +:+ " in " +:+ t.(at_region).

Definition awsget_requiredServices (t : AWSTarget) : list string :=
  match awsResources !! t.(at_resource) with
  | None => []
  | Some d => [d.(d_service)]
  end.

Definition awsget_execute (clients : Clients) (req : AWSActionRequest) : W (res ActionResult) :=
  match awsResources !! req.(ar_target).(at_resource) with
  | None =>
      ret (Err (EText ("unknown AWS resource " +:+ quoted req.(ar_target).(at_resource)
                       +:+ ", must be one of: " +:+ join ", " AWSResourceNames)))
  | Some d =>
      do? _ <- ret (validate d req);
      do? resources <- d.(d_describe) clients req;
      ret (Ok {| ar_resources := Some resources;
                 ar_message := read_message d req (Z.of_nat (length resources)) |})
  end.

Definition AWSGetAction : AWSAction :=
  {| aa_name := "aws-get"; aa_requiredServices := awsget_requiredServices;
     aa_execute := awsget_execute |}.

(** ** Reads over several pages

    A service that serves [pages] of an input in order and then [last]: either
    the last page or an error. *)

Definition page_calls (h : aws_config) (input : page_input) (from n : nat) : list call :=
  CAwsPage h input <$> seq from n.

Definition serves_pages (h : aws_config) (input : page_input) (from : nat)
    (pages : list (list object)) (last : res (list object)) : Prop :=
  (∀ hist i items, pages !! i = Some items →
     respond hist (CAwsPage h input (from + i)) = Ok (items, true))
  ∧ (∀ hist, respond hist (CAwsPage h input (from + length pages))
             = res_map (λ items, (items, false)) last).

Lemma serves_pages_cons h input from p pages last :
  serves_pages h input from (p :: pages) last →
  (∀ hist, respond hist (CAwsPage h input from) = Ok (p, true))
  ∧ serves_pages h input (S from) pages last.
Proof.
  intros [Hp Hl]. split.
  - intros hist. specialize (Hp hist O p eq_refl). by rewrite Nat.add_0_r in Hp.
  - split.
    + intros hist i items Hi. rewrite Nat.add_succ_comm. by apply Hp.
    + intros hist. rewrite Nat.add_succ_comm. apply Hl.
Qed.

Lemma paginate_serves fuel h input msg from acc pages last w :
  serves_pages h input from pages last →
  (length pages < fuel)%nat →
  paginate fuel h input msg from acc w
  = (res_map (λ items, acc ++ concat pages ++ items) (wrap_err msg last),
     World (w.(w_calls) ++ page_calls h input from (S (length pages))) w.(w_cache)).
Proof.
  revert fuel from acc w. induction pages as [|p pages IH]; intros fuel from acc w Hs Hf;
    (destruct fuel as [|fuel]; [simpl in Hf; lia|]); cbn [paginate].
  - destruct Hs as [_ Hl]. specialize (Hl w.(w_calls)). simpl in Hl. rewrite Nat.add_0_r in Hl.
    unfold bind_res, wrap_errM, bind, perform, ret. rewrite Hl. by destruct last.
  - apply serves_pages_cons in Hs as [Hp Hs].
    unfold bind_res, wrap_errM, bind, perform at 1, ret at 1. rewrite Hp. simpl.
    rewrite (IH fuel (S from) (acc ++ p) _ Hs) by (simpl in Hf; lia). simpl. f_equal.
    + destruct last; simpl; [|done]. by rewrite <- !app_assoc.
    + by rewrite <- app_assoc.
Qed.

Lemma paginate_deadline fuel h input msg from acc pages last w :
  serves_pages h input from pages last →
  (fuel ≤ length pages)%nat →
  paginate fuel h input msg from acc w
  = (Err (EWrap msg (ESentinel ErrDeadline)), World (w.(w_calls) ++ page_calls h input from fuel) w.(w_cache)).
Proof.
  revert from acc pages w. induction fuel as [|fuel IH]; intros from acc pages w Hs Hf; cbn [paginate].
  { unfold ret, page_calls. rewrite app_nil_r. by destruct w. }
  destruct pages as [|p pages]; simpl in Hf; [lia|]. apply serves_pages_cons in Hs as [Hp Hs].
  unfold bind_res, wrap_errM, bind, perform at 1, ret at 1. rewrite Hp. simpl.
  rewrite (IH (S from) (acc ++ p) pages) by (done || lia). simpl. by rewrite <- app_assoc.
Qed.

(** The same for the record-set cursor: the pages' next cursors chain. *)
Fixpoint serves_records (h : aws_config) (zone : string) (cursor : record_cursor)
    (pages : list (list object * record_cursor)) (last : res (list object)) : Prop :=
  match pages with
  | [] => ∀ hist, match last with
                  | Ok records => ∃ next, respond hist (CRecordSets h zone cursor)
                                          = Ok (Build_record_page records false next)
                  | Err e => respond hist (CRecordSets h zone cursor) = Err e
                  end
  | (records, next) :: pages' =>
      (∀ hist, respond hist (CRecordSets h zone cursor) = Ok (Build_record_page records true next))
      ∧ serves_records h zone next pages' last
  end.

Definition cursors (start : record_cursor) (pages : list (list object * record_cursor))
  : list record_cursor := start :: pages.*2.

Lemma record_sets_serves fuel h zone cursor acc pages last w :
  serves_records h zone cursor pages last →
  (length pages < fuel)%nat →
  record_sets_loop fuel h zone cursor acc w
  = (res_map (λ records, acc ++ concat pages.*1 ++ records)
       (wrap_err ("failed to list Route 53 record sets in zone " +:+ zone) last),
     World (w.(w_calls) ++ (CRecordSets h zone <$> cursors cursor pages)) w.(w_cache)).
Proof.
  revert fuel cursor acc w. induction pages as [|[p next] pages IH]; intros fuel cursor acc w Hs Hf;
    (destruct fuel as [|fuel]; [simpl in Hf; lia|]); cbn [record_sets_loop].
  - specialize (Hs w.(w_calls)). unfold bind_res, wrap_errM, bind, perform, ret.
    destruct last as [records|e]; [destruct Hs as [next Hs]|]; rewrite Hs; done.
  - destruct Hs as [Hp Hs]. unfold bind_res, wrap_errM, bind, perform at 1, ret at 1.
    rewrite Hp. simpl. rewrite (IH fuel next (acc ++ p) _ Hs) by (simpl in Hf; lia). simpl. f_equal.
    + destruct last; simpl; [|done]. by rewrite <- !app_assoc.
    + by rewrite <- app_assoc.
Qed.

(** ** What a read needs and does *)

Definition client_for (clients : Clients) (service : string) : option aws_config :=
  if bool_decide (service = ServiceEC2) then clients.(c_EC2)
  else if bool_decide (service = ServiceELB) then clients.(c_ELB)
  else if bool_decide (service = ServiceELBv2) then clients.(c_ELBv2)
  else if bool_decide (service = ServiceCloudTrail) then clients.(c_CloudTrail)
  else if bool_decide (service = ServiceRoute53) then clients.(c_Route53)
  else None.

Definition aws_read (c : call) : Prop :=
  match c with
  | CNow | CAwsPage _ _ _ | CTargetHealth _ _ | CRecordSets _ _ _ => True
  | _ => False
  end.

(** Code that never dereferences nil. *)
Definition no_panic {A} (m : W (res A)) : Prop := ∀ w, (m w).1 ≠ Err EPanic.
Definition res_no_panic {A} (r : res A) : Prop := r ≠ Err EPanic.

Lemma no_panic_ret {A} (r : res A) : res_no_panic r → no_panic (ret r).
Proof. intros Hr w. exact Hr. Qed.
Lemma no_panic_bind {A B} (m : W (res A)) (k : A → W (res B)) :
  no_panic m → (∀ a, no_panic (k a)) → no_panic (bind_res m k).
Proof.
  intros Hm Hk w. unfold bind_res. specialize (Hm w).
  destruct (m w) as [[a|e] w']; [apply Hk|simpl in *; congruence].
Qed.
Lemma no_panic_bind_any {A B} (m : W A) (k : A → W (res B)) :
  (∀ a, no_panic (k a)) → no_panic (bind m k).
Proof. intros Hk w. unfold bind. destruct (m w) as [a w']. apply Hk. Qed.
Lemma no_panic_wrap {A} msg (m : W (res A)) : no_panic (wrap_errM msg m).
Proof. intros w. unfold wrap_errM, bind, ret. by destruct (m w) as [[a|e] w']. Qed.
Lemma res_no_panic_wrap {A} msg (r : res A) : res_no_panic (wrap_err msg r).
Proof. by destruct r. Qed.
Lemma res_no_panic_bind {A B} (r : res A) (k : A → res B) :
  res_no_panic r → (∀ a, res_no_panic (k a)) → res_no_panic (res_bind r k).
Proof. unfold res_no_panic. destruct r; simpl; [auto|congruence]. Qed.
Lemma res_no_panic_ok {A} (a : A) : res_no_panic (Ok a).
Proof. done. Qed.
Lemma res_no_panic_each {A B} (f : A → res B) l :
  (∀ a, res_no_panic (f a)) → res_no_panic (res_each f l).
Proof.
  intros Hf. induction l; simpl; [done|]. apply res_no_panic_bind; [done|].
  intros b. by apply res_no_panic_bind.
Qed.

Lemma parse_pair_no_panic entry : res_no_panic (parse_pair entry).
Proof. unfold parse_pair, res_no_panic. destruct (cut _ _) as [[??]|]; [|done]. by case_match. Qed.
Lemma parseAWSFilters_no_panic raw : res_no_panic (parseAWSFilters raw).
Proof.
  rewrite parseAWSFilters_eq. case_match; [done|]. apply res_no_panic_bind.
  - apply res_no_panic_each, parse_pair_no_panic.
  - intros ps. by case_bool_decide.
Qed.
Lemma cloudTrailAttributes_no_panic known raw : res_no_panic (cloudTrailAttributes known raw).
Proof.
  apply res_no_panic_bind; [apply parseAWSFilters_no_panic|].
  intros [|f [|? ?]]; [done| |done]. destruct (f_values f) as [|? [|? ?]]; [done| |done].
  by case_match.
Qed.
Lemma ec2_input_no_panic op idField req : res_no_panic (ec2_input op idField req).
Proof. apply res_no_panic_bind; [apply parseAWSFilters_no_panic|done]. Qed.
Lemma parse_lookback_no_panic params : res_no_panic (parse_lookback params).
Proof.
  unfold parse_lookback. case_match; [done|]. apply res_no_panic_bind; [apply res_no_panic_wrap|].
  intros z. by repeat case_match.
Qed.
Lemma awsResourcesFrom_no_panic objects : res_no_panic (awsResourcesFrom objects).
Proof.
  apply res_no_panic_each. intros o. apply res_no_panic_bind; [apply res_no_panic_wrap|].
  intros raw. apply res_no_panic_bind; [apply res_no_panic_wrap|done].
Qed.
Lemma paginate_no_panic fuel h input msg page acc : no_panic (paginate fuel h input msg page acc).
Proof.
  revert page acc. induction fuel as [|fuel IH]; intros page acc; [by apply no_panic_ret|].
  apply no_panic_bind; [apply no_panic_wrap|]. intros [items more]. destruct more; [apply IH|].
  by apply no_panic_ret.
Qed.
Lemma record_sets_no_panic fuel h zone cursor acc :
  no_panic (record_sets_loop fuel h zone cursor acc).
Proof.
  revert cursor acc. induction fuel as [|fuel IH]; intros cursor acc; [by apply no_panic_ret|].
  apply no_panic_bind; [apply no_panic_wrap|]. intros out. case_match; [by apply no_panic_ret|apply IH].
Qed.

Lemma paginate_reads fuel h input msg page acc : makes aws_read (paginate fuel h input msg page acc).
Proof.
  revert page acc. induction fuel as [|fuel IH]; intros page acc; [apply makes_ret|].
  cbn [paginate]. solve_makes.
Qed.
Lemma record_sets_reads fuel h zone cursor acc :
  makes aws_read (record_sets_loop fuel h zone cursor acc).
Proof.
  revert cursor acc. induction fuel as [|fuel IH]; intros cursor acc; [apply makes_ret|].
  cbn [record_sets_loop]. solve_makes.
Qed.

Hint Resolve no_panic_wrap parseAWSFilters_no_panic cloudTrailAttributes_no_panic ec2_input_no_panic
  parse_lookback_no_panic awsResourcesFrom_no_panic paginate_no_panic record_sets_no_panic
  res_no_panic_ok : go.
Hint Resolve paginate_reads record_sets_reads : makes.

(** What the registry relies on of a describe function: it reads only the client
    of the descriptor's service, makes read calls only, and does not dereference
    nil once it has that client. *)
Record describes (service : string) (f : Clients → AWSActionRequest → W (res (list object))) : Prop := {
  describes_agree : ∀ c1 c2 req, client_for c1 service = client_for c2 service → f c1 req = f c2 req;
  describes_reads : ∀ c req, makes aws_read (f c req);
  describes_safe : ∀ c req h, client_for c service = Some h → no_panic (f c req) }.

Ltac solve_no_panic :=
  repeat match goal with
  | |- no_panic (ret _) => apply no_panic_ret
  | |- no_panic (bind_res _ _) => apply no_panic_bind
  | |- no_panic (bind _ _) => apply no_panic_bind_any
  | |- ∀ _, no_panic _ => intro
  end; unfold read_pages; auto with go.

Ltac solve_describes f :=
  split; unfold client_for; simpl; unfold f, with_client;
  [ intros c1 c2 req Hc; by rewrite Hc
  | intros c req; unfold read_pages; solve_makes
  | intros c req h Hc; rewrite Hc; solve_no_panic ].

Lemma awsResources_describe r d :
  awsResources !! r = Some d → describes d.(d_service) d.(d_describe).
Proof.
  unfold awsResources. intros Hd%elem_of_list_to_map_2.
  repeat (apply elem_of_cons in Hd as [[= -> ->]|Hd]); try by inversion Hd.
  - solve_describes describeEC2Instances.
  - solve_describes describeEC2SecurityGroups.
  - solve_describes describeEC2Subnets.
  - solve_describes describeEC2RouteTables.
  - solve_describes describeEC2Vpcs.
  - solve_describes describeEC2DhcpOptions.
  - solve_describes describeLoadBalancers.
  - solve_describes describeClassicLoadBalancers.
  - solve_describes describeTargetGroups.
  - solve_describes describeTargetHealth.
  - solve_describes lookupCloudTrailEvents.
  - solve_describes describeHostedZones.
  - solve_describes describeRecordSets.
Qed.

(** *** What each paginated read asks for

    Its service, operation and ids, its filters and start time, whether it looks at the
    clock, its error message, and which objects the answers' items hold. *)
Record paged_read := {
  pg_service : string;
  pg_operation : string;
  pg_ids : string → list (string * list string);
  pg_filters : strmap → res (list aws_filter);
  pg_clock : bool;
  pg_start : strmap → Z → res (option Z);
  pg_failed : AWSActionRequest → string;
  pg_objects : list object → list object → Prop }.

Definition single_id (field id : string) : list (string * list string) :=
  if bool_decide (id = "") then [] else [(field, [id])].

(** The instances of reservations, in order. *)
Definition instances_of (reservations instances : list object) : Prop :=
  ∃ each, Forall2 (λ r os, oget_nil r "Instances" = JArr (JObj <$> os)) reservations each
    ∧ instances = concat each.

Definition ec2_read (operation field what : string) (objects : list object → list object → Prop) : paged_read :=
  {| pg_service := ServiceEC2; pg_operation := operation; pg_ids := single_id field; pg_filters := ec2Filters;
     pg_clock := false; pg_start := λ _ _, Ok None;
     pg_failed := λ req, "failed to describe " +:+ what +:+ " in " +:+ req.(ar_target).(at_region);
     pg_objects := objects |}.
Definition elb_read (service operation : string) (ids : string → list (string * list string))
    (what : string) : paged_read :=
  {| pg_service := service; pg_operation := operation; pg_ids := ids; pg_filters := λ _, Ok [];
     pg_clock := false; pg_start := λ _ _, Ok None;
     pg_failed := λ req, "failed to describe " +:+ what +:+ " in " +:+ req.(ar_target).(at_region);
     pg_objects := eq |}.

Definition paged_reads : list (string * paged_read) :=
  [ ("ec2-instances", ec2_read "DescribeInstances" "InstanceIds" "EC2 instances" instances_of);
    ("ec2-security-groups", ec2_read "DescribeSecurityGroups" "GroupIds" "EC2 security groups" eq);
    ("ec2-subnets", ec2_read "DescribeSubnets" "SubnetIds" "EC2 subnets" eq);
    ("ec2-route-tables", ec2_read "DescribeRouteTables" "RouteTableIds" "EC2 route tables" eq);
    ("ec2-vpcs", ec2_read "DescribeVpcs" "VpcIds" "EC2 VPCs" eq);
    ("ec2-dhcp-options", ec2_read "DescribeDhcpOptions" "DhcpOptionsIds" "EC2 DHCP options" eq);
    ("load-balancers", elb_read ServiceELBv2 "elbv2.DescribeLoadBalancers" (elbv2_ids "LoadBalancerArns")
       "load balancers");
    ("load-balancers-classic", elb_read ServiceELB "elb.DescribeLoadBalancers" (single_id "LoadBalancerNames")
       "classic load balancers");
    ("target-groups", elb_read ServiceELBv2 "elbv2.DescribeTargetGroups" (elbv2_ids "TargetGroupArns")
       "target groups");
    ("cloudtrail-events",
     {| pg_service := ServiceCloudTrail; pg_operation := "LookupEvents"; pg_ids := λ _, [];
        pg_filters := λ ps, cloudTrailAttributes lookup_attribute_keys (param ps "filters");
        pg_clock := true; pg_start := λ ps now, res_map (λ lookback, Some (now - lookback)) (parse_lookback ps);
        pg_failed := λ req, "failed to look up CloudTrail events in " +:+ req.(ar_target).(at_region);
        pg_objects := eq |});
    ("route53-hosted-zones",
     {| pg_service := ServiceRoute53; pg_operation := "ListHostedZones"; pg_ids := λ _, [];
        pg_filters := λ _, Ok []; pg_clock := false; pg_start := λ _ _, Ok None;
        pg_failed := λ _, "failed to list Route 53 hosted zones"; pg_objects := eq |}) ].

Lemma instances_flat reservations instances :
  instances_of reservations instances → flat_map reservation_instances reservations = instances.
Proof.
  intros (each & Hall & ->). induction Hall as [|r os rs oss Hr _ IH]; [done|]. simpl. rewrite IH.
  f_equal. unfold reservation_instances. rewrite Hr. simpl. clear. induction os as [|o os IH]; [done|].
  change (o :: omap as_obj (JObj <$> os) = o :: os). by rewrite IH.
Qed.

(** The world after a look at the clock, if the read has one. *)
Definition clocked (p : paged_read) (w : world) : world :=
  if p.(pg_clock) then World (w.(w_calls) ++ [CNow]) w.(w_cache) else w.

(** The read of a descriptor is the paginated one of the plan [p]. *)
Definition reads_pages (p : paged_read) (f : Clients → AWSActionRequest → W (res (list object))) : Prop :=
  ∃ flat, (∀ items objects, p.(pg_objects) items objects → flat items = objects)
    ∧ ∀ clients req h filters start w,
        client_for clients p.(pg_service) = Some h →
        p.(pg_filters) req.(ar_params) = Ok filters →
        p.(pg_start) req.(ar_params) (respond w.(w_calls) CNow) = Ok start →
        let input := {| pi_operation := p.(pg_operation); pi_ids := p.(pg_ids) req.(ar_target).(at_id);
                        pi_filters := filters; pi_start := start |} in
        f clients req w
        = (do? items <- read_pages h input (p.(pg_failed) req); ret (awsResourcesFrom (flat items)))
            (clocked p w).

Ltac solve_reads_pages f fl :=
  exists fl; (split; [try (intros ? ? <-; reflexivity); try apply instances_flat|]);
  intros clients req h filters start w Hc Hf Hs; simpl in Hc, Hf, Hs; injection Hs as <-;
  unfold f, ec2_input, clocked, with_client; simpl;
  try (rewrite Hf; simpl); try (injection Hf as <-);
  unfold client_for in Hc; simpl in Hc; unfold bind_res at 1; unfold ret at 1; rewrite ?Hc;
  unfold single_id, is_empty; by repeat case_bool_decide.

Lemma paged_reads_read r p :
  (r, p) ∈ paged_reads → ∃ d, awsResources !! r = Some d ∧ reads_pages p d.(d_describe).
Proof.
  unfold paged_reads. intros Hp.
  repeat (apply elem_of_cons in Hp as [[= -> ->]|Hp]; [eexists; split; [reflexivity|]|]); [..|by inversion Hp]; simpl.
  - solve_reads_pages describeEC2Instances (flat_map reservation_instances).
  - solve_reads_pages describeEC2SecurityGroups (λ l : list object, l).
  - solve_reads_pages describeEC2Subnets (λ l : list object, l).
  - solve_reads_pages describeEC2RouteTables (λ l : list object, l).
  - solve_reads_pages describeEC2Vpcs (λ l : list object, l).
  - solve_reads_pages describeEC2DhcpOptions (λ l : list object, l).
  - solve_reads_pages describeLoadBalancers (λ l : list object, l).
  - solve_reads_pages describeClassicLoadBalancers (λ l : list object, l).
  - solve_reads_pages describeTargetGroups (λ l : list object, l).
  - exists (λ l, l). split; [by intros ? ? <-|]. intros clients req h filters start w Hc Hf Hs.
    simpl in Hc, Hf, Hs. destruct (parse_lookback (ar_params req)) as [lookback|e] eqn:Hl; [|done].
    injection Hs as <-. unfold lookupCloudTrailEvents. unfold client_for in Hc. simpl in Hc.
    rewrite Hl, Hf. unfold bind_res at 1 2, ret at 1 2. unfold bind at 1, perform. unfold with_client.
    by rewrite Hc.
  - solve_reads_pages describeHostedZones (λ l : list object, l).
Qed.

(** A resource as it is shown: the object through the SDK's encoding, without what is
    unset. *)
Definition shown (o r : object) : Prop :=
  ∃ raw fields, aws_marshal o = Ok raw ∧ json_unmarshal raw = Ok (JObj fields) ∧ r = pruneUnset fields.

Lemma awsResourcesFrom_shown objects resources :
  Forall2 shown objects resources → awsResourcesFrom objects = Ok resources.
Proof.
  unfold awsResourcesFrom. induction 1 as [|o r objects resources (raw & fields & Hm & Hu & ->) _ IH]; [done|].
  simpl. unfold aws_resource_from at 1. by rewrite Hm, IH; simpl; rewrite Hu.
Qed.

(** C36: an aws-get of a paginated resource returns every page, in order, or no result.
    With the client of the resource's service, an accepted request and filters and a
    start time that parse, the read asks for one page after the other of the input the
    request describes. Against a service that serves some pages and then a last answer,
    it makes exactly one call per page; it returns the objects of all pages in order, each
    as it is shown, if all can be, or - when the last answer is an error - that error
    wrapped and no partial result. When there are more pages than the execution's deadline leaves time for it
    stops there, with the deadline as its error. *)
Theorem awsget_reads_every_page clients req p h filters start pages last w :
  (req.(ar_target).(at_resource), p) ∈ paged_reads →
  client_for clients p.(pg_service) = Some h →
  (∀ d, awsResources !! req.(ar_target).(at_resource) = Some d → validate d req = Ok tt) →
  p.(pg_filters) req.(ar_params) = Ok filters →
  p.(pg_start) req.(ar_params) (respond w.(w_calls) CNow) = Ok start →
  let input := {| pi_operation := p.(pg_operation); pi_ids := p.(pg_ids) req.(ar_target).(at_id);
                  pi_filters := filters; pi_start := start |} in
  serves_pages h input 0 pages last →
  let '(r, w') := awsget_execute clients req w in
  let read n := (clocked p w).(w_calls) ++ page_calls h input 0 n in
  ((length pages < page_budget)%nat → w'.(w_calls) = read (S (length pages))
     ∧ match last with
       | Ok items => ∀ objects resources, p.(pg_objects) (concat pages ++ items) objects →
           Forall2 shown objects resources → res_map ar_resources r = Ok (Some resources)
       | Err e => r = Err (EWrap (p.(pg_failed) req) e)
       end)
  ∧ ((page_budget ≤ length pages)%nat → w'.(w_calls) = read page_budget
     ∧ r = Err (EWrap (p.(pg_failed) req) (ESentinel ErrDeadline))).
Proof.
  intros (d & Hd & flat & Hflat & Hread)%paged_reads_read Hc Hv Hf Hst input Hs.
  unfold awsget_execute. rewrite Hd. unfold bind_res at 1, ret at 1. rewrite (Hv d Hd).
  unfold bind_res at 1. rewrite (Hread clients req h filters start w Hc Hf Hst). fold input.
  unfold bind_res at 1, read_pages.
  destruct (decide (length pages < page_budget)%nat) as [Hb|Hb].
  - rewrite (paginate_serves _ _ _ _ _ _ _ _ _ Hs Hb). destruct last as [items|e]; simpl.
    2: { split; [done|lia]. }
    unfold ret at 1. destruct (awsResourcesFrom _) as [resources|e] eqn:Hr; simpl; (split; [|lia]);
      intros _; (split; [done|]); intros objects resources' Ho%Hflat Hsh%awsResourcesFrom_shown;
      rewrite Ho, Hsh in Hr; by simplify_eq.
  - rewrite (paginate_deadline _ _ _ _ _ _ _ _ _ Hs) by lia. simpl. split; [lia|done].
Qed.

(** Listing a hosted zone follows the service's cursor to the end: each call
    starts at the record the previous answer named, the first at the zone's
    beginning, and the result holds the records of every page in order. *)
Theorem describeRecordSets_spec clients req h pages records w :
  clients.(c_Route53) = Some h →
  let zone := req.(ar_target).(at_id) in
  let start := Build_record_cursor None None None in
  serves_records h zone start pages (Ok records) →
  (length pages < page_budget)%nat →
  describeRecordSets clients req w
  = (awsResourcesFrom (concat pages.*1 ++ records),
     World (w.(w_calls) ++ (CRecordSets h zone <$> cursors start pages)) w.(w_cache)).
Proof.
  intros Hc zone start Hs Hb. unfold describeRecordSets, with_client. rewrite Hc.
  unfold bind_res. fold zone start. by rewrite (record_sets_serves _ _ _ _ _ _ _ _ Hs Hb).
Qed.

Lemma nonblank_params_elem params name :
  name ∈ nonblank_params params ↔ ∃ v, params !! name = Some v ∧ is_blank v = false.
Proof.
  unfold nonblank_params. rewrite elem_of_sort_strings, list_elem_of_fmap. split.
  - intros ([n v] & -> & [Hb Hin]%list_elem_of_filter). apply elem_of_map_to_list in Hin. eauto.
  - intros (v & Hv & Hb). exists (name, v). split; [done|]. apply list_elem_of_filter.
    split; [done|]. by apply elem_of_map_to_list.
Qed.

(** [validate] accepts a read exactly when the id is present where the
    resource requires one and absent where it cannot be read by id, and every
    param that carries a value is one the resource accepts - so no narrowing the
    caller asked for is ignored. *)
Theorem validate_spec d req :
  validate d req = Ok tt ↔
  (d.(d_id) = awsIDRequired → req.(ar_target).(at_id) ≠ "")
  ∧ (d.(d_id) = awsIDUnsupported → req.(ar_target).(at_id) = "")
  ∧ ∀ name v, req.(ar_params) !! name = Some v → is_blank v = false →
              name ∈ awsTargetParams ∨ name ∈ d.(d_params).
Proof.
  unfold validate, is_empty. set (id := at_id (ar_target req)).
  assert (List.filter (λ name, negb (param_accepted d name)) (nonblank_params (ar_params req)) = []
    ↔ ∀ name v, ar_params req !! name = Some v → is_blank v = false →
         name ∈ awsTargetParams ∨ name ∈ d_params d) as Hp.
  { split.
    - intros Hf name v Hv Hb. destruct (param_accepted d name) eqn:Ha.
      + unfold param_accepted in Ha. apply orb_true_iff in Ha as [Ha|Ha];
          apply contains_true in Ha; auto.
      + assert (In name (List.filter (λ name, negb (param_accepted d name))
                   (nonblank_params (ar_params req)))) as Hin.
        { apply List.filter_In. rewrite Ha. split; [|done].
          apply list_elem_of_In, nonblank_params_elem. eauto. }
        by rewrite Hf in Hin.
    - intros Ha. destruct (List.filter _ _) as [|name l] eqn:E; [done|]. exfalso.
      assert (In name (name :: l)) as Hin by (by left). rewrite <- E in Hin.
      apply List.filter_In in Hin as [(v & Hv & Hb)%list_elem_of_In%nonblank_params_elem Hn].
      specialize (Ha name v Hv Hb). unfold param_accepted in Hn.
      rewrite negb_true_iff, orb_false_iff, <- !not_true_iff_false, !contains_true in Hn. tauto. }
  rewrite <- Hp. clear Hp.
  destruct (d_id d); repeat case_bool_decide; simpl; try done;
    destruct (List.filter _ _); naive_solver.
Qed.

Lemma awsget_reads clients req : makes aws_read (awsget_execute clients req).
Proof.
  unfold awsget_execute. destruct (awsResources !! _) as [d|] eqn:Hd; [|solve_makes].
  destruct (awsResources_describe _ _ Hd) as [_ Hr _]. solve_makes.
Qed.

(** The clients [RequiredServices] names are all aws-get uses: with two sets
    of clients that agree on them it behaves the same, it makes read calls only,
    and when they are built it dereferences no nil client. *)
Theorem awsget_least_privilege c1 c2 req :
  (∀ service, service ∈ awsget_requiredServices req.(ar_target) →
     client_for c1 service = client_for c2 service ∧ is_Some (client_for c1 service)) →
  awsget_execute c1 req = awsget_execute c2 req
  ∧ makes aws_read (awsget_execute c1 req)
  ∧ no_panic (awsget_execute c1 req).
Proof.
  unfold awsget_requiredServices, awsget_execute. intros Hc.
  destruct (awsResources !! _) as [d|] eqn:Hd.
  - destruct (awsResources_describe _ _ Hd) as [Ha Hr Hs].
    destruct (Hc (d_service d)) as [Heq [h Hh]]; [by left|].
    split; [by rewrite (Ha _ _ _ Heq)|]. split; [solve_makes; apply Hr|].
    apply no_panic_bind.
    + apply no_panic_ret. unfold validate, res_no_panic. by repeat case_match.
    + intros _. apply no_panic_bind; [by eapply Hs|]. intros. by apply no_panic_ret.
  - split; [done|]. split; [solve_makes|]. by apply no_panic_ret.
Qed.

End aws_get.

(** ** A concrete environment *)
Module AwsGetExample.
Definition zone : aws_config := Build_aws_config "us-east-1" None None None.
Definition item (n : string) : object := [("Id", JStr n)].
Definition cur (n : string) : record_cursor := Build_record_cursor (Some n) (Some "A") None.

#[export] Instance sdk : AwsSdk :=
  {| aws_marshal := λ _, Ok "{}"; lookup_attribute_keys := ["EventName"]; page_budget := 10 |}.
#[export] Instance json_codec : GoJson :=
  {| json_unmarshal := λ _, Ok (JObj []); json_marshal := λ _, "{}" |}.
#[export] Instance duration : GoDuration := λ _, Ok hour_ns.

(** Three pages of any paginated read, and two pages of records. *)
#[export] Instance env : Env := λ _ c,
  match c return resp c with
  | CNow => 0 | CAudit _ => tt
  | CCreateTrustedAction _ _ _ => Err (EText "no") | CLoadKubeconfig _ => Err (EText "no")
  | CNewDynamic _ => None | CNewClientset _ => None
  | CKubeGet _ _ _ _ => Err (EText "no") | CKubeList _ _ _ _ _ => Err (EText "no")
  | CKubeDelete _ _ _ _ => None | CKubePatch _ _ _ _ _ => Err (EText "no")
  | CPodExec _ _ _ _ _ => Err (EText "no") | CLoadAwsConfig _ => None
  | CDescribeInstances _ _ => Ok []
  | CRebootInstances _ _ => None | CTerminateInstances _ _ => Ok []
  | CAwsPage _ _ 0 => Ok ([item "a"], true)
  | CAwsPage _ _ 1 => Ok ([item "b"; item "c"], true)
  | CAwsPage _ _ _ => Ok ([item "d"], false)
  | CTargetHealth _ _ => Ok []
  | CRecordSets _ _ start =>
      if bool_decide (rs_name start = None) then Ok (Build_record_page [item "r1"] true (cur "n"))
      else Ok (Build_record_page [item "r2"] false (cur ""))
  | CClusterSearch _ _ => Err (EText "no") | CCloudCredentials _ _ _ _ _ => inl ErrCanceled
  | CAccessReview _ _ _ _ => Ok None
  end.

Definition with_zone : Clients := Build_Clients None None None None (Some zone).
Definition zone_req : AWSActionRequest :=
  {| ar_target := Build_AWSTarget "us-east-1" "route53-record-sets" "Z1" ""; ar_params := ∅ |}.
End AwsGetExample.
Import AwsGetExample.

(** Two pages of reservations, one of them empty; an object is encoded as its id. *)
Module InstancesExample.
#[local] Instance id_sdk : AwsSdk :=
  {| aws_marshal := λ o, Ok (str_or_empty (oget_nil o "Id")); lookup_attribute_keys := []; page_budget := 10 |}.
#[local] Instance id_codec : GoJson :=
  {| json_unmarshal := λ s, Ok (JObj (item s)); json_marshal := λ _, "{}" |}.
Definition instance_pages (page : nat) : list object :=
  match page with
  | O => [[("Instances", JArr [JObj (item "i-1"); JObj (item "i-2")])]]
  | _ => [[("Instances", JArr [])]; [("Instances", JArr [JObj (item "i-3")])]]
  end.
#[local] Instance instances_env : Env := λ hist c,
  match c return resp c with
  | CAwsPage _ _ page => Ok (instance_pages page, bool_decide (page = 0%nat))
  | c => AwsGetExample.env hist c
  end.
Definition with_ec2 : Clients := Build_Clients (Some zone) None None None None.
Definition instances_req : AWSActionRequest :=
  {| ar_target := Build_AWSTarget "us-east-1" "ec2-instances" "" ""; ar_params := ∅ |}.
Lemma awsget_reads_every_page_witness :
  res_map ar_resources (awsget_execute with_ec2 instances_req fresh_world).1
  = Ok (Some [item "i-1"; item "i-2"; item "i-3"]).
Proof.
  destruct (awsget_reads_every_page with_ec2 instances_req
    (ec2_read "DescribeInstances" "InstanceIds" "EC2 instances" instances_of) zone [] None
    [instance_pages 0] (Ok (instance_pages 1)) fresh_world) as [Hr _].
  - by left.
  - reflexivity.
  - intros d Hd. injection Hd as <-. reflexivity.
  - reflexivity.
  - reflexivity.
  - split; [|intros hist; reflexivity].
    intros hist [|i] items Hi; simpl in Hi; simplify_eq; reflexivity.
  - destruct Hr as [_ Hr]; [simpl; lia|]. apply (Hr [item "i-1"; item "i-2"; item "i-3"]).
    + exists [[item "i-1"; item "i-2"]; []; [item "i-3"]]. split; [|reflexivity]. repeat constructor.
    + repeat constructor; do 2 eexists; repeat split; reflexivity.
Defined.
End InstancesExample.

Lemma describeRecordSets_spec_witness :
  describeRecordSets with_zone zone_req fresh_world
  = (Ok [[]; []], World [CRecordSets zone "Z1" (Build_record_cursor None None None);
                         CRecordSets zone "Z1" (cur "n")] ∅).
Proof.
  refine (describeRecordSets_spec with_zone zone_req zone [([item "r1"], cur "n")] [item "r2"]
            fresh_world eq_refl _ _).
  - split; [intros hist; reflexivity|]. intros hist. exists (cur ""). reflexivity.
  - simpl. lia.
Defined.

Lemma awsget_least_privilege_witness :
  awsget_execute with_zone zone_req = awsget_execute with_zone zone_req
  ∧ makes aws_read (awsget_execute with_zone zone_req)
  ∧ no_panic (awsget_execute with_zone zone_req).
Proof.
  apply (awsget_least_privilege with_zone with_zone zone_req).
  intros service Hs. split; [reflexivity|].
  change (service ∈ [ServiceRoute53]) in Hs. apply list_elem_of_singleton in Hs. subst.
  exists zone. reflexivity.
Defined.
