(* ===== verification/AwsWrite.v ===== *)
(** internal/actions/aws_write.go: aws-reboot and aws-terminate.

    [requireClusterInstance] is the ownership check; the theorem says that a
    mutating call is never made without it having passed for the very id that is
    changed. *)

From S2P Require Import Prelude GoString Json Env Actions AwsFilters AwsGet.

Definition awsWriteResourceInstances : string := "ec2-instances".
Definition clusterOwnershipTagValue : string := "owned".
Definition AWSOperationReboot : string := "reboot".
Definition AWSOperationTerminate : string := "terminate".

Definition clusterOwnershipTag (infraID : string) : string := "kubernetes.io/cluster/" +:+ infraID.

(** [aws.ToString]. *)
Definition to_string (s : option string) : string := default "" s.

(** The nested loops over reservations and instances: the inner [break] leaves
    only the inner loop, so a later reservation overwrites an earlier match. *)
Definition first_match (id : string) (instances : list ec2_instance) : option ec2_instance :=
  List.find (λ i, bool_decide (to_string i.(i_id) = id)) instances.
Fixpoint scan_reservations (id : string) (reservations : list (list ec2_instance))
    (found : option ec2_instance) : option ec2_instance :=
  match reservations with
  | [] => found
  | instances :: rest =>
      scan_reservations id rest
        (match first_match id instances with Some i => Some i | None => found end)
  end.

Definition tagged (tag : string) (i : ec2_instance) : bool :=
  existsb (λ kv, bool_decide (to_string kv.1 = tag)
                 && bool_decide (to_string kv.2 = clusterOwnershipTagValue)) i.(i_tags).

Section aws_write.
Context `{Env} `{GoJson} `{AwsSdk}.

(** The method call on a possibly nil client. *)
Definition deref (c : option aws_config) : res aws_config :=
  match c with Some h => Ok h | None => Err EPanic end.

Definition requireClusterInstance (clients : Clients) (t : AWSTarget) : W (res ec2_instance) :=
  if is_empty t.(at_id) then ret (Err (EText "an instance id is required"))
  else if is_empty t.(at_infraID) then
    ret (Err (EText ("cannot verify that instance " +:+ t.(at_id)
      +:+ " belongs to the cluster: no infrastructure ID is known for it")))
  else
    do? h <- ret (deref clients.(c_EC2));
    do? reservations <- wrap_errM ("failed to describe instance " +:+ t.(at_id) +:+ " in " +:+ t.(at_region))
      (perform (CDescribeInstances h [t.(at_id)]));
    match scan_reservations t.(at_id) reservations None with
    | None => ret (Err (EText ("instance " +:+ t.(at_id) +:+ " was not found in " +:+ t.(at_region))))
    | Some i =>
        let tag := clusterOwnershipTag t.(at_infraID) in
        if tagged tag i then ret (Ok i)
        else ret (Err (EText ("instance " +:+ t.(at_id) +:+ " does not belong to cluster "
               +:+ t.(at_infraID) +:+ ": it is not tagged " +:+ tag +:+ "=" +:+ clusterOwnershipTagValue)))
    end.

Definition write_requiredServices (_ : AWSTarget) : list string := [ServiceEC2].

Definition reboot_execute (clients : Clients) (req : AWSActionRequest) : W (res ActionResult) :=
  let t := req.(ar_target) in
  do? i <- requireClusterInstance clients t;
  do? h <- ret (deref clients.(c_EC2));
  do? _ <- wrap_errM ("failed to reboot instance " +:+ t.(at_id) +:+ " in " +:+ t.(at_region))
    (do e <- perform (CRebootInstances h [t.(at_id)]); ret (err_only e tt));
  do? resources <- ret (awsResourcesFrom [i.(i_json)]);
  ret (Ok {| ar_resources := Some resources;
             ar_message := "requested reboot of " +:+ t.(at_id) +:+ " in " +:+ t.(at_region) |}).

Definition stateChangeSuffix (changes : list state_change) : string :=
  match changes with
  | [] => ""
  | c :: _ =>
      match c.(sc_previous), c.(sc_current) with
      | Some p, Some q => " (" +:+ p +:+ " -> " +:+ q +:+ ")"
      | _, _ => ""
      end
  end.

Definition terminate_execute (clients : Clients) (req : AWSActionRequest) : W (res ActionResult) :=
  let t := req.(ar_target) in
  do? i <- requireClusterInstance clients t;
  do? h <- ret (deref clients.(c_EC2));
  do? output <- wrap_errM ("failed to terminate instance " +:+ t.(at_id) +:+ " in " +:+ t.(at_region))
    (perform (CTerminateInstances h [t.(at_id)]));
  do? resources <- ret (awsResourcesFrom [i.(i_json)]);
  ret (Ok {| ar_resources := Some resources;
             ar_message := "requested termination of " +:+ t.(at_id) +:+ " in " +:+ t.(at_region)
                           +:+ stateChangeSuffix output |}).

Definition AWSRebootAction : AWSWriteAction :=
  {| aw_action := {| aa_name := "aws-reboot"; aa_requiredServices := write_requiredServices;
                     aa_execute := reboot_execute |};
     aw_operation := AWSOperationReboot; aw_resource := awsWriteResourceInstances |}.
Definition AWSTerminateAction : AWSWriteAction :=
  {| aw_action := {| aa_name := "aws-terminate"; aa_requiredServices := write_requiredServices;
                     aa_execute := terminate_execute |};
     aw_operation := AWSOperationTerminate; aw_resource := awsWriteResourceInstances |}.

(** ** Ownership *)

(** The described instance that decides: one with the target's id and the
    cluster's tag. *)
Definition owned_instance (t : AWSTarget) (i : ec2_instance) : Prop :=
  i.(i_id) = Some t.(at_id)
  ∧ (Some (clusterOwnershipTag t.(at_infraID)), Some clusterOwnershipTagValue) ∈ i.(i_tags).

Lemma first_match_spec id l i :
  first_match id l = Some i → i ∈ l ∧ to_string i.(i_id) = id.
Proof.
  unfold first_match. intros [Hin Hb]%List.find_some. apply bool_decide_eq_true in Hb.
  split; [by apply list_elem_of_In|done].
Qed.

Lemma scan_reservations_spec id rs found i :
  scan_reservations id rs found = Some i →
  found = Some i ∨ (i ∈ concat rs ∧ to_string i.(i_id) = id).
Proof.
  revert found. induction rs as [|r rs IH]; intros found; simpl; [auto|].
  intros [Hf|[Hin Hid]]%IH.
  - destruct (first_match id r) eqn:E; simplify_eq; [|auto]. right.
    apply first_match_spec in E as [? ?]. split; [|done]. apply elem_of_app. auto.
  - right. split; [|done]. apply elem_of_app. auto.
Qed.

Lemma to_string_some s x : x ≠ "" → to_string s = x → s = Some x.
Proof. destruct s; simpl; congruence. Qed.

Lemma tagged_spec infra i :
  tagged (clusterOwnershipTag infra) i = true
  ↔ (Some (clusterOwnershipTag infra), Some clusterOwnershipTagValue) ∈ i.(i_tags).
Proof.
  unfold tagged. rewrite List.existsb_exists. split.
  - intros ([k v] & Hin & [Hk Hv]%andb_true_iff). simpl in *.
    apply bool_decide_eq_true in Hk, Hv. apply list_elem_of_In in Hin.
    apply to_string_some in Hk; [|discriminate]. apply to_string_some in Hv; [|discriminate].
    rewrite <- Hk, <- Hv. exact Hin.
  - intros Hin. eexists. split; [by apply list_elem_of_In|]. cbn [fst snd to_string default].
    by rewrite !bool_decide_eq_true_2.
Qed.

(** What the check does: nothing, or one describe of the target's id; and it
    passes only on an owned instance of the answer. *)
Inductive checked (clients : Clients) (t : AWSTarget) (hist : list call) :
    list call → res ec2_instance → Prop :=
| checked_refused e : checked clients t hist [] (Err e)
| checked_failed h e :
    clients.(c_EC2) = Some h → checked clients t hist [CDescribeInstances h [t.(at_id)]] (Err e)
| checked_owned h reservations i :
    clients.(c_EC2) = Some h →
    t.(at_id) ≠ "" → t.(at_infraID) ≠ "" →
    respond hist (CDescribeInstances h [t.(at_id)]) = Ok reservations →
    i ∈ concat reservations → owned_instance t i →
    checked clients t hist [CDescribeInstances h [t.(at_id)]] (Ok i).

Lemma requireClusterInstance_checked clients t w :
  ∃ new r, requireClusterInstance clients t w = (r, World (w.(w_calls) ++ new) w.(w_cache))
           ∧ checked clients t w.(w_calls) new r.
Proof.
  unfold requireClusterInstance, is_empty, bind_res, wrap_errM, bind, ret, deref.
  case_bool_decide as Hid.
  { eexists [], _. rewrite world_app_nil. split; [reflexivity|constructor]. }
  case_bool_decide as Hinf.
  { eexists [], _. rewrite world_app_nil. split; [reflexivity|constructor]. }
  destruct (c_EC2 clients) as [h|] eqn:Hc.
  2: { eexists [], _. rewrite world_app_nil. split; [reflexivity|constructor]. }
  unfold perform. simpl. destruct (respond (w_calls w) _) as [rs|e] eqn:Hr; simpl.
  2: { eexists _, _. split; [reflexivity|]. by constructor. }
  destruct (scan_reservations _ _ _) as [i|] eqn:Hs; simpl.
  2: { eexists _, _. split; [reflexivity|]. by constructor. }
  destruct (tagged _ i) eqn:Ht; simpl; eexists _, _; (split; [reflexivity|]); [|by constructor].
  apply scan_reservations_spec in Hs as [?|[Hin Hi]]; [done|].
  apply checked_owned with (reservations := rs); [done..|].
  split; [by apply to_string_some|by apply tagged_spec].
Qed.

(** A write action runs the check, and only when it passes its one mutating call
    on the target's id. *)
Definition guarded (mutate : aws_config → string → call) (execute : Clients → AWSActionRequest → W (res ActionResult)) : Prop :=
  ∀ clients req w, ∃ pre post r,
    w_calls (execute clients req w).2 = w.(w_calls) ++ pre ++ post
    ∧ checked clients req.(ar_target) w.(w_calls) pre r
    ∧ match r with
      | Err e => post = [] ∧ (execute clients req w).1 = Err e
      | Ok i => ∃ h, clients.(c_EC2) = Some h ∧ post = [mutate h req.(ar_target).(at_id)]
      end.

Lemma checked_client clients t hist new i :
  checked clients t hist new (Ok i) → ∃ h, clients.(c_EC2) = Some h.
Proof. inversion 1; eauto. Qed.

Lemma reboot_is_guarded : guarded (λ h id, CRebootInstances h [id]) reboot_execute.
Proof.
  intros clients req w. unfold reboot_execute.
  destruct (requireClusterInstance_checked clients (ar_target req) w) as (pre & r & Hr & Hch).
  destruct r as [i|e].
  2: { exists pre, [], (Err e). unfold bind_res. by rewrite Hr, app_nil_r. }
  destruct (checked_client _ _ _ _ _ Hch) as [h Hh].
  exists pre, [CRebootInstances h [at_id (ar_target req)]], (Ok i).
  split; [|split; [done|eauto]]. rewrite app_assoc.
  unfold bind_res at 1. rewrite Hr.
  unfold deref, bind_res, wrap_errM, bind, perform, ret. rewrite Hh. simpl. destruct (respond _ _); simpl; [done|].
  by repeat (case_match; simplify_eq/=).
Qed.

Lemma terminate_is_guarded : guarded (λ h id, CTerminateInstances h [id]) terminate_execute.
Proof.
  intros clients req w. unfold terminate_execute.
  destruct (requireClusterInstance_checked clients (ar_target req) w) as (pre & r & Hr & Hch).
  destruct r as [i|e].
  2: { exists pre, [], (Err e). unfold bind_res. by rewrite Hr, app_nil_r. }
  destruct (checked_client _ _ _ _ _ Hch) as [h Hh].
  exists pre, [CTerminateInstances h [at_id (ar_target req)]], (Ok i).
  split; [|split; [done|eauto]]. rewrite app_assoc.
  unfold bind_res at 1. rewrite Hr.
  unfold deref, bind_res, wrap_errM, bind, perform, ret. rewrite Hh. simpl. destruct (respond _ _); simpl; [|done].
  by repeat (case_match; simplify_eq/=).
Qed.

(** Aws-reboot touches only the cluster's own instance. Every run makes no
    call, or one describe of the target's id; the single RebootInstances call
    follows only when the target has an id and an infrastructure id and the
    describe's answer holds an instance with exactly that id carrying the
    cluster's "owned" tag; it names that id and nothing else. Otherwise the run
    fails with the check's error. *)
Theorem reboot_guarded : guarded (λ h id, CRebootInstances h [id]) reboot_execute.
Proof. apply reboot_is_guarded. Qed.

(** The same for aws-terminate and its TerminateInstances call. *)
Theorem terminate_guarded : guarded (λ h id, CTerminateInstances h [id]) terminate_execute.
Proof. apply terminate_is_guarded. Qed.

Local Arguments awsResourcesFrom : simpl never.

(** Both write actions do take effect on an owned instance: when the describe
    answers a single instance with the target's id and the tag, the reboot is
    requested, and the result reports the instance as it was found. *)
Theorem reboot_owned clients req h i w resource :
  let t := req.(ar_target) in
  clients.(c_EC2) = Some h →
  t.(at_id) ≠ "" → t.(at_infraID) ≠ "" →
  respond w.(w_calls) (CDescribeInstances h [t.(at_id)]) = Ok [[i]] →
  owned_instance t i →
  respond (w.(w_calls) ++ [CDescribeInstances h [t.(at_id)]]) (CRebootInstances h [t.(at_id)]) = None →
  aws_resource_from i.(i_json) = Ok resource →
  reboot_execute clients req w
  = (Ok {| ar_resources := Some [resource];
           ar_message := "requested reboot of " +:+ t.(at_id) +:+ " in " +:+ t.(at_region) |},
     World (w.(w_calls) ++ [CDescribeInstances h [t.(at_id)]; CRebootInstances h [t.(at_id)]])
           w.(w_cache)).
Proof.
  intros t Hh Hid Hinf Hd [Hi Htag] Hr Hres. unfold reboot_execute, requireClusterInstance, is_empty.
  fold t. rewrite !bool_decide_eq_false_2 by done.
  assert (awsResourcesFrom [i_json i] = Ok [resource]) as HR
    by (unfold awsResourcesFrom; cbn [res_each]; by rewrite Hres).
  unfold deref. rewrite Hh. unfold bind_res, wrap_errM, bind, perform, ret. simpl. rewrite Hd. simpl.
  rewrite Hi. simpl. rewrite bool_decide_eq_true_2 by done.
  rewrite (proj2 (tagged_spec _ _) Htag). simpl. rewrite Hr. simpl.
  rewrite HR. by rewrite <- app_assoc.
Qed.

End aws_write.

(** ** A concrete run *)
Module AwsWriteExample.
Import AwsGetExample.
Definition handle : aws_config := Build_aws_config "us-east-1" None None None.
Definition inst : ec2_instance :=
  Build_ec2_instance (Some "i-1")
    [(Some "Name", Some "worker"); (Some "kubernetes.io/cluster/abc", Some "owned")] [].
Definition owned_env : Env := λ hist c,
  match c return resp c with
  | CDescribeInstances _ _ => Ok [[inst]]
  | c => AwsGetExample.env hist c
  end.
Definition clients : Clients := Build_Clients (Some handle) None None None None.
Definition req : AWSActionRequest :=
  {| ar_target := Build_AWSTarget "us-east-1" "ec2-instances" "i-1" "abc"; ar_params := ∅ |}.

Lemma reboot_owned_witness :
  reboot_execute (H := owned_env) clients req fresh_world
  = (Ok {| ar_resources := Some [[]]; ar_message := "requested reboot of i-1 in us-east-1" |},
     World [CDescribeInstances handle ["i-1"]; CRebootInstances handle ["i-1"]] ∅).
Proof.
  refine (reboot_owned (H := owned_env) clients req handle inst fresh_world [] _ _ _ _ _ _ _);
    try reflexivity; try discriminate.
  split; [reflexivity|]. apply list_elem_of_In. simpl. auto.
Defined.
End AwsWriteExample.
