(* ===== verification/AwsApi.v ===== *)
(** internal/awsapi - the client providers - and the cluster lookup they use
    (internal/ocm/cluster.go).

    [ClientProvider] is the interface; [StaticProvider] and
    [CloudCredentialsProvider] implement it. The cluster cache is the [w_cache]
    field of the state. *)

From S2P Require Import Prelude GoString Json Env Actions AwsGet.
From Stdlib Require Import Ascii.

(** ** awsapi.go *)

(** [ClientProvider]. *)
Record ClientProvider := {
  cp_DefaultRegion : string → W (res string);
  cp_ClusterInfraID : string → W (res string);
  cp_GetClients : string → string → list string → W (res Clients) }.

(** The [switch service] of [buildClients]. *)
Definition set_client (cfg : aws_config) (service : string) (c : Clients) : res Clients :=
  if bool_decide (service = ServiceEC2) then
    Ok (Build_Clients (Some cfg) c.(c_ELB) c.(c_ELBv2) c.(c_CloudTrail) c.(c_Route53))
  else if bool_decide (service = ServiceELB) then
    Ok (Build_Clients c.(c_EC2) (Some cfg) c.(c_ELBv2) c.(c_CloudTrail) c.(c_Route53))
  else if bool_decide (service = ServiceELBv2) then
    Ok (Build_Clients c.(c_EC2) c.(c_ELB) (Some cfg) c.(c_CloudTrail) c.(c_Route53))
  else if bool_decide (service = ServiceCloudTrail) then
    Ok (Build_Clients c.(c_EC2) c.(c_ELB) c.(c_ELBv2) (Some cfg) c.(c_Route53))
  else if bool_decide (service = ServiceRoute53) then
    Ok (Build_Clients c.(c_EC2) c.(c_ELB) c.(c_ELBv2) c.(c_CloudTrail) (Some cfg))
  else Err (EText ("unsupported AWS service " +:+ quoted service)).

Fixpoint build_from (cfg : aws_config) (services : list string) (c : Clients) : res Clients :=
  match services with
  | [] => Ok c
  | service :: rest => let? c' := set_client cfg service c in build_from cfg rest c'
  end.

Definition buildClients (cfg : aws_config) (services : list string) : res Clients :=
  build_from cfg services no_clients.

Definition supported_services : list string :=
  [ServiceEC2; ServiceELB; ServiceELBv2; ServiceCloudTrail; ServiceRoute53].

Section providers.
Context `{Env}.

(** ** static.go *)

Record StaticConfig := {
  sc_Region : string; sc_AccessKeyID : string; sc_SecretAccessKey : string;
  sc_SessionToken : string; sc_EndpointURL : string; sc_InfraID : string }.

Definition static_load (cfg : StaticConfig) (region : string) : aws_config :=
  {| ac_region := region;
     ac_credentials :=
       if negb (is_empty cfg.(sc_AccessKeyID)) && negb (is_empty cfg.(sc_SecretAccessKey)) then
         Some (Build_aws_credentials cfg.(sc_AccessKeyID) cfg.(sc_SecretAccessKey)
                 cfg.(sc_SessionToken) "")
       else None;
     ac_endpoint := if negb (is_empty cfg.(sc_EndpointURL)) then Some cfg.(sc_EndpointURL) else None;
     ac_proxy := None |}.

(** [config.LoadDefaultConfig]: the configuration, or its error. *)
Definition load_config (cfg : aws_config) : W (res aws_config) :=
  do e <- perform (CLoadAwsConfig cfg);
  ret (wrap_err "failed to load AWS configuration" (err_only e cfg)).

Definition static_getClients (cfg : StaticConfig) (clusterID region : string)
    (services : list string) : W (res Clients) :=
  let region := if is_empty region then cfg.(sc_Region) else region in
  if is_empty region then
    ret (Err (EText "no AWS region configured: set AWS_REGION or pass a region"))
  else
    do? awsConfig <- load_config (static_load cfg region);
    ret (buildClients awsConfig services).

Definition StaticProvider (cfg : StaticConfig) : ClientProvider :=
  {| cp_DefaultRegion := λ _, ret (Ok cfg.(sc_Region));
     cp_ClusterInfraID := λ _, ret (Ok cfg.(sc_InfraID));
     cp_GetClients := static_getClients cfg |}.

(** ** ocm/cluster.go

    [sdk_conn] is the result of [sdkConn]: a client built over a fake connection
    has no SDK connection to use. *)

Definition identifier_char (a : ascii) : bool :=
  let n := nat_of_ascii a in
  ((97 <=? n) && (n <=? 122) || (65 <=? n) && (n <=? 90)
   || (48 <=? n) && (n <=? 57) || (n =? 45))%nat.

Fixpoint all_chars (p : ascii → bool) (s : string) : bool :=
  match s with "" => true | String a s' => p a && all_chars p s' end.

(** [clusterIdentifierRe]: [^[a-zA-Z0-9-]{1,64}$]. *)
Definition clusterIdentifierRe (s : string) : bool :=
  (1 <=? String.length s)%nat && (String.length s <=? 64)%nat && all_chars identifier_char s.

Definition cluster_search (identifier : string) : string :=
  "(id = '" +:+ identifier +:+ "' or external_id = '" +:+ identifier
  +:+ "' or display_name = '" +:+ identifier +:+ "')".

(** The getters of a nil [*cmv1.Cluster] answer zero values. *)
Definition zero_cluster : cluster := Build_cluster "" "" "" "".

Definition clusters_get (sdk_conn : res unit) (identifier : string) : W (res cluster) :=
  if negb (clusterIdentifierRe identifier) then
    ret (Err (EText ("invalid cluster identifier: " +:+ quoted identifier)))
  else
    do? _ <- ret sdk_conn;
    do? response <- wrap_errM ("failed to look up cluster " +:+ quoted identifier +:+ " in OCM")
      (perform (CClusterSearch (cluster_search identifier) 2));
    if negb (response.(cll_status) =? 200) then
      ret (Err (EText ("failed to look up cluster " +:+ quoted identifier +:+ " in OCM: status "
                       +:+ dec response.(cll_status))))
    else if 1 <? response.(cll_total) then
      ret (Err (EText ("cluster identifier " +:+ quoted identifier +:+ " is ambiguous: it matches "
                       +:+ dec response.(cll_total) +:+ " clusters")))
    else if response.(cll_total) =? 0 then
      ret (Err (EText ("no cluster found for " +:+ quoted identifier)))
    else ret (Ok (default zero_cluster (head response.(cll_items)))).

(** ** credentials.go *)

Definition defaultClusterCacheTTL : Z := 5 * minute_ns.

Record CloudCredentialsConfig := {
  cc_URL : string; cc_AssumeInitialARN : string; cc_ProxyURL : string;
  cc_AWSProxyURL : string; cc_ClusterCacheTTL : Z }.

(** [NewCloudCredentialsProvider]: a zero TTL selects the default. *)
Definition with_ttl (cfg : CloudCredentialsConfig) : CloudCredentialsConfig :=
  {| cc_URL := cfg.(cc_URL); cc_AssumeInitialARN := cfg.(cc_AssumeInitialARN);
     cc_ProxyURL := cfg.(cc_ProxyURL); cc_AWSProxyURL := cfg.(cc_AWSProxyURL);
     cc_ClusterCacheTTL := if cfg.(cc_ClusterCacheTTL) =? 0 then defaultClusterCacheTTL
                           else cfg.(cc_ClusterCacheTTL) |}.

(** What the provider is built over: its cluster resolver, the OCM connection
    function, and [url.Parse] of the proxy URL ([None]: it parses). *)
Record provider_deps := {
  pd_clusters : string → W (res cluster);
  pd_connection : res unit;
  pd_url_error : string → option gerror }.

Definition store_cluster (clusterID : string) (entry : cached_cluster) : W unit :=
  λ w, (tt, World w.(w_calls) (<[clusterID := entry]> w.(w_cache))).
Definition read_cache (clusterID : string) : W (option cached_cluster) :=
  λ w, (w.(w_cache) !! clusterID, w).

Section cloud_credentials.
Context (cfg : CloudCredentialsConfig) (deps : provider_deps).

(** The lookup past the cache, and the store of its answer. *)
Definition cluster_refresh (clusterID : string) : W (res cluster) :=
  do? c <- deps.(pd_clusters) clusterID;
  do now <- perform CNow;
  do _ <- store_cluster clusterID {| cc_cluster := c; cc_expires := now + cfg.(cc_ClusterCacheTTL) |};
  ret (Ok c).

Definition provider_cluster (clusterID : string) : W (res cluster) :=
  do cached <- read_cache clusterID;
  match cached with
  | Some entry =>
      do now <- perform CNow;
      if now <? entry.(cc_expires) then ret (Ok entry.(cc_cluster)) else cluster_refresh clusterID
  | None => cluster_refresh clusterID
  end.

Definition cloud_defaultRegion (clusterID : string) : W (res string) :=
  do? c <- provider_cluster clusterID;
  if is_empty c.(cl_region) then
    ret (Err (EText ("cluster " +:+ quoted clusterID +:+ " has no region recorded in OCM")))
  else ret (Ok c.(cl_region)).

Definition cloud_clusterInfraID (clusterID : string) : W (res string) :=
  do? c <- provider_cluster clusterID;
  if is_empty c.(cl_infraID) then
    ret (Err (EText ("cluster " +:+ quoted clusterID +:+ " has no infrastructure ID recorded in OCM")))
  else ret (Ok c.(cl_infraID)).

Definition optionalString (value : string) : option string :=
  if is_empty value then None else Some value.

(** [awaitCredentials]: the call's result, or the context's error when the
    context ends first. *)
Definition awaitCredentials (r : sentinel + res (option aws_credentials))
  : res (option aws_credentials) :=
  match r with
  | inl s => Err (EWrap "backplane credential call did not return before the context was cancelled"
                    (ESentinel s))
  | inr r => r
  end.

Definition fetchCredentials (c : cluster) : W (res aws_credentials) :=
  if negb (bool_decide (c.(cl_provider) = "aws")) then
    ret (Err (EText ("cluster " +:+ quoted c.(cl_id) +:+ " runs on " +:+ quoted c.(cl_provider)
                     +:+ ", not AWS")))
  else
    do? _ <- ret (wrap_err ("failed to obtain an OCM connection for cluster " +:+ quoted c.(cl_id))
                    deps.(pd_connection));
    do response <- perform (CCloudCredentials c cfg.(cc_URL) cfg.(cc_AssumeInitialARN)
                              (optionalString cfg.(cc_ProxyURL)) (optionalString cfg.(cc_AWSProxyURL)));
    do? creds <- ret (awaitCredentials response);
    ret (match creds with
         | Some creds => Ok creds
         | None => Err (EText ("backplane returned a non-AWS response for cluster " +:+ quoted c.(cl_id)
                               +:+ ", not AWS credentials"))
         end).

Definition awsProxy : string :=
  if negb (is_empty cfg.(cc_AWSProxyURL)) then cfg.(cc_AWSProxyURL) else cfg.(cc_ProxyURL).

(** The region a set of clients is built for, and the config options. *)
Definition resolve_region (region : string) (creds : aws_credentials) : string :=
  if is_empty region then creds.(cred_region) else region.
Definition cloud_config (region : string) (creds : aws_credentials) : aws_config :=
  {| ac_region := region;
     ac_credentials := Some (Build_aws_credentials creds.(cred_key) creds.(cred_secret)
                               creds.(cred_token) "");
     ac_endpoint := None; ac_proxy := optionalString awsProxy |}.

Definition cloud_getClients (clusterID region : string) (services : list string) : W (res Clients) :=
  do? c <- provider_cluster clusterID;
  do? creds <- wrap_errM ("failed to obtain AWS credentials for cluster " +:+ quoted clusterID
                          +:+ " from backplane") (fetchCredentials c);
  let region := resolve_region region creds in
  if is_empty region then ret (Err (EText ("no AWS region for cluster " +:+ quoted clusterID)))
  else
    do? _ <- ret (if negb (is_empty awsProxy) then
                    wrap_err ("invalid AWS proxy URL " +:+ quoted awsProxy)
                      (err_only (deps.(pd_url_error) awsProxy) tt)
                  else Ok tt);
    do? awsConfig <- load_config (cloud_config region creds);
    ret (buildClients awsConfig services).

Definition CloudCredentialsProvider : ClientProvider :=
  {| cp_DefaultRegion := cloud_defaultRegion; cp_ClusterInfraID := cloud_clusterInfraID;
     cp_GetClients := cloud_getClients |}.
End cloud_credentials.
End providers.

Definition NewCloudCredentialsProvider `{Env} (cfg : CloudCredentialsConfig) (deps : provider_deps)
  : ClientProvider := CloudCredentialsProvider (with_ttl cfg) deps.

(** ** buildClients builds what was asked *)

Lemma set_client_spec cfg service c :
  (service ∈ supported_services →
   ∃ c', set_client cfg service c = Ok c'
         ∧ ∀ s, client_for c' s = if bool_decide (s = service) then Some cfg else client_for c s)
  ∧ (service ∉ supported_services →
     set_client cfg service c = Err (EText ("unsupported AWS service " +:+ quoted service))).
Proof.
  split.
  - intros Hs. unfold supported_services in Hs.
    repeat (apply elem_of_cons in Hs as [->|Hs]); [..|by inversion Hs];
      (eexists; split; [reflexivity|]); intros s; unfold client_for;
      repeat case_bool_decide; by subst.
  - unfold set_client, supported_services. intros Hs.
    by rewrite !bool_decide_eq_false_2 by set_solver.
Qed.

Lemma build_from_spec cfg services c :
  match List.find (λ s, negb (contains supported_services s)) services with
  | Some s => build_from cfg services c = Err (EText ("unsupported AWS service " +:+ quoted s))
  | None => ∃ c', build_from cfg services c = Ok c'
                  ∧ ∀ s, client_for c' s = if contains services s then Some cfg else client_for c s
  end.
Proof.
  revert c. induction services as [|service rest IH]; intros c; [by exists c|].
  cbn [List.find build_from]. destruct (contains supported_services service) eqn:Hs.
  - cbn [negb]. apply contains_true in Hs.
    destruct (proj1 (set_client_spec cfg service c) Hs) as (c' & -> & Hc'). simpl.
    specialize (IH c'). destruct (List.find _ rest); [done|].
    destruct IH as (c2 & -> & Hc2). exists c2. split; [done|]. intros s. rewrite Hc2, Hc'.
    unfold contains. repeat case_bool_decide; set_solver.
  - cbn [negb]. apply contains_false in Hs.
    by rewrite (proj2 (set_client_spec cfg service c) Hs).
Qed.

Lemma buildClients_ok cfg services clients :
  buildClients cfg services = Ok clients →
  ∀ s, client_for clients s = if contains services s then Some cfg else None.
Proof.
  unfold buildClients. intros Hb s. pose proof (build_from_spec cfg services no_clients) as Hs.
  destruct (List.find _ services); [congruence|]. destruct Hs as (c' & Hc & Hf).
  rewrite Hb in Hc. injection Hc as ->. rewrite Hf. unfold client_for.
  by repeat case_bool_decide.
Qed.

(** [buildClients] builds exactly the requested services' clients, all from
    the given configuration - so no action can be handed a nil client for a
    service it declared, nor a client it did not ask for - and the first service
    it does not know is an error, with no clients. *)
Theorem buildClients_spec cfg services :
  match List.find (λ s, negb (contains supported_services s)) services with
  | Some s => buildClients cfg services = Err (EText ("unsupported AWS service " +:+ quoted s))
  | None => ∃ clients, buildClients cfg services = Ok clients
                       ∧ ∀ s, client_for clients s = if contains services s then Some cfg else None
  end.
Proof.
  pose proof (build_from_spec cfg services no_clients) as Hs. fold (buildClients cfg services) in Hs.
  destruct (List.find _ services); [done|]. destruct Hs as (c & Hc & _).
  exists c. split; [done|]. by apply buildClients_ok.
Qed.

(** ** The OCM search *)

Lemma identifier_no_quote id :
  all_chars identifier_char id = true → mem_char "'"%char id = false.
Proof.
  induction id as [|a id IH]; [done|]. cbn [all_chars mem_char]. intros [Ha Hid]%andb_true_iff.
  rewrite (IH Hid), orb_false_r. destruct (decide (a = "'"%char)) as [->|Hne]; [done|].
  by apply Ascii.eqb_neq.
Qed.

(** The pieces of the search expression between quotes. *)
Definition search_pieces (id : string) : list string :=
  ["(id = "; id; " or external_id = "; id; " or display_name = "; id; ")"].

Lemma cluster_search_pieces id :
  clusterIdentifierRe id = true → split_char "'"%char (cluster_search id) = search_pieces id.
Proof.
  unfold clusterIdentifierRe. intros [_ Hid%identifier_no_quote]%andb_true_iff.
  rewrite <- (split_join "'"%char (search_pieces id)); [|done|].
  - reflexivity.
  - intros w Hw. unfold search_pieces in Hw.
    repeat (apply elem_of_cons in Hw as [->|Hw]); [done..|by inversion Hw].
Qed.

Section lookups.
Context `{Env}.

(** OCM answered a search for the identifier with this cluster, and only it. *)
Definition ocm_answered (hist : list call) (id : string) (c : cluster) : Prop :=
  ∃ pre post response,
    hist = pre ++ CClusterSearch (cluster_search id) 2 :: post
    ∧ clusterIdentifierRe id = true
    ∧ respond pre (CClusterSearch (cluster_search id) 2) = Ok response
    ∧ response.(cll_status) = 200 ∧ response.(cll_total) ≤ 1 ∧ response.(cll_total) ≠ 0
    ∧ c = default zero_cluster (head response.(cll_items)).

Lemma ocm_answered_app hist new id c : ocm_answered hist id c → ocm_answered (hist ++ new) id c.
Proof.
  intros (pre & post & r & -> & Hr). exists pre, (post ++ new), r.
  split; [by rewrite <- app_assoc|done].
Qed.

Lemma clusters_get_run conn id w :
  let q := CClusterSearch (cluster_search id) 2 in
  ∃ new r, clusters_get conn id w = (r, World (w.(w_calls) ++ new) w.(w_cache))
    ∧ (new = [] ∧ is_ok r = false
       ∨ new = [q] ∧ clusterIdentifierRe id = true
         ∧ ∀ c, r = Ok c → ocm_answered (w.(w_calls) ++ [q]) id c).
Proof.
  intros q. unfold clusters_get. destruct (clusterIdentifierRe id) eqn:Hre; simpl.
  2: { eexists [], _. rewrite world_app_nil. split; [reflexivity|]. by left. }
  unfold bind_res, wrap_errM, bind, ret. destruct conn as [[]|e].
  2: { eexists [], _. rewrite world_app_nil. split; [reflexivity|]. by left. }
  unfold perform. fold q. simpl. destruct (respond (w_calls w) q) as [rsp|e] eqn:Hr; simpl;
    [|eexists _, _; split; [reflexivity|]; right; split; [reflexivity|]; done].
  repeat case_match; (eexists _, _; split; [reflexivity|]; right; split; [reflexivity|];
    split; [reflexivity|]; intros c [=]).
  exists (w_calls w), [], rsp. subst. rewrite negb_false_iff in *. repeat split; [done|done|lia..].
Qed.

(** A caller-supplied cluster identifier cannot change the OCM query. A lookup
    either fails without any call or sends one search; the identifier is then of
    the allowed class, the query's quoted literals are exactly the identifier,
    three times, and the rest of the query is fixed; and the lookup returns a
    cluster only from a 200 answer that matches exactly one. *)
Theorem clusters_get_spec conn id w :
  ∃ new r, clusters_get conn id w = (r, World (w.(w_calls) ++ new) w.(w_cache))
    ∧ (new = [] ∧ is_ok r = false
       ∨ ∃ query, new = [CClusterSearch query 2]
           ∧ split_char "'"%char query
             = ["(id = "; id; " or external_id = "; id; " or display_name = "; id; ")"]
           ∧ ∀ c, r = Ok c → ocm_answered (w.(w_calls) ++ new) id c).
Proof.
  destruct (clusters_get_run conn id w) as (new & r & -> & [[-> Hr]|(-> & Hre & Hr)]).
  - exists [], r. auto.
  - exists [CClusterSearch (cluster_search id) 2], r. split; [done|]. right.
    exists (cluster_search id). split; [done|]. split; [by apply cluster_search_pieces|done].
Qed.

(** ** The cluster cache *)

(** The provider over OCM, as cmd/server builds it. *)
Definition ocm_deps (conn connection : res unit) (url_error : string → option gerror) : provider_deps :=
  {| pd_clusters := clusters_get conn; pd_connection := connection; pd_url_error := url_error |}.

Context (cfg : CloudCredentialsConfig) (conn connection : res unit)
  (url_error : string → option gerror).
Local Notation deps := (ocm_deps conn connection url_error).

(** Every cached entry is what OCM answered for that very identifier. *)
Definition cache_sound (w : world) : Prop :=
  ∀ id entry, w.(w_cache) !! id = Some entry → ocm_answered w.(w_calls) id entry.(cc_cluster).

Lemma cache_sound_app w new :
  cache_sound w → cache_sound (World (w.(w_calls) ++ new) w.(w_cache)).
Proof. intros Hs id entry He. simpl in *. by apply ocm_answered_app, Hs. Qed.

(** The refresh path, whole: it calls the resolver, and stores only a success. *)
Lemma cluster_refresh_run id w :
  let '(r, w1) := clusters_get conn id w in
  cluster_refresh cfg deps id w =
  match r with
  | Ok c => let now := respond w1.(w_calls) CNow in
            (Ok c, World (w1.(w_calls) ++ [CNow])
                     (<[id := {| cc_cluster := c; cc_expires := now + cfg.(cc_ClusterCacheTTL) |}]>
                        w.(w_cache)))
  | Err e => (Err e, w1)
  end.
Proof.
  destruct (clusters_get_run conn id w) as (new & r & Hg & _). rewrite Hg.
  unfold cluster_refresh, bind_res. simpl. rewrite Hg. by destruct r.
Qed.

Lemma cluster_refresh_sound id w :
  cache_sound w →
  let '(r, w') := cluster_refresh cfg deps id w in
  cache_sound w' ∧ (∃ new, w'.(w_calls) = w.(w_calls) ++ new)
  ∧ ∀ c, r = Ok c → ocm_answered w'.(w_calls) id c.
Proof.
  intros Hs. pose proof (cluster_refresh_run id w) as Hrun.
  destruct (clusters_get_run conn id w) as (new & r & Hg & Hr). rewrite Hg in Hrun. rewrite Hrun.
  destruct r as [c|e]; simpl; [|split; [by apply cache_sound_app|split; [by eexists|done]]].
  assert (ocm_answered (w_calls w ++ new) id c) as Ha.
  { destruct Hr as [[-> ?]|(-> & _ & Hr)]; [done|by apply Hr]. }
  split; [|split; [rewrite <- app_assoc; by eexists|intros ? [= <-]; by apply ocm_answered_app]].
  intros id' entry. simpl. rewrite lookup_insert_Some. intros [[<- <-]|[_ He]]; simpl.
  - by apply ocm_answered_app.
  - rewrite <- app_assoc. by apply ocm_answered_app, Hs.
Qed.

Lemma provider_cluster_sound id w :
  cache_sound w →
  let '(r, w') := provider_cluster cfg deps id w in
  cache_sound w' ∧ (∃ new, w'.(w_calls) = w.(w_calls) ++ new)
  ∧ ∀ c, r = Ok c → ocm_answered w'.(w_calls) id c.
Proof.
  intros Hs. unfold provider_cluster, bind at 1, read_cache.
  destruct (w_cache w !! id) as [entry|] eqn:He; [|by apply cluster_refresh_sound].
  unfold bind, perform. destruct (respond (w_calls w) CNow <? cc_expires entry).
  - split; [by apply cache_sound_app|]. split; [by eexists|]. intros c [= <-]. simpl.
    by apply ocm_answered_app, Hs.
  - pose proof (cluster_refresh_sound id _ (cache_sound_app w [CNow] Hs)) as Hr.
    destruct (cluster_refresh _ _ _ _) as [r w']. destruct Hr as (? & (new & ->) & ?).
    split; [done|]. split; [|done]. eexists. simpl. by rewrite <- app_assoc.
Qed.

(** The cluster cache within its lifetime. A live entry answers the lookup
    with no call but the clock's; without one, or when it has expired, the
    resolver is asked, a success is stored for the configured lifetime under this
    identifier only, and a failure leaves the cache as it was. *)
Theorem provider_cluster_spec id w :
  let now := respond w.(w_calls) CNow in
  provider_cluster cfg deps id w =
  match w.(w_cache) !! id with
  | Some entry =>
      let w1 := World (w.(w_calls) ++ [CNow]) w.(w_cache) in
      if now <? entry.(cc_expires) then (Ok entry.(cc_cluster), w1)
      else cluster_refresh cfg deps id w1
  | None => cluster_refresh cfg deps id w
  end
  ∧ ∀ w0, match clusters_get conn id w0 with
          | (Ok c, w1) =>
              cluster_refresh cfg deps id w0
              = (Ok c, World (w1.(w_calls) ++ [CNow])
                  (<[id := {| cc_cluster := c;
                              cc_expires := respond w1.(w_calls) CNow + cfg.(cc_ClusterCacheTTL) |}]>
                     w0.(w_cache)))
          | (Err e, w1) => cluster_refresh cfg deps id w0 = (Err e, w1) ∧ w1.(w_cache) = w0.(w_cache)
          end.
Proof.
  intros now. split.
  - unfold provider_cluster, bind at 1, read_cache. destruct (w_cache w !! id); [|done].
    unfold bind, perform. fold now. by case_match.
  - intros w0. pose proof (cluster_refresh_run id w0) as Hr.
    destruct (clusters_get_run conn id w0) as (new & r & Hg & _). rewrite Hg in *.
    by destruct r.
Qed.

(** ** Whose account the clients reach *)

(** The credential call's answer for a cluster, at some point of the history. *)
Definition credentials_answered (hist : list call) (c : cluster) (creds : aws_credentials) : Prop :=
  ∃ pre post, let q := CCloudCredentials c cfg.(cc_URL) cfg.(cc_AssumeInitialARN)
                         (optionalString cfg.(cc_ProxyURL)) (optionalString cfg.(cc_AWSProxyURL)) in
    hist = pre ++ q :: post ∧ respond pre q = inr (Ok (Some creds)).

Lemma credentials_answered_app hist new c creds :
  credentials_answered hist c creds → credentials_answered (hist ++ new) c creds.
Proof.
  intros (pre & post & -> & Hr). exists pre, (post ++ new). split; [by rewrite <- app_assoc|done].
Qed.

Lemma fetchCredentials_ok c creds w w' :
  fetchCredentials cfg deps c w = (Ok creds, w') →
  c.(cl_provider) = "aws" ∧ w'.(w_cache) = w.(w_cache) ∧ credentials_answered w'.(w_calls) c creds.
Proof.
  unfold fetchCredentials, bind_res, bind, ret, perform. case_bool_decide; [|done]. simpl.
  destruct connection; simpl; [|done].
  destruct (respond _ _) as [?|[[?|]|?]] eqn:Hr; simpl; try done.
  intros [= <- <-]. repeat split; [done|]. by exists (w_calls w), [].
Qed.

Lemma fetchCredentials_grows c w :
  ∃ new, (fetchCredentials cfg deps c w).2 = World (w.(w_calls) ++ new) w.(w_cache).
Proof.
  unfold fetchCredentials, bind_res, bind, ret, perform.
  case_bool_decide; simpl; [|exists []; by rewrite world_app_nil].
  destruct connection; simpl; [|exists []; by rewrite world_app_nil].
  destruct (respond _ _) as [?|[[?|]|?]]; simpl; by eexists.
Qed.

Lemma cloud_getClients_ok id region services w :
  cache_sound w →
  let '(r, w') := cloud_getClients cfg deps id region services w in
  cache_sound w'
  ∧ ∀ clients, r = Ok clients → ∃ c creds,
      ocm_answered w'.(w_calls) id c ∧ c.(cl_provider) = "aws"
      ∧ credentials_answered w'.(w_calls) c creds
      ∧ resolve_region region creds ≠ ""
      ∧ ∀ s, client_for clients s
             = if contains services s
               then Some (cloud_config cfg (resolve_region region creds) creds) else None.
Proof.
  intros Hs. unfold cloud_getClients, bind_res at 1.
  pose proof (provider_cluster_sound id w Hs) as Hc.
  destruct (provider_cluster _ _ _ w) as [[c|e] w1]; destruct Hc as (Hs1 & _ & Hc); [|done].
  specialize (Hc c eq_refl). unfold bind_res at 1, wrap_errM, bind at 1.
  pose proof (fetchCredentials_ok c) as Hf. destruct (fetchCredentials_grows c w1) as [new Hg].
  destruct (fetchCredentials _ _ c w1) as [[creds|e] w2] eqn:Hfe; simpl in Hg; subst w2;
    simpl; [|split; [by apply cache_sound_app|done]].
  apply Hf in Hfe as (Haws & _ & Hcr). simpl in Hcr. clear Hf.
  unfold is_empty at 1. case_bool_decide as Hreg; [split; [by apply cache_sound_app|done]|].
  unfold bind_res, load_config, bind, ret, perform. cbn [is_empty].
  destruct (if negb (is_empty (awsProxy cfg)) then _ else _); [|split; [by apply cache_sound_app|done]].
  simpl. destruct (respond _ _); simpl.
  { split; [rewrite <- app_assoc; by apply cache_sound_app|done]. }
  split; [rewrite <- app_assoc; by apply cache_sound_app|].
  intros clients Hb. exists c, creds. split; [by do 2 apply ocm_answered_app|].
  split; [done|]. split; [by apply credentials_answered_app|]. split; [done|].
  by apply buildClients_ok.
Qed.

(** AWS clients always reach the account of the cluster the request names.
    From a sound cache, [GetClients] keeps the cache sound, and when it returns
    clients, OCM answered the identifier with an AWS cluster, the credentials were
    issued for that very cluster, the region is the requested one or else the
    credentials', never empty, and exactly the requested services' clients are
    built, from those credentials in that region. *)
Theorem cloud_getClients_spec id region services w :
  cache_sound w →
  let '(r, w') := cloud_getClients cfg deps id region services w in
  cache_sound w'
  ∧ ∀ clients, r = Ok clients → ∃ c creds,
      ocm_answered w'.(w_calls) id c ∧ c.(cl_provider) = "aws"
      ∧ credentials_answered w'.(w_calls) c creds
      ∧ resolve_region region creds ≠ ""
      ∧ ∀ s, client_for clients s
             = if contains services s
               then Some (cloud_config cfg (resolve_region region creds) creds) else None.
Proof. apply cloud_getClients_ok. Qed.

Lemma cloud_region_infra_ok id w :
  cache_sound w →
  (let '(r, w') := cloud_defaultRegion cfg deps id w in
   cache_sound w' ∧ ∀ region, r = Ok region →
     region ≠ "" ∧ ∃ c, ocm_answered w'.(w_calls) id c ∧ region = c.(cl_region))
  ∧ (let '(r, w') := cloud_clusterInfraID cfg deps id w in
     cache_sound w' ∧ ∀ infra, r = Ok infra →
       infra ≠ "" ∧ ∃ c, ocm_answered w'.(w_calls) id c ∧ infra = c.(cl_infraID)).
Proof.
  intros Hs. pose proof (provider_cluster_sound id w Hs) as Hc.
  unfold cloud_defaultRegion, cloud_clusterInfraID, bind_res, is_empty.
  destruct (provider_cluster _ _ _ w) as [[c|e] w1]; destruct Hc as (Hs1 & _ & Hc); [|done].
  specialize (Hc c eq_refl). split; case_bool_decide; (split; [done|]); try done;
    intros ? [= <-]; eauto.
Qed.

(** The region a request runs in and the infrastructure id a write is checked
    against come from OCM's record of the cluster, and are never empty. *)
Theorem cloud_region_infra_spec id w :
  cache_sound w →
  (let '(r, w') := cloud_defaultRegion cfg deps id w in
   cache_sound w' ∧ ∀ region, r = Ok region →
     region ≠ "" ∧ ∃ c, ocm_answered w'.(w_calls) id c ∧ region = c.(cl_region))
  ∧ (let '(r, w') := cloud_clusterInfraID cfg deps id w in
     cache_sound w' ∧ ∀ infra, r = Ok infra →
       infra ≠ "" ∧ ∃ c, ocm_answered w'.(w_calls) id c ∧ infra = c.(cl_infraID)).
Proof. apply cloud_region_infra_ok. Qed.
End lookups.

(** ** A concrete lookup *)
Module AwsApiExample.
Import AwsGetExample.
Definition abc : cluster := Build_cluster "c-1" "us-east-1" "abc" "aws".
Definition keys : aws_credentials := Build_aws_credentials "k" "s" "t" "us-east-1".
Definition ocm_env : Env := λ hist c,
  match c return resp c with
  | CClusterSearch _ _ => Ok (Build_cluster_list 200 1 [abc])
  | CCloudCredentials _ _ _ _ _ => inr (Ok (Some keys))
  | c => AwsGetExample.env hist c
  end.
Definition config : CloudCredentialsConfig :=
  Build_CloudCredentialsConfig "https://bp" "" "" "" defaultClusterCacheTTL.

Lemma fresh_sound : cache_sound (H := ocm_env) fresh_world.
Proof. intros id entry He. done. Qed.

Lemma cloud_getClients_spec_witness :
  let '(r, w') := cloud_getClients (H := ocm_env) config
      (ocm_deps (H := ocm_env) (Ok tt) (Ok tt) (λ _, None)) "c-1" "" ["ec2"] fresh_world in
  is_ok r = true ∧ cache_sound (H := ocm_env) w'.
Proof.
  split; [reflexivity|].
  exact (proj1 (cloud_getClients_spec (H := ocm_env) config (Ok tt) (Ok tt) (λ _, None)
    "c-1" "" ["ec2"] fresh_world fresh_sound)).
Defined.

Lemma cloud_region_infra_spec_witness :
  let '(r, w') := cloud_defaultRegion (H := ocm_env) config
      (ocm_deps (H := ocm_env) (Ok tt) (Ok tt) (λ _, None)) "c-1" fresh_world in
  r = Ok "us-east-1" ∧ cache_sound (H := ocm_env) w'.
Proof.
  split; [reflexivity|].
  exact (proj1 (proj1 (cloud_region_infra_spec (H := ocm_env) config (Ok tt) (Ok tt) (λ _, None)
    "c-1" fresh_world fresh_sound))).
Defined.
End AwsApiExample.
