(* ===== verification/Await.v ===== *)
(** internal/awsapi/credentials.go's [awaitCredentials], step by step: the goroutine that
    makes backplane-cli's call, the channel it sends the result on, and the caller's
    select on that channel and its context.

    [AwsApi.awaitCredentials] takes the outcome as its argument; here is which outcomes
    there are, and what becomes of the goroutine. The channel's capacity is a parameter,
    so that the code's choice of one can be compared with none. *)

From stdpp Require Import relations.
From S2P Require Import Prelude GoString Json Env AwsApi.
#[local] Open Scope Z_scope.

Section await.
(** What the call returns, if it ever does, and the capacity of the channel. *)
Context (answer : res (option aws_credentials)) (capacity : nat).

Inductive await_caller := Selecting | Awaited (r : sentinel + res (option aws_credentials)).
Inductive call_goroutine := Calling | Sending | Exited.
(** [aw_ctx] is the context's error, once it has one. *)
Record await_state := AwaitState {
  aw_caller : await_caller; aw_call : call_goroutine; aw_chan : list (res (option aws_credentials));
  aw_ctx : option sentinel }.
Definition await_start : await_state := AwaitState Selecting Calling [] None.

Inductive await_step : await_state → await_state → Prop :=
| aw_cancel c g ch e : await_step (AwaitState c g ch None) (AwaitState c g ch (Some e))
| aw_returns c ch x : await_step (AwaitState c Calling ch x) (AwaitState c Sending ch x)
(* a send goes to the buffer while there is room, or to the waiting caller *)
| aw_send c ch x :
    (length ch < capacity)%nat → await_step (AwaitState c Sending ch x) (AwaitState c Exited (ch ++ [answer]) x)
| aw_rendezvous x :
    await_step (AwaitState Selecting Sending [] x) (AwaitState (Awaited (inr answer)) Exited [] x)
(* the select *)
| aw_receive g r ch x : await_step (AwaitState Selecting g (r :: ch) x) (AwaitState (Awaited (inr r)) g ch x)
| aw_done g ch e : await_step (AwaitState Selecting g ch (Some e)) (AwaitState (Awaited (inl e)) g ch (Some e)).

(** The channel is empty until the goroutine has sent, and a caller that is still
    selecting then has its result at hand. *)
Definition await_inv (s : await_state) : Prop :=
  match s.(aw_call) with
  | Exited => s.(aw_caller) = Selecting → s.(aw_chan) = [answer]
  | _ => s.(aw_chan) = []
  end
  ∧ (∀ r, r ∈ s.(aw_chan) → r = answer)
  ∧ match s.(aw_caller) with
    | Awaited (inr r) => r = answer ∧ s.(aw_call) = Exited
    | Awaited (inl e) => s.(aw_ctx) = Some e
    | Selecting => True
    end.

Lemma await_inv_step s s' : await_step s s' → await_inv s → await_inv s'.
Proof.
  unfold await_inv. intros Hs (Hc & Ha & Hr). destruct Hs as [c g ch e|c ch x|c ch x Hl|x|g r ch x|g ch e]; simpl in *.
  - split; [done|]. split; [done|]. destruct c as [|[]]; done.
  - split; [done|]. split; [done|]. destruct c as [|[]]; try done. by destruct Hr.
  - subst ch. simpl. split; [done|]. split; [by intros r ->%list_elem_of_singleton|].
    destruct c as [|[]]; try done. by destruct Hr.
  - split; [done|]. split; [by intros r ?%elem_of_nil|done].
  - destruct g; [done|done|]. specialize (Hc eq_refl). injection Hc as -> ->.
    split; [done|]. split; [by intros r ?%elem_of_nil|done].
  - destruct g; done.
Qed.

Lemma await_reachable_inv s : rtc await_step await_start s → await_inv s.
Proof.
  assert (await_inv await_start) as Hi by (split; [done|]; split; [by intros r ?%elem_of_nil|done]).
  revert Hi. generalize await_start as s0. induction 2; eauto using await_inv_step.
Qed.

(** Every step uses up something. *)
Definition await_work (s : await_state) : nat :=
  match s.(aw_caller) with Selecting => 1 | _ => 0 end
  + match s.(aw_call) with Calling => 2 | Sending => 1 | Exited => 0 end
  + match s.(aw_ctx) with None => 1 | Some _ => 0 end.
Lemma await_decreases s s' : await_step s s' → (await_work s' < await_work s)%nat.
Proof. intros Hs. destruct Hs; unfold await_work; simpl; try destruct x; try destruct g; try destruct c; lia. Qed.
Lemma await_bounded n s s' : nsteps await_step n s s' → (n + await_work s' ≤ await_work s)%nat.
Proof. induction 1 as [|n s1 s2 s3 Hs%await_decreases _ IH]; lia. Qed.
End await.

(** C37: a caller is never held by a slow credential call, and the goroutine it abandons
    does not leak - because of the buffer. With a channel of at least one place, in every
    reachable state: a caller whose context has ended can return; a goroutine whose call
    has returned can send and exit, whether or not anybody still listens; what a caller
    gets is the context's error or the call's own result; and at most four steps are ever
    taken. With an unbuffered channel there is a reachable state in which the goroutine
    waits to send and no step is left. *)
Theorem await_frees_caller_and_goroutine answer capacity s e :
  ((0 < capacity)%nat → rtc (await_step answer capacity) await_start s →
     (s.(aw_caller) = Selecting → s.(aw_ctx) = Some e →
        ∃ s', await_step answer capacity s s' ∧ s'.(aw_caller) = Awaited (inl e))
     ∧ (s.(aw_call) = Sending → ∃ s', await_step answer capacity s s' ∧ s'.(aw_call) = Exited)
     ∧ (∀ r, s.(aw_caller) = Awaited r → r = inr answer ∨ ∃ e', r = inl e' ∧ s.(aw_ctx) = Some e')
     ∧ (∀ n s', nsteps (await_step answer capacity) n s s' → (n ≤ 4)%nat))
  ∧ ∃ stuck, rtc (await_step answer 0) await_start stuck ∧ stuck.(aw_call) = Sending
      ∧ stuck.(aw_caller) = Awaited (inl e) ∧ ∀ s', ¬ await_step answer 0 stuck s'.
Proof.
  split.
  - intros Hcap Hr. apply await_reachable_inv in Hr as Hi. destruct Hi as (Hc & _ & Ha).
    destruct s as [c g ch x]; simpl in *. split_and!.
    + intros -> ->. eexists. split; [apply aw_done|done].
    + intros ->. subst ch. eexists. split; [by apply aw_send|done].
    + intros r ->. destruct r as [e'|r]; [right; by exists e'|left; by destruct Ha as [-> _]].
    + intros n s' Hn%await_bounded. unfold await_work in Hn at 2. simpl in Hn. destruct c, g, x; lia.
  - exists (AwaitState (Awaited (inl e)) Sending [] (Some e)). split_and!; try done.
    + eapply rtc_l; [apply (aw_cancel _ _ _ _ _ e)|]. eapply rtc_l; [apply aw_done|].
      eapply rtc_once. apply aw_returns.
    + intros s' Hs. inversion Hs; subst; simpl in *; lia.
Qed.

Module AwaitExample.
(** The context ends while the call is running; the call then fails. *)
Definition failed : res (option aws_credentials) := Err (EText "no access").
Definition late : await_state := AwaitState (Awaited (inl ErrDeadline)) Sending [] (Some ErrDeadline).
Lemma await_frees_caller_and_goroutine_witness :
  ∃ s', await_step failed 1 late s' ∧ s'.(aw_call) = Exited.
Proof.
  destruct (await_frees_caller_and_goroutine failed 1 late ErrDeadline) as [Hw _].
  destruct Hw as (_ & Hs & _); [lia| |exact (Hs eq_refl)].
  eapply rtc_l; [apply (aw_cancel _ _ _ _ _ ErrDeadline)|].
  eapply rtc_l; [apply aw_done|]. eapply rtc_once. apply aw_returns.
Defined.
End AwaitExample.
