(* ===== verification/Backplane.v ===== *)
(** internal/backplane: the cluster access of the Kubernetes scope. client.go
    turns an action's RBAC rules into a trusted-action request and its answer
    into a REST configuration; kubeconfig.go is the local counterpart. What an exec
    through either comes to is [Actions.PodExecutor_Exec].

    [net/url] is a parameter ([GoURL]): the theorems hold for any parser. *)

From S2P Require Import Prelude GoString Json Env Actions AwsGet.

(** The part of [net/url] the program uses: parsing, reference resolution, the
    scheme and host, and [String]. *)
Class GoURL := {
  url : Type;
  url_parse : string → res url;
  url_resolve : url → url → url;
  url_scheme : url → string;
  url_host : url → string;
  url_string : url → string }.

(** [backplane.ClientProvider]: the dynamic client and the pod executor, each
    identified by its REST configuration. *)
Record KubeClientProvider := {
  bp_GetClient : string → string → list RBACRule → W (res rest_config);
  bp_GetPodExecutor : string → string → list RBACRule → W (res rest_config) }.

(** ** Building the request *)

(** [toBPPolicyRule]. *)
Definition toBPPolicyRule (r : RBACRule) : bp_policy_rule :=
  {| pr_apiGroups := r.(rule_apiGroups); pr_resources := r.(rule_resources);
     pr_verbs := r.(rule_verbs);
     pr_resourceNames := if bool_decide (r.(rule_resourceNames) = []) then None
                         else Some r.(rule_resourceNames) |}.

(** The loop's state: [clusterRoleRules] and [rolesByNS]. *)
Record rules_state := {
  st_cluster : list bp_policy_rule;
  st_byNS : gmap string (list bp_policy_rule) }.

Definition add_rule (st : rules_state) (rule : RBACRule) : rules_state :=
  let pr := toBPPolicyRule rule in
  let ns := rule.(rule_namespace) in
  if is_empty ns then
    {| st_cluster := st.(st_cluster) ++ [pr]; st_byNS := st.(st_byNS) |}
  else
    {| st_cluster := st.(st_cluster);
       st_byNS := <[ns := default [] (st.(st_byNS) !! ns) ++ [pr]]> st.(st_byNS) |}.

(** [buildCreateRequest]: the namespaces are sorted, so the map's iteration
    order does not show. *)
Definition buildCreateRequest (actionName : string) (rules : list RBACRule) : bp_create_request :=
  let st := foldl add_rule {| st_cluster := []; st_byNS := ∅ |} rules in
  {| cr_name := actionName; cr_customerDataAccess := false;
     cr_clusterRoleRules := st.(st_cluster);
     cr_roles := (λ ns, {| role_namespace := ns;
                           role_rules := default [] (st.(st_byNS) !! ns) |})
                 <$> sort_strings (map_to_list st.(st_byNS)).*1 |}.

(** ** The backplane provider *)
Section provider.
Context `{Env} `{GoURL}.

(** [requestAccess]: the answer's status, its body, and the body decoded as
    (instance id, proxy URI). *)
Definition requestAccess (baseURL clusterID actionName : string) (rules : list RBACRule)
  : W (res (string * string)) :=
  do? (status_body, decoded) <- wrap_errM "backplane request failed"
    (perform (CCreateTrustedAction baseURL clusterID (buildCreateRequest actionName rules)));
  let '(status, body) := status_body in
  if negb (status =? 200) && negb (status =? 201) then
    ret (Err (EText ("backplane returned status " +:+ dec status +:+ ": " +:+ body)))
  else ret (wrap_err "failed to decode backplane response" decoded).

(** The origin check of [requestAccessAndConfig]. *)
Definition proxy_config (baseURL proxyUri : string) : res rest_config :=
  let? base := wrap_err "invalid base URL" (url_parse baseURL) in
  let? ref := wrap_err "invalid proxy URI from backplane" (url_parse proxyUri) in
  let resolved := url_resolve base ref in
  if negb (bool_decide (url_scheme resolved = url_scheme base))
     || negb (bool_decide (url_host resolved = url_host base)) then
    Err (EText ("backplane returned proxy URI targeting a different origin: " +:+ url_string resolved))
  else Ok {| rc_host := url_string resolved; rc_trusted := Some (url_host resolved) |}.

Definition requestAccessAndConfig (baseURL clusterID actionName : string) (rules : list RBACRule)
  : W (res rest_config) :=
  do? (_, proxyUri) <- wrap_errM "failed to request backplane access"
    (requestAccess baseURL clusterID actionName rules);
  ret (proxy_config baseURL proxyUri).

(** A client built over a configuration. *)
Definition new_client (msg : string) (q : rest_config → call) (answer : ∀ c, resp (q c) → option gerror)
    (c : rest_config) : W (res rest_config) :=
  do e <- perform (q c);
  ret (wrap_err msg (err_only (answer c e) c)).
Definition new_dynamic (msg : string) : rest_config → W (res rest_config) :=
  new_client msg CNewDynamic (λ _ e, e).
Definition new_clientset (msg : string) : rest_config → W (res rest_config) :=
  new_client msg CNewClientset (λ _ e, e).

Definition BackplaneProvider (baseURL : string) : KubeClientProvider :=
  {| bp_GetClient := λ clusterID actionName rules,
       do? c <- requestAccessAndConfig baseURL clusterID actionName rules;
       new_dynamic "failed to create dynamic client for proxy" c;
     bp_GetPodExecutor := λ clusterID actionName rules,
       do? c <- requestAccessAndConfig baseURL clusterID actionName rules;
       new_clientset "failed to create kubernetes clientset for proxy" c |}.

(** The request editor of [NewBackplaneProvider]: the Authorization header of a request
    to backplane's own API. *)
Definition backplane_editor (token : res string) : res string :=
  let? t := wrap_err "failed to get auth token" token in Ok ("Bearer " +:+ t).

(** [NewBackplaneProvider]; [bpclient_NewClient] is the generated client's constructor. *)
Definition NewBackplaneProvider (bpclient_NewClient : string → res unit) (baseURL : string)
  : res KubeClientProvider :=
  let? _ := wrap_err "failed to create backplane client" (bpclient_NewClient baseURL) in
  Ok (BackplaneProvider baseURL).

(** ** kubeconfig.go: the rules are ignored. *)
Definition kubeconfig_load (path : string) : W (res rest_config) :=
  wrap_errM ("failed to build config from kubeconfig " +:+ path) (perform (CLoadKubeconfig path)).

Definition KubeconfigProvider (path : string) : KubeClientProvider :=
  {| bp_GetClient := λ _ _ _,
       do? c <- kubeconfig_load path; new_dynamic "failed to create dynamic client" c;
     bp_GetPodExecutor := λ _ _ _,
       do? c <- kubeconfig_load path; new_clientset "failed to create kubernetes clientset" c |}.
End provider.

(** ** [bearerTransport]

    [round_trip trusted token host] is the Authorization header of a request to
    [host] ([None]: unset), or the token's error. *)
Definition round_trip (trustedHost : string) (token : res string) (host : string)
  : res (option string) :=
  if is_empty trustedHost || is_empty host || bool_decide (host = trustedHost) then
    let? t := wrap_err "failed to get auth token" token in
    Ok (Some ("Bearer " +:+ t))
  else Ok None.

(** ** What the request grants on the cluster *)

Definition policy_grants (p : bp_policy_rule) (a : access) : bool :=
  contains p.(pr_apiGroups) a.(acc_group) && contains p.(pr_resources) a.(acc_resource)
  && contains p.(pr_verbs) a.(acc_verb)
  && match p.(pr_resourceNames) with None => true | Some ns => contains ns a.(acc_name) end.

(** A cluster-role rule grants in every namespace, a role's in its own. *)
Definition request_grants (r : bp_create_request) (a : access) : bool :=
  existsb (λ p, policy_grants p a) r.(cr_clusterRoleRules)
  || existsb (λ role, bool_decide (a.(acc_namespace) = Some role.(role_namespace))
                      && existsb (λ p, policy_grants p a) role.(role_rules)) r.(cr_roles).

Definition rules_in (ns : string) (rules : list RBACRule) : list RBACRule :=
  filter (λ r, r.(rule_namespace) = ns) rules.

(** What the loop has collected after some rules. *)
Definition collected (st : rules_state) (rules : list RBACRule) : Prop :=
  st.(st_cluster) = toBPPolicyRule <$> rules_in "" rules
  ∧ ∀ ns, st.(st_byNS) !! ns
          = if bool_decide (ns ≠ "" ∧ ns ∈ rule_namespace <$> rules)
            then Some (toBPPolicyRule <$> rules_in ns rules) else None.

Lemma rules_in_snoc ns rules r :
  rules_in ns (rules ++ [r])
  = rules_in ns rules ++ (if bool_decide (r.(rule_namespace) = ns) then [r] else []).
Proof.
  unfold rules_in. rewrite filter_app, filter_cons. f_equal.
  case_bool_decide; [by rewrite decide_True|by rewrite decide_False].
Qed.

Lemma rules_in_absent ns rules : ns ∉ rule_namespace <$> rules → rules_in ns rules = [].
Proof.
  intros Hns. unfold rules_in. induction rules as [|r rules IH]; [done|].
  rewrite filter_cons. simpl in *. rewrite decide_False by set_solver. apply IH. set_solver.
Qed.

Lemma collected_add st rules r : collected st rules → collected (add_rule st r) (rules ++ [r]).
Proof.
  intros [Hc Hm]. unfold add_rule, is_empty. case_bool_decide as Hr; split; simpl.
  - rewrite rules_in_snoc, bool_decide_eq_true_2, fmap_app, Hc by done. done.
  - intros ns. rewrite Hm, rules_in_snoc, fmap_app. simpl.
    destruct (decide (ns = "")) as [->|Hne]; [by rewrite !bool_decide_eq_false_2 by tauto|].
    rewrite (bool_decide_eq_false_2 (rule_namespace r = ns)), app_nil_r by congruence.
    erewrite bool_decide_ext; [done|]. rewrite Hr. set_solver.
  - rewrite rules_in_snoc, bool_decide_eq_false_2, app_nil_r by done. done.
  - intros ns. rewrite rules_in_snoc, fmap_app. simpl.
    destruct (decide (rule_namespace r = ns)) as [<-|Hne].
    + rewrite lookup_insert_eq, !bool_decide_eq_true_2 by set_solver.
      rewrite Hm. f_equal. rewrite fmap_app. f_equal. case_bool_decide as Hin; [done|].
      rewrite rules_in_absent; [done|tauto].
    + rewrite lookup_insert_ne, Hm, (bool_decide_eq_false_2 (rule_namespace r = ns)), app_nil_r by done.
      erewrite bool_decide_ext; [done|]. set_solver.
Qed.

Lemma collected_fold rules st done :
  collected st done → collected (foldl add_rule st rules) (done ++ rules).
Proof.
  revert st done. induction rules as [|r rules IH]; intros st d Hd; simpl; [by rewrite app_nil_r|].
  replace (d ++ r :: rules) with ((d ++ [r]) ++ rules) by (by rewrite <- app_assoc).
  by apply IH, collected_add.
Qed.

Lemma collected_all rules :
  collected (foldl add_rule {| st_cluster := []; st_byNS := ∅ |} rules) rules.
Proof. apply (collected_fold rules _ []). split; [done|]. intros ns.
  rewrite bool_decide_eq_false_2 by set_solver. apply lookup_empty.
Qed.

Lemma policy_grants_rule r a :
  rule_grants r a = true
  ↔ (r.(rule_namespace) = "" ∨ a.(acc_namespace) = Some r.(rule_namespace))
    ∧ policy_grants (toBPPolicyRule r) a = true.
Proof.
  unfold rule_grants, policy_grants, toBPPolicyRule, is_empty. simpl.
  rewrite !andb_true_iff, orb_true_iff.
  rewrite (bool_decide_eq_true (rule_namespace r = "")), (bool_decide_eq_true (acc_namespace a = _)).
  destruct (bool_decide (rule_resourceNames r = [])); simpl; tauto.
Qed.

Lemma existsb_elem {A} (f : A → bool) l : existsb f l = true ↔ ∃ x, x ∈ l ∧ f x = true.
Proof. rewrite List.existsb_exists. by setoid_rewrite list_elem_of_In. Qed.

(** The policy rules of one namespace grant what its RBAC rules do. *)
Lemma rules_in_grant ns rules a :
  existsb (λ p, policy_grants p a) (toBPPolicyRule <$> rules_in ns rules) = true
  ↔ ∃ r, r ∈ rules ∧ r.(rule_namespace) = ns ∧ policy_grants (toBPPolicyRule r) a = true.
Proof.
  rewrite existsb_elem. unfold rules_in. split.
  - intros (p & (r & -> & [Hns Hr]%list_elem_of_filter)%list_elem_of_fmap & Hp). eauto.
  - intros (r & Hr & Hns & Hp). exists (toBPPolicyRule r). split; [|done].
    apply list_elem_of_fmap. exists r. split; [done|]. by apply list_elem_of_filter.
Qed.

#[local] Opaque policy_grants.
Lemma request_grants_rules name rules a :
  request_grants (buildCreateRequest name rules) a = existsb (λ r, rule_grants r a) rules.
Proof.
  destruct (collected_all rules) as [Hc Hm]. apply eq_iff_eq_true.
  unfold request_grants, buildCreateRequest. simpl. rewrite orb_true_iff, Hc, rules_in_grant.
  rewrite !existsb_elem. setoid_rewrite policy_grants_rule.
  setoid_rewrite andb_true_iff. setoid_rewrite bool_decide_eq_true. split.
  - intros [(r & Hr & Hns & Hp)|(role & Hrole & Ha & Hp)]; [by exists r; auto|].
    apply list_elem_of_fmap in Hrole as (ns & Hrole & Hns). subst role. simpl in *.
    apply elem_of_sort_strings, list_elem_of_fmap in Hns as ([ns' ps] & Hns & Hin).
    apply elem_of_map_to_list in Hin. simpl in Hns. subst ns'. rewrite Hin in Hp. simpl in Hp.
    rewrite Hm in Hin. case_bool_decide; [|done]. injection Hin as <-.
    apply rules_in_grant in Hp as (r & Hr & Hns & Hp). exists r.
    split; [done|]. split; [|done]. right. by rewrite Hns.
  - intros (r & Hr & [Hns|Hns] & Hp); [by left; exists r|].
    destruct (decide (rule_namespace r = "")) as [He|Hne]; [by left; exists r|right].
    set (ns := rule_namespace r) in *.
    assert ((foldl add_rule {| st_cluster := []; st_byNS := ∅ |} rules).(st_byNS) !! ns
      = Some (toBPPolicyRule <$> rules_in ns rules)) as Hl.
    { rewrite Hm, bool_decide_eq_true_2; [done|].
      split; [done|]. apply list_elem_of_fmap. by exists r. }
    eexists. split.
    + apply list_elem_of_fmap. exists ns. split; [done|]. apply elem_of_sort_strings, list_elem_of_fmap.
      exists (ns, toBPPolicyRule <$> rules_in ns rules). split; [done|]. by apply elem_of_map_to_list.
    + simpl. split; [done|]. rewrite Hl. simpl. apply rules_in_grant. by exists r.
Qed.

(** C38: the backplane session grants exactly the action's declared rules. An
    access is granted by the request [buildCreateRequest] sends - by a cluster
    role, or by the role of the access's namespace - if and only if one of the
    action's RBAC rules grants it; customer data access is never asked for, and
    the roles' namespaces are sorted and distinct, so the request does not depend
    on map order. *)
Theorem buildCreateRequest_grants name rules :
  let r := buildCreateRequest name rules in
  (∀ a, request_grants r a = existsb (λ rule, rule_grants rule a) rules)
  ∧ r.(cr_customerDataAccess) = false ∧ r.(cr_name) = name
  ∧ StronglySorted String.le (role_namespace <$> r.(cr_roles))
  ∧ NoDup (role_namespace <$> r.(cr_roles)).
Proof.
  split; [intros a; apply request_grants_rules|]. do 2 (split; [done|]). simpl.
  rewrite <- list_fmap_compose. change (role_namespace ∘ _) with (λ ns : string, ns).
  rewrite list_fmap_id. split; [apply sort_strings_sorted|].
  apply sort_strings_NoDup, NoDup_fst_map_to_list.
Qed.

(** ** The origin check *)
Section origin.
Context `{Env} `{GoURL}.

Lemma proxy_config_ok baseURL proxyUri c :
  proxy_config baseURL proxyUri = Ok c →
  ∃ base ref, url_parse baseURL = Ok base ∧ url_parse proxyUri = Ok ref
    ∧ url_scheme (url_resolve base ref) = url_scheme base
    ∧ url_host (url_resolve base ref) = url_host base
    ∧ c = {| rc_host := url_string (url_resolve base ref); rc_trusted := Some (url_host base) |}.
Proof.
  unfold proxy_config. destruct (url_parse baseURL) as [base|]; [|done]. simpl.
  destruct (url_parse proxyUri) as [ref|]; [|done]. simpl.
  repeat case_bool_decide; simpl; try done. intros [= <-]. exists base, ref. repeat split; congruence.
Qed.

(** The configuration [c] is that of a session asked for in the world [w]: backplane's
    answer names a proxy address, which resolves against the base URL to an address with
    the base's scheme and host; the client talks to that address, and trusts that host. *)
Definition session_config (baseURL clusterID actionName : string) (rules : list RBACRule) (w : world)
    (c : rest_config) : Prop :=
  ∃ status body inst proxyUri base ref,
    respond w.(w_calls) (CCreateTrustedAction baseURL clusterID (buildCreateRequest actionName rules))
    = Ok ((status, body), Ok (inst, proxyUri)) ∧ (status = 200 ∨ status = 201)
    ∧ url_parse baseURL = Ok base ∧ url_parse proxyUri = Ok ref
    ∧ let resolved := url_resolve base ref in
      url_scheme resolved = url_scheme base ∧ url_host resolved = url_host base
      ∧ c.(rc_host) = url_string resolved ∧ c.(rc_trusted) = Some (url_host base).

Lemma requestAccessAndConfig_ok baseURL clusterID actionName rules w c w' :
  requestAccessAndConfig baseURL clusterID actionName rules w = (Ok c, w') →
  w' = World (w.(w_calls) ++ [CCreateTrustedAction baseURL clusterID (buildCreateRequest actionName rules)])
         w.(w_cache)
  ∧ session_config baseURL clusterID actionName rules w c.
Proof.
  unfold requestAccessAndConfig, requestAccess, session_config.
  unfold bind_res, wrap_errM, bind, perform, ret. set (q := CCreateTrustedAction _ _ _). simpl.
  destruct (respond (w_calls w) q) as [[[status body] decoded]|e]; simpl; [|done].
  destruct (negb (status =? 200) && negb (status =? 201)) eqn:Hst; simpl; [done|].
  destruct decoded as [[inst uri]|e]; simpl; [|done]. intros [= Hc <-]. split; [done|].
  apply proxy_config_ok in Hc as (base & ref & Hb & Hr & Hs & Hh & ->).
  exists status, body, inst, uri, base, ref. split_and!; try done.
  apply andb_false_iff in Hst as [Hst|Hst]; apply negb_false_iff, Z.eqb_eq in Hst; auto.
Qed.

Lemma new_client_ok msg q answer c0 w c w' : new_client msg q answer c0 w = (Ok c, w') → c = c0.
Proof. unfold new_client, bind, perform, ret. simpl. destruct (answer _ _); simpl; by intros [= <- _]. Qed.

(** C39: the caller's token stays with the configured backplane. A dynamic client or a
    pod executor is returned only with a configuration whose address is the proxy
    address backplane answered, resolved to the scheme and the host of the configured
    base URL, and whose trusted host is that host. Where the base URL names a host, the
    transport attaches the token to no request that names another one. *)
Theorem token_confined baseURL clusterID actionName rules w c w' :
  (BackplaneProvider baseURL).(bp_GetClient) clusterID actionName rules w = (Ok c, w')
  ∨ (BackplaneProvider baseURL).(bp_GetPodExecutor) clusterID actionName rules w = (Ok c, w') →
  session_config baseURL clusterID actionName rules w c
  ∧ ∃ base, url_parse baseURL = Ok base ∧ c.(rc_trusted) = Some (url_host base)
    ∧ ∀ token host header, url_host base ≠ "" → host ≠ "" →
        round_trip (url_host base) token host = Ok (Some header) → host = url_host base.
Proof.
  intros Hc. assert (session_config baseURL clusterID actionName rules w c) as Hs.
  { destruct Hc as [Hc|Hc]; simpl in Hc; unfold bind_res in Hc;
      destruct (requestAccessAndConfig _ _ _ _ w) as [[c0|e] w1] eqn:Hr; try done;
      apply new_client_ok in Hc as ->; by apply requestAccessAndConfig_ok in Hr as [_ Hr]. }
  split; [done|]. destruct Hs as (_ & _ & _ & _ & base & _ & _ & _ & Hb & _ & _ & _ & _ & Ht).
  exists base. do 2 (split; [done|]). intros token host header Hbh Hh. unfold round_trip, is_empty.
  rewrite !bool_decide_eq_false_2 by done. simpl. by case_bool_decide.
Qed.
End origin.

(** ** A concrete session *)
Module BackplaneExample.
Import AwsGetExample.
(** A parser enough for the example: a URL is its host, https throughout. *)
Definition url_stub : GoURL :=
  {| url := string; url_parse := λ s, Ok s; url_resolve := λ base _, base;
     url_scheme := λ _, "https"; url_host := λ u, u; url_string := λ u, "https://" +:+ u |}.
Definition bp_env : Env := λ hist c,
  match c return resp c with
  | CCreateTrustedAction _ _ _ => Ok (201, "", Ok ("i-1", "/proxy"))
  | c => AwsGetExample.env hist c
  end.
Definition session : rest_config := {| rc_host := "https://bp"; rc_trusted := Some "bp" |}.

Lemma token_confined_witness :
  ∃ w', (BackplaneProvider (H := bp_env) (H0 := url_stub) "bp").(bp_GetClient) "c" "get" [] fresh_world
        = (Ok session, w')
  ∧ session_config (H := bp_env) (H0 := url_stub) "bp" "c" "get" [] fresh_world session
  ∧ round_trip "bp" (Ok "t") "elsewhere" = Ok None.
Proof.
  eexists. split; [vm_compute; reflexivity|]. split; [|reflexivity].
  refine (proj1 (token_confined (H := bp_env) (H0 := url_stub) "bp" "c" "get" [] fresh_world session _
    (or_introl _))). vm_compute. reflexivity.
Defined.
End BackplaneExample.
