(* ===== verification/Executor.v ===== *)
(** internal/executor: the pipeline that runs an action - resolve its scope,
    derive the target, authorize, run - and audits every request
    (executor.go), with the Kubernetes scope (kube.go) and the AWS scope
    (aws.go), and the logger the audit records go to (internal/audit/mock.go). *)

From S2P Require Import Prelude GoString Json Env Authorization Actions AwsFilters AwsGet AwsWrite AwsApi Backplane.

(** ** executor.go: the data *)

Record Request := {
  rq_CallerID : string; rq_ClusterID : string; rq_ClusterVersion : string;
  rq_Action : action; rq_Target : option target; rq_Params : strmap }.

(** [req.Target = target] *)
Definition with_target (req : Request) (t : target) : Request :=
  {| rq_CallerID := req.(rq_CallerID); rq_ClusterID := req.(rq_ClusterID);
     rq_ClusterVersion := req.(rq_ClusterVersion); rq_Action := req.(rq_Action);
     rq_Target := Some t; rq_Params := req.(rq_Params) |}.

Record Result := {
  rs_Allowed : bool; rs_Reason : string;
  rs_Output : option ActionResult; rs_Error : option gerror }.

(** [Scope]: one execution domain. *)
Record Scope := {
  sc_Supports : action → bool;
  sc_DeriveTarget : Request → W (res target);
  sc_Authorize : Request → auth_result;
  sc_Run : Request → W (res ActionResult) }.

(** [auditedCause]. *)
Definition auditedCause (e : gerror) : gerror :=
  match errors_as_failure e with Some (_, Some cause) => cause | _ => e end.

(** [scopeFor]: the first scope that supports the action. *)
Definition scopeFor (scopes : list Scope) (a : action) : option Scope :=
  List.find (λ s, s.(sc_Supports) a) scopes.

(** The record [Execute] starts from. *)
Definition initial_record (now : Z) (req : Request) : audit_record :=
  {| rec_timestamp := now; rec_callerID := req.(rq_CallerID); rec_action := action_name req.(rq_Action);
     rec_target := None; rec_clusterID := req.(rq_ClusterID); rec_decision := DecisionUnset;
     rec_denyReason := ""; rec_outcome := OutcomeUnset; rec_error := "" |}.
Definition set_target (r : audit_record) (t : option target) : audit_record :=
  {| rec_timestamp := r.(rec_timestamp); rec_callerID := r.(rec_callerID); rec_action := r.(rec_action);
     rec_target := t; rec_clusterID := r.(rec_clusterID); rec_decision := r.(rec_decision);
     rec_denyReason := r.(rec_denyReason); rec_outcome := r.(rec_outcome); rec_error := r.(rec_error) |}.
Definition set_outcome (r : audit_record) (d : decision) (deny : string) (o : outcome) (err : string)
  : audit_record :=
  {| rec_timestamp := r.(rec_timestamp); rec_callerID := r.(rec_callerID); rec_action := r.(rec_action);
     rec_target := r.(rec_target); rec_clusterID := r.(rec_clusterID); rec_decision := d;
     rec_denyReason := deny; rec_outcome := o; rec_error := err |}.

Definition denied (reason : string) : Result :=
  {| rs_Allowed := false; rs_Reason := reason; rs_Output := None; rs_Error := None |}.

(** audit/mock.go: the logger that keeps what it is given and writes a line of it. *)
Definition decision_text (d : decision) : string :=
  match d with DecisionUnset => "" | DecisionAllowed => "allowed" | DecisionDenied => "denied" end.
Definition outcome_text (o : outcome) : string :=
  match o with OutcomeUnset => "" | OutcomeSuccess => "success" | OutcomeFailure => "failure" | OutcomeSkipped => "skipped" end.
Record audit_line := {
  au_caller : string; au_action : string; au_target : option target; au_cluster_id : string;
  au_decision : string; au_deny_reason : string; au_outcome : string; au_error : string }.
Record MockLogger := { ml_Records : list audit_record; ml_lines : list audit_line }.
Definition NewMockLogger : MockLogger := {| ml_Records := []; ml_lines := [] |}.
Definition MockLogger_Log (m : MockLogger) (r : audit_record) : MockLogger :=
  {| ml_Records := m.(ml_Records) ++ [r];
     ml_lines := m.(ml_lines) ++
       [{| au_caller := r.(rec_callerID); au_action := r.(rec_action); au_target := r.(rec_target);
           au_cluster_id := r.(rec_clusterID); au_decision := decision_text r.(rec_decision);
           au_deny_reason := r.(rec_denyReason); au_outcome := outcome_text r.(rec_outcome);
           au_error := r.(rec_error) |}] |}.

(** The audit records among the calls made, and what the logger holds after them. *)
Definition audit_trail (calls : list call) : list audit_record :=
  omap (λ c, match c with CAudit r => Some r | _ => None end) calls.
Lemma mock_logger_trail calls : (foldl MockLogger_Log NewMockLogger (audit_trail calls)).(ml_Records) = audit_trail calls.
Proof.
  assert (∀ l m, (foldl MockLogger_Log m l).(ml_Records) = m.(ml_Records) ++ l) as Hf.
  { induction l as [|r l IH]; intros m; simpl; [by rewrite app_nil_r|]. rewrite IH. simpl. by rewrite <- app_assoc. }
  by rewrite Hf.
Qed.

Section executor.
Context `{Env}.

(** The body of [Execute], with the audit record it leaves for the deferred
    log: after the scope is found and the target is known. *)
Definition execute_authorized (scope : Scope) (rec : audit_record) (req : Request)
  : W (Result * audit_record) :=
  let rec := set_target rec req.(rq_Target) in
  let auth := scope.(sc_Authorize) req in
  if negb auth.(Allowed) then
    ret (denied auth.(Reason),
         set_outcome rec DecisionDenied auth.(Reason) OutcomeSkipped rec.(rec_error))
  else
    do output <- scope.(sc_Run) req;
    match output with
    | Err e =>
        ret ({| rs_Allowed := true; rs_Reason := auth.(Reason); rs_Output := None; rs_Error := Some e |},
             set_outcome rec DecisionAllowed "" OutcomeFailure (error_text (auditedCause e)))
    | Ok out =>
        ret ({| rs_Allowed := true; rs_Reason := auth.(Reason); rs_Output := Some out; rs_Error := None |},
             set_outcome rec DecisionAllowed "" OutcomeSuccess "")
    end.

Definition execute_body (scopes : list Scope) (rec : audit_record) (req : Request)
  : W (Result * audit_record) :=
  match scopeFor scopes req.(rq_Action) with
  | None =>
      let reason := "no execution scope configured for action " +:+ quoted (action_name req.(rq_Action)) in
      ret (denied reason, set_outcome rec DecisionDenied reason OutcomeSkipped "")
  | Some scope =>
      match req.(rq_Target) with
      | Some _ => execute_authorized scope rec req
      | None =>
          do derived <- scope.(sc_DeriveTarget) req;
          match derived with
          | Err e =>
              ret ({| rs_Allowed := false; rs_Reason := ""; rs_Output := None; rs_Error := Some e |},
                   set_outcome rec DecisionUnset "" OutcomeFailure (error_text (auditedCause e)))
          | Ok t => execute_authorized scope rec (with_target req t)
          end
      end
  end.

(** [Execute]: the deferred [auditor.Log] runs on every return. *)
Definition Execute (scopes : list Scope) (req : Request) : W Result :=
  do now <- perform CNow;
  do (result, rec) <- execute_body scopes (initial_record now req) req;
  do _ <- perform (CAudit rec);
  ret result.

(** ** kube.go *)

(** [%T] of a target. *)
Definition target_type (t : option target) : string :=
  match t with
  | Some (TKube _) => "actions.ResourceTarget"
  | Some (TAws _) => "actions.AWSTarget"
  | None => "<nil>"
  end.

(** [&Failure{Message: msg, Cause: err}] *)
Definition failure {A} (msg : string) (r : res A) : res A :=
  match r with Ok a => Ok a | Err e => Err (EFailure msg e) end.
Definition failureM {A} (msg : string) (m : W (res A)) : W (res A) :=
  do r <- m; ret (failure msg r).

Definition kube_deriveTarget (req : Request) : target :=
  let params := req.(rq_Params) in
  TKube {| rt_group := param params "group"; rt_version := param params "version";
           rt_resource := param params "resource"; rt_namespace := param params "namespace";
           rt_name := param params "name"; rt_clusterScoped := false |}.

Definition kube_request (t : ResourceTarget) : Kube.request :=
  {| Kube.Namespace := t.(rt_namespace); Kube.ResourceType := t.(rt_resource);
     Kube.ResourceName := t.(rt_name); Kube.ClusterScoped := t.(rt_clusterScoped) |}.

Definition kube_authorize (authorizer : Kube.request → auth_result) (req : Request) : auth_result :=
  match req.(rq_Target) with
  | Some (TKube t) => authorizer (kube_request t)
  | t => AuthResult false ("target " +:+ target_type t +:+ " is not a Kubernetes resource target")
  end.

Definition kube_run (bp : KubeClientProvider) (req : Request) : W (res ActionResult) :=
  match as_kube req.(rq_Action) with
  | None => ret (Err (EText ("action " +:+ quoted (action_name req.(rq_Action))
                             +:+ " is not a Kubernetes action")))
  | Some a =>
      match req.(rq_Target) with
      | Some (TKube t) =>
          let name := action_name req.(rq_Action) in
          let rules := a.(ka_requiredRBAC) t in
          do? client <- failureM "failed to get cluster client"
            (bp.(bp_GetClient) req.(rq_ClusterID) name rules);
          do? podExec <- (if a.(ka_usesPodExec) then
                            do? p <- failureM "failed to get pod executor"
                              (bp.(bp_GetPodExecutor) req.(rq_ClusterID) name rules);
                            ret (Ok (Some p))
                          else ret (Ok None));
          failureM "action execution failed"
            (a.(ka_execute) {| kc_dynamic := client; kc_podExecutor := podExec |}
               {| kr_target := t; kr_clusterVersion := req.(rq_ClusterVersion);
                  kr_params := req.(rq_Params) |})
      | t => ret (Err (EText ("target " +:+ target_type t +:+ " is not a Kubernetes resource target")))
      end
  end.

Definition KubeScope (authorizer : Kube.request → auth_result) (bp : KubeClientProvider) : Scope :=
  {| sc_Supports := λ a, match as_kube a with Some _ => true | None => false end;
     sc_DeriveTarget := λ req, ret (Ok (kube_deriveTarget req));
     sc_Authorize := kube_authorize authorizer;
     sc_Run := kube_run bp |}.

(** ** aws.go *)

Definition aws_deriveTarget (aws : ClientProvider) (req : Request) : W (res target) :=
  let params := req.(rq_Params) in
  do? region <- failureM "failed to resolve the cluster's AWS region"
    (aws.(cp_DefaultRegion) req.(rq_ClusterID));
  let resource := param params "resource" in
  match as_aws_write req.(rq_Action) with
  | None => ret (Ok (TAws {| at_region := region; at_resource := resource; at_id := param params "id";
                             at_infraID := "" |}))
  | Some w =>
      if negb (is_empty resource) && negb (bool_decide (resource = w.(aw_resource))) then
        ret (Err (EText ("action " +:+ quoted (action_name req.(rq_Action)) +:+ " acts on "
                         +:+ w.(aw_resource) +:+ ", not " +:+ quoted resource)))
      else
        do? infraID <- failureM "failed to resolve the cluster's infrastructure ID"
          (aws.(cp_ClusterInfraID) req.(rq_ClusterID));
        ret (Ok (TAws {| at_region := region; at_resource := w.(aw_resource);
                         at_id := param params "id"; at_infraID := infraID |}))
  end.

(** The operation is the action's own; a read's is empty. *)
Definition action_operation (a : action) : string :=
  match as_aws_write a with Some w => w.(aw_operation) | None => "" end.

Definition aws_request (a : action) (t : AWSTarget) : Aws.request :=
  {| Aws.Region := t.(at_region); Aws.Resource := t.(at_resource);
     Aws.Operation := action_operation a |}.

Definition aws_authorize (authorizer : Aws.request → auth_result) (req : Request) : auth_result :=
  match req.(rq_Target) with
  | Some (TAws t) => authorizer (aws_request req.(rq_Action) t)
  | t => AuthResult false ("target " +:+ target_type t +:+ " is not an AWS target")
  end.

Definition aws_run (aws : ClientProvider) (req : Request) : W (res ActionResult) :=
  match as_aws req.(rq_Action) with
  | None => ret (Err (EText ("action " +:+ quoted (action_name req.(rq_Action))
                             +:+ " is not an AWS action")))
  | Some a =>
      match req.(rq_Target) with
      | Some (TAws t) =>
          do? clients <- failureM "failed to get AWS clients"
            (aws.(cp_GetClients) req.(rq_ClusterID) t.(at_region) (a.(aa_requiredServices) t));
          failureM "action execution failed"
            (a.(aa_execute) clients {| ar_target := t; ar_params := req.(rq_Params) |})
      | t => ret (Err (EText ("target " +:+ target_type t +:+ " is not an AWS target")))
      end
  end.

Definition AWSScope (authorizer : Aws.request → auth_result) (aws : ClientProvider) : Scope :=
  {| sc_Supports := λ a, match as_aws a with Some _ => true | None => false end;
     sc_DeriveTarget := aws_deriveTarget aws;
     sc_Authorize := aws_authorize authorizer;
     sc_Run := aws_run aws |}.

End executor.

(** ** Calls *)

Definition not_audit (c : call) : Prop := match c with CAudit _ => False | _ => True end.
(** Looking a cluster up. *)
Definition lookup_call (c : call) : Prop :=
  match c with CNow | CClusterSearch _ _ => True | _ => False end.
(** Obtaining AWS clients. *)
Definition provision_call (c : call) : Prop :=
  match c with CNow | CClusterSearch _ _ | CCloudCredentials _ _ _ _ _ | CLoadAwsConfig _ => True
  | _ => False end.

(** ** Interfaces the pipeline's theorems rely on *)

(** An audit-free action: only [Execute] writes audit records. *)
Class AuditFreeAction (a : action) : Prop := audit_free_action :
  match a with
  | ActKube k => ∀ clients req, makes not_audit (k.(ka_execute) clients req)
  | ActAws k | ActAwsWrite (Build_AWSWriteAction k _ _) =>
      ∀ clients req, makes not_audit (k.(aa_execute) clients req)
  | ActOther _ => True
  end.

(** A scope that leaves the audit trail alone when it handles [a]. *)
Class AuditFreeScope (s : Scope) (a : action) : Prop := {
  derive_audit_free : ∀ req, req.(rq_Action) = a → makes not_audit (s.(sc_DeriveTarget) req);
  run_audit_free : ∀ req, req.(rq_Action) = a → makes not_audit (s.(sc_Run) req) }.

(** A client provider: its lookups only look up, its clients only provision. *)
Class ProviderLaws (p : ClientProvider) : Prop := {
  region_lookup : ∀ id, makes lookup_call (p.(cp_DefaultRegion) id);
  infra_lookup : ∀ id, makes lookup_call (p.(cp_ClusterInfraID) id);
  clients_provision : ∀ id region services, makes provision_call (p.(cp_GetClients) id region services) }.

(** A Kubernetes client provider does not write audit records. *)
Class KubeProviderLaws (p : KubeClientProvider) : Prop := {
  client_audit_free : ∀ id name rules, makes not_audit (p.(bp_GetClient) id name rules);
  executor_audit_free : ∀ id name rules, makes not_audit (p.(bp_GetPodExecutor) id name rules) }.

Section laws.
Context `{Env}.

Lemma makes_failureM {A} (P : call → Prop) msg (m : W (res A)) :
  makes P m → makes P (failureM msg m).
Proof. intros. unfold failureM. apply makes_bind; [done|]. intros. apply makes_ret. Qed.
Hint Resolve makes_failureM : makes.

Lemma makes_no_calls {A} (P : call → Prop) (m : W A) :
  (∀ w, w_calls (m w).2 = w_calls w) → makes P m.
Proof. intros Hm w. exists []. by rewrite app_nil_r. Qed.

Lemma makes_store P id e : makes P (store_cluster id e).
Proof. by apply makes_no_calls. Qed.
Lemma makes_read_cache P id : makes P (read_cache id).
Proof. by apply makes_no_calls. Qed.
Hint Resolve makes_store makes_read_cache : makes.

Lemma clusters_get_lookup conn id : makes lookup_call (clusters_get conn id).
Proof. unfold clusters_get. solve_makes. Qed.

Lemma provider_cluster_lookup cfg conn connection url_error id :
  makes lookup_call (provider_cluster cfg (ocm_deps conn connection url_error) id).
Proof.
  pose proof (clusters_get_lookup conn id) as Hg.
  unfold provider_cluster, cluster_refresh. solve_makes.
Qed.

Lemma lookup_provision c : lookup_call c → provision_call c.
Proof. by destruct c. Qed.
Lemma lookup_not_audit c : lookup_call c → not_audit c.
Proof. by destruct c. Qed.
Lemma provision_not_audit c : provision_call c → not_audit c.
Proof. by destruct c. Qed.

#[export] Instance static_provider_laws cfg : ProviderLaws (StaticProvider cfg).
Proof.
  split; intros; simpl; [solve_makes..|]. unfold static_getClients, load_config. solve_makes.
Qed.

#[export] Instance cloud_provider_laws cfg conn connection url_error :
  ProviderLaws (CloudCredentialsProvider cfg (ocm_deps conn connection url_error)).
Proof.
  pose proof (provider_cluster_lookup cfg conn connection url_error) as Hl.
  split; intros; simpl.
  - unfold cloud_defaultRegion. solve_makes.
  - unfold cloud_clusterInfraID. solve_makes.
  - unfold cloud_getClients. apply makes_bind_res.
    + eapply makes_weaken; [apply lookup_provision|apply Hl].
    + intros c. unfold fetchCredentials, load_config. solve_makes.
Qed.

#[export] Instance kubeconfig_provider_laws path : KubeProviderLaws (KubeconfigProvider path).
Proof.
  split; intros; simpl; unfold kubeconfig_load, new_dynamic, new_clientset, new_client; solve_makes.
Qed.

#[export] Instance backplane_provider_laws `{GoURL} url : KubeProviderLaws (BackplaneProvider url).
Proof.
  split; intros; simpl;
    unfold requestAccessAndConfig, requestAccess, new_dynamic, new_clientset, new_client; solve_makes.
Qed.

#[export] Instance kube_scope_audit_free authorizer bp a :
  KubeProviderLaws bp → AuditFreeAction a → AuditFreeScope (KubeScope authorizer bp) a.
Proof.
  intros [Hc He] Ha. split; intros req Hreq; simpl; [apply makes_ret|].
  unfold kube_run. rewrite Hreq. destruct a as [k| | |]; simpl; [|apply makes_ret..].
  unfold AuditFreeAction in Ha. solve_makes.
Qed.

#[export] Instance aws_scope_audit_free authorizer aws a :
  ProviderLaws aws → AuditFreeAction a → AuditFreeScope (AWSScope authorizer aws) a.
Proof.
  intros [Hr Hi Hc] Ha.
  assert (∀ id, makes not_audit (cp_DefaultRegion aws id)) as Hr'
    by (intros; eapply makes_weaken; [apply lookup_not_audit|done]).
  assert (∀ id, makes not_audit (cp_ClusterInfraID aws id)) as Hi'
    by (intros; eapply makes_weaken; [apply lookup_not_audit|done]).
  assert (∀ id region services, makes not_audit (cp_GetClients aws id region services)) as Hc'
    by (intros; eapply makes_weaken; [apply provision_not_audit|done]).
  split; intros req Hreq; simpl.
  - unfold aws_deriveTarget. solve_makes.
  - unfold aws_run. rewrite Hreq. destruct a as [|k|[k ? ?]|]; simpl;
      [apply makes_ret| | |apply makes_ret]; unfold AuditFreeAction in Ha; solve_makes.
Qed.
End laws.
