(* ===== verification/Pipeline.v ===== *)
(** The execution pipeline as cmd/server assembles it: the actions the packages
    register, the two scopes, and the end-to-end guarantees of [Execute]. *)

From S2P Require Import Prelude GoString Json Env Authorization Actions DescribeNodes ListAlerts AwsFilters AwsGet AwsWrite AwsApi Backplane Executor.

(** ** The registry the [init] functions fill *)
Section registry.
Context `{Env} `{GoJson} `{AwsSdk} `{GoDuration}.

Definition kube_actions : list KubeAction :=
  [GetAction; DeleteAction; PatchAction; GetPullSecretEmailAction; DescribeNodesAction; ListAlertsAction].

Definition server_actions : list action :=
  (ActKube <$> kube_actions)
  ++ [ActAws AWSGetAction; ActAwsWrite AWSRebootAction; ActAwsWrite AWSTerminateAction].

Definition action_registry : gmap string action :=
  foldr RegisterActionFactory ∅ server_actions.

Lemma registry_names name : is_Some (action_registry !! name) ↔ name ∈ action_name <$> server_actions.
Proof.
  unfold action_registry. induction server_actions as [|a l IH]; cbn [foldr].
  - rewrite lookup_empty, elem_of_nil. split; [by intros []|done].
  - rewrite fmap_cons, elem_of_cons, <- IH. unfold RegisterActionFactory.
    destruct (decide (name = action_name a)) as [->|Hne].
    + rewrite lookup_insert_eq. split; eauto.
    + rewrite lookup_insert_ne by done. tauto.
Qed.

Lemma kube_actions_least_privileged a : a ∈ kube_actions → least_privileged a.
Proof.
  unfold kube_actions. intros Ha.
  repeat (apply elem_of_cons in Ha as [->|Ha]); [..|by inversion Ha];
    auto using get_least_privileged, delete_least_privileged, patch_least_privileged,
      pullsecret_least_privileged, nodes_least_privileged, alerts_least_privileged.
Qed.

Lemma granted_not_audit clients rules c : granted clients rules c → not_audit c.
Proof. unfold granted. by destruct c. Qed.

Lemma guarded_audit_free mutate execute :
  (∀ h id, not_audit (mutate h id)) → guarded mutate execute →
  ∀ clients req, makes not_audit (execute clients req).
Proof.
  intros Hm Hg clients req w. destruct (Hg clients req w) as (pre & post & r & Hw & Hch & Hr).
  exists (pre ++ post). split; [done|]. apply Forall_app. split.
  - inversion Hch; repeat constructor.
  - destruct r; [destruct Hr as (h & _ & ->)|destruct Hr as [-> _]]; repeat constructor. apply Hm.
Qed.

Lemma server_actions_audit_free a : a ∈ server_actions → AuditFreeAction a.
Proof.
  unfold server_actions. intros [Ha|Ha]%elem_of_app.
  - apply list_elem_of_fmap in Ha as (k & -> & Hk%kube_actions_least_privileged).
    intros clients req. eapply makes_weaken; [|exact (Hk clients req)]. intros c. apply granted_not_audit.
  - repeat (apply elem_of_cons in Ha as [->|Ha]); [..|by inversion Ha]; intros clients req.
    + eapply makes_weaken; [|apply awsget_reads]. by intros [].
    + by eapply guarded_audit_free; [|apply reboot_is_guarded].
    + by eapply guarded_audit_free; [|apply terminate_is_guarded].
Qed.
End registry.

(** ** Exactly one audit record *)

(** What the record says agrees with what the caller is told. *)
Definition record_matches (req : Request) (r : Result) (rec : audit_record) : Prop :=
  rec.(rec_callerID) = req.(rq_CallerID) ∧ rec.(rec_clusterID) = req.(rq_ClusterID)
  ∧ rec.(rec_action) = action_name req.(rq_Action)
  ∧ match r.(rs_Allowed), r.(rs_Error) with
    | false, None => r.(rs_Output) = None ∧ rec.(rec_decision) = DecisionDenied
                     ∧ rec.(rec_denyReason) = r.(rs_Reason) ∧ rec.(rec_outcome) = OutcomeSkipped
    | false, Some e => r.(rs_Output) = None ∧ rec.(rec_decision) = DecisionUnset
                       ∧ rec.(rec_outcome) = OutcomeFailure
                       ∧ rec.(rec_error) = error_text (auditedCause e)
    | true, Some e => r.(rs_Output) = None ∧ rec.(rec_decision) = DecisionAllowed
                      ∧ rec.(rec_outcome) = OutcomeFailure
                      ∧ rec.(rec_error) = error_text (auditedCause e) ∧ rec.(rec_target) ≠ None
    | true, None => is_Some r.(rs_Output) ∧ rec.(rec_decision) = DecisionAllowed
                    ∧ rec.(rec_outcome) = OutcomeSuccess ∧ rec.(rec_target) ≠ None
    end.

Section audit.
Context `{Env}.

Lemma execute_authorized_audit scope rec req w :
  AuditFreeScope scope req.(rq_Action) → req.(rq_Target) ≠ None →
  rec.(rec_callerID) = req.(rq_CallerID) → rec.(rec_clusterID) = req.(rq_ClusterID) →
  rec.(rec_action) = action_name req.(rq_Action) →
  let '((r, rec'), w') := execute_authorized scope rec req w in
  record_matches req r rec' ∧ rec'.(rec_timestamp) = rec.(rec_timestamp)
  ∧ ∃ mid, w'.(w_calls) = w.(w_calls) ++ mid ∧ Forall not_audit mid.
Proof.
  intros [_ Hrun] Ht Hc Hcl Ha. unfold execute_authorized.
  destruct (Allowed (sc_Authorize scope req)) eqn:Hauth; simpl.
  - destruct (Hrun req eq_refl w) as (mid & Hmid & Hf). unfold bind.
    destruct (sc_Run scope req w) as [[out|e] w']; simpl in *; (split; [|split; [done|eauto]]);
      unfold record_matches; simpl; by repeat split.
  - split; [unfold record_matches; simpl; by repeat split|]. split; [done|].
    exists []. by rewrite app_nil_r.
Qed.

Lemma execute_body_audit scopes now req w :
  (∀ s, s ∈ scopes → AuditFreeScope s req.(rq_Action)) →
  let '((r, rec), w') := execute_body scopes (initial_record now req) req w in
  record_matches req r rec ∧ rec.(rec_timestamp) = now
  ∧ ∃ mid, w'.(w_calls) = w.(w_calls) ++ mid ∧ Forall not_audit mid.
Proof.
  intros Hfree. unfold execute_body. destruct (scopeFor scopes (rq_Action req)) as [s|] eqn:Hs.
  2: { simpl. split; [by repeat split|]. split; [done|]. exists []. by rewrite app_nil_r. }
  assert (AuditFreeScope s (rq_Action req)) as Hsf.
  { apply Hfree. apply List.find_some in Hs as [Hin _]. by apply list_elem_of_In. }
  destruct (rq_Target req) as [t|] eqn:Ht.
  { pose proof (execute_authorized_audit s (initial_record now req) req w Hsf) as Ha.
    rewrite Ht in Ha. by apply Ha. }
  unfold bind. destruct (derive_audit_free req eq_refl w) as (mid1 & Hm1 & Hf1).
  destruct (sc_DeriveTarget s req w) as [[t|e] w1]; simpl in Hm1.
  - pose proof (execute_authorized_audit s (initial_record now req) (with_target req t) w1 Hsf) as Ha.
    destruct (execute_authorized _ _ _ w1) as [[r rec] w'].
    destruct Ha as (Hr & Hts & mid2 & Hm2 & Hf2); [done..|].
    split; [exact Hr|]. split; [exact Hts|]. exists (mid1 ++ mid2).
    rewrite Hm2, Hm1, app_assoc. split; [done|]. by apply Forall_app.
  - simpl. split; [by repeat split|]. split; [done|]. eauto.
Qed.

Lemma execute_audit scopes req w :
  (∀ s, s ∈ scopes → AuditFreeScope s req.(rq_Action)) →
  let '(r, w') := Execute scopes req w in
  ∃ mid rec, w'.(w_calls) = w.(w_calls) ++ CNow :: mid ++ [CAudit rec]
    ∧ Forall not_audit mid ∧ record_matches req r rec
    ∧ rec.(rec_timestamp) = respond w.(w_calls) CNow.
Proof.
  intros Hfree. unfold Execute, bind, perform.
  pose proof (execute_body_audit scopes (respond (w_calls w) CNow) req
    (World (w_calls w ++ [CNow]) (w_cache w)) Hfree) as Hb.
  destruct (execute_body _ _ _ _) as [[r rec] w1]. destruct Hb as (Hr & Hts & mid & Hm & Hf).
  simpl. exists mid, rec. rewrite Hm. simpl. by rewrite <- !app_assoc.
Qed.

(** C6: every request is audited exactly once, last, and truthfully. Whatever the
    scopes answer - no scope, a target that cannot be derived, a denial, a failed
    or a successful run - [Execute] writes one audit record, as its last call; it
    names the caller, the cluster and the action, its decision and outcome are
    those of the returned result, it records the underlying cause of a failure, and
    its timestamp is read before anything else happens. *)
Theorem execute_audited scopes req w :
  (∀ s, s ∈ scopes → AuditFreeScope s req.(rq_Action)) →
  let '(r, w') := Execute scopes req w in
  ∃ mid rec, w'.(w_calls) = w.(w_calls) ++ CNow :: mid ++ [CAudit rec]
    ∧ Forall not_audit mid ∧ record_matches req r rec
    ∧ rec.(rec_timestamp) = respond w.(w_calls) CNow.
Proof. exact (execute_audit scopes req w). Qed.
End audit.

(** ** Authorization gates everything *)
Section policy.
Context `{Env}.

(** The scopes of cmd/server, over the configured lists. *)
Definition server_scopes (namespaces secrets : list string) (policy : Aws.policy)
    (bp : KubeClientProvider) (aws : ClientProvider) : list Scope :=
  [ KubeScope (Kube.Authorize (Kube.New namespaces secrets)) bp;
    AWSScope (Aws.Authorize (Aws.NewAWS policy)) aws ].

(** The target a request is judged on: its own, or the one its scope derives. *)
Definition judged_target (aws : ClientProvider) (req : Request) (t : target) : Prop :=
  match req.(rq_Target) with
  | Some t' => t = t'
  | None => match t with
            | TKube _ => t = kube_deriveTarget req
            | TAws at' => (∃ w, (aws.(cp_DefaultRegion) req.(rq_ClusterID) w).1 = Ok at'.(at_region))
                          ∧ at'.(at_id) = param req.(rq_Params) "id"
                          ∧ at'.(at_resource) = match as_aws_write req.(rq_Action) with
                                                | Some wr => wr.(aw_resource)
                                                | None => param req.(rq_Params) "resource"
                                                end
            end
  end.

Definition policy_permits (namespaces secrets : list string) (policy : Aws.policy) (a : action)
    (t : target) : Prop :=
  match a, t with
  | ActKube _, TKube kt => Kube.permitted namespaces secrets (kube_request kt)
  | ActAws _, TAws at' | ActAwsWrite _, TAws at' => Aws.permitted policy (aws_request a at')
  | _, _ => False
  end.

(** A call that reaches no cluster and no AWS account. *)
Definition harmless (c : call) : Prop := lookup_call c ∨ ∃ rec, c = CAudit rec.

Context (namespaces secrets : list string) (policy : Aws.policy)
  (bp : KubeClientProvider) (aws : ClientProvider).
Local Notation scopes := (server_scopes namespaces secrets policy bp aws).

Lemma server_scope_for a :
  scopeFor scopes a = match a with
                      | ActKube _ => Some (KubeScope (Kube.Authorize (Kube.New namespaces secrets)) bp)
                      | ActAws _ | ActAwsWrite _ => Some (AWSScope (Aws.Authorize (Aws.NewAWS policy)) aws)
                      | ActOther _ => None
                      end.
Proof. by destruct a. Qed.

Lemma server_authorize_permits scope req t :
  scopeFor scopes req.(rq_Action) = Some scope → req.(rq_Target) = Some t →
  Allowed (scope.(sc_Authorize) req) = true → policy_permits namespaces secrets policy req.(rq_Action) t.
Proof.
  rewrite server_scope_for. intros Hs Ht. unfold policy_permits.
  destruct (rq_Action req) eqn:Ha; simplify_eq/=;
    unfold kube_authorize, aws_authorize; rewrite Ht; destruct t; simpl; try done;
    rewrite ?kube_authorize_permitted, ?aws_authorize_permitted; rewrite ?Ha; done.
Qed.

Lemma aws_deriveTarget_judged req w t w' :
  req.(rq_Target) = None → aws_deriveTarget aws req w = (Ok t, w') → judged_target aws req t.
Proof.
  intros Ht. unfold aws_deriveTarget, judged_target, bind_res at 1, failureM, bind at 1, ret at 1.
  rewrite Ht. destruct (cp_DefaultRegion aws _ w) as [[region|e] w1] eqn:Hr; simpl; [|done].
  assert (∃ w0, (cp_DefaultRegion aws (rq_ClusterID req) w0).1 = Ok region) as Hreg
    by (exists w; by rewrite Hr).
  destruct (as_aws_write (rq_Action req)) as [wr|]; [|by intros [= <- _]].
  case_match; [done|]. unfold bind_res, bind, ret.
  destruct (cp_ClusterInfraID _ _ _) as [[infra|e] w2]; simpl; [by intros [= <- _]|done].
Qed.

Lemma server_derive scope req w :
  ProviderLaws aws →
  scopeFor scopes req.(rq_Action) = Some scope → req.(rq_Target) = None →
  makes lookup_call (scope.(sc_DeriveTarget) req)
  ∧ ∀ t w', scope.(sc_DeriveTarget) req w = (Ok t, w') → judged_target aws req t.
Proof.
  rewrite server_scope_for. intros [Hr Hi _] Hs Ht.
  destruct (rq_Action req) as [k|k|k|n] eqn:Ha; simplify_eq/=; (split; [|intros t w' Hd]).
  - apply makes_ret.
  - injection Hd as <- _. unfold judged_target. by rewrite Ht.
  - unfold aws_deriveTarget, failureM. solve_makes.
  - by eapply aws_deriveTarget_judged.
  - unfold aws_deriveTarget, failureM. solve_makes.
  - by eapply aws_deriveTarget_judged.
Qed.

(** [execute_authorized] refuses without a call, or has the policy's permission. *)
Lemma execute_authorized_policy scope rec req t w :
  scopeFor scopes req.(rq_Action) = Some scope → req.(rq_Target) = Some t →
  let '((r, _), w') := execute_authorized scope rec req w in
  (r.(rs_Allowed) = true → policy_permits namespaces secrets policy req.(rq_Action) t)
  ∧ (r.(rs_Allowed) = false → w' = w).
Proof.
  intros Hs Ht. unfold execute_authorized.
  pose proof (server_authorize_permits scope req t Hs Ht) as Hp.
  destruct (Allowed (sc_Authorize scope req)); simpl; [|by split].
  unfold bind. destruct (sc_Run scope req w) as [[out|e] w']; simpl; split; auto; done.
Qed.

Lemma execute_policy req w :
  ProviderLaws aws →
  let '(r, w') := Execute scopes req w in
  (r.(rs_Allowed) = true →
     ∃ t, judged_target aws req t ∧ policy_permits namespaces secrets policy req.(rq_Action) t)
  ∧ (r.(rs_Allowed) = false →
     ∃ new, w'.(w_calls) = w.(w_calls) ++ new ∧ Forall harmless new).
Proof.
  intros Hlaws. unfold Execute, bind, perform, ret. set (now := respond (w_calls w) CNow).
  set (w0 := World (w_calls w ++ [CNow]) (w_cache w)). set (rec0 := initial_record now req).
  assert (let '((r, _), w1) := execute_body scopes rec0 req w0 in
    (rs_Allowed r = true → ∃ t, judged_target aws req t
       ∧ policy_permits namespaces secrets policy (rq_Action req) t)
    ∧ (rs_Allowed r = false → ∃ mid, w_calls w1 = w_calls w0 ++ mid ∧ Forall lookup_call mid)) as Hb.
  { assert (∃ mid, w_calls w0 = w_calls w0 ++ mid ∧ Forall lookup_call mid) as Hnil
      by (exists []; by rewrite app_nil_r).
    unfold execute_body. destruct (scopeFor scopes (rq_Action req)) as [scope|] eqn:Hs; [|by split].
    destruct (rq_Target req) as [t|] eqn:Ht.
    - pose proof (execute_authorized_policy scope rec0 req t w0 Hs Ht) as Hp.
      destruct (execute_authorized _ _ _ _) as [[r ?] w1]. destruct Hp as [Hp Hw].
      split; [|by intros ->%Hw]. intros Ha. exists t. unfold judged_target. rewrite Ht. auto.
    - destruct (server_derive scope req w0 Hlaws Hs Ht) as [Hmk Hj]. unfold bind.
      destruct (Hmk w0) as (mid & Hmid & Hf).
      destruct (sc_DeriveTarget scope req w0) as [[t|e] w1]; simpl in Hmid; [|split; simpl; [done|eauto]].
      pose proof (execute_authorized_policy scope rec0 (with_target req t) t w1 Hs eq_refl) as Hp.
      destruct (execute_authorized _ _ _ _) as [[r ?] w2]. destruct Hp as [Hp Hw].
      split; [|intros ->%Hw; eauto]. intros Ha. exists t. split; [by eapply Hj|by apply Hp]. }
  destruct (execute_body _ _ _ _) as [[r rec] w1]. destruct Hb as [Hok Hno]. simpl.
  split; [done|]. intros Hd. destruct (Hno Hd) as (mid & Hmid & Hf).
  exists (CNow :: mid ++ [CAudit rec]). rewrite Hmid. unfold w0. simpl. rewrite <- !app_assoc.
  split; [done|]. constructor; [by left|]. apply Forall_app. split.
  - eapply Forall_impl; [done|]. by left.
  - constructor; [|done]. right. eauto.
Qed.

(** C1: nothing reaches a cluster or an AWS account without the policy's
    permission. When [Execute] reports a request as allowed, the configured lists
    permit the target it was judged on - its own, or the one derived from the
    params, whose region is the provider's answer for the cluster and which is
    never cluster-scoped; when it does not, the only calls made are the clock, the
    OCM lookup and the audit record. *)
Theorem policy_enforced req w :
  ProviderLaws aws →
  let '(r, w') := Execute scopes req w in
  (r.(rs_Allowed) = true →
     ∃ t, judged_target aws req t ∧ policy_permits namespaces secrets policy req.(rq_Action) t)
  ∧ (r.(rs_Allowed) = false →
     ∃ new, w'.(w_calls) = w.(w_calls) ++ new ∧ Forall harmless new).
Proof. exact (execute_policy req w). Qed.
End policy.

(** ** What the Kubernetes policy looks at *)
Section decision.
#[local] Arguments param : simpl never.
Context `{Env} `{GoJson} (namespaces secrets : list string) (policy : Aws.policy)
  (bp : KubeClientProvider) (aws : ClientProvider).
Local Notation scopes := (server_scopes namespaces secrets policy bp aws).

Lemma kube_execute_decision a req w :
  req.(rq_Action) = ActKube a → req.(rq_Target) = None →
  let d := Kube.Authorize (Kube.New namespaces secrets)
             {| Kube.Namespace := param req.(rq_Params) "namespace";
                Kube.ResourceType := param req.(rq_Params) "resource";
                Kube.ResourceName := param req.(rq_Params) "name"; Kube.ClusterScoped := false |} in
  (Execute scopes req w).1.(rs_Allowed) = d.(Allowed)
  ∧ (d.(Allowed) = false → (Execute scopes req w).1 = denied d.(Reason)).
Proof.
  intros Ha Ht d. unfold Execute, execute_body, server_scopes, scopeFor, bind. rewrite Ha, Ht. simpl.
  unfold execute_authorized. cbn [sc_Authorize KubeScope kube_authorize rq_Target with_target kube_deriveTarget].
  unfold kube_request. cbn [rt_namespace rt_resource rt_name rt_clusterScoped]. fold d. destruct (Allowed d) eqn:Hd; simpl; [|by repeat split].
  unfold bind. simpl. destruct (kube_run _ _ _) as [[out|e] w']; by split.
Qed.

(** C35: the Kubernetes policy judges the params, not the access. For a run without
    a target of its own, whether it is allowed is a function of the namespace, resource
    and name params alone, the same for every Kubernetes action and every cluster's
    answers. With a namespace allowlist it is allowed exactly when the namespace param is
    listed and, only if the resource param is "secrets", a name is given and the
    namespace/name is on the secret allowlist; every other run is denied with the reason.
    Whatever the action then reads, such as the pull secret of get-pull-secret-email,
    plays no part. *)
Theorem kube_policy_judges_params a req w :
  req.(rq_Action) = ActKube a → req.(rq_Target) = None →
  let ns := param req.(rq_Params) "namespace" in
  let name := param req.(rq_Params) "name" in
  let secret := param req.(rq_Params) "resource" = "secrets" in
  let r := (Execute scopes req w).1 in
  (r.(rs_Allowed) = true ↔
     namespaces = []
     ∨ ns ≠ "" ∧ ns ∈ namespaces ∧ (secret → name ≠ "" ∧ ns +:+ "/" +:+ name ∈ secrets))
  ∧ (r.(rs_Allowed) = false →
       ns = "" ∧ r = denied "namespace is required for namespaced resources"
       ∨ ns ≠ "" ∧ ns ∉ namespaces ∧ r = denied ("namespace not in allowlist: " +:+ ns)
       ∨ ns ∈ namespaces ∧ secret ∧ (name = "" ∨ ns +:+ "/" +:+ name ∉ secrets)
         ∧ r = denied ("secrets access denied: " +:+ (ns +:+ "/" +:+ name) +:+ " not in allowlist"))
  ∧ (∀ a' req' w', req'.(rq_Action) = ActKube a' → req'.(rq_Target) = None →
       (∀ k, k ∈ ["namespace"; "resource"; "name"] → param req'.(rq_Params) k = param req.(rq_Params) k) →
       (Execute scopes req' w').1.(rs_Allowed) = r.(rs_Allowed)).
Proof.
  intros Ha Ht ns name secret r. destruct (kube_execute_decision a req w Ha Ht) as [Hal Hden].
  fold r in Hal, Hden. split_and!.
  - rewrite Hal, kube_authorize_permitted. unfold Kube.permitted, Kube.secret_key. simpl. fold ns name secret. naive_solver.
  - rewrite Hal. intros Hf. rewrite (Hden Hf). clear Hden. revert Hf. unfold Kube.Authorize, Kube.secret_key. simpl.
    fold ns name. destruct (Nat.eqb _ _); [done|]. case_bool_decide as Hns; simpl; [by left|].
    destruct (bool_decide (ns ∈ stringSet namespaces)) eqn:Hin; simpl;
      [apply bool_decide_eq_true in Hin|apply bool_decide_eq_false in Hin]; rewrite elem_of_stringSet in Hin;
      [|right; by left].
    destruct (bool_decide (_ = "secrets")) eqn:Hsec; simpl; [apply bool_decide_eq_true in Hsec|done].
    destruct (_ || _) eqn:Hor; [intros _; right; right|done]. split_and!; [done|done| |done].
    apply orb_true_iff in Hor as [?%bool_decide_eq_true|Hor]; [by left|right].
    by rewrite <- elem_of_stringSet, <- bool_decide_eq_false, <- negb_true_iff.
  - intros a' req' w' Ha' Ht' Hk. destruct (kube_execute_decision a' req' w' Ha' Ht') as [-> _].
    rewrite Hal, !Hk by set_solver. done.
Qed.
End decision.

(** ** Least privilege on the cluster *)
Section cluster.
Context `{Env} `{GoURL}.

Lemma makes_bind_res_ok {A B} (P : call → Prop) (m : W (res A)) (k : A → W (res B)) :
  makes P m → (∀ w a w', m w = (Ok a, w') → makes P (k a)) → makes P (bind_res m k).
Proof.
  intros Hm Hk w. unfold bind_res. destruct (Hm w) as (n1 & E1 & F1).
  destruct (m w) as [[a|e] w1] eqn:Hw; simpl in E1; [|exists n1; done].
  destruct (Hk _ _ _ Hw w1) as (n2 & E2 & F2).
  exists (n1 ++ n2). rewrite E2, E1, app_assoc. split; [done|]. by apply Forall_app.
Qed.

(** The calls of one Kubernetes run: opening the session with the request built
    from the declared rules, and calls on the cluster that this very request
    grants, sent to the configured backplane. *)
Definition session_call (baseURL clusterID name : string) (rules : list RBACRule) (c : call) : Prop :=
  let request := buildCreateRequest name rules in
  match c with
  | CCreateTrustedAction url id r => url = baseURL ∧ id = clusterID ∧ r = request
  | CNewDynamic _ | CNewClientset _ => True
  | _ => ∃ h a base, cluster_access c = Some (h, a) ∧ request_grants request a = true
                     ∧ url_parse baseURL = Ok base ∧ h.(rc_trusted) = Some (url_host base)
  end.

Lemma request_session baseURL id name rules :
  makes (session_call baseURL id name rules) (requestAccessAndConfig baseURL id name rules).
Proof. unfold requestAccessAndConfig, requestAccess. solve_makes. Qed.

(** A client or executor the provider returns is bound to the base URL's host. *)
Lemma session_client msg q answer baseURL id name rules :
  (∀ c, session_call baseURL id name rules (q c)) →
  let m := bind_res (requestAccessAndConfig baseURL id name rules) (new_client msg q answer) in
  makes (session_call baseURL id name rules) m
  ∧ ∀ w c w', m w = (Ok c, w') →
      ∃ base, url_parse baseURL = Ok base ∧ c.(rc_trusted) = Some (url_host base).
Proof.
  intros Hq m. split.
  - apply makes_bind_res; [apply request_session|]. intros c. unfold new_client. solve_makes.
  - intros w c w'. unfold m, bind_res.
    destruct (requestAccessAndConfig _ _ _ _ w) as [[c0|e] w1] eqn:Hr; [|done].
    apply requestAccessAndConfig_ok in Hr as (_ & _ & _ & _ & _ & base & _ & _ & _ & Hb & _ & _ & _ & _ & Ht).
    intros ->%new_client_ok. eauto.
Qed.

Lemma granted_session baseURL id name rules clients base c :
  url_parse baseURL = Ok base → clients.(kc_dynamic).(rc_trusted) = Some (url_host base) →
  (∀ h, clients.(kc_podExecutor) = Some h → h.(rc_trusted) = Some (url_host base)) →
  granted clients rules c → session_call baseURL id name rules c.
Proof.
  intros Hb Hd Hp. unfold granted. destruct (cluster_access c) as [[h a]|] eqn:Hc; [|done].
  rewrite <- (request_grants_rules name rules a). intros [Hh Hg].
  assert (rc_trusted h = Some (url_host base)) as Ht by (destruct Hh as [->|Hh]; auto).
  destruct c; simpl in Hc; try done; simpl; eauto 10.
Qed.

(** C8: a Kubernetes run stays inside the session it opened. For every registered
    Kubernetes action, whatever the target, the params and the cluster's answers,
    each call of [Run] is the opening of a session for the request's own cluster
    with exactly the request built from the action's declared rules, or a call on
    that cluster, through the configured backplane's host, that this request's
    roles grant. *)
Theorem kube_run_least_privilege `{GoJson} baseURL req k t :
  k ∈ kube_actions → req.(rq_Action) = ActKube k → req.(rq_Target) = Some (TKube t) →
  makes (session_call baseURL req.(rq_ClusterID) k.(ka_name) (k.(ka_requiredRBAC) t))
        (kube_run (BackplaneProvider baseURL) req).
Proof.
  intros Hk%kube_actions_least_privileged Ha Ht. unfold kube_run. rewrite Ha, Ht. simpl.
  set (rules := ka_requiredRBAC k t).
  destruct (session_client "failed to create dynamic client for proxy" CNewDynamic (λ _ e, e)
    baseURL (rq_ClusterID req) (ka_name k) rules) as [Hm1 Hc1]; [done|].
  destruct (session_client "failed to create kubernetes clientset for proxy" CNewClientset (λ _ e, e)
    baseURL (rq_ClusterID req) (ka_name k) rules) as [Hm2 Hc2]; [done|].
  apply makes_bind_res_ok; [by apply makes_failureM|].
  intros w client w' Hr. unfold failureM, bind at 1, ret at 1 in Hr.
  destruct (bind_res _ _ w) as [[c|e] w1] eqn:Hcl; simplify_eq/=.
  apply Hc1 in Hcl as (base & Hb & Hd).
  apply makes_bind_res_ok.
  { destruct (ka_usesPodExec k); [|apply makes_ret].
    apply makes_bind_res; [by apply makes_failureM|]. intros. apply makes_ret. }
  intros w2 pod w3 Hpod. apply makes_failureM.
  assert (∀ h, pod = Some h → rc_trusted h = Some (url_host base)) as Hpt.
  { intros h ->. destruct (ka_usesPodExec k); [|done].
    unfold bind_res at 1, failureM, bind, ret in Hpod.
    destruct (bind_res _ _ w2) as [[p|e] w4] eqn:Hp; simplify_eq/=.
    apply Hc2 in Hp as (base' & Hb' & Hp). congruence. }
  match goal with |- makes _ (_ ?clients ?r) =>
    eapply makes_weaken; [|exact (Hk clients r)]; simpl; intros c;
    exact (granted_session baseURL _ (ka_name k) _ clients base c Hb Hd Hpt)
  end.
Qed.
End cluster.

(** ** A write, end to end *)
Section write.
Context `{Env} `{GoJson} `{AwsSdk} `{GoURL}.
Context (namespaces secrets : list string) (policy : Aws.policy) (bp : KubeClientProvider)
  (cfg : CloudCredentialsConfig) (conn connection : res unit) (url_error : string → option gerror).
Local Notation aws := (CloudCredentialsProvider cfg (ocm_deps conn connection url_error)).
Local Notation scopes := (server_scopes namespaces secrets policy bp aws).

(** A call that changes an AWS account. *)
Definition aws_mutation (c : call) : Prop :=
  match c with CRebootInstances _ _ | CTerminateInstances _ _ => True | _ => False end.
Definition mutated_ids (c : call) : list string :=
  match c with CRebootInstances _ ids | CTerminateInstances _ ids => ids | _ => [] end.

(** Why a mutation of instance [id] in the history [hist] was legitimate. *)
Record justified (hist : list call) (req : Request) (operation id : string) : Prop := {
  just_operation : operation ∈ policy.(Aws.AllowedOperations);
  just_region : ∃ c, ocm_answered hist req.(rq_ClusterID) c ∧ c.(cl_region) ∈ policy.(Aws.AllowedRegions);
  just_account : ∃ c creds, ocm_answered hist req.(rq_ClusterID) c ∧ c.(cl_provider) = "aws"
                            ∧ credentials_answered cfg hist c creds;
  just_owner : ∃ c h pre post reservations i,
      ocm_answered hist req.(rq_ClusterID) c ∧ c.(cl_infraID) ≠ ""
      ∧ hist = pre ++ CDescribeInstances h [id] :: post
      ∧ respond pre (CDescribeInstances h [id]) = Ok reservations
      ∧ i ∈ concat reservations ∧ i.(i_id) = Some id
      ∧ (Some (clusterOwnershipTag c.(cl_infraID)), Some clusterOwnershipTagValue) ∈ i.(i_tags) }.

Lemma mutation_position (A B pre post : list call) x c :
  Forall (λ c, ¬ aws_mutation c) A → Forall (λ c, ¬ aws_mutation c) B →
  A ++ x :: B = pre ++ c :: post → aws_mutation c → pre = A ∧ c = x.
Proof.
  intros HA HB. revert pre. induction HA as [|a A Ha HA IH]; intros pre Heq Hc; simpl in Heq.
  - destruct pre as [|p pre]; simplify_eq/=; [done|]. exfalso.
    apply Forall_app in HB as [_ HB]. by inversion HB.
  - destruct pre as [|p pre]; simplify_eq/=; [done|].
    destruct (IH pre) as [-> ->]; done.
Qed.

Lemma no_mutation (A pre post : list call) c :
  Forall (λ c, ¬ aws_mutation c) A → A = pre ++ c :: post → ¬ aws_mutation c.
Proof. intros HA ->. apply Forall_app in HA as [_ HA]. by inversion HA. Qed.

Lemma lookup_no_mutation l : Forall lookup_call l → Forall (λ c, ¬ aws_mutation c) l.
Proof. intros Hl. eapply Forall_impl; [exact Hl|]. intros []; simpl; tauto. Qed.
Lemma provision_no_mutation l : Forall provision_call l → Forall (λ c, ¬ aws_mutation c) l.
Proof. intros Hl. eapply Forall_impl; [exact Hl|]. intros []; simpl; tauto. Qed.

(** Deriving a write's target keeps the cache sound and answers from OCM. *)
Lemma write_derive req wa w :
  cache_sound w → req.(rq_Action) = ActAwsWrite wa →
  let '(r, w') := aws_deriveTarget aws req w in
  cache_sound w' ∧ ∀ t, r = Ok t → ∃ at',
    t = TAws at' ∧ at'.(at_id) = param req.(rq_Params) "id"
    ∧ (∃ c, ocm_answered w'.(w_calls) req.(rq_ClusterID) c ∧ c.(cl_region) = at'.(at_region))
    ∧ (∃ c, ocm_answered w'.(w_calls) req.(rq_ClusterID) c ∧ c.(cl_infraID) = at'.(at_infraID)).
Proof.
  intros Hs Ha. unfold aws_deriveTarget. rewrite Ha. cbn [as_aws_write].
  pose proof (proj1 (cloud_region_infra_ok cfg conn connection url_error (rq_ClusterID req) w Hs)) as Hr.
  unfold bind_res at 1, failureM at 1, bind at 1, ret at 1. simpl.
  destruct (cloud_defaultRegion _ _ _ w) as [[region|e] w1]; simpl; destruct Hr as [Hs1 Hr]; [|done].
  destruct (Hr region eq_refl) as (_ & c1 & Hc1 & Hreg).
  match goal with |- context [if ?b then _ else _] => destruct b; [done|] end.
  pose proof (proj2 (cloud_region_infra_ok cfg conn connection url_error (rq_ClusterID req) w1 Hs1)) as Hi.
  destruct (infra_lookup (p := aws) (rq_ClusterID req) w1) as (new & Hnew & _). simpl in Hnew.
  unfold bind_res, failureM, bind, ret.
  destruct (cloud_clusterInfraID _ _ _ w1) as [[infra|e] w2]; simpl in *; destruct Hi as [Hs2 Hi]; [|done].
  destruct (Hi infra eq_refl) as (_ & c2 & Hc2 & Hinf).
  split; [done|]. intros t [= <-]. eexists. split; [done|]. simpl. split; [done|]. split; [|eauto].
  exists c1. split; [|done]. rewrite Hnew. by apply ocm_answered_app.
Qed.

Definition write_actions : list AWSWriteAction := [AWSRebootAction; AWSTerminateAction].

Lemma write_actions_guarded wa :
  wa ∈ write_actions → ∃ mutate,
    guarded mutate wa.(aw_action).(aa_execute)
    ∧ ∀ h id, aws_mutation (mutate h id) ∧ mutated_ids (mutate h id) = [id].
Proof.
  intros Hw. repeat (apply elem_of_cons in Hw as [->|Hw]); [..|by inversion Hw]; eexists;
    (split; [apply reboot_is_guarded || apply terminate_is_guarded|done]).
Qed.

(** The run of a write whose target is the cluster's: any mutation in it is
    justified by what came before. *)
Lemma write_run req wa at' w :
  cache_sound w → wa ∈ write_actions → req.(rq_Action) = ActAwsWrite wa →
  req.(rq_Target) = Some (TAws at') →
  wa.(aw_operation) ∈ policy.(Aws.AllowedOperations) → at'.(at_region) ∈ policy.(Aws.AllowedRegions) →
  (∃ c, ocm_answered w.(w_calls) req.(rq_ClusterID) c ∧ c.(cl_region) = at'.(at_region)) →
  (∃ c, ocm_answered w.(w_calls) req.(rq_ClusterID) c ∧ c.(cl_infraID) = at'.(at_infraID)) →
  ∃ new, (aws_run aws req w).2.(w_calls) = w.(w_calls) ++ new
    ∧ (Forall (λ c, ¬ aws_mutation c) new
       ∨ ∃ A x, new = A ++ [x] ∧ Forall (λ c, ¬ aws_mutation c) A
           ∧ mutated_ids x = [at'.(at_id)]
           ∧ justified (w.(w_calls) ++ A) req wa.(aw_operation) at'.(at_id)).
Proof.
  intros Hs Hw Ha Ht Hop Hreg (c1 & Hc1 & Hr1) (c2 & Hc2 & Hi2).
  destruct (write_actions_guarded _ Hw) as (mutate & Hg & Hmut).
  unfold aws_run. rewrite Ha, Ht. simpl. unfold bind_res, failureM, bind, ret.
  pose proof (cloud_getClients_ok cfg conn connection url_error (rq_ClusterID req) (at_region at')
    (aa_requiredServices (aw_action wa) at') w Hs) as Hc.
  destruct (clients_provision (p := aws) (rq_ClusterID req) (at_region at')
    (aa_requiredServices (aw_action wa) at') w) as (n1 & Hn1 & Hf1). simpl in Hn1.
  apply provision_no_mutation in Hf1.
  destruct (cloud_getClients _ _ _ _ _ w) as [[clients|e] w1]; simpl in *; [|eauto].
  destruct Hc as [_ Hc]. destruct (Hc clients eq_refl) as (c3 & creds & Hc3 & Haws & Hcr & _).
  destruct (Hg clients {| ar_target := at'; ar_params := rq_Params req |} w1)
    as (pre & post & r & Hcalls & Hch & Hr). simpl in Hch, Hr.
  destruct (aa_execute _ _ _ w1) as [out w2]. simpl in *.
  exists (n1 ++ pre ++ post). rewrite Hcalls, Hn1. split; [by rewrite <- !app_assoc|].
  assert (Forall (λ c, ¬ aws_mutation c) pre) as Hpre by (inversion Hch; [by constructor|constructor; [by intros []|by constructor]..]).
  destruct r as [i|e]; [right|left; destruct Hr as [-> _]; rewrite app_nil_r; by apply Forall_app].
  destruct Hr as (h & _ & ->). exists (n1 ++ pre), (mutate h (at_id at')).
  split; [by rewrite app_assoc|]. split; [by apply Forall_app|]. split; [apply Hmut|].
  rewrite app_assoc, <- Hn1.
  inversion Hch as [|?|h' rs i' Hh' Hid Hinf Hd Hin [Hii Htag]]; subst.
  split; [done|exists c1|exists c3, creds|].
  - split; [|by rewrite Hr1]. rewrite Hn1, <- app_assoc. by apply ocm_answered_app.
  - split; [by apply ocm_answered_app|]. split; [done|]. by apply credentials_answered_app.
  - exists c2, h', (w_calls w1), [], rs, i. rewrite Hi2.
    split; [rewrite Hn1, <- app_assoc; by apply ocm_answered_app|]. by repeat split.
Qed.

(** The policy read off a write's permission. *)
Lemma write_permits wa at' :
  policy_permits namespaces secrets policy (ActAwsWrite wa) (TAws at') → wa ∈ write_actions →
  wa.(aw_operation) ∈ policy.(Aws.AllowedOperations) ∧ at'.(at_region) ∈ policy.(Aws.AllowedRegions).
Proof.
  intros (_ & _ & Hreg & Hop) Hw. simpl in *. split; [|done].
  repeat (apply elem_of_cons in Hw as [->|Hw]); [..|by inversion Hw]; by destruct Hop.
Qed.

(** Where the mutations of a stretch of calls stand: none, or one, justified. *)
Definition at_most_one_justified (before new : list call) (req : Request) (operation : string) : Prop :=
  Forall (λ c, ¬ aws_mutation c) new
  ∨ ∃ A x B, new = A ++ x :: B
      ∧ Forall (λ c, ¬ aws_mutation c) A ∧ Forall (λ c, ¬ aws_mutation c) B
      ∧ mutated_ids x = [param req.(rq_Params) "id"]
      ∧ justified (before ++ A) req operation (param req.(rq_Params) "id").

Lemma write_body req wa rec w :
  cache_sound w → wa ∈ write_actions → req.(rq_Action) = ActAwsWrite wa → req.(rq_Target) = None →
  ∃ new, (execute_body scopes rec req w).2.(w_calls) = w.(w_calls) ++ new
    ∧ at_most_one_justified w.(w_calls) new req wa.(aw_operation).
Proof.
  intros Hs Hw Ha Ht. unfold execute_body. rewrite server_scope_for, Ha, Ht. cbn [sc_DeriveTarget AWSScope].
  pose proof (write_derive req wa w Hs Ha) as Hd. unfold bind.
  assert (makes lookup_call (aws_deriveTarget aws req)) as Hmk.
  { destruct (cloud_provider_laws cfg conn connection url_error) as [Hr Hi _].
    unfold aws_deriveTarget, failureM. solve_makes. }
  destruct (Hmk w) as (n1 & Hn1 & Hf1%lookup_no_mutation).
  destruct (aws_deriveTarget _ req w) as [[t|e] w1]; simpl in Hn1; destruct Hd as [Hs1 Hd].
  2: { exists n1. split; [done|by left]. }
  destruct (Hd t eq_refl) as (at' & -> & Hid & Hreg & Hinf).
  unfold execute_authorized.
  pose proof (server_authorize_permits namespaces secrets policy bp aws
    (AWSScope (Aws.Authorize (Aws.NewAWS policy)) aws) (with_target req (TAws at')) (TAws at')) as Hp.
  rewrite server_scope_for in Hp. cbn [rq_Action rq_Target with_target] in Hp. rewrite Ha in Hp.
  destruct (Allowed _); simpl; [|exists n1; split; [done|by left]].
  destruct (write_permits wa at' (Hp eq_refl eq_refl eq_refl) Hw) as [Hop Hre].
  destruct (write_run (with_target req (TAws at')) wa at' w1 Hs1 Hw Ha eq_refl Hop Hre Hreg Hinf)
    as (n2 & Hn2 & Hm). unfold bind.
  destruct (aws_run _ _ w1) as [out w2]. simpl in Hn2. exists (n1 ++ n2).
  split; [destruct out; simpl; by rewrite Hn2, Hn1, app_assoc|].
  destruct Hm as [Hm|(A & x & -> & HA & Hx & Hj)]; [left; by apply Forall_app|right].
  exists (n1 ++ A), x, []. rewrite <- app_assoc, <- Hid. split; [done|].
  split; [by apply Forall_app|]. split; [done|]. split; [done|].
  rewrite app_assoc, <- Hn1. destruct Hj as [? ? ? ?]. by split.
Qed.

(** C7: a write to AWS is justified before it happens. When [Execute] runs
    aws-reboot or aws-terminate with the backplane credential provider, each call
    that changes the account names exactly the instance of the "id" param, and at
    that moment: the operator has listed the operation, the cluster's region - as
    OCM answered it for the request's cluster - is on the region list, the
    credentials were issued for that cluster, an AWS one, and the describe that
    came before it answered an instance with exactly that id carrying the "owned"
    tag of the infrastructure id OCM answered for the cluster. *)
Theorem write_justified req wa w :
  cache_sound w → wa ∈ write_actions → req.(rq_Action) = ActAwsWrite wa → req.(rq_Target) = None →
  let '(r, w') := Execute scopes req w in
  ∃ new, w'.(w_calls) = w.(w_calls) ++ new
    ∧ ∀ pre c post, new = pre ++ c :: post → aws_mutation c →
        mutated_ids c = [param req.(rq_Params) "id"]
        ∧ justified (w.(w_calls) ++ pre) req wa.(aw_operation) (param req.(rq_Params) "id").
Proof.
  intros Hs Hw Ha Ht. unfold Execute, bind, perform, ret.
  set (w0 := World (w_calls w ++ [CNow]) (w_cache w)). set (rec0 := initial_record _ req).
  destruct (write_body req wa rec0 w0 (cache_sound_app w [CNow] Hs) Hw Ha Ht) as (n & Hn & Hm).
  destruct (execute_body _ _ _ w0) as [[r rec] w1]. simpl in *. exists (CNow :: n ++ [CAudit rec]).
  split; [rewrite Hn; simpl; by rewrite <- !app_assoc|]. intros pre c post Heq Hc.
  destruct Hm as [Hm|(A & x & B & -> & HA & HB & Hx & Hj)].
  - exfalso. eapply (no_mutation (CNow :: n ++ [CAudit rec])); [|exact Heq|done].
    constructor; [by intros []|]. apply Forall_app. split; [done|]. constructor; [by intros []|done].
  - destruct (mutation_position (CNow :: A) (B ++ [CAudit rec]) pre post x c) as [-> ->]; [..|done|].
    + constructor; [by intros []|done].
    + apply Forall_app. split; [done|]. constructor; [by intros []|done].
    + rewrite <- Heq. simpl. by rewrite <- app_assoc.
    + split; [done|]. by rewrite <- app_assoc in Hj.
Qed.
End write.

(** ** Witnesses *)
Module PipelineExample.
Import AwsGetExample.
Definition caller : Request :=
  {| rq_CallerID := "sre"; rq_ClusterID := "c-1"; rq_ClusterVersion := "4.16";
     rq_Action := ActAws AWSGetAction; rq_Target := None;
     rq_Params := {["resource" := "route53-hosted-zones"]} |}.
Definition static : ClientProvider :=
  StaticProvider (Build_StaticConfig "us-east-1" "" "" "" "" "abc").
Definition regions : Aws.policy := Aws.Policy ["us-east-1"] [].
Definition scopes : list Scope := server_scopes [] [] regions (KubeconfigProvider "kc") static.

Lemma scopes_audit_free s : s ∈ scopes → AuditFreeScope s caller.(rq_Action).
Proof.
  pose proof (server_actions_audit_free (ActAws AWSGetAction)) as Ha.
  assert (AuditFreeAction (ActAws AWSGetAction)) as Hfree.
  { apply Ha. apply list_elem_of_In. simpl. tauto. }
  intros Hs. repeat (apply elem_of_cons in Hs as [->|Hs]); [..|by inversion Hs].
  - apply kube_scope_audit_free; [apply kubeconfig_provider_laws|done].
  - apply aws_scope_audit_free; [apply static_provider_laws|done].
Qed.

Lemma execute_audited_witness :
  ar_message <$> rs_Output (Execute scopes caller fresh_world).1
    = Some "listed 4 route53-hosted-zones in us-east-1"
  ∧ let '(r, w') := Execute scopes caller fresh_world in
    ∃ mid rec, w'.(w_calls) = [] ++ CNow :: mid ++ [CAudit rec] ∧ Forall not_audit mid
      ∧ record_matches caller r rec ∧ rec.(rec_timestamp) = 0.
Proof.
  split; [vm_compute; reflexivity|].
  exact (execute_audited scopes caller fresh_world scopes_audit_free).
Defined.

Lemma policy_enforced_witness :
  rs_Allowed (Execute scopes caller fresh_world).1 = true
  ∧ let '(r, w') := Execute scopes caller fresh_world in
    (r.(rs_Allowed) = true →
     ∃ t, judged_target static caller t ∧ policy_permits [] [] regions caller.(rq_Action) t)
    ∧ (r.(rs_Allowed) = false →
       ∃ new, w'.(w_calls) = [] ++ new ∧ Forall harmless new).
Proof.
  split; [vm_compute; reflexivity|].
  exact (policy_enforced [] [] regions (KubeconfigProvider "kc") static caller fresh_world
    (static_provider_laws _)).
Defined.

(** get-pull-secret-email for a caller allowed in openshift-logging only. *)
Definition read_pull_secret : Request :=
  {| rq_CallerID := "sre"; rq_ClusterID := "c-1"; rq_ClusterVersion := "4.16";
     rq_Action := ActKube GetPullSecretEmailAction; rq_Target := None;
     rq_Params := {["namespace" := "openshift-logging"]} |}.
Definition read_scopes : list Scope :=
  server_scopes ["openshift-logging"] [] regions (KubeconfigProvider "kc") static.
Lemma kube_policy_judges_params_witness :
  rs_Allowed (Execute read_scopes read_pull_secret fresh_world).1 = true
  ∧ ∀ w, rs_Allowed (Execute read_scopes read_pull_secret w).1 = true.
Proof.
  destruct (kube_policy_judges_params ["openshift-logging"] [] regions (KubeconfigProvider "kc") static
    GetPullSecretEmailAction read_pull_secret fresh_world eq_refl eq_refl) as ([_ Hp] & _ & Hsame).
  assert (rs_Allowed (Execute read_scopes read_pull_secret fresh_world).1 = true) as Hr.
  { apply Hp. right. split; [done|]. split; [by left|done]. }
  split; [exact Hr|]. intros w. rewrite <- Hr. by apply (Hsame GetPullSecretEmailAction).
Defined.

(** A terminate of the cluster's own instance, end to end. *)
Definition write_env : Env := λ hist c,
  match c return resp c with
  | CDescribeInstances _ _ => Ok [[AwsWriteExample.inst]]
  | c => AwsApiExample.ocm_env hist c
  end.
Definition terminate : Request :=
  {| rq_CallerID := "sre"; rq_ClusterID := "c-1"; rq_ClusterVersion := "4.16";
     rq_Action := ActAwsWrite (AWSTerminateAction (H := write_env)); rq_Target := None;
     rq_Params := {["id" := "i-1"]} |}.
Definition writes : Aws.policy := Aws.Policy ["us-east-1"] ["terminate"].
Definition kube : KubeClientProvider := KubeconfigProvider (H := write_env) "kc".
Definition write_scopes : list Scope :=
  server_scopes [] [] writes kube
    (CloudCredentialsProvider (H := write_env) AwsApiExample.config
       (ocm_deps (H := write_env) (Ok tt) (Ok tt) (λ _, None))).

Lemma write_fresh_sound : cache_sound (H := write_env) fresh_world.
Proof. intros id entry He. done. Qed.

Lemma write_justified_witness :
  ar_message <$> rs_Output (Execute (H := write_env) write_scopes terminate fresh_world).1
    = Some "requested termination of i-1 in us-east-1"
  ∧ let '(r, w') := Execute (H := write_env) write_scopes terminate fresh_world in
    ∃ new, w'.(w_calls) = [] ++ new
      ∧ ∀ pre c post, new = pre ++ c :: post → aws_mutation c →
          mutated_ids c = ["i-1"]
          ∧ justified (H := write_env) writes AwsApiExample.config ([] ++ pre) terminate "terminate" "i-1".
Proof.
  split; [vm_compute; reflexivity|].
  refine (write_justified (H := write_env) [] [] writes kube AwsApiExample.config (Ok tt) (Ok tt)
    (λ _, None) terminate (AWSTerminateAction (H := write_env)) fresh_world write_fresh_sound _ eq_refl eq_refl).
  apply list_elem_of_In. simpl. tauto.
Defined.

(** A get through backplane. *)
Definition get_pods : Request :=
  {| rq_CallerID := "sre"; rq_ClusterID := "c-1"; rq_ClusterVersion := "4.16";
     rq_Action := ActKube GetAction;
     rq_Target := Some (TKube (Build_ResourceTarget "" "v1" "pods" "default" "p" false));
     rq_Params := ∅ |}.
Lemma kube_run_least_privilege_witness :
  makes (session_call (H0 := BackplaneExample.url_stub) "bp" "c-1" "get"
           (GetAction.(ka_requiredRBAC) (Build_ResourceTarget "" "v1" "pods" "default" "p" false)))
    (kube_run (BackplaneProvider (H0 := BackplaneExample.url_stub) "bp") get_pods).
Proof.
  refine (kube_run_least_privilege (H0 := BackplaneExample.url_stub) "bp" get_pods GetAction _ _ eq_refl eq_refl).
  apply list_elem_of_In. simpl. tauto.
Defined.
End PipelineExample.
