(* ===== verification/Models.v ===== *)
(** internal/models and the filters of internal/store/store.go: the records the
    stores, the worker and the API exchange.

    google/uuid is a parameter ([GoUUID]); times are nanoseconds since the epoch,
    in UTC. *)

From S2P Require Import Prelude GoString Json Env Actions.

(** [uuid.UUID] with [String], [uuid.Parse] and equality. *)
Class GoUUID := {
  uuid : Type;
  uuid_eq_dec :: EqDecision uuid;
  uuid_string : uuid → string;
  uuid_parse : string → res uuid }.

(** [uuid.Parse] reads back what [String] prints. *)
Class GoUUIDLaws `(GoUUID) : Prop := {
  uuid_parse_string : ∀ u, uuid_parse (uuid_string u) = Ok u }.

Lemma uuid_string_inj `{GoUUIDLaws} u v : uuid_string u = uuid_string v → u = v.
Proof. intros Huv. pose proof (uuid_parse_string u) as Hu. rewrite Huv, uuid_parse_string in Hu. congruence. Qed.

Section models.
Context `{GoUUID}.

(** [models.Execution]; [Params] holds the raw JSON text. *)
Record Execution := {
  ex_ID : uuid; ex_Action : string; ex_Status : string; ex_ApprovalState : option string;
  ex_Username : option string; ex_TargetCluster : string; ex_Jira : option string;
  ex_DryRun : option bool; ex_Force : option bool; ex_Params : option string;
  ex_Scope : option string; ex_Type : option string; ex_Revision : option string;
  ex_ManifestWorkName : option string; ex_RunnerSeconds : option Z; ex_UploadSeconds : option Z;
  ex_DurationSeconds : option Z; ex_CreatedAt : Z; ex_UpdatedAt : Z; ex_CompletedAt : option Z }.

(** [models.AuditEntry]. *)
Record AuditEntry := {
  ae_ID : uuid; ae_Timestamp : Z; ae_Method : string; ae_Path : string; ae_Username : string;
  ae_StatusCode : Z; ae_Action : option string; ae_ExecutionID : option string;
  ae_Jira : option string; ae_ApprovalState : option string; ae_TargetCluster : option string }.

(** [models.ExecutionOutput]; nil resources are [None]. *)
Record ExecutionOutput := { eo_Message : string; eo_Resources : option (list object) }.

(** [OutputFromActionResult]: nil resources become an empty list. *)
Definition OutputFromActionResult (result : option ActionResult) : res (option ExecutionOutput) :=
  match result with
  | None => Ok None
  | Some r => Ok (Some {| eo_Message := r.(ar_message);
                          eo_Resources := Some (default [] r.(ar_resources)) |})
  end.

(** [openapi.ExecutionRequest]. *)
Record ExecutionRequest := {
  er_TargetCluster : string; er_Jira : string; er_DryRun : option bool; er_Force : option bool;
  er_Params : option strmap }.

(** [openapi.Execution]: the parameters are a decoded map, and the handlers add
    the links. *)
Record openapi_Execution := {
  oa_exec : Execution; oa_Params : option strmap;
  oa_self : option string; oa_output : option string }.

(** A JSON object of strings, as [json.Unmarshal] reads it into a
    [map[string]string]: a null value is the empty string. *)
Fixpoint string_members (o : object) (m : strmap) : option strmap :=
  match o with
  | [] => Some m
  | (k, JStr s) :: o' => string_members o' (<[k := s]> m)
  | (k, JNull) :: o' => string_members o' (<[k := ""]> m)
  | _ => None
  end.
Definition decode_string_map (v : json) : option strmap :=
  match v with
  | JObj o => string_members o ∅
  | JNull => Some ∅
  | _ => None
  end.

(** [json.Marshal] of a [map[string]string]: an object with sorted keys. *)
Definition string_map_json (m : strmap) : json :=
  JObj ((λ k, (k, JStr (param m k))) <$> sort_strings (map_to_list m).*1).

Definition ExecutionStatusPending : string := "pending".
Definition ApprovalStateNotRequired : string := "not_required".

Section json.
Context `{GoJson}.

(** [Execution.ToOpenAPI]: undecodable params are dropped. *)
Definition Execution_ToOpenAPI (e : Execution) : openapi_Execution :=
  {| oa_exec := e;
     oa_Params := match e.(ex_Params) with
                  | None => None
                  | Some raw => match json_unmarshal raw with
                                | Ok v => decode_string_map v
                                | Err _ => None
                                end
                  end;
     oa_self := None; oa_output := None |}.

(** [ExecutionFromRequest], given [uuid.New()] and the time. *)
Definition ExecutionFromRequest (id : uuid) (now : Z) (action : string) (req : ExecutionRequest)
    (username : string) : Execution :=
  {| ex_ID := id; ex_Action := action; ex_Status := ExecutionStatusPending;
     ex_ApprovalState := Some ApprovalStateNotRequired; ex_Username := Some username;
     ex_TargetCluster := req.(er_TargetCluster); ex_Jira := Some req.(er_Jira);
     ex_DryRun := req.(er_DryRun); ex_Force := req.(er_Force);
     ex_Params := (λ m, json_marshal (string_map_json m)) <$> req.(er_Params);
     ex_Scope := None; ex_Type := None; ex_Revision := None; ex_ManifestWorkName := None;
     ex_RunnerSeconds := None; ex_UploadSeconds := None; ex_DurationSeconds := None;
     ex_CreatedAt := now; ex_UpdatedAt := now; ex_CompletedAt := None |}.
End json.

(** [store.ExecutionFilter] and [store.AuditFilter]. *)
Record ExecutionFilter := {
  ef_Status : option string; ef_Action : option string; ef_Target : option string;
  ef_Operator : option string; ef_Scope : option string; ef_Type : option string;
  ef_ApprovalState : option string; ef_DryRun : option bool; ef_Force : option bool;
  ef_Since : option Z; ef_Limit : Z; ef_Offset : Z }.
Record AuditFilter := {
  af_Action : option string; af_Target : option string; af_Operator : option string;
  af_Method : option string; af_ApprovalState : option string;
  af_Since : option Z; af_Limit : Z; af_Offset : Z }.

(** [store.ExecutionListResult] and [store.AuditListResult]. *)
Record ListResult (A : Type) := {
  lr_Items : list A; lr_Total : Z; lr_Limit : Z; lr_Offset : Z }.
End models.
Arguments lr_Items {A} _.
Arguments lr_Total {A} _.
Arguments lr_Limit {A} _.
Arguments lr_Offset {A} _.
Arguments Build_ListResult {A} _ _ _ _.

(** ** The params of a request survive the round trip through the store. *)

Lemma string_members_app o1 o2 m :
  string_members (o1 ++ o2) m = m1 ← string_members o1 m; string_members o2 m1.
Proof.
  revert m. induction o1 as [|[k v] o1 IH]; intros m; [done|]. simpl.
  destruct v; simpl; try done; apply IH.
Qed.

Lemma string_members_keys (m acc : strmap) ks :
  (∀ k, k ∈ ks → is_Some (m !! k)) →
  string_members ((λ k, (k, JStr (param m k))) <$> ks) acc
  = Some (foldl (λ a k, <[k := param m k]> a) acc ks).
Proof.
  revert acc. induction ks as [|k ks IH]; intros acc Hk; [done|]. simpl.
  apply IH. intros k' Hk'. apply Hk. by right.
Qed.

Lemma foldl_insert_lookup (m acc : strmap) ks x :
  foldl (λ a k, <[k := param m k]> a) acc ks !! x
  = if bool_decide (x ∈ ks) then Some (param m x) else acc !! x.
Proof.
  revert acc. induction ks as [|k ks IH]; intros acc; simpl; [done|]. rewrite IH.
  destruct (decide (x = k)) as [->|Hne].
  - rewrite lookup_insert_eq, (bool_decide_eq_true_2 (k ∈ k :: ks)) by (by left).
    by case_bool_decide.
  - rewrite lookup_insert_ne by done. erewrite bool_decide_ext; [done|]. set_solver.
Qed.

Lemma decode_string_map_json m : decode_string_map (string_map_json m) = Some m.
Proof.
  unfold string_map_json, decode_string_map.
  assert (∀ k, k ∈ sort_strings (map_to_list m).*1 ↔ is_Some (m !! k)) as Hk.
  { intros k. rewrite elem_of_sort_strings, list_elem_of_fmap. split.
    - intros ([k' v] & -> & Hin%elem_of_map_to_list). by exists v.
    - intros [v Hv]. exists (k, v). split; [done|]. by apply elem_of_map_to_list. }
  rewrite string_members_keys by apply Hk. f_equal. apply map_eq. intros x.
  rewrite foldl_insert_lookup. case_bool_decide as Hx; rewrite Hk in Hx.
  - destruct Hx as [v Hv]. unfold param. by rewrite Hv.
  - rewrite lookup_empty. destruct (m !! x) eqn:E; [|done]. exfalso. by apply Hx.
Qed.


(** Params of printable text: what a query or a JSON body of ASCII text gives. *)
Definition ascii_params (m : strmap) : bool :=
  forallb (λ kv, ascii_only kv.1 && ascii_only kv.2) (map_to_list m).

Lemma string_map_canonical m : ascii_params m = true → json_canonical (string_map_json m) = true.
Proof.
  intros Ha. unfold string_map_json. set (ks := sort_strings (map_to_list m).*1).
  assert (∀ k, k ∈ ks → ascii_only k = true ∧ ascii_only (param m k) = true) as Hks.
  { intros k. unfold ks. rewrite elem_of_sort_strings, list_elem_of_fmap.
    intros ([k' v] & -> & Hin). pose proof (forallb_elem _ _ _ Ha Hin) as Hkv. simpl in *.
    apply elem_of_map_to_list in Hin. unfold param. rewrite Hin. simpl.
    by apply andb_true_iff in Hkv. }
  assert (keys ((λ k, (k, JStr (param m k))) <$> ks) = ks) as Hkeys.
  { unfold keys. rewrite <- list_fmap_compose. apply list_fmap_id. }
  simpl. unfold canonical_keys. rewrite Hkeys, !andb_true_iff. repeat split.
  - apply bool_decide_eq_true. apply sort_strings_NoDup, NoDup_fst_map_to_list.
  - apply bool_decide_eq_true. apply sort_strings_canonical, sort_strings_perm.
  - apply forallb_forall. intros k Hk%list_elem_of_In. by apply Hks.
  - apply forallb_forall. intros [k v] Hk%list_elem_of_In.
    apply list_elem_of_fmap in Hk as (k' & [= -> ->] & Hk). by apply Hks.
Qed.

(** The params a caller sends are the params reported back. A request's params
    (of ASCII text), stored as JSON text by [ExecutionFromRequest], are decoded by
    [ToOpenAPI] to the very same map; a request without params has none; and a new
    execution is pending and needs no approval. *)
Theorem params_roundtrip `{GoUUID} `{J : GoJson} `{!GoJsonLaws J} id now action req username :
  (∀ m, req.(er_Params) = Some m → ascii_params m = true) →
  let e := ExecutionFromRequest id now action req username in
  (Execution_ToOpenAPI e).(oa_Params) = req.(er_Params)
  ∧ e.(ex_Status) = "pending" ∧ e.(ex_ApprovalState) = Some "not_required"
  ∧ e.(ex_CreatedAt) = now ∧ e.(ex_CompletedAt) = None.
Proof.
  intros Ha e. split; [|done]. unfold e, Execution_ToOpenAPI, ExecutionFromRequest. simpl.
  destruct (er_Params req) as [m|]; [|done]. simpl.
  rewrite json_roundtrip by (by apply string_map_canonical, Ha). apply decode_string_map_json.
Qed.

Module ModelsExample.
#[export] Instance ids : GoUUID :=
  {| uuid := string; uuid_string := λ u, u; uuid_parse := λ s, Ok s |}.
#[export] Instance id_laws : GoUUIDLaws ids.
Proof. by split. Qed.
#[export] Instance codec : GoJson := TreeCodec.codec.
#[export] Instance codec_laws : GoJsonLaws codec := TreeCodec.codec_laws.

Definition params : strmap := {["name" := "p"; "namespace" := "default"]}.
Definition request : ExecutionRequest := Build_ExecutionRequest "c-1" "J-1" None None (Some params).

Lemma params_roundtrip_witness :
  (Execution_ToOpenAPI (ExecutionFromRequest "u1" 5 "get" request "sre")).(oa_Params) = Some params.
Proof.
  refine (proj1 (params_roundtrip "u1" 5 "get" request "sre" _)).
  intros m [= <-]. vm_compute. reflexivity.
Defined.
End ModelsExample.
