(* ===== verification/Sql.v ===== *)
(** The database the stores talk to, as an interface.

    The program's SQL text is a [stmt]; the engine that runs it - SQLite or
    PostgreSQL, through database/sql - is a parameter ([SqlEngine]), and [SqlLaws]
    states what the stores rely on: a statement that succeeds has SQL's meaning on
    the tables, one that fails changes nothing, and a transaction is atomic. A
    timestamp column holds a [T]: text in SQLite, a time in PostgreSQL. The module
    [MemoryEngine] satisfies the laws. *)

From S2P Require Import Prelude GoString.
From Stdlib Require Import Ascii.

(** ** Rows: the column lists of shared.go, in their order *)
Section rows.
Context (T : Type).

Record exec_row := {
  r_id : string; r_action : string; r_status : string; r_approval_state : option string;
  r_username : option string; r_target_cluster : string; r_jira : option string;
  r_dry_run : option bool; r_force : option bool; r_params : option string;
  r_scope : option string; r_type : option string; r_revision : option string;
  r_manifest_work_name : option string; r_runner_seconds : option Z; r_upload_seconds : option Z;
  r_duration_seconds : option Z; r_created_at : T; r_updated_at : T; r_completed_at : option T }.

Record output_row := { o_id : string; o_exec_id : string; o_message : string; o_resources : string }.

Record audit_row := {
  a_id : string; a_timestamp : T; a_method : string; a_path : string; a_username : string;
  a_status_code : Z; a_action : option string; a_execution_id : option string;
  a_jira : option string; a_approval_state : option string; a_target_cluster : option string }.

(** An argument bound to a placeholder. *)
Inductive sql_value := VText (s : string) | VBool (b : bool) | VTime (t : T).

(** ** The statements of sqlite.go and postgres.go *)
Inductive stmt :=
| InsertExecution (r : exec_row)
| SelectExecution (id : string)
| SelectOutput (exec_id : string)
| CountExecutions (where_ : list string) (args : list sql_value)
| SelectExecutions (where_ : list string) (args : list sql_value) (limit offset : Z)
| UpdateStatus (status : string) (updated : T) (completed : option T) (id : string)
| DeleteOutput (exec_id : string)
| InsertOutput (r : output_row)
| SelectNextPending (skip_locked : bool)
| UpdateRunning (updated : T) (id : string)
| InsertAudit (r : audit_row)
| CountAudit (where_ : list string) (args : list sql_value)
| SelectAudit (where_ : list string) (args : list sql_value) (limit offset : Z).

(** The answer: the rows, a count, or the number of rows affected. *)
Definition stmt_resp (s : stmt) : Type :=
  match s with
  | SelectExecution _ | SelectExecutions _ _ _ _ => list exec_row
  | SelectOutput _ => list output_row
  | SelectNextPending _ => list string
  | SelectAudit _ _ _ _ => list audit_row
  | _ => Z
  end.

(** ** The contents of the database *)
Record tables := {
  t_executions : list exec_row; t_outputs : list output_row; t_audit : list audit_row }.
Definition empty_tables : tables := {| t_executions := []; t_outputs := []; t_audit := [] |}.

End rows.

Arguments r_id {T} _. Arguments r_action {T} _. Arguments r_status {T} _.
Arguments r_approval_state {T} _. Arguments r_username {T} _. Arguments r_target_cluster {T} _.
Arguments r_jira {T} _. Arguments r_dry_run {T} _. Arguments r_force {T} _. Arguments r_params {T} _.
Arguments r_scope {T} _. Arguments r_type {T} _. Arguments r_revision {T} _.
Arguments r_manifest_work_name {T} _. Arguments r_runner_seconds {T} _.
Arguments r_upload_seconds {T} _. Arguments r_duration_seconds {T} _. Arguments r_created_at {T} _.
Arguments r_updated_at {T} _. Arguments r_completed_at {T} _.
Arguments a_id {T} _. Arguments a_timestamp {T} _. Arguments a_method {T} _. Arguments a_path {T} _.
Arguments a_username {T} _. Arguments a_status_code {T} _. Arguments a_action {T} _.
Arguments a_execution_id {T} _. Arguments a_jira {T} _. Arguments a_approval_state {T} _.
Arguments a_target_cluster {T} _.
Arguments VText {T} s. Arguments VBool {T} b. Arguments VTime {T} t.
Arguments InsertExecution {T} r. Arguments SelectExecution {T} id. Arguments SelectOutput {T} exec_id.
Arguments CountExecutions {T} _ _. Arguments SelectExecutions {T} _ _ _ _.
Arguments UpdateStatus {T} _ _ _ _. Arguments DeleteOutput {T} _. Arguments InsertOutput {T} _.
Arguments SelectNextPending {T} _. Arguments UpdateRunning {T} _ _. Arguments InsertAudit {T} _.
Arguments CountAudit {T} _ _. Arguments SelectAudit {T} _ _ _ _.
Arguments stmt_resp {T} _. Arguments t_executions {T} _. Arguments t_outputs {T} _. Arguments t_audit {T} _.
Arguments Build_tables {T} _ _ _. Arguments empty_tables {T}.

(** ** What the statements mean *)
Section meaning.
Context {T : Type} (tle : T → T → bool).

Definition text_value (o : option string) : option (sql_value T) := VText <$> o.
Definition bool_value (o : option bool) : option (sql_value T) := VBool <$> o.

(** A named column of a row; NULL is [None]. *)
Definition exec_column (col : string) (r : exec_row T) : option (sql_value T) :=
  if bool_decide (col = "status") then Some (VText r.(r_status))
  else if bool_decide (col = "action") then Some (VText r.(r_action))
  else if bool_decide (col = "target_cluster") then Some (VText r.(r_target_cluster))
  else if bool_decide (col = "username") then text_value r.(r_username)
  else if bool_decide (col = "scope") then text_value r.(r_scope)
  else if bool_decide (col = "type") then text_value r.(r_type)
  else if bool_decide (col = "approval_state") then text_value r.(r_approval_state)
  else if bool_decide (col = "dry_run") then bool_value r.(r_dry_run)
  else if bool_decide (col = "force") then bool_value r.(r_force)
  else if bool_decide (col = "created_at") then Some (VTime r.(r_created_at))
  else None.
Definition audit_column (col : string) (r : audit_row T) : option (sql_value T) :=
  if bool_decide (col = "action") then text_value r.(a_action)
  else if bool_decide (col = "target_cluster") then text_value r.(a_target_cluster)
  else if bool_decide (col = "username") then Some (VText r.(a_username))
  else if bool_decide (col = "method") then Some (VText r.(a_method))
  else if bool_decide (col = "approval_state") then text_value r.(a_approval_state)
  else if bool_decide (col = "timestamp") then Some (VTime r.(a_timestamp))
  else None.

(** A clause "col = ?" or "col >= ?"; a comparison with NULL does not hold. *)
Definition clause_parts (clause : string) : option (string * bool) :=
  match split_char " "%char clause with
  | [col; "="; "?"] => Some (col, true)
  | [col; ">="; "?"] => Some (col, false)
  | _ => None
  end.
Definition compare_values (eq : bool) (v arg : sql_value T) : bool :=
  match v, arg with
  | VText a, VText b => eq && bool_decide (a = b)
  | VBool a, VBool b => eq && Bool.eqb a b
  | VTime a, VTime b => if eq then tle a b && tle b a else tle b a
  | _, _ => false
  end.
Definition clause_holds {R} (column : string → R → option (sql_value T)) (clause : string)
    (arg : sql_value T) (r : R) : bool :=
  match clause_parts clause with
  | Some (col, eq) => match column col r with Some v => compare_values eq v arg | None => false end
  | None => false
  end.

(** "WHERE c1 AND c2 ...", the placeholders bound in order. *)
Fixpoint where_holds {R} (column : string → R → option (sql_value T)) (clauses : list string)
    (args : list (sql_value T)) (r : R) : bool :=
  match clauses, args with
  | [], [] => true
  | c :: clauses', a :: args' => clause_holds column c a r && where_holds column clauses' args' r
  | _, _ => false
  end.

(** ORDER BY time DESC, id ASC; and the queue's ORDER BY created_at, id. *)
Definition newest_first {R} (time : R → T) (id : R → string) (a b : R) : Prop :=
  if tle (time a) (time b) then tle (time b) (time a) = true ∧ String.le (id a) (id b) else True.
Definition oldest_first {R} (time : R → T) (id : R → string) (a b : R) : Prop :=
  if tle (time b) (time a) then tle (time a) (time b) = true ∧ String.le (id a) (id b) else True.

(** [l] is the ORDER BY result of the rows: the same rows, in order. *)
Definition ordered {R} (le : R → R → Prop) (rows l : list R) : Prop :=
  l ≡ₚ rows ∧ StronglySorted le l.

(** LIMIT/OFFSET. *)
Definition page {R} (limit offset : Z) (l : list R) : list R :=
  take (Z.to_nat limit) (drop (Z.to_nat offset) l).

Definition pending (t : tables T) : list (exec_row T) :=
  filter (λ r, r.(r_status) = "pending") t.(t_executions).

Definition set_status (status : string) (updated : T) (completed : option T) (r : exec_row T)
  : exec_row T :=
  {| r_id := r.(r_id); r_action := r.(r_action); r_status := status;
     r_approval_state := r.(r_approval_state); r_username := r.(r_username);
     r_target_cluster := r.(r_target_cluster); r_jira := r.(r_jira); r_dry_run := r.(r_dry_run);
     r_force := r.(r_force); r_params := r.(r_params); r_scope := r.(r_scope); r_type := r.(r_type);
     r_revision := r.(r_revision); r_manifest_work_name := r.(r_manifest_work_name);
     r_runner_seconds := r.(r_runner_seconds); r_upload_seconds := r.(r_upload_seconds);
     r_duration_seconds := r.(r_duration_seconds); r_created_at := r.(r_created_at);
     r_updated_at := updated; r_completed_at := completed |}.

(** UPDATE ... WHERE id = ?. *)
Definition update_row (id : string) (f : exec_row T → exec_row T) (rows : list (exec_row T))
  : list (exec_row T) :=
  (λ r, if bool_decide (r.(r_id) = id) then f r else r) <$> rows.

Definition with_executions (t : tables T) (rows : list (exec_row T)) : tables T :=
  {| t_executions := rows; t_outputs := t.(t_outputs); t_audit := t.(t_audit) |}.
Definition with_outputs (t : tables T) (rows : list output_row) : tables T :=
  {| t_executions := t.(t_executions); t_outputs := rows; t_audit := t.(t_audit) |}.

Definition rows_with_id (t : tables T) (id : string) : list (exec_row T) :=
  filter (λ r, r.(r_id) = id) t.(t_executions).

(** What a successful statement does to the tables. *)
Definition effect (s : stmt T) (t : tables T) : tables T :=
  match s with
  | InsertExecution r => with_executions t (t.(t_executions) ++ [r])
  | UpdateStatus status updated completed id =>
      with_executions t (update_row id (set_status status updated completed) t.(t_executions))
  | UpdateRunning updated id =>
      with_executions t (update_row id (λ r, set_status "running" updated r.(r_completed_at) r)
                           t.(t_executions))
  | DeleteOutput id => with_outputs t (filter (λ r, r.(o_exec_id) ≠ id) t.(t_outputs))
  | InsertOutput r => with_outputs t (t.(t_outputs) ++ [r])
  | InsertAudit r =>
      {| t_executions := t.(t_executions); t_outputs := t.(t_outputs); t_audit := t.(t_audit) ++ [r] |}
  | _ => t
  end.

(** What a successful statement answers. *)
Definition answers (t : tables T) (s : stmt T) : stmt_resp s → Prop :=
  match s return stmt_resp s → Prop with
  | SelectExecution id => λ rows, rows = rows_with_id t id
  | SelectOutput id => λ rows, rows = filter (λ r, r.(o_exec_id) = id) t.(t_outputs)
  | CountExecutions clauses args => λ n,
      n = Z.of_nat (length (filter (λ r, where_holds exec_column clauses args r = true) t.(t_executions)))
  | SelectExecutions clauses args limit offset => λ rows,
      ∃ l, ordered (newest_first r_created_at r_id)
             (filter (λ r, where_holds exec_column clauses args r = true) t.(t_executions)) l
           ∧ rows = page limit offset l
  | UpdateStatus _ _ _ id => λ n, n = Z.of_nat (length (rows_with_id t id))
  | UpdateRunning _ id => λ n, n = Z.of_nat (length (rows_with_id t id))
  | SelectNextPending _ => λ ids,
      ∃ l, ordered (oldest_first r_created_at r_id) (pending t) l ∧ ids = take 1 (r_id <$> l)
  | CountAudit clauses args => λ n,
      n = Z.of_nat (length (filter (λ r, where_holds audit_column clauses args r = true) t.(t_audit)))
  | SelectAudit clauses args limit offset => λ rows,
      ∃ l, ordered (newest_first a_timestamp a_id)
             (filter (λ r, where_holds audit_column clauses args r = true) t.(t_audit)) l
           ∧ rows = page limit offset l
  | InsertExecution _ | InsertOutput _ | InsertAudit _ => λ n, n = 1
  | DeleteOutput id => λ n, n = Z.of_nat (length (filter (λ r, r.(o_exec_id) = id) t.(t_outputs)))
  end.

(** PRIMARY KEY: an insert of a known id does not succeed. *)
Definition key_free (s : stmt T) (t : tables T) : Prop :=
  match s with
  | InsertExecution r => r.(r_id) ∉ r_id <$> t.(t_executions)
  | InsertOutput r => r.(o_id) ∉ o_id <$> t.(t_outputs)
  | InsertAudit r => r.(a_id) ∉ a_id <$> t.(t_audit)
  | _ => True
  end.
End meaning.

(** ** The engine *)

(** [content] is what is committed, [session] the tables as the open transaction
    sees them ([None]: no transaction). *)
Class SqlEngine (T : Type) := {
  sql_db : Type;
  sql_run : ∀ s : stmt T, sql_db → res (stmt_resp s) * sql_db;
  sql_begin : sql_db → option gerror * sql_db;
  sql_commit : sql_db → option gerror * sql_db;
  sql_rollback : sql_db → option gerror * sql_db;
  content : sql_db → tables T;
  session : sql_db → option (tables T) }.

(** The tables a statement runs against. *)
Definition current `{SqlEngine T} (d : sql_db) : tables T := default (content d) (session d).

Class SqlLaws {T} (tle : T → T → bool) (E : SqlEngine T) : Prop := {
  run_ok : ∀ s d a d', sql_run s d = (Ok a, d') →
    key_free s (current d) ∧ answers tle (current d) s a
    ∧ current d' = effect s (current d)
    ∧ match session d with
      | Some _ => content d' = content d ∧ is_Some (session d')
      | None => session d' = None
      end;
  run_err : ∀ s d e d', sql_run s d = (Err e, d') →
    content d' = content d ∧ session d' = session d;
  begin_law : ∀ d, session d = None →
    let '(e, d') := sql_begin d in
    content d' = content d
    ∧ session d' = match e with None => Some (content d) | Some _ => None end;
  commit_law : ∀ d t, session d = Some t →
    let '(e, d') := sql_commit d in
    session d' = None
    ∧ match e with None => content d' = t | Some _ => content d' = content d ∨ content d' = t end;
  rollback_law : ∀ d,
    let '(e, d') := sql_rollback d in
    content d' = content d ∧ session d' = None }.
