(* ===== verification/Store.v ===== *)
(** internal/store: the operations SQLiteStore (sqlite.go) and PostgresStore
    (postgres.go) share the shape of, over a [dialect] that holds what differs
    between the two files, and the helpers of shared.go.

    The state is the database and a counter of the clock and uuid readings taken. *)

From S2P Require Import Prelude GoString Json Env Actions Models Sql.

(** ** shared.go and the helpers of sqlite.go *)

Definition opt_clause {A T} (clause : string) (f : A → sql_value T) (v : option A)
    (acc : list string * list (sql_value T)) : list string * list (sql_value T) :=
  match v with
  | Some a => (acc.1 ++ [clause], acc.2 ++ [f a])
  | None => acc
  end.

(** [buildExecutionWhere]. *)
Definition buildExecutionWhere {T} (flt : ExecutionFilter) : list string * list (sql_value T) :=
  let acc := ([], []) in
  let acc := opt_clause "status = ?" VText flt.(ef_Status) acc in
  let acc := opt_clause "action = ?" VText flt.(ef_Action) acc in
  let acc := opt_clause "target_cluster = ?" VText flt.(ef_Target) acc in
  let acc := opt_clause "username = ?" VText flt.(ef_Operator) acc in
  let acc := opt_clause "scope = ?" VText flt.(ef_Scope) acc in
  let acc := opt_clause "type = ?" VText flt.(ef_Type) acc in
  let acc := opt_clause "approval_state = ?" VText flt.(ef_ApprovalState) acc in
  let acc := opt_clause "dry_run = ?" VBool flt.(ef_DryRun) acc in
  opt_clause "force = ?" VBool flt.(ef_Force) acc.

(** [buildAuditWhere]. *)
Definition buildAuditWhere {T} (flt : AuditFilter) : list string * list (sql_value T) :=
  let acc := ([], []) in
  let acc := opt_clause "action = ?" VText flt.(af_Action) acc in
  let acc := opt_clause "target_cluster = ?" VText flt.(af_Target) acc in
  let acc := opt_clause "username = ?" VText flt.(af_Operator) acc in
  let acc := opt_clause "method = ?" VText flt.(af_Method) acc in
  opt_clause "approval_state = ?" VText flt.(af_ApprovalState) acc.

Definition clampLimit (v defaultVal max : Z) : Z :=
  if v <=? 0 then defaultVal else if max <? v then max else v.
Definition clampOffset (v : Z) : Z := if v <? 0 then 0 else v.

(** What differs between the two stores: how a time is stored and read back (with
    the column's name for the error), how a failed statement of the update
    transaction is wrapped, whether the output insert checks the rows affected,
    and the locking clause of the queue query. *)
Record dialect (T : Type) := {
  dl_enc : Z → T;
  dl_dec : string → T → res Z;
  dl_table_error : gerror → gerror;
  dl_check_insert : bool;
  dl_skip_locked : bool }.
Arguments dl_enc {T} _ _. Arguments dl_dec {T} _ _ _. Arguments dl_table_error {T} _ _.
Arguments dl_check_insert {T} _. Arguments dl_skip_locked {T} _.

(** [time.Now()] and [uuid.New()], by the number of readings taken before. *)
Class StoreEnv `{GoUUID} := { env_now : nat → Z; env_uuid : nat → uuid }.

Section store.
Context {T : Type} `{SqlEngine T} `{StoreEnv} `{GoJson} (dl : dialect T).

Definition store_state : Type := sql_db * nat.
Notation S := (M store_state).

Definition sql (s : stmt T) : S (res (stmt_resp s)) :=
  λ '(d, n), let '(r, d') := sql_run s d in (r, (d', n)).
Definition time_now : S Z := λ '(d, n), (env_now n, (d, Datatypes.S n)).
Definition new_uuid : S uuid := λ '(d, n), (env_uuid n, (d, Datatypes.S n)).
Definition db_begin : S (res unit) :=
  λ '(d, n), let '(e, d') := sql_begin d in (err_only e tt, (d', n)).
Definition db_commit : S (res unit) :=
  λ '(d, n), let '(e, d') := sql_commit d in (err_only e tt, (d', n)).
(** The deferred rollback: its error is only logged. *)
Definition db_rollback : S unit :=
  λ '(d, n), let '(_, d') := sql_rollback d in (tt, (d', n)).

(** [tx, err := db.BeginTx(...); defer tx.Rollback(); body] *)
Definition in_transaction {A} (msg : string) (body : S (res A)) : S (res A) :=
  do? _ <- wrap_errM msg db_begin;
  do r <- body;
  do _ <- db_rollback;
  ret r.

(** [row.StructScan]: the first row, or sql.ErrNoRows. *)
Definition scan {R} (r : res (list R)) : res R :=
  match r with
  | Ok (row :: _) => Ok row
  | Ok [] => Err (ESentinel ErrNoRows)
  | Err e => Err e
  end.

(** [if errors.Is(err, sql.ErrNoRows) { return ErrNotFound }; wrap] *)
Definition scan_error {R} (msg : string) (r : res R) : res R :=
  match r with
  | Ok row => Ok row
  | Err e => if errors_is e ErrNoRows then Err (ESentinel ErrNotFound) else Err (EWrap msg e)
  end.

(** ** Rows and models *)

Definition enc_opt (t : option Z) : option T := dl.(dl_enc) <$> t.

Definition row_of_execution (e : Execution) : exec_row T :=
  {| r_id := uuid_string e.(ex_ID); r_action := e.(ex_Action); r_status := e.(ex_Status);
     r_approval_state := e.(ex_ApprovalState); r_username := e.(ex_Username);
     r_target_cluster := e.(ex_TargetCluster); r_jira := e.(ex_Jira); r_dry_run := e.(ex_DryRun);
     r_force := e.(ex_Force); r_params := e.(ex_Params); r_scope := e.(ex_Scope); r_type := e.(ex_Type);
     r_revision := e.(ex_Revision); r_manifest_work_name := e.(ex_ManifestWorkName);
     r_runner_seconds := e.(ex_RunnerSeconds); r_upload_seconds := e.(ex_UploadSeconds);
     r_duration_seconds := e.(ex_DurationSeconds); r_created_at := dl.(dl_enc) e.(ex_CreatedAt);
     r_updated_at := dl.(dl_enc) e.(ex_UpdatedAt); r_completed_at := enc_opt e.(ex_CompletedAt) |}.

Definition execution_of_row (r : exec_row T) : res Execution :=
  let? id := wrap_err "parsing execution id" (uuid_parse r.(r_id)) in
  let? createdAt := dl.(dl_dec) "created_at" r.(r_created_at) in
  let? updatedAt := dl.(dl_dec) "updated_at" r.(r_updated_at) in
  let? completedAt := match r.(r_completed_at) with
                      | None => Ok None
                      | Some t => res_map Some (dl.(dl_dec) "completed_at" t)
                      end in
  Ok {| ex_ID := id; ex_Action := r.(r_action); ex_Status := r.(r_status);
        ex_ApprovalState := r.(r_approval_state); ex_Username := r.(r_username);
        ex_TargetCluster := r.(r_target_cluster); ex_Jira := r.(r_jira); ex_DryRun := r.(r_dry_run);
        ex_Force := r.(r_force); ex_Params := r.(r_params); ex_Scope := r.(r_scope);
        ex_Type := r.(r_type); ex_Revision := r.(r_revision);
        ex_ManifestWorkName := r.(r_manifest_work_name); ex_RunnerSeconds := r.(r_runner_seconds);
        ex_UploadSeconds := r.(r_upload_seconds); ex_DurationSeconds := r.(r_duration_seconds);
        ex_CreatedAt := createdAt; ex_UpdatedAt := updatedAt; ex_CompletedAt := completedAt |}.

(** Resources as JSON: an array of objects; nil is "null". *)
Definition resources_json (o : option (list object)) : json :=
  match o with Some l => JArr (JObj <$> l) | None => JNull end.
Definition resources_of_json (v : json) : res (option (list object)) :=
  match v with
  | JNull => Ok None
  | JArr vs => res_map Some (res_each (λ v, match v with
                                            | JObj o => Ok o
                                            | JNull => Ok []
                                            | _ => Err (EText "json: cannot unmarshal")
                                            end) vs)
  | _ => Err (EText "json: cannot unmarshal")
  end.

Definition output_of_row (r : output_row) : res ExecutionOutput :=
  let? resources := wrap_err "parsing execution output resources"
    (let? v := json_unmarshal r.(o_resources) in resources_of_json v) in
  Ok {| eo_Message := r.(o_message); eo_Resources := resources |}.

Definition row_of_audit (a : AuditEntry) : audit_row T :=
  {| a_id := uuid_string a.(ae_ID); a_timestamp := dl.(dl_enc) a.(ae_Timestamp);
     a_method := a.(ae_Method); a_path := a.(ae_Path); a_username := a.(ae_Username);
     a_status_code := a.(ae_StatusCode); a_action := a.(ae_Action);
     a_execution_id := a.(ae_ExecutionID); a_jira := a.(ae_Jira);
     a_approval_state := a.(ae_ApprovalState); a_target_cluster := a.(ae_TargetCluster) |}.

Definition audit_of_row (r : audit_row T) : res AuditEntry :=
  let? id := wrap_err "parsing audit entry id" (uuid_parse r.(a_id)) in
  let? ts := dl.(dl_dec) "timestamp" r.(a_timestamp) in
  Ok {| ae_ID := id; ae_Timestamp := ts; ae_Method := r.(a_method); ae_Path := r.(a_path);
        ae_Username := r.(a_username); ae_StatusCode := r.(a_status_code); ae_Action := r.(a_action);
        ae_ExecutionID := r.(a_execution_id); ae_Jira := r.(a_jira);
        ae_ApprovalState := r.(a_approval_state); ae_TargetCluster := r.(a_target_cluster) |}.

(** ** Operations *)

Definition create_execution (e : Execution) : S (res unit) :=
  do? _ <- wrap_errM "inserting execution" (sql (InsertExecution (row_of_execution e)));
  ret (Ok tt).

Definition get_execution (id : uuid) : S (res Execution) :=
  do rows <- sql (SelectExecution (uuid_string id));
  ret (let? row := scan_error "querying execution" (scan rows) in execution_of_row row).

Definition get_execution_output (id : uuid) : S (res ExecutionOutput) :=
  do rows <- sql (SelectOutput (uuid_string id));
  ret (let? row := scan_error "querying execution output" (scan rows) in output_of_row row).

(** The clauses a list query runs with: the filter's, then [Since]. *)
Definition with_since (column : string) (since : option Z)
    (w : list string * list (sql_value T)) : list string * list (sql_value T) :=
  opt_clause (column +:+ " >= ?") (λ t, VTime (dl.(dl_enc) t)) since w.

Definition list_executions (flt : ExecutionFilter) : S (res (ListResult Execution)) :=
  let '(clauses, args) := with_since "created_at" flt.(ef_Since) (buildExecutionWhere flt) in
  do? total <- wrap_errM "counting executions" (sql (CountExecutions clauses args));
  let limit := clampLimit flt.(ef_Limit) 20 100 in
  let offset := clampOffset flt.(ef_Offset) in
  do? rows <- wrap_errM "listing executions" (sql (SelectExecutions clauses args limit offset));
  ret (let? items := res_each execution_of_row rows in
       Ok (Build_ListResult items total limit offset)).

(** One statement of the update transaction that must affect a row, or not. *)
Definition tx_exec (must_affect : bool) (s : stmt T) (rows_affected : stmt_resp s → Z) : S (res unit) :=
  do r <- sql s;
  ret (match r with
       | Err e => Err (dl.(dl_table_error) e)
       | Ok a => if must_affect && (rows_affected a =? 0) then Err (ESentinel ErrNotFound) else Ok tt
       end).

Definition update_execution_with_result (id : uuid) (status : string) (completedAt : option Z)
    (output : option ExecutionOutput) : S (res unit) :=
  in_transaction "initiating transaction" (
    do now <- time_now;
    do? _ <- wrap_errM "updating execution status"
      (tx_exec true (UpdateStatus status (dl.(dl_enc) now) (enc_opt completedAt) (uuid_string id)) (λ n, n));
    do? _ <- wrap_errM "deleting execution output"
      (tx_exec false (DeleteOutput (uuid_string id)) (λ n, n));
    do? _ <- match output with
             | None => ret (Ok tt)
             | Some o =>
                 let resourcesData := json_marshal (resources_json o.(eo_Resources)) in
                 do oid <- new_uuid;
                 wrap_errM "creating execution output"
                   (tx_exec dl.(dl_check_insert)
                      (InsertOutput {| o_id := uuid_string oid; o_exec_id := uuid_string id;
                                       o_message := o.(eo_Message); o_resources := resourcesData |})
                      (λ n, n))
             end;
    wrap_errM "committing transaction" db_commit).

Definition claim_next_execution : S (res Execution) :=
  in_transaction "beginning claim transaction" (
    do ids <- sql (SelectNextPending dl.(dl_skip_locked));
    do? id <- ret (scan_error "selecting next pending execution" (scan ids));
    do now <- time_now;
    do? _ <- wrap_errM "claiming execution" (sql (UpdateRunning (dl.(dl_enc) now) id));
    do rows <- sql (SelectExecution id);
    do? row <- ret (wrap_err "querying claimed execution" (scan rows));
    do? _ <- wrap_errM "committing claim transaction" db_commit;
    ret (execution_of_row row)).

Definition create_audit_entry (a : AuditEntry) : S (res unit) :=
  do? _ <- wrap_errM "inserting audit entry" (sql (InsertAudit (row_of_audit a)));
  ret (Ok tt).

Definition list_audit_entries (flt : AuditFilter) : S (res (ListResult AuditEntry)) :=
  let '(clauses, args) := with_since "timestamp" flt.(af_Since) (buildAuditWhere flt) in
  do? total <- wrap_errM "counting audit entries" (sql (CountAudit clauses args));
  let limit := clampLimit flt.(af_Limit) 50 200 in
  let offset := clampOffset flt.(af_Offset) in
  do? rows <- wrap_errM "listing audit entries" (sql (SelectAudit clauses args limit offset));
  ret (let? items := res_each audit_of_row rows in
       Ok (Build_ListResult items total limit offset)).
End store.
