(* ===== verification/StoreSpec.v ===== *)
(** What the stores promise, for every dialect: the WHERE builders select what
    the filters mean, each operation has the table-level effect its contract
    states, transactions are all-or-nothing, and the keys stay unique. *)

From S2P Require Import Prelude GoString Json Env Actions Models Sql Store.

(** ** The filters as predicates on rows *)
Section filters.
Context {T : Type} (tle : T → T → bool).

Definition opt_eq {A} `{EqDecision A} (want : option A) (have : option A) : bool :=
  match want with None => true | Some a => bool_decide (have = Some a) end.
Definition since_ok (since : option T) (t : T) : bool :=
  match since with None => true | Some s => tle s t end.

Definition matches (enc : Z → T) (flt : ExecutionFilter) (r : exec_row T) : bool :=
  opt_eq flt.(ef_Status) (Some r.(r_status)) && opt_eq flt.(ef_Action) (Some r.(r_action))
  && opt_eq flt.(ef_Target) (Some r.(r_target_cluster)) && opt_eq flt.(ef_Operator) r.(r_username)
  && opt_eq flt.(ef_Scope) r.(r_scope) && opt_eq flt.(ef_Type) r.(r_type)
  && opt_eq flt.(ef_ApprovalState) r.(r_approval_state) && opt_eq flt.(ef_DryRun) r.(r_dry_run)
  && opt_eq flt.(ef_Force) r.(r_force) && since_ok (enc <$> flt.(ef_Since)) r.(r_created_at).

Definition audit_matches (enc : Z → T) (flt : AuditFilter) (r : audit_row T) : bool :=
  opt_eq flt.(af_Action) r.(a_action) && opt_eq flt.(af_Target) r.(a_target_cluster)
  && opt_eq flt.(af_Operator) (Some r.(a_username)) && opt_eq flt.(af_Method) (Some r.(a_method))
  && opt_eq flt.(af_ApprovalState) r.(a_approval_state)
  && since_ok (enc <$> flt.(af_Since)) r.(a_timestamp).

Lemma where_holds_app {R} column c1 a1 c2 a2 (r : R) :
  length c1 = length a1 →
  where_holds tle column (c1 ++ c2) (a1 ++ a2) r
  = where_holds tle column c1 a1 r && where_holds tle column c2 a2 r.
Proof.
  revert a1. induction c1 as [|c c1 IH]; intros [|a a1]; try done. simpl. intros [= Hl].
  by rewrite IH, andb_assoc.
Qed.

(** The accumulators stay the same length, so a placeholder always has its own
    argument. *)
Definition aligned (acc : list string * list (sql_value T)) : Prop := length acc.1 = length acc.2.

Lemma opt_clause_aligned {A} clause (f : A → sql_value T) v acc :
  aligned acc → aligned (opt_clause clause f v acc).
Proof. unfold aligned, opt_clause. destruct v; [|done]. simpl. rewrite !length_app. simpl. lia. Qed.

Lemma opt_clause_holds {R A} column clause (f : A → sql_value T) v acc (r : R) :
  aligned acc →
  where_holds tle column (opt_clause clause f v acc).1 (opt_clause clause f v acc).2 r
  = where_holds tle column acc.1 acc.2 r
    && match v with Some a => clause_holds tle column clause (f a) r | None => true end.
Proof.
  intros Ha. unfold opt_clause. destruct v as [a|]; simpl; [|by rewrite andb_true_r].
  rewrite where_holds_app by done. simpl. by rewrite andb_true_r.
Qed.

Lemma text_clause {R} column clause col (want : option string) (have : option string) (r : R) :
  clause_parts clause = Some (col, true) → column col r = text_value have →
  match want with Some a => clause_holds tle column clause (VText a) r | None => true end
  = opt_eq want have.
Proof.
  intros Hc Hcol. destruct want as [a|]; [|done]. unfold clause_holds. rewrite Hc, Hcol.
  destruct have as [h|]; [|reflexivity]. simpl.
  apply bool_decide_ext. split; congruence.
Qed.

Lemma bool_clause {R} column clause col (want : option bool) (have : option bool) (r : R) :
  clause_parts clause = Some (col, true) → column col r = bool_value have →
  match want with Some a => clause_holds tle column clause (VBool a) r | None => true end
  = opt_eq want have.
Proof.
  intros Hc Hcol. destruct want as [a|]; [|done]. unfold clause_holds. rewrite Hc, Hcol.
  destruct have as [h|]; [|reflexivity]. simpl.
  rewrite eq_iff_eq_true, Bool.eqb_true_iff, bool_decide_eq_true. split; congruence.
Qed.

Lemma since_clause {R} column clause col (enc : Z → T) since (t : T) (r : R) :
  clause_parts clause = Some (col, false) → column col r = Some (VTime t) →
  match since with Some s => clause_holds tle column clause (VTime (enc s)) r | None => true end
  = since_ok (enc <$> since) t.
Proof. intros Hc Hcol. destruct since; [|done]. unfold clause_holds. by rewrite Hc, Hcol. Qed.

(** Peels one optional clause off a builder. *)
Ltac clause :=
  first [ eapply text_clause; [vm_compute; reflexivity|done]
        | eapply bool_clause; [vm_compute; reflexivity|done]
        | eapply since_clause; [vm_compute; reflexivity|done] ].
Ltac peel :=
  rewrite opt_clause_holds by (repeat apply opt_clause_aligned; reflexivity);
  first [clause | apply (f_equal2 andb); [|clause]].

Lemma execution_where dl flt r :
  let w := with_since dl "created_at" flt.(ef_Since) (buildExecutionWhere flt) in
  where_holds tle exec_column w.1 w.2 r = matches dl.(dl_enc) flt r.
Proof. unfold with_since, buildExecutionWhere, matches. repeat peel. Qed.

Lemma audit_where dl flt r :
  let w := with_since dl "timestamp" flt.(af_Since) (buildAuditWhere flt) in
  where_holds tle audit_column w.1 w.2 r = audit_matches dl.(dl_enc) flt r.
Proof. unfold with_since, buildAuditWhere, audit_matches. repeat peel. Qed.

(** The WHERE clause a list query is run with means the filter. For every
    filter and row, the clauses [buildExecutionWhere] and [buildAuditWhere] build,
    with [Since] appended and their arguments bound in order, hold of the row
    exactly when each field the caller set equals the row's column (a NULL column
    never matches) and the row is not older than [Since]. *)
Theorem where_builders_spec dl (ef : ExecutionFilter) (af : AuditFilter) er ar :
  (let w := with_since dl "created_at" ef.(ef_Since) (buildExecutionWhere ef) in
   where_holds tle exec_column w.1 w.2 er = matches dl.(dl_enc) ef er)
  ∧ (let w := with_since dl "timestamp" af.(af_Since) (buildAuditWhere af) in
     where_holds tle audit_column w.1 w.2 ar = audit_matches dl.(dl_enc) af ar).
Proof. split; [apply execution_where|apply audit_where]. Qed.
End filters.

(** The page a list operation asks the database for is always a page: with the
    stores' defaults and maxima the limit is positive and at most the maximum, an
    in-range limit is honoured, and the offset is never negative. *)
Theorem clamp_spec v d m o :
  0 < d ≤ m →
  0 < clampLimit v d m ≤ m ∧ (0 < v ≤ m → clampLimit v d m = v)
  ∧ 0 ≤ clampOffset o ∧ (0 ≤ o → clampOffset o = o).
Proof. unfold clampLimit, clampOffset. intros. repeat case_match; lia. Qed.

Lemma clamp_spec_witness :
  0 < 20 ≤ 100 ∧ 0 < clampLimit 500 20 100 ≤ 100 ∧ clampLimit 500 20 100 = 100.
Proof.
  split; [lia|]. split; [|reflexivity].
  exact (proj1 (clamp_spec 500 20 100 0 ltac:(lia))).
Defined.

(** ** Statements and transactions *)
Section transactions.
Context {T : Type} {tle : T → T → bool} `{E : SqlEngine T} `{!SqlLaws tle E} `{StoreEnv} `{GoJson}.

(** Well-formed tables: the primary keys are unique. *)
Definition wf_tables (t : tables T) : Prop :=
  NoDup (r_id <$> t.(t_executions)) ∧ NoDup (o_id <$> t.(t_outputs)) ∧ NoDup (a_id <$> t.(t_audit)).

Lemma run_in_tx s d t r d' :
  session d = Some t → sql_run s d = (r, d') →
  content d' = content d
  ∧ match r with
    | Ok a => key_free s t ∧ answers tle t s a ∧ session d' = Some (effect s t)
    | Err _ => session d' = Some t
    end.
Proof.
  intros Hs Hr. destruct r as [a|e].
  - destruct (run_ok _ _ _ _ Hr) as (Hk & Ha & Hc & Hb). unfold current in *. rewrite Hs in *.
    destruct Hb as [Hb [t' Ht']]. rewrite Ht' in *. simpl in *. by subst.
  - destruct (run_err _ _ _ _ Hr) as [Hc ->]. by rewrite Hs.
Qed.

Lemma run_auto s d r d' :
  session d = None → sql_run s d = (r, d') →
  session d' = None
  ∧ match r with
    | Ok a => key_free s (content d) ∧ answers tle (content d) s a ∧ content d' = effect s (content d)
    | Err _ => content d' = content d
    end.
Proof.
  intros Hs Hr. destruct r as [a|e].
  - destruct (run_ok _ _ _ _ Hr) as (Hk & Ha & Hc & Hb). unfold current in *. rewrite Hs in *.
    by rewrite Hb in Hc.
  - destruct (run_err _ _ _ _ Hr) as [-> ->]. by rewrite Hs.
Qed.

(** The transaction pattern: whatever the body does, no transaction is left open,
    and the committed tables are what the body committed. *)
Lemma in_transaction_spec {A} msg (body : M store_state (res A)) d n (P : res A → tables T → Prop) :
  session d = None →
  (∀ e, P (Err (EWrap msg e)) (content d)) →
  (∀ d1, session d1 = Some (content d) → content d1 = content d →
     let '(r, (d2, n2)) := body (d1, n) in P r (content d2)) →
  let '(r, (d', n')) := in_transaction msg body (d, n) in session d' = None ∧ P r (content d').
Proof.
  intros Hs He Hb. unfold in_transaction, bind_res, wrap_errM, bind, ret, db_begin.
  pose proof (begin_law d Hs) as Hl. destruct (sql_begin d) as [[e|] d1]; simpl; destruct Hl as [Hc Hss].
  - rewrite Hc. auto.
  - specialize (Hb d1 Hss Hc). destruct (body (d1, n)) as [r [d2 n2]]. unfold db_rollback.
    pose proof (rollback_law d2) as Hr. destruct (sql_rollback d2) as [e d3].
    destruct Hr as [Hc3 ->]. by rewrite Hc3.
Qed.

(** An engine whose statements succeed unless a key is taken. *)
Definition reliable : Prop :=
  (∀ s d, key_free s (current d) → is_ok (sql_run s d).1 = true)
  ∧ (∀ d, session d = None → (sql_begin d).1 = None)
  ∧ (∀ d t, session d = Some t → (sql_commit d).1 = None).

Lemma reliable_run s d t :
  reliable → session d = Some t → key_free s t →
  ∃ a d', sql_run s d = (Ok a, d') ∧ answers tle t s a ∧ session d' = Some (effect s t).
Proof.
  intros [Hrel _] Hs Hk. specialize (Hrel s d). unfold current in Hrel. rewrite Hs in Hrel.
  specialize (Hrel Hk). destruct (sql_run s d) as [[a|e] d'] eqn:Hr; [|done].
  apply (run_in_tx _ _ _ _ _ Hs) in Hr as (_ & _ & Ha & Hs'). by exists a, d'.
Qed.

(** The effect of the update transaction. *)
Definition finished (id status : string) (updated : T) (completed : option T)
    (output : option output_row) (t : tables T) : tables T :=
  {| t_executions := update_row id (set_status status updated completed) t.(t_executions);
     t_outputs := filter (λ r, r.(o_exec_id) ≠ id) t.(t_outputs) ++ option_list output;
     t_audit := t.(t_audit) |}.

Definition stored_output (id : uuid) (oid : uuid) (o : ExecutionOutput) : output_row :=
  {| o_id := uuid_string oid; o_exec_id := uuid_string id; o_message := o.(eo_Message);
     o_resources := json_marshal (resources_json o.(eo_Resources)) |}.

(** What an update leaves behind, by what it returns. *)
Definition update_post (key : string) (after t : tables T) (r : res unit) (t' : tables T) : Prop :=
  match r with
  | Ok _ => t' = after ∧ rows_with_id t key ≠ []
  | Err e => t' = t ∨ t' = after ∧ rows_with_id t key ≠ [] ∧ ∃ e', e = EWrap "committing transaction" e'
  end.

Lemma update_run dl id status completedAt output d n :
  session d = None →
  let '(r, (d', n')) := update_execution_with_result dl id status completedAt output (d, n) in
  session d' = None
  ∧ update_post (uuid_string id)
      (finished (uuid_string id) status (dl.(dl_enc) (env_now n)) (enc_opt dl completedAt)
         (stored_output id (env_uuid (S n)) <$> output) (content d)) (content d) r (content d').
Proof.
  intros Hs. set (key := uuid_string id). set (updated := dl.(dl_enc) (env_now n)).
  set (after := finished _ _ _ _ _ _). unfold update_execution_with_result.
  apply (in_transaction_spec _ _ d n (update_post key after (content d))); [done|by left|].
  unfold update_post.
  intros d1 Hs1 Hc1. unfold bind at 1, time_now. fold updated key.
  unfold bind_res at 1, wrap_errM at 1, tx_exec at 1, bind, ret, sql at 1.
  destruct (sql_run _ d1) as [r2 d2] eqn:Hr2. apply (run_in_tx _ _ _ _ _ Hs1) in Hr2 as [Hc2 Hr2].
  rewrite Hc1 in Hc2. destruct r2 as [a2|e2]; simpl; [|by left].
  destruct Hr2 as (_ & Ha2 & Hs2). simpl in Ha2. subst a2.
  destruct (Z.eqb_spec (Z.of_nat (length (rows_with_id (content d) key))) 0) as [Hz|Hz]; simpl; [by left|].
  assert (rows_with_id (content d) key ≠ []) as Hne by (intros Hnil; by rewrite Hnil in Hz).
  unfold bind_res at 1, wrap_errM at 1, tx_exec at 1, bind, ret, sql at 1.
  destruct (sql_run _ d2) as [r3 d3] eqn:Hr3. apply (run_in_tx _ _ _ _ _ Hs2) in Hr3 as [Hc3 Hr3].
  rewrite Hc2 in Hc3. destruct r3 as [a3|e3]; simpl; [|by left].
  destruct Hr3 as (_ & _ & Hs3). unfold bind_res.
  destruct output as [o|]; simpl.
  - unfold new_uuid, wrap_errM, tx_exec, bind, ret, sql.
    destruct (sql_run _ d3) as [r4 d4] eqn:Hr4. apply (run_in_tx _ _ _ _ _ Hs3) in Hr4 as [Hc4 Hr4].
    rewrite Hc3 in Hc4. destruct r4 as [a4|e4]; simpl; [|by left].
    destruct Hr4 as (_ & Ha4 & Hs4). simpl in Ha4. subst a4.
    replace (dl_check_insert dl && (1 =? 0)) with false by (by destruct (dl_check_insert dl)). simpl.
    unfold db_commit. pose proof (commit_law d4 _ Hs4) as Hcm. rewrite Hc4 in Hcm.
    destruct (sql_commit d4) as [[e5|] d5]; simpl; destruct Hcm as [_ Hcm]; [|by split].
    destruct Hcm; eauto.
  - pose proof (commit_law d3 _ Hs3) as Hcm. rewrite Hc3 in Hcm.
    unfold wrap_errM, bind, ret, db_commit, after, finished. simpl. rewrite app_nil_r.
    destruct (sql_commit d3) as [[e5|] d5]; simpl; destruct Hcm as [_ Hcm]; [|by split].
    destruct Hcm; eauto.
Qed.

(** On a reliable engine an update fails for an unknown id only, and as not found. *)
Lemma update_reliable dl id status completedAt output d n :
  reliable → session d = None →
  (∀ o, output = Some o → uuid_string (env_uuid (S n)) ∉ o_id <$> (content d).(t_outputs)) →
  (update_execution_with_result dl id status completedAt output (d, n)).1
  = if bool_decide (rows_with_id (content d) (uuid_string id) = [])
    then Err (EWrap "updating execution status" (ESentinel ErrNotFound)) else Ok tt.
Proof.
  intros Hrel Hs Hfree.
  unfold update_execution_with_result, in_transaction, db_begin, db_commit, db_rollback, time_now, tx_exec, new_uuid,
    sql, wrap_errM, bind_res, bind, ret.
  pose proof (begin_law d Hs) as Hb. pose proof (proj1 (proj2 Hrel) d Hs) as Hok.
  destruct (sql_begin d) as [eb d1]. simpl in Hok. subst eb. destruct Hb as [_ Hs1]. simpl.
  destruct (reliable_run (UpdateStatus status (dl.(dl_enc) (env_now n)) (enc_opt dl completedAt) (uuid_string id)) d1 _ Hrel Hs1)
    as (a2 & d2 & -> & -> & Hs2); [done|]. simpl in Hs2. simpl.
  case_bool_decide as Hz; [rewrite Hz; simpl; by destruct (sql_rollback d2)|].
  destruct (Z.eqb_spec (Z.of_nat (length (rows_with_id (content d) (uuid_string id)))) 0) as [Hl|_];
    [by destruct (rows_with_id (content d) (uuid_string id))|]. simpl.
  destruct (reliable_run (DeleteOutput (uuid_string id)) d2 _ Hrel Hs2) as (a3 & d3 & -> & _ & Hs3); [done|]. simpl in Hs3. simpl.
  destruct output as [o|]; simpl.
  - match goal with |- context [sql_run ?st d3] =>
      destruct (reliable_run st d3 _ Hrel Hs3) as (a4 & d4 & -> & Ha4 & Hs4) end.
    { simpl. intros (r & Hr & Hin)%list_elem_of_fmap. apply (Hfree o eq_refl), list_elem_of_fmap.
      exists r. split; [done|]. by apply list_elem_of_filter in Hin as [_ ?]. }
    simpl in Ha4. subst a4. replace (dl_check_insert dl && (1 =? 0)) with false by (by destruct (dl_check_insert dl)).
    simpl. pose proof (proj2 (proj2 Hrel) d4 _ Hs4) as Hcm. destruct (sql_commit d4) as [e5 d5]. simpl in Hcm.
    subst e5. simpl. by destruct (sql_rollback d5).
  - pose proof (proj2 (proj2 Hrel) d3 _ Hs3) as Hcm. destruct (sql_commit d3) as [e5 d5]. simpl in Hcm.
    subst e5. simpl. by destruct (sql_rollback d5).
Qed.

(** C16: finishing an execution is all-or-nothing. From a database with no open
    transaction, [UpdateExecutionWithResult] leaves none open, and either succeeds
    with exactly its contract - the named execution exists and now has the status
    and completion time, its previous outputs are replaced by the given one (or by
    none), and every other row is as it was - or fails with the tables unchanged;
    only a failed commit may leave them either way. On an engine whose statements and
    transactions succeed, given a fresh output id, the outcome is decided by the id alone:
    an unknown one is reported with an error that wraps not found, a known one succeeds. *)
Theorem update_execution_atomic dl id status completedAt output d n :
  session d = None →
  let key := uuid_string id in
  let updated := dl.(dl_enc) (env_now n) in
  let after := finished key status updated (enc_opt dl completedAt)
                 (stored_output id (env_uuid (S n)) <$> output) (content d) in
  let '(r, (d', n')) := update_execution_with_result dl id status completedAt output (d, n) in
  session d' = None
  ∧ match r with
    | Ok _ => content d' = after ∧ rows_with_id (content d) key ≠ []
    | Err e => content d' = content d
               ∨ content d' = after ∧ rows_with_id (content d) key ≠ []
                 ∧ ∃ e', e = EWrap "committing transaction" e'
    end
  ∧ (reliable → (∀ o, output = Some o → uuid_string (env_uuid (S n)) ∉ o_id <$> (content d).(t_outputs)) →
     match r with
     | Ok _ => rows_with_id (content d) key ≠ []
     | Err e => rows_with_id (content d) key = [] ∧ errors_is e ErrNotFound = true
     end).
Proof.
  intros Hs. pose proof (update_run dl id status completedAt output d n Hs) as Hu.
  pose proof (λ Hr, update_reliable dl id status completedAt output d n Hr Hs) as Hrel.
  destruct (update_execution_with_result _ _ _ _ _ _) as [r [d' n']]. destruct Hu as [Hn Hp].
  split; [done|]. split; [exact Hp|]. intros Hr Hf. specialize (Hrel Hr Hf). simpl in Hrel. subst r.
  by case_bool_decide.
Qed.

(** ** The queue *)

(** The row a claim takes: the oldest pending one. *)
Definition oldest_pending (t : tables T) (row : exec_row T) : Prop :=
  row ∈ pending t ∧ ∀ row', row' ∈ pending t → row' = row ∨ oldest_first tle r_created_at r_id row row'.
Definition running (updated : T) (row : exec_row T) : exec_row T :=
  set_status "running" updated row.(r_completed_at) row.
Definition claimed (updated : T) (row : exec_row T) (t : tables T) : tables T :=
  with_executions t (update_row row.(r_id) (running updated) t.(t_executions)).

Lemma elem_of_pending t (row : exec_row T) : row ∈ pending t ↔ row ∈ t.(t_executions) ∧ row.(r_status) = "pending".
Proof. unfold pending. rewrite list_elem_of_filter. tauto. Qed.

Lemma next_pending_oldest b t ids id :
  answers tle t (SelectNextPending b) ids → head ids = Some id →
  ∃ row, oldest_pending t row ∧ id = row.(r_id).
Proof.
  simpl. intros (l & [Hperm Hsort] & ->). destruct l as [|row l]; [done|]. simpl. intros [= <-].
  exists row. split; [|done]. split; [rewrite <- Hperm; by left|]. intros row' Hin.
  rewrite <- Hperm in Hin. apply elem_of_cons in Hin as [->|Hin]; [by left|right].
  apply StronglySorted_inv in Hsort as [_ Hall]. rewrite Forall_forall in Hall. by apply Hall.
Qed.

Lemma next_pending_none b t ids :
  answers tle t (SelectNextPending b) ids → ids = [] ↔ pending t = [].
Proof.
  simpl. intros (l & [Hperm _] & ->). destruct l as [|row l]; simpl.
  - split; [|done]. intros _. by apply Permutation_nil.
  - split; [done|]. intros Hp. rewrite Hp in Hperm. by apply Permutation_nil_r in Hperm.
Qed.

Lemma filter_update id (f : exec_row T → exec_row T) rows :
  (∀ r, (f r).(r_id) = r.(r_id)) →
  filter (λ r : exec_row T, r.(r_id) = id) (update_row id f rows) = f <$> filter (λ r : exec_row T, r.(r_id) = id) rows.
Proof.
  intros Hf. unfold update_row. induction rows as [|r rows IH]; [done|].
  rewrite fmap_cons, !filter_cons. case_bool_decide as Hr.
  - rewrite !decide_True by (by rewrite ?Hf). by rewrite fmap_cons, IH.
  - by rewrite !decide_False by done.
Qed.

Lemma filter_unique (rows : list (exec_row T)) row :
  NoDup (r_id <$> rows) → row ∈ rows → filter (λ r : exec_row T, r.(r_id) = row.(r_id)) rows = [row].
Proof.
  induction rows as [|r rows IH]; [by inversion 2|]. simpl. intros [Hr Hnd]%NoDup_cons Hin.
  rewrite filter_cons. apply elem_of_cons in Hin as [->|Hin].
  - rewrite decide_True by done. f_equal.
    assert (∀ l, r_id r ∉ r_id <$> l → filter (λ r' : exec_row T, r_id r' = r_id r) l = []) as Hnil.
    { intros l Hl. induction l as [|x l IHl]; [done|]. simpl in Hl. rewrite filter_cons.
      rewrite decide_False by set_solver. apply IHl. set_solver. }
    by apply Hnil.
  - rewrite decide_False; [by apply IH|]. intros Heq. apply Hr. rewrite Heq.
    apply list_elem_of_fmap. by exists row.
Qed.

Lemma claimed_row updated row t :
  wf_tables t → row ∈ t.(t_executions) →
  rows_with_id (claimed updated row t) row.(r_id) = [running updated row].
Proof.
  intros (Hnd & _) Hin. unfold rows_with_id, claimed. simpl.
  rewrite filter_update by done. by rewrite (filter_unique _ _ Hnd Hin).
Qed.

Lemma claimed_not_pending updated row t :
  row.(r_id) ∉ r_id <$> pending (claimed updated row t).
Proof.
  intros (r & Hr & Hin)%list_elem_of_fmap. apply elem_of_pending in Hin as [Hin Hp].
  unfold claimed, update_row in Hin. simpl in Hin. apply list_elem_of_fmap in Hin as (r0 & -> & _).
  case_bool_decide; [by simpl in Hp|congruence].
Qed.

(** What a claim leaves behind, by what it returns. *)
Definition claim_post dl (updated : T) (t : tables T) (r : res Execution) (t' : tables T) : Prop :=
  (pending t = [] → t' = t ∧ is_ok r = false)
  ∧ match r with
    | Ok e => ∃ row, oldest_pending t row
                ∧ execution_of_row dl (running updated row) = Ok e ∧ e.(ex_Status) = "running"
                ∧ t' = claimed updated row t ∧ row.(r_id) ∉ r_id <$> pending t'
    | Err e => t' = t
               ∨ ∃ row, oldest_pending t row ∧ t' = claimed updated row t
                   ∧ ((∃ e', e = EWrap "committing claim transaction" e')
                      ∨ execution_of_row dl (running updated row) = Err e)
    end.

Lemma claim_run dl d n :
  session d = None → wf_tables (content d) →
  let '(r, (d', n')) := claim_next_execution dl (d, n) in
  session d' = None ∧ claim_post dl (dl.(dl_enc) (env_now n)) (content d) r (content d').
Proof.
  intros Hs Hwf. set (updated := dl.(dl_enc) (env_now n)). unfold claim_next_execution.
  apply (in_transaction_spec _ _ d n (claim_post dl updated (content d)));
    [done|unfold claim_post; auto|].
  unfold claim_post. intros d1 Hs1 Hc1. unfold bind at 1, sql at 1.
  destruct (sql_run _ d1) as [r2 d2] eqn:Hr2. apply (run_in_tx _ _ _ _ _ Hs1) in Hr2 as [Hc2 Hr2].
  rewrite Hc1 in Hc2. unfold bind_res at 1, ret at 1, scan_error.
  destruct r2 as [ids|e2]; simpl.
  2: { by destruct (errors_is e2 ErrNoRows); simpl; auto. }
  destruct Hr2 as (_ & Hids & Hs2). pose proof (next_pending_none _ _ _ Hids) as Hnone.
  destruct ids as [|id ids']; simpl.
  { split; [|by left]. auto. }
  assert (pending (content d) ≠ []) as Hne by (intros Hp; by apply Hnone in Hp).
  destruct (next_pending_oldest _ _ _ id Hids eq_refl) as (row & Hold & ->).
  unfold bind at 1, time_now. fold updated. unfold bind_res at 1, wrap_errM at 1, bind at 1, ret at 1, sql at 1.
  destruct (sql_run _ d2) as [r3 d3] eqn:Hr3. apply (run_in_tx _ _ _ _ _ Hs2) in Hr3 as [Hc3 Hr3].
  rewrite Hc2 in Hc3. destruct r3 as [a3|e3]; simpl; [|by auto].
  destruct Hr3 as (_ & _ & Hs3). unfold bind at 1, sql at 1.
  destruct (sql_run _ d3) as [r4 d4] eqn:Hr4. apply (run_in_tx _ _ _ _ _ Hs3) in Hr4 as [Hc4 Hr4].
  rewrite Hc3 in Hc4. unfold bind_res, ret. destruct r4 as [rows|e4]; simpl; [|by auto].
  destruct Hr4 as (_ & Hrows & Hs4). simpl in Hrows, Hs4.
  change (rows = rows_with_id (claimed updated row (content d)) (r_id row)) in Hrows.
  rewrite claimed_row in Hrows by (done || apply elem_of_pending, Hold). subst rows. simpl.
  unfold wrap_errM, bind, ret, db_commit. pose proof (commit_law d4 _ Hs4) as Hcm. rewrite Hc4 in Hcm.
  destruct (sql_commit d4) as [[e5|] d5]; simpl; destruct Hcm as [_ Hcm].
  - destruct Hcm as [Hcm|Hcm]; [by auto|]. split; [done|]. right. exists row. eauto 10.
  - split; [done|]. rewrite Hcm.
    destruct (execution_of_row dl (running updated row)) as [e|e] eqn:Hd; [|by eauto 10].
    exists row. split; [done|]. split; [done|]. split; [|split; [done|apply claimed_not_pending]].
    revert Hd. unfold execution_of_row. repeat (intros (? & _ & Hd)%res_bind_ok; revert Hd).
    by intros [= <-].
Qed.

(** C15: claiming takes the oldest pending execution, once. From well-formed tables
    with no open transaction, [ClaimNextExecution] leaves none open; when it
    returns an execution, it is the oldest pending row - by creation time, then id
    - now recorded and returned as running, everything else is unchanged, and the
    row is no longer pending, so no later claim can return it. With nothing pending
    it changes nothing and fails. A failure leaves the tables unchanged, unless the
    commit failed or the claimed row could not be decoded. *)
Theorem claim_oldest dl d n :
  session d = None → wf_tables (content d) →
  let updated := dl.(dl_enc) (env_now n) in
  let '(r, (d', n')) := claim_next_execution dl (d, n) in
  session d' = None
  ∧ (pending (content d) = [] → content d' = content d ∧ is_ok r = false)
  ∧ match r with
    | Ok e => ∃ row, oldest_pending (content d) row
                ∧ execution_of_row dl (running updated row) = Ok e ∧ e.(ex_Status) = "running"
                ∧ content d' = claimed updated row (content d)
                ∧ row.(r_id) ∉ r_id <$> pending (content d')
    | Err e => content d' = content d
               ∨ ∃ row, oldest_pending (content d) row ∧ content d' = claimed updated row (content d)
                   ∧ ((∃ e', e = EWrap "committing claim transaction" e')
                      ∨ execution_of_row dl (running updated row) = Err e)
    end.
Proof. exact (claim_run dl d n). Qed.

(** ** Reading back and listing *)

(** A dialect that stores times in [storable] with precision [round]. *)
Class DialectLaws (dl : dialect T) (storable : Z → bool) (round : Z → Z) : Prop := {
  dec_enc : ∀ label t, storable t = true → dl.(dl_dec) label (dl.(dl_enc) t) = Ok (round t);
  enc_order : ∀ a b, storable a = true → storable b = true →
    tle (dl.(dl_enc) a) (dl.(dl_enc) b) = (round a <=? round b) }.

(** An execution as it comes back: its times at the column's precision. *)
Definition rounded (round : Z → Z) (e : Execution) : Execution :=
  {| ex_ID := e.(ex_ID); ex_Action := e.(ex_Action); ex_Status := e.(ex_Status);
     ex_ApprovalState := e.(ex_ApprovalState); ex_Username := e.(ex_Username);
     ex_TargetCluster := e.(ex_TargetCluster); ex_Jira := e.(ex_Jira); ex_DryRun := e.(ex_DryRun);
     ex_Force := e.(ex_Force); ex_Params := e.(ex_Params); ex_Scope := e.(ex_Scope);
     ex_Type := e.(ex_Type); ex_Revision := e.(ex_Revision);
     ex_ManifestWorkName := e.(ex_ManifestWorkName); ex_RunnerSeconds := e.(ex_RunnerSeconds);
     ex_UploadSeconds := e.(ex_UploadSeconds); ex_DurationSeconds := e.(ex_DurationSeconds);
     ex_CreatedAt := round e.(ex_CreatedAt); ex_UpdatedAt := round e.(ex_UpdatedAt);
     ex_CompletedAt := round <$> e.(ex_CompletedAt) |}.

Definition storable_times (storable : Z → bool) (e : Execution) : bool :=
  storable e.(ex_CreatedAt) && storable e.(ex_UpdatedAt)
  && match e.(ex_CompletedAt) with Some t => storable t | None => true end.

Lemma row_roundtrip dl storable round e `{!GoUUIDLaws _} :
  DialectLaws dl storable round → storable_times storable e = true →
  execution_of_row dl (row_of_execution dl e) = Ok (rounded round e).
Proof.
  intros [Hd _] [[Hc Hu]%andb_true_iff Hf]%andb_true_iff. unfold execution_of_row. simpl.
  rewrite uuid_parse_string. simpl. rewrite !Hd by done. simpl.
  unfold rounded. destruct (ex_CompletedAt e) as [t|]; simpl; [|done]. by rewrite Hd.
Qed.

(** C18: what is created is what is read back. After [CreateExecution] has
    succeeded, [GetExecution] of its id returns the execution with every field as
    it was given - times at the precision the column keeps - unless the query
    itself fails; and an id already in use is never stored a second time. *)
Theorem create_then_get dl storable round e d n d1 n1 `{!GoUUIDLaws _} :
  DialectLaws dl storable round → storable_times storable e = true →
  session d = None → wf_tables (content d) →
  create_execution dl e (d, n) = (Ok tt, (d1, n1)) →
  (uuid_string e.(ex_ID) ∉ r_id <$> (content d).(t_executions))
  ∧ match (sql_run (SelectExecution (uuid_string e.(ex_ID))) d1).1 with
    | Ok _ => (get_execution dl e.(ex_ID) (d1, n1)).1 = Ok (rounded round e)
    | Err _ => is_ok (get_execution dl e.(ex_ID) (d1, n1)).1 = false
    end.
Proof.
  intros Hdl Hst Hs (Hnd & _) Hcr. revert Hcr. unfold create_execution, bind_res, wrap_errM, bind, ret, sql.
  destruct (sql_run _ d) as [r2 d2] eqn:Hr2. apply (run_auto _ _ _ _ Hs) in Hr2 as [Hs2 Hr2].
  destruct r2 as [a2|e2]; simpl; [|done]. intros [= <- <-]. destruct Hr2 as (Hk & _ & Hc2).
  simpl in Hk. split; [done|]. unfold get_execution, bind, ret, sql.
  destruct (sql_run (SelectExecution _) d2) as [r3 d3] eqn:Hr3.
  apply (run_auto _ _ _ _ Hs2) in Hr3 as [_ Hr3]. destruct r3 as [rows|e3]; simpl.
  2: { unfold scan_error. by destruct (errors_is e3 ErrNoRows). }
  destruct Hr3 as (_ & Hrows & _). simpl in Hrows. rewrite Hc2 in Hrows.
  unfold rows_with_id in Hrows. simpl in Hrows.
  rewrite (filter_unique _ (row_of_execution dl e)) in Hrows.
  - subst rows. simpl. by eapply row_roundtrip.
  - rewrite fmap_app. apply NoDup_app. split; [done|]. split; [|apply NoDup_singleton].
    intros x Hx Hx'. apply list_elem_of_singleton in Hx' as ->. done.
  - apply elem_of_app. right. by left.
Qed.

(** A total order on the stored times, as both columns have. *)
Class TimeOrder : Prop := {
  tle_total : ∀ a b, tle a b = true ∨ tle b a = true;
  tle_antisym : ∀ a b, tle a b = true → tle b a = true → a = b;
  tle_trans : ∀ a b c, tle a b = true → tle b c = true → tle a c = true }.

Lemma NoDup_fmap_elem {A B} (f : A → B) l a b :
  NoDup (f <$> l) → a ∈ l → b ∈ l → f a = f b → a = b.
Proof.
  intros Hnd [i Hi]%list_elem_of_lookup [j Hj]%list_elem_of_lookup Hf.
  assert (i = j) as ->; [|congruence].
  apply (NoDup_lookup (f <$> l) i j (f a)); [done|..]; rewrite list_lookup_fmap.
  - by rewrite Hi.
  - by rewrite Hj, Hf.
Qed.

(** ORDER BY created_at DESC, id ASC leaves the database no choice. *)
Lemma newest_first_unique {R} (time : R → T) (id : R → string) rows l1 l2 :
  TimeOrder → NoDup (id <$> rows) →
  ordered (newest_first tle time id) rows l1 → ordered (newest_first tle time id) rows l2 → l1 = l2.
Proof.
  intros Hto Hnd [Hp1 Hs1] [Hp2 Hs2].
  apply (StronglySorted_unique_strong (newest_first tle time id)); [|done..|by rewrite Hp1].
  intros a b Ha Hb Hab Hba. rewrite Hp1 in Ha. rewrite Hp2 in Hb.
  apply (NoDup_fmap_elem id rows); [done..|]. unfold newest_first in *.
  destruct (tle_total (time a) (time b)) as [Ht|Ht]; rewrite Ht in *; destruct_and?.
  - rewrite H2 in *. destruct_and?. by apply (anti_symm String.le).
  - rewrite H2 in *. destruct_and?. by apply (anti_symm String.le).
Qed.

(** The rows of a list query: the matching ones, newest first, and a page of them. *)
(** A list query: count, then a page, both of the rows the clauses select. *)
Ltac list_run where_lemma :=
  let Hs := fresh "Hs" in intros Hs;
  unfold list_executions, list_audit_entries;
  destruct (with_since _ _ _ _) as [clauses args] eqn:Hw;
  set (limit := clampLimit _ _ _); set (offset := clampOffset _);
  unfold bind_res, wrap_errM, bind, ret, sql;
  destruct (sql_run _ _) as [r2 d2] eqn:Hr2; apply (run_auto _ _ _ _ Hs) in Hr2 as [Hs2 Hr2];
  destruct r2 as [total|e2]; simpl; [|by intros [= <- <- <-]];
  destruct Hr2 as (_ & Htotal & Hc2); simpl in Htotal, Hc2;
  destruct (sql_run _ d2) as [r3 d3] eqn:Hr3; apply (run_auto _ _ _ _ Hs2) in Hr3 as [Hs3 Hr3];
  destruct r3 as [rows|e3]; simpl; [|intros [= <- <- <-]; by rewrite Hr3];
  destruct Hr3 as (_ & (sorted & Hord & ->) & Hc3); simpl in Hc3; intros [= <- <- <-];
  split; [congruence|]; split; [done|]; intros l (items & Hitems & [= <-])%res_bind_ok; simpl;
  rewrite Hc2 in *;
  let Hx := fresh "Hx" in let Hf := fresh "Hf" in
  pose proof where_lemma as Hx; cbv zeta in Hx; rewrite Hw in Hx; cbn [fst snd] in Hx;
  match type of Hx with
  | ∀ row : ?R, @?f row = @?g row =>
      assert (∀ rows : list R, filter (λ row, f row = true) rows = filter (λ row, g row = true) rows) as Hf
        by (intros; apply list_filter_iff; intros row; by rewrite Hx)
  end;
  rewrite Hf in *; eauto 10.

Lemma list_executions_run dl flt d n r d' n' :
  session d = None → list_executions dl flt (d, n) = (r, (d', n')) →
  let rows := filter (λ r, matches tle dl.(dl_enc) flt r = true) (content d).(t_executions) in
  content d' = content d ∧ session d' = None
  ∧ ∀ l, r = Ok l →
      l.(lr_Total) = Z.of_nat (length rows)
      ∧ l.(lr_Limit) = clampLimit flt.(ef_Limit) 20 100 ∧ l.(lr_Offset) = clampOffset flt.(ef_Offset)
      ∧ ∃ sorted, ordered (newest_first tle r_created_at r_id) rows sorted
          ∧ res_each (execution_of_row dl) (page l.(lr_Limit) l.(lr_Offset) sorted) = Ok l.(lr_Items).
Proof. list_run (execution_where tle dl flt). Qed.

Lemma list_audit_run dl flt d n r d' n' :
  session d = None → list_audit_entries dl flt (d, n) = (r, (d', n')) →
  let rows := filter (λ r, audit_matches tle dl.(dl_enc) flt r = true) (content d).(t_audit) in
  content d' = content d ∧ session d' = None
  ∧ ∀ l, r = Ok l →
      l.(lr_Total) = Z.of_nat (length rows)
      ∧ l.(lr_Limit) = clampLimit flt.(af_Limit) 50 200 ∧ l.(lr_Offset) = clampOffset flt.(af_Offset)
      ∧ ∃ sorted, ordered (newest_first tle a_timestamp a_id) rows sorted
          ∧ res_each (audit_of_row dl) (page l.(lr_Limit) l.(lr_Offset) sorted) = Ok l.(lr_Items).
Proof. list_run (audit_where tle dl flt). Qed.

(** C19: a list answer is the page it claims to be. When [ListExecutions] succeeds,
    the total counts the rows that match the filter, the items are those rows
    newest first - ties by id - cut to the page the clamped limit and offset name,
    decoded, and there are at most 100 of them; and the tables are untouched,
    whether it succeeds or not. *)
Theorem list_executions_spec dl flt d n :
  session d = None →
  let '(r, (d', n')) := list_executions dl flt (d, n) in
  content d' = content d
  ∧ ∀ l, r = Ok l →
      let rows := filter (λ r, matches tle dl.(dl_enc) flt r = true) (content d).(t_executions) in
      l.(lr_Total) = Z.of_nat (length rows) ∧ 0 < l.(lr_Limit) ≤ 100 ∧ 0 ≤ l.(lr_Offset)
      ∧ Z.of_nat (length l.(lr_Items)) ≤ l.(lr_Limit)
      ∧ ∃ sorted, ordered (newest_first tle r_created_at r_id) rows sorted
          ∧ Forall2 (λ row e, execution_of_row dl row = Ok e)
              (page l.(lr_Limit) l.(lr_Offset) sorted) l.(lr_Items).
Proof.
  intros Hs. destruct (list_executions dl flt (d, n)) as [r [d' n']] eqn:Hl.
  destruct (list_executions_run dl flt d n r d' n' Hs Hl) as (Hc & _ & Hok).
  split; [done|]. intros l Hr. destruct (Hok l Hr) as (Ht & Hlim & Hoff & sorted & Hord & Hitems).
  apply res_each_ok in Hitems.
  assert (0 < lr_Limit l ≤ 100 ∧ 0 ≤ lr_Offset l) as [Hlr Hor].
  { rewrite Hlim, Hoff. unfold clampLimit, clampOffset. repeat case_match; lia. }
  split; [done|]. split; [done|]. split; [done|]. split; [|eauto].
  rewrite <- (Forall2_length _ _ _ Hitems). unfold page. rewrite length_take. lia.
Qed.

(** The filter of the k-th page. *)
Definition nth_page (flt : ExecutionFilter) (k : nat) : ExecutionFilter :=
  {| ef_Status := flt.(ef_Status); ef_Action := flt.(ef_Action); ef_Target := flt.(ef_Target);
     ef_Operator := flt.(ef_Operator); ef_Scope := flt.(ef_Scope); ef_Type := flt.(ef_Type);
     ef_ApprovalState := flt.(ef_ApprovalState); ef_DryRun := flt.(ef_DryRun); ef_Force := flt.(ef_Force);
     ef_Since := flt.(ef_Since); ef_Limit := flt.(ef_Limit);
     ef_Offset := Z.of_nat k * clampLimit flt.(ef_Limit) 20 100 |}.

Lemma pages_concat {A} (sz : nat) (l : list A) k :
  concat ((λ i, take sz (drop (i * sz) l)) <$> seq 0 k) = take (k * sz) l.
Proof.
  induction k as [|k IH]; [done|].
  rewrite seq_S, fmap_app, concat_app, IH. simpl. rewrite app_nil_r.
  replace (sz + k * sz)%nat with (k * sz + sz)%nat by lia. by rewrite take_take_drop.
Qed.

(** Walking the pages visits every matching execution exactly once. If the
    lists at offsets 0, L, 2L, ... (L the clamped limit) of an unchanged database
    all succeed and k pages cover the total, then their items in order are the
    decoded matching rows, newest first, each once - whatever order the database
    would have been free to choose. *)
Theorem pages_cover dl flt d (k : nat) (lists : list (ListResult Execution)) :
  TimeOrder → session d = None → wf_tables (content d) →
  let rows := filter (λ r, matches tle dl.(dl_enc) flt r = true) (content d).(t_executions) in
  Z.of_nat (length rows) ≤ Z.of_nat k * clampLimit flt.(ef_Limit) 20 100 →
  (0 < k)%nat →
  Forall2 (λ i l, ∃ n, (list_executions dl (nth_page flt i) (d, n)).1 = Ok l) (seq 0 k) lists →
  ∃ sorted, ordered (newest_first tle r_created_at r_id) rows sorted
    ∧ Forall2 (λ row e, execution_of_row dl row = Ok e) sorted (concat (lr_Items <$> lists)).
Proof.
  intros Hto Hs (Hnd & _) rows Hk Hpos Hlists.
  set (limit := clampLimit (ef_Limit flt) 20 100) in *.
  assert (0 < limit) as Hlim by (unfold limit, clampLimit; repeat case_match; lia).
  assert (NoDup (r_id <$> rows)) as Hndr.
  { eapply sublist_NoDup; [exact Hnd|]. apply fmap_sublist, sublist_filter. }
  assert (∀ i l, (∃ n, (list_executions dl (nth_page flt i) (d, n)).1 = Ok l) →
    ∃ sorted, ordered (newest_first tle r_created_at r_id) rows sorted
      ∧ Forall2 (λ row e, execution_of_row dl row = Ok e)
          (take (Z.to_nat limit) (drop (i * Z.to_nat limit) sorted)) l.(lr_Items)) as Hone.
  { intros i l [n Hn]. destruct (list_executions dl (nth_page flt i) (d, n)) as [r [d' n']] eqn:Hl.
    destruct (list_executions_run dl _ d n r d' n' Hs Hl) as (_ & _ & Hok).
    destruct (Hok l Hn) as (_ & Hlm & Hof & sorted & Hord & Hit). exists sorted. split; [done|].
    apply res_each_ok. rewrite <- Hit. f_equal. unfold page. rewrite Hlm, Hof. simpl. fold limit.
    unfold clampOffset. rewrite (proj2 (Z.ltb_ge _ _)) by lia. f_equal. f_equal. lia. }
  destruct k as [|k]; [lia|]. simpl in Hlists.
  inversion Hlists as [|? l0 ? ls Hfst Hrest]; subst.
  destruct (Hone 0%nat l0) as (sorted & Hord & _); [done|]. exists sorted. split; [done|].
  rewrite <- (firstn_all sorted).
  assert (length sorted = length rows) as Hlen by (by apply Permutation_length, Hord).
  rewrite <- (take_ge sorted (S k * Z.to_nat limit)) by (rewrite Hlen; lia).
  rewrite firstn_all, <- pages_concat.
  assert (Forall2 (λ i l, Forall2 (λ row e, execution_of_row dl row = Ok e)
            (take (Z.to_nat limit) (drop (i * Z.to_nat limit) sorted)) l.(lr_Items))
            (seq 0 (S k)) (l0 :: ls)) as Hall.
  { eapply Forall2_impl; [exact Hlists|]. intros i l Hi. destruct (Hone i l Hi) as (s2 & Ho2 & Hf).
    by rewrite (newest_first_unique r_created_at r_id rows sorted s2 Hto Hndr Hord Ho2). }
  clear - Hall. induction Hall; simpl; [constructor|]. by apply Forall2_app.
Qed.

(** ** The keys stay unique *)

Lemma update_row_ids id (f : exec_row T → exec_row T) rows :
  (∀ r, (f r).(r_id) = r.(r_id)) → r_id <$> update_row id f rows = r_id <$> rows.
Proof.
  intros Hf. unfold update_row. rewrite <- list_fmap_compose. apply list_fmap_ext.
  intros _ r _. simpl. case_bool_decide; [apply Hf|done].
Qed.

Lemma NoDup_snoc {A} (l : list A) x : NoDup l → x ∉ l → NoDup (l ++ [x]).
Proof.
  intros Hl Hx. apply NoDup_app. split; [done|]. split; [|apply NoDup_singleton].
  intros y Hy Hy'. by apply list_elem_of_singleton in Hy' as ->.
Qed.

Lemma effect_wf s t : key_free s t → wf_tables t → wf_tables (effect s t).
Proof.
  intros Hk (He & Ho & Ha). unfold wf_tables.
  destruct s; simpl in *; rewrite ?fmap_app; try by repeat split.
  - split; [by apply NoDup_snoc|done].
  - by rewrite update_row_ids.
  - split; [done|]. split; [|done]. eapply sublist_NoDup; [exact Ho|]. apply fmap_sublist, sublist_filter.
  - split; [done|]. split; [by apply NoDup_snoc|done].
  - by rewrite update_row_ids.
  - split; [done|]. split; [done|by apply NoDup_snoc].
Qed.

(** Code that runs inside a transaction and keeps its view well-formed, and code
    that may also end it. *)
Definition wf_session (d : sql_db) : Prop :=
  wf_tables (content d) ∧ ∃ t, session d = Some t ∧ wf_tables t.
Definition keeps_wf {A} (m : M store_state A) : Prop :=
  ∀ d n, wf_session d → let '(r, (d', n')) := m (d, n) in wf_session d'.
Definition ends_wf {A} (m : M store_state A) : Prop :=
  ∀ d n, wf_session d → let '(r, (d', n')) := m (d, n) in wf_tables (content d').

Lemma keeps_ends {A} (m : M store_state A) : keeps_wf m → ends_wf m.
Proof. intros Hk d n Hd. specialize (Hk d n Hd). destruct (m (d, n)) as [r [d' n']]. apply Hk. Qed.
Lemma keeps_ret {A} (a : A) : keeps_wf (ret a).
Proof. by intros d n. Qed.
Lemma keeps_sql s : keeps_wf (sql s).
Proof.
  intros d n (Hc & t & Hs & Ht). unfold sql. destruct (sql_run s d) as [r d'] eqn:Hr.
  apply (run_in_tx _ _ _ _ _ Hs) in Hr as [Hc' Hr]. unfold wf_session. rewrite Hc'. split; [done|].
  destruct r; [|by exists t]. destruct Hr as (Hk & _ & Hs'). eexists. split; [exact Hs'|].
  by apply effect_wf.
Qed.
Lemma keeps_time : keeps_wf time_now.
Proof. by intros d n. Qed.
Lemma keeps_uuid : keeps_wf new_uuid.
Proof. by intros d n. Qed.
Lemma keeps_bind {A B} (m : M store_state A) (k : A → M store_state B) :
  keeps_wf m → (∀ a, keeps_wf (k a)) → keeps_wf (bind m k).
Proof.
  intros Hm Hk d n Hd. unfold bind. specialize (Hm d n Hd). destruct (m (d, n)) as [a [d1 n1]]. by apply Hk.
Qed.
Lemma ends_bind {A B} (m : M store_state A) (k : A → M store_state B) :
  keeps_wf m → (∀ a, ends_wf (k a)) → ends_wf (bind m k).
Proof.
  intros Hm Hk d n Hd. unfold bind. specialize (Hm d n Hd). destruct (m (d, n)) as [a [d1 n1]]. by apply Hk.
Qed.
Lemma ends_bind_res {A B} (m : M store_state (res A)) (k : A → M store_state (res B)) :
  keeps_wf m → (∀ a, ends_wf (k a)) → ends_wf (bind_res m k).
Proof.
  intros Hm Hk d n Hd. unfold bind_res. specialize (Hm d n Hd).
  destruct (m (d, n)) as [[a|e] [d1 n1]]; [by apply Hk|apply Hm].
Qed.
Lemma ends_bind_ret {A B} (m : M store_state (res A)) (f : A → res B) :
  ends_wf m → ends_wf (bind_res m (λ a, ret (f a))).
Proof.
  intros Hm d n Hd. unfold bind_res, ret. specialize (Hm d n Hd).
  by destruct (m (d, n)) as [[a|e] [d1 n1]].
Qed.
Lemma keeps_wrap {A} msg (m : M store_state (res A)) : keeps_wf m → keeps_wf (wrap_errM msg m).
Proof. intros Hm. apply keeps_bind; [done|]. intros. apply keeps_ret. Qed.
Lemma ends_commit msg : ends_wf (wrap_errM msg db_commit).
Proof.
  intros d n (Hc & t & Hs & Ht). unfold wrap_errM, bind, ret, db_commit.
  pose proof (commit_law d t Hs) as Hl. destruct (sql_commit d) as [[e|] d']; simpl; destruct Hl as [_ Hl].
  - by destruct Hl as [-> | ->].
  - by rewrite Hl.
Qed.
Lemma keeps_tx_exec dl b s f : keeps_wf (tx_exec dl b s f).
Proof. apply keeps_bind; [apply keeps_sql|]. intros. apply keeps_ret. Qed.
Hint Resolve keeps_ret keeps_sql keeps_time keeps_uuid keeps_wrap keeps_tx_exec keeps_bind ends_commit : go.

Lemma in_transaction_wf {A} msg (body : M store_state (res A)) d n :
  ends_wf body → session d = None → wf_tables (content d) →
  let '(r, (d', n')) := in_transaction msg body (d, n) in session d' = None ∧ wf_tables (content d').
Proof.
  intros Hb Hs Hwf. apply (in_transaction_spec msg body d n (λ _ t, wf_tables t)); [done..|].
  intros d1 Hs1 Hc1. apply Hb. split; [by rewrite Hc1|]. eauto.
Qed.

(** A single statement outside a transaction, and two of them. *)
Definition auto_wf {A} (m : M store_state A) : Prop :=
  ∀ d n, session d = None → wf_tables (content d) →
    let '(r, (d', n')) := m (d, n) in session d' = None ∧ wf_tables (content d').
Lemma auto_sql s : auto_wf (sql s).
Proof.
  intros d n Hs Hwf. unfold sql. destruct (sql_run s d) as [r d'] eqn:Hr.
  apply (run_auto _ _ _ _ Hs) in Hr as [Hs' Hr]. split; [done|].
  destruct r; [destruct Hr as (Hk & _ & ->); by apply effect_wf|by rewrite Hr].
Qed.
Lemma auto_ret {A} (a : A) : auto_wf (ret a).
Proof. by intros d n. Qed.
Lemma auto_bind {A B} (m : M store_state A) (k : A → M store_state B) :
  auto_wf m → (∀ a, auto_wf (k a)) → auto_wf (bind m k).
Proof.
  intros Hm Hk d n Hs Hwf. unfold bind. specialize (Hm d n Hs Hwf).
  destruct (m (d, n)) as [a [d1 n1]]. destruct Hm. by apply Hk.
Qed.
Lemma auto_bind_res {A B} (m : M store_state (res A)) (k : A → M store_state (res B)) :
  auto_wf m → (∀ a, auto_wf (k a)) → auto_wf (bind_res m k).
Proof.
  intros Hm Hk d n Hs Hwf. unfold bind_res. specialize (Hm d n Hs Hwf).
  destruct (m (d, n)) as [[a|e] [d1 n1]]; [|done]. destruct Hm. by apply Hk.
Qed.
Lemma auto_wrap {A} msg (m : M store_state (res A)) : auto_wf m → auto_wf (wrap_errM msg m).
Proof. intros Hm. apply auto_bind; [done|]. intros. apply auto_ret. Qed.
Hint Resolve auto_sql auto_ret auto_bind auto_bind_res auto_wrap : go.

Lemma store_keys dl :
  (∀ e, auto_wf (create_execution dl e))
  ∧ (∀ id, auto_wf (get_execution dl id))
  ∧ (∀ id, auto_wf (get_execution_output id))
  ∧ (∀ flt, auto_wf (list_executions dl flt))
  ∧ (∀ id status completedAt output, auto_wf (update_execution_with_result dl id status completedAt output))
  ∧ auto_wf (claim_next_execution dl)
  ∧ (∀ a, auto_wf (create_audit_entry dl a))
  ∧ (∀ flt, auto_wf (list_audit_entries dl flt)).
Proof.
  repeat split; intros; try by (unfold create_execution, get_execution, get_execution_output,
    create_audit_entry; auto with go).
  - unfold list_executions. destruct (with_since _ _ _ _). auto with go.
  - intros d n Hs Hwf. apply in_transaction_wf; [|done..].
    apply ends_bind; [auto with go|]. intros now. apply ends_bind_res; [auto with go|]. intros _.
    apply ends_bind_res; [auto with go|]. intros _. apply ends_bind_res; [|auto with go].
    destruct output; [|auto with go]. apply keeps_bind; [auto with go|]. intros. auto with go.
  - intros d n Hs Hwf. apply in_transaction_wf; [|done..].
    apply ends_bind; [auto with go|]. intros ids. apply ends_bind_res; [auto with go|]. intros id.
    apply ends_bind; [auto with go|]. intros now. apply ends_bind_res; [auto with go|]. intros _.
    apply ends_bind; [auto with go|]. intros rows. apply ends_bind_res; [auto with go|]. intros row.
    apply ends_bind_ret. auto with go.
  - unfold list_audit_entries. destruct (with_since _ _ _ _). auto with go.
Qed.

(** No operation of a store can break its keys or leave a transaction open.
    From well-formed tables - execution, output and audit ids unique - with no open
    transaction, every operation ends the same way, whatever it returns and
    whichever of its statements fail. *)
Theorem store_keeps_keys dl :
  (∀ e, auto_wf (create_execution dl e))
  ∧ (∀ id, auto_wf (get_execution dl id))
  ∧ (∀ id, auto_wf (get_execution_output id))
  ∧ (∀ flt, auto_wf (list_executions dl flt))
  ∧ (∀ id status completedAt output, auto_wf (update_execution_with_result dl id status completedAt output))
  ∧ auto_wf (claim_next_execution dl)
  ∧ (∀ a, auto_wf (create_audit_entry dl a))
  ∧ (∀ flt, auto_wf (list_audit_entries dl flt)).
Proof. exact (store_keys dl). Qed.

(** ** Progress *)

(** C17: the queue makes progress. On an engine whose statements and transactions
    succeed, over well-formed tables whose pending rows decode, a claim returns an
    execution exactly when one is pending, and otherwise reports not found. *)
Theorem claim_progress dl d n :
  reliable → session d = None → wf_tables (content d) →
  (∀ row, row ∈ pending (content d) →
     is_ok (execution_of_row dl (running (dl.(dl_enc) (env_now n)) row)) = true) →
  if bool_decide (pending (content d) = [])
  then (claim_next_execution dl (d, n)).1 = Err (ESentinel ErrNotFound)
  else is_ok (claim_next_execution dl (d, n)).1 = true.
Proof.
  intros Hrel Hs Hwf Hdec.
  unfold claim_next_execution, in_transaction, db_begin, db_commit, db_rollback, time_now, sql,
    wrap_errM, scan_error, bind_res, bind, ret.
  pose proof (begin_law d Hs) as Hb. pose proof (proj1 (proj2 Hrel) d Hs) as Hok.
  destruct (sql_begin d) as [eb d1]. simpl in Hok. subst eb. destruct Hb as [Hc1 Hs1]. simpl.
  destruct (reliable_run (SelectNextPending (dl_skip_locked dl)) d1 _ Hrel Hs1) as (ids & d2 & -> & Ha2 & Hs2);
    [done|]. simpl in Hs2. pose proof (next_pending_none _ _ _ Ha2) as Hnone.
  destruct ids as [|id ids']; simpl.
  { rewrite bool_decide_eq_true_2 by (by apply Hnone). by destruct (sql_rollback d2). }
  rewrite bool_decide_eq_false_2 by (intros Hp; by apply Hnone in Hp).
  destruct (next_pending_oldest _ _ _ id Ha2 eq_refl) as (row & Hold & ->).
  specialize (Hdec row (proj1 Hold)). set (updated := dl.(dl_enc) (env_now n)) in *.
  destruct (reliable_run (UpdateRunning updated (r_id row)) d2 _ Hrel Hs2) as (a3 & d3 & -> & _ & Hs3); [done|].
  simpl in Hs3. simpl.
  destruct (reliable_run (SelectExecution (r_id row)) d3 _ Hrel Hs3) as (rows & d4 & -> & Ha4 & Hs4); [done|].
  simpl in Ha4, Hs4. change (rows = rows_with_id (claimed updated row (content d)) (r_id row)) in Ha4.
  rewrite claimed_row in Ha4 by (done || apply elem_of_pending, Hold). subst rows. simpl.
  pose proof (proj2 (proj2 Hrel) d4 _ Hs4) as Hcm.
  destruct (sql_commit d4) as [ec d5]. simpl in Hcm. subst ec. simpl.
  by destruct (sql_rollback d5).
Qed.

End transactions.
