(* ===== verification/StoreApi.v ===== *)
(** The [store.Store] interface (internal/store/store.go) the worker pool and the
    API handlers are written against, and what it promises them: the queue
    contract over an abstract view of each execution's status, the audit log it keeps
    and the pages it answers. Both stores implement it, for any dialect and any engine
    that satisfies [SqlLaws]. *)

From S2P Require Import Prelude GoString Json Env Actions Models Sql Store StoreSpec.

(** ** The interface *)
Class StoreInterface `{GoUUID} := {
  store_st : Type;
  st_CreateExecution : Execution → M store_st (res unit);
  st_GetExecution : uuid → M store_st (res Execution);
  st_GetExecutionOutput : uuid → M store_st (res ExecutionOutput);
  st_ListExecutions : ExecutionFilter → M store_st (res (ListResult Execution));
  st_UpdateExecutionWithResult :
    uuid → string → option Z → option ExecutionOutput → M store_st (res unit);
  st_ClaimNextExecution : M store_st (res Execution);
  st_CreateAuditEntry : AuditEntry → M store_st (res unit);
  st_ListAuditEntries : AuditFilter → M store_st (res (ListResult AuditEntry)) }.

(** ** The queue contract *)

(** [q_ok]: a consistent store; [q_status]: the recorded status of an execution. *)
Class QueueView `(S : StoreInterface) := {
  q_ok : store_st → Prop;
  q_status : store_st → uuid → option string }.

(** Only [id]'s status changed, to [v]. *)
Definition moved `{GoUUID} (f g : uuid → option string) (id : uuid) (v : string) : Prop :=
  ∀ id', g id' = if bool_decide (id' = id) then Some v else f id'.
Definition unmoved `{GoUUID} (f g : uuid → option string) : Prop := ∀ id, g id = f id.

(** An operation that keeps the store consistent and every status. *)
Definition reads `{QueueView} {A} (m : M store_st A) : Prop :=
  ∀ s, q_ok s → let '(_, s') := m s in q_ok s' ∧ unmoved (q_status s) (q_status s').

Class QueueLaws `(V : QueueView) : Prop := {
  queue_create : ∀ e s, q_ok s →
    let '(r, s') := st_CreateExecution e s in
    q_ok s' ∧ match r with
              | Ok _ => q_status s e.(ex_ID) = None
                        ∧ moved (q_status s) (q_status s') e.(ex_ID) e.(ex_Status)
              | Err _ => unmoved (q_status s) (q_status s')
              end;
  queue_claim : ∀ s, q_ok s →
    let '(r, s') := st_ClaimNextExecution s in
    q_ok s' ∧ match r with
              | Ok e => q_status s e.(ex_ID) = Some "pending" ∧ e.(ex_Status) = "running"
                        ∧ moved (q_status s) (q_status s') e.(ex_ID) "running"
              | Err _ => unmoved (q_status s) (q_status s')
                         ∨ ∃ id, q_status s id = Some "pending"
                                 ∧ moved (q_status s) (q_status s') id "running"
              end;
  queue_update : ∀ id status completedAt output s, q_ok s →
    let '(r, s') := st_UpdateExecutionWithResult id status completedAt output s in
    q_ok s' ∧ match r with
              | Ok _ => is_Some (q_status s id) ∧ moved (q_status s) (q_status s') id status
              | Err _ => unmoved (q_status s) (q_status s')
                         ∨ is_Some (q_status s id) ∧ moved (q_status s) (q_status s') id status
              end;
  queue_get : ∀ id, reads (st_GetExecution id);
  queue_output : ∀ id, reads (st_GetExecutionOutput id);
  queue_list : ∀ flt, reads (st_ListExecutions flt);
  queue_audit : ∀ a, reads (st_CreateAuditEntry a);
  queue_list_audit : ∀ flt, reads (st_ListAuditEntries flt) }.

(** ** The audit log *)

(** The audit entries of a store, as it keeps them. *)
Class AuditView `(V : QueueView) := {
  log_entry : Type;
  logged : AuditEntry → log_entry;
  q_log : store_st → list log_entry }.

(** An operation that neither adds nor removes an entry. *)
Definition logs_nothing `{A : AuditView} {X} (m : M store_st X) : Prop :=
  ∀ s, q_ok s → q_log (m s).2 = q_log s.

Class AuditLaws `(A : AuditView) : Prop := {
  log_write : ∀ a s, q_ok s →
    let '(r, s') := st_CreateAuditEntry a s in
    q_log s' = q_log s ++ match r with Ok _ => [logged a] | Err _ => [] end;
  log_create : ∀ e, logs_nothing (st_CreateExecution e);
  log_get : ∀ id, logs_nothing (st_GetExecution id);
  log_output : ∀ id, logs_nothing (st_GetExecutionOutput id);
  log_list : ∀ flt, logs_nothing (st_ListExecutions flt);
  log_update : ∀ id status completedAt output, logs_nothing (st_UpdateExecutionWithResult id status completedAt output);
  log_claim : logs_nothing st_ClaimNextExecution;
  log_list_audit : ∀ flt, logs_nothing (st_ListAuditEntries flt) }.

(** ** The paging contract *)

(** What a list is taken from: the stored rows that match a filter, newest first, and
    what a row decodes to. *)
Class ListView `(V : QueueView) := {
  exec_line : Type;
  audit_line : Type;
  line_execution : exec_line → res Execution;
  line_audit : audit_line → res AuditEntry;
  listing : ExecutionFilter → store_st → list exec_line → Prop;
  audit_listing : AuditFilter → store_st → list audit_line → Prop }.

(** The answer is the page of the rows that the clamped limit and offset name, decoded. *)
Definition paged {R A} (decode : R → res A) (def max limit offset : Z) (rows : list R) (l : ListResult A) : Prop :=
  l.(lr_Limit) = clampLimit limit def max ∧ l.(lr_Offset) = clampOffset offset
  ∧ l.(lr_Total) = Z.of_nat (length rows)
  ∧ Forall2 (λ row x, decode row = Ok x) (page l.(lr_Limit) l.(lr_Offset) rows) l.(lr_Items).

Class PagingLaws `(L : ListView) : Prop := {
  list_paged : ∀ flt s l, q_ok s → (st_ListExecutions flt s).1 = Ok l →
    ∃ rows, listing flt s rows ∧ paged line_execution 20 100 flt.(ef_Limit) flt.(ef_Offset) rows l;
  list_audit_paged : ∀ flt s l, q_ok s → (st_ListAuditEntries flt s).1 = Ok l →
    ∃ rows, audit_listing flt s rows ∧ paged line_audit 50 200 flt.(af_Limit) flt.(af_Offset) rows l }.

Lemma clamp_positive v def max : 0 < def ≤ max → 0 < clampLimit v def max ≤ max.
Proof. intros. unfold clampLimit. repeat case_match; lia. Qed.
Lemma clamp_offset_nonneg v : 0 ≤ clampOffset v.
Proof. unfold clampOffset. case_match; lia. Qed.

Lemma paged_length {R A} (decode : R → res A) def max limit offset rows (l : ListResult A) :
  0 < def ≤ max → paged decode def max limit offset rows l →
  Z.of_nat (length l.(lr_Items)) = Z.max 0 (Z.min l.(lr_Limit) (l.(lr_Total) - l.(lr_Offset))).
Proof.
  intros Hdm (Hl & Ho & Ht & Hi%Forall2_length). rewrite <- Hi. unfold page. rewrite length_take, length_drop.
  pose proof (clamp_positive limit def max Hdm). pose proof (clamp_offset_nonneg offset). lia.
Qed.

(** ** The implementation *)
Section sql.
Context {T : Type} {tle : T → T → bool} `{E : SqlEngine T} `{!SqlLaws tle E} `{Ev : StoreEnv}
  `{!GoUUIDLaws _} `{GoJson} (dl : dialect T).

#[local] Instance SqlStore : StoreInterface :=
  {| store_st := store_state;
     st_CreateExecution := create_execution dl;
     st_GetExecution := get_execution dl;
     st_GetExecutionOutput := get_execution_output;
     st_ListExecutions := list_executions dl;
     st_UpdateExecutionWithResult := update_execution_with_result dl;
     st_ClaimNextExecution := claim_next_execution dl;
     st_CreateAuditEntry := create_audit_entry dl;
     st_ListAuditEntries := list_audit_entries dl |}.

(** Ids are written by [uuid.String]. *)
Definition printed (t : tables T) : Prop :=
  ∀ id, id ∈ r_id <$> t.(t_executions) → ∃ u, id = uuid_string u.

Definition row_status (t : tables T) (u : uuid) : option string :=
  r_status <$> head (rows_with_id t (uuid_string u)).

#[local] Instance SqlView : QueueView SqlStore :=
  {| q_ok := λ s, session s.1 = None ∧ wf_tables (content s.1) ∧ printed (content s.1);
     q_status := λ s, row_status (content s.1) |}.

Lemma rows_with_id_none t id : rows_with_id (T := T) t id = [] ↔ id ∉ r_id <$> t.(t_executions).
Proof.
  unfold rows_with_id. split.
  - intros Hn (r & -> & Hin)%list_elem_of_fmap.
    assert (r ∈ filter (λ x : exec_row T, r_id x = r_id r) (t_executions t)) as Hx
      by (by apply list_elem_of_filter). rewrite Hn in Hx. by inversion Hx.
  - intros Hn. destruct (filter _ _) as [|r l] eqn:Hf; [done|]. exfalso. apply Hn.
    assert (r ∈ filter (λ x : exec_row T, r_id x = id) (t_executions t)) as [<- Hin]%list_elem_of_filter
      by (rewrite Hf; by left). apply list_elem_of_fmap. by exists r.
Qed.

Lemma row_status_some t id : is_Some (row_status t id) ↔ rows_with_id t (uuid_string id) ≠ [].
Proof.
  unfold row_status. destruct (rows_with_id t (uuid_string id)); simpl; split; done.
Qed.

(** An UPDATE of one row moves one status. *)
Lemma update_status_moved t id (f : exec_row T → exec_row T) v :
  (∀ r, (f r).(r_id) = r.(r_id)) → (∀ r, (f r).(r_status) = v) →
  rows_with_id t (uuid_string id) ≠ [] →
  moved (row_status t)
    (row_status (with_executions t (update_row (uuid_string id) f t.(t_executions)))) id v.
Proof.
  intros Hf Hv Hne id'. unfold row_status, rows_with_id. cbn [t_executions with_executions].
  destruct (decide (id' = id)) as [->|Hid].
  - rewrite bool_decide_eq_true_2, filter_update by done.
    unfold rows_with_id in Hne. destruct (filter _ _) as [|r l]; [done|]. simpl. by rewrite Hv.
  - rewrite bool_decide_eq_false_2 by done. do 2 f_equal. unfold update_row.
    clear Hne. induction (t_executions t) as [|r rows IH]; [done|]. rewrite fmap_cons, !filter_cons, IH.
    case_bool_decide as Hr; [|done].
    assert (uuid_string id ≠ uuid_string id') as Hs by (intros ?%uuid_string_inj; congruence).
    rewrite !decide_False by (rewrite ?Hf, Hr; done). done.
Qed.

Lemma printed_update t id f :
  (∀ r : exec_row T, (f r).(r_id) = r.(r_id)) → printed t →
  printed (with_executions t (update_row id f t.(t_executions))).
Proof. intros Hf Hp. unfold printed. simpl. by rewrite update_row_ids. Qed.

Lemma row_uuid t row : printed t → row ∈ t.(t_executions) → ∃ u, row.(r_id) = uuid_string u.
Proof. intros Hp Hin. apply Hp, list_elem_of_fmap. by exists row. Qed.

(** A claimed row, seen by the uuid it decodes to. *)
Lemma claimed_moved t row updated u :
  row ∈ pending t → wf_tables t → row.(r_id) = uuid_string u →
  row_status t u = Some "pending"
  ∧ moved (row_status t) (row_status (claimed updated row t)) u "running".
Proof.
  intros [Hin Hp]%elem_of_pending [Hnd _] Hu.
  assert (rows_with_id t (uuid_string u) = [row]) as Hrows.
  { unfold rows_with_id. rewrite <- Hu. by apply filter_unique. }
  split.
  - unfold row_status. rewrite Hrows. simpl. by rewrite Hp.
  - unfold claimed. rewrite Hu. apply update_status_moved; [done..|]. by rewrite Hrows.
Qed.

Lemma running_id updated row e u :
  row.(r_id) = uuid_string u → execution_of_row dl (running updated row) = Ok e → e.(ex_ID) = u.
Proof.
  intros Hu. unfold execution_of_row. simpl. rewrite Hu, uuid_parse_string. simpl.
  repeat (intros (? & _ & Hd)%res_bind_ok; revert Hd). by intros [= <-].
Qed.

(** A statement run alone keeps a store's executions when its effect does. *)
Definition keeps_executions (t t' : tables T) : Prop := t'.(t_executions) = t.(t_executions).

Lemma reads_sql s :
  (∀ t, keeps_executions t (effect s t)) → reads (H0 := SqlView) (sql s).
Proof.
  intros Hk [d n] (Hs & Hwf & Hp). unfold sql. destruct (sql_run s d) as [r d'] eqn:Hr.
  pose proof (auto_sql s d n Hs Hwf) as Ha. unfold sql in Ha. rewrite Hr in Ha.
  apply (run_auto _ _ _ _ Hs) in Hr as [_ Hr].
  assert (keeps_executions (content d) (content d')) as Hx.
  { destruct r; [destruct Hr as (_ & _ & ->); apply Hk|by rewrite Hr]. }
  unfold unmoved. simpl. unfold printed, row_status, rows_with_id. rewrite Hx. tauto.
Qed.
Lemma reads_ret {A} (a : A) : reads (H0 := SqlView) (ret a).
Proof. intros s Hs. done. Qed.
Lemma reads_bind {A B} (m : M store_state A) (k : A → M store_state B) :
  reads (H0 := SqlView) m → (∀ a, reads (H0 := SqlView) (k a)) → reads (H0 := SqlView) (bind m k).
Proof.
  intros Hm Hk s Hs. unfold bind. specialize (Hm s Hs). destruct (m s) as [a s1].
  destruct Hm as [H1 H2']. specialize (Hk a s1 H1). destruct (k a s1) as [b s'].
  destruct Hk as [H3 H4]. split; [done|]. intros id. by rewrite H4, H2'.
Qed.
Lemma reads_bind_res {A B} (m : M store_state (res A)) (k : A → M store_state (res B)) :
  reads (H0 := SqlView) m → (∀ a, reads (H0 := SqlView) (k a)) → reads (H0 := SqlView) (bind_res m k).
Proof.
  intros Hm Hk s Hs. unfold bind_res. specialize (Hm s Hs).
  destruct (m s) as [[a|e] s1]; [|done]. destruct Hm as [Hq1 Hu1]. specialize (Hk a s1 Hq1).
  destruct (k a s1) as [b s']. destruct Hk as [Hq2 Hu2]. split; [done|]. intros id. by rewrite Hu2, Hu1.
Qed.
Lemma reads_wrap {A} msg (m : M store_state (res A)) :
  reads (H0 := SqlView) m → reads (H0 := SqlView) (wrap_errM msg m).
Proof. intros. apply reads_bind; [done|]. intros. apply reads_ret. Qed.

Lemma sql_create e s :
  q_ok s →
  let '(r, s') := st_CreateExecution e s in
  q_ok s' ∧ match r with
            | Ok _ => q_status s e.(ex_ID) = None ∧ moved (q_status s) (q_status s') e.(ex_ID) e.(ex_Status)
            | Err _ => unmoved (q_status s) (q_status s')
            end.
Proof.
  destruct s as [d n]. intros (Hs & Hwf & Hp).
  pose proof (proj1 (store_keys dl) e d n Hs Hwf) as Ha. revert Ha.
  simpl. unfold create_execution, wrap_errM, bind_res, bind, ret, sql.
  destruct (sql_run _ d) as [r d'] eqn:Hr. apply (run_auto _ _ _ _ Hs) in Hr as [Hs' Hr].
  destruct r as [a|err]; simpl; intros [_ Hwf'].
  - destruct Hr as (Hk & _ & Hc). simpl in Hk. rewrite Hc in *. split; [split; [done|]; split; [done|]|split].
    + intros id. cbn [effect t_executions with_executions]. rewrite fmap_app.
      intros [Hin|Hin%list_elem_of_singleton]%elem_of_app; [by apply Hp|by exists (ex_ID e)].
    + unfold row_status. by rewrite (proj2 (rows_with_id_none _ _) Hk).
    + intros id'. unfold row_status, rows_with_id. simpl. rewrite filter_app, filter_cons. simpl.
      case_bool_decide as Hid.
      * subst id'. rewrite decide_True by done.
        pose proof (proj2 (rows_with_id_none _ _) Hk) as Hn. unfold rows_with_id in Hn. by rewrite Hn.
      * rewrite decide_False by (intros ?%uuid_string_inj; congruence). by rewrite app_nil_r.
  - split; [split; [done|]; split; [done|]|]; rewrite ?Hr; done.
Qed.

Lemma sql_claim s :
  q_ok s →
  let '(r, s') := st_ClaimNextExecution s in
  q_ok s' ∧ match r with
            | Ok e => q_status s e.(ex_ID) = Some "pending" ∧ e.(ex_Status) = "running"
                      ∧ moved (q_status s) (q_status s') e.(ex_ID) "running"
            | Err _ => unmoved (q_status s) (q_status s')
                       ∨ ∃ id, q_status s id = Some "pending"
                               ∧ moved (q_status s) (q_status s') id "running"
            end.
Proof.
  destruct s as [d n]. intros (Hs & Hwf & Hp).
  pose proof (claim_run dl d n Hs Hwf) as Hc.
  pose proof (proj1 (proj2 (proj2 (proj2 (proj2 (proj2 (store_keys dl)))))) d n Hs Hwf) as Hk.
  simpl. destruct (claim_next_execution dl (d, n)) as [r [d' n']]. destruct Hc as [_ [_ Hc]].
  destruct Hk as [Hs' Hwf']. simpl in Hs, Hwf, Hp |- *.
  assert (∀ row, oldest_pending (tle := tle) (content d) row →
    content d' = claimed (dl_enc dl (env_now n)) row (content d) →
    printed (content d') ∧ ∃ u, r_id row = uuid_string u ∧ row_status (content d) u = Some "pending"
      ∧ moved (row_status (content d)) (row_status (content d')) u "running") as Hm.
  { intros row [Hold _] ->. destruct (row_uuid (content d) row Hp) as [u Hu]; [exact (proj1 (proj1 (elem_of_pending _ _) Hold))|].
    split; [by apply printed_update|]. exists u. split; [done|]. by apply claimed_moved. }
  destruct r as [e|err].
  - destruct Hc as (row & Hold & He & Hst & Ht & _). destruct (Hm row Hold Ht) as (Hp' & u & Hu & Hpend & Hmv).
    rewrite (running_id _ _ _ _ Hu He). done.
  - destruct Hc as [Ht|(row & Hold & Ht & _)].
    + split; [rewrite Ht; auto|]. left. by rewrite Ht.
    + destruct (Hm row Hold Ht) as (Hp' & u & Hu & Hpend & Hmv). split; [auto|]. eauto.
Qed.

Lemma sql_update id status completedAt output s :
  q_ok s →
  let '(r, s') := st_UpdateExecutionWithResult id status completedAt output s in
  q_ok s' ∧ match r with
            | Ok _ => is_Some (q_status s id) ∧ moved (q_status s) (q_status s') id status
            | Err _ => unmoved (q_status s) (q_status s')
                       ∨ is_Some (q_status s id) ∧ moved (q_status s) (q_status s') id status
            end.
Proof.
  destruct s as [d n]. intros (Hs & Hwf & Hp).
  pose proof (update_run dl id status completedAt output d n Hs) as Hu.
  pose proof (proj1 (proj2 (proj2 (proj2 (proj2 (store_keys dl))))) id status completedAt output d n Hs Hwf) as Hk.
  simpl. destruct (update_execution_with_result _ _ _ _ _ _) as [r [d' n']]. destruct Hu as [_ Hu].
  destruct Hk as [Hs' Hwf']. simpl in Hs, Hwf, Hp |- *. set (after := finished _ _ _ _ _ _) in Hu.
  assert (content d' = after → rows_with_id (content d) (uuid_string id) ≠ [] →
    printed (content d') ∧ is_Some (row_status (content d) id)
    ∧ moved (row_status (content d)) (row_status (content d')) id status) as Hm.
  { intros -> Hne. split; [by apply printed_update|]. split; [by apply row_status_some|].
    by apply (update_status_moved _ id (set_status status _ _)). }
  destruct r as [[]|err]; simpl in Hu.
  - destruct (Hm (proj1 Hu) (proj2 Hu)) as (? & ? & ?). auto.
  - destruct Hu as [Ht|Ht].
    + split; [rewrite Ht; auto|]. left. by rewrite Ht.
    + destruct (Hm (proj1 Ht) (proj1 (proj2 Ht))) as (? & ? & ?). split; [auto|]. by right.
Qed.

#[export] Instance sql_queue_laws : QueueLaws SqlView.
Proof.
  split; [exact sql_create|exact sql_claim|exact sql_update|..]; intros; simpl;
    unfold get_execution, get_execution_output, list_executions, create_audit_entry, list_audit_entries;
    try destruct (with_since _ _ _ _);
    repeat match goal with
    | |- ∀ _ : _, reads _ => intros ?
    | |- reads (ret _) => apply reads_ret
    | |- reads (bind _ _) => apply reads_bind
    | |- reads (bind_res _ _) => apply reads_bind_res
    | |- reads (wrap_errM _ _) => apply reads_wrap
    | |- reads (sql _) => by apply reads_sql
    end.
Qed.

(** The audit table is the log. *)
#[local] Instance SqlLog : AuditView SqlView :=
  {| log_entry := audit_row T; logged := row_of_audit dl; q_log := λ s, (content s.1).(t_audit) |}.

(** A statement run alone keeps the log when its effect does. *)
Definition quiet {X} (m : M store_state X) : Prop :=
  ∀ d n, session d = None →
    let '(_, (d', _)) := m (d, n) in session d' = None ∧ (content d').(t_audit) = (content d).(t_audit).
Lemma quiet_sql s : (∀ t, (effect s t).(t_audit) = t.(t_audit)) → quiet (sql s).
Proof.
  intros He d n Hs. unfold sql. destruct (sql_run s d) as [r d'] eqn:Hr.
  apply (run_auto _ _ _ _ Hs) in Hr as [Hs' Hr]. split; [done|].
  destruct r; [destruct Hr as (_ & _ & ->); apply He|by rewrite Hr].
Qed.
Lemma quiet_ret {A} (a : A) : quiet (ret a).
Proof. by intros d n. Qed.
Lemma quiet_bind {A B} (m : M store_state A) (k : A → M store_state B) :
  quiet m → (∀ a, quiet (k a)) → quiet (bind m k).
Proof.
  intros Hm Hk d n Hs. unfold bind. specialize (Hm d n Hs). destruct (m (d, n)) as [a [d1 n1]].
  destruct Hm as [Hs1 <-]. by apply Hk.
Qed.
Lemma quiet_bind_res {A B} (m : M store_state (res A)) (k : A → M store_state (res B)) :
  quiet m → (∀ a, quiet (k a)) → quiet (bind_res m k).
Proof.
  intros Hm Hk d n Hs. unfold bind_res. specialize (Hm d n Hs). destruct (m (d, n)) as [[a|e] [d1 n1]]; [|done].
  destruct Hm as [Hs1 <-]. by apply Hk.
Qed.
Lemma quiet_wrap {A} msg (m : M store_state (res A)) : quiet m → quiet (wrap_errM msg m).
Proof. intros. apply quiet_bind; [done|]. intros. apply quiet_ret. Qed.

Lemma quiet_logs {X} (m : M store_state X) : quiet m → logs_nothing (A := SqlLog) m.
Proof. intros Hm [d n] (Hs & _). specialize (Hm d n Hs). destruct (m (d, n)) as [x [d' n']]. apply Hm. Qed.

Lemma sql_log_write a s :
  q_ok s →
  let '(r, s') := st_CreateAuditEntry a s in
  q_log s' = q_log s ++ match r with Ok _ => [row_of_audit dl a] | Err _ => [] end.
Proof.
  destruct s as [d n]. intros (Hs & _). simpl. unfold create_audit_entry, wrap_errM, bind_res, bind, ret, sql.
  destruct (sql_run _ d) as [[a'|e] d'] eqn:Hr; apply (run_auto _ _ _ _ Hs) in Hr as [_ Hr]; simpl.
  - by destruct Hr as (_ & _ & ->).
  - by rewrite Hr, app_nil_r.
Qed.
Lemma quiet_update id status completedAt output : quiet (update_execution_with_result dl id status completedAt output).
Proof.
  intros d n Hs. pose proof (update_run dl id status completedAt output d n Hs) as Hu.
  destruct (update_execution_with_result _ _ _ _ _ _) as [[u|e] [d' n']]; destruct Hu as [? Hu]; (split; [done|]).
  - by destruct Hu as [-> _].
  - by destruct Hu as [->|[-> _]].
Qed.
Lemma claim_logs_nothing : logs_nothing (A := SqlLog) st_ClaimNextExecution.
Proof.
  intros [d n] (Hs & Hwf & _). pose proof (claim_run dl d n Hs Hwf) as Hc. simpl in *.
  destruct (claim_next_execution dl (d, n)) as [[e|e] [d' n']]; simpl; destruct Hc as (_ & _ & Hc).
  - by destruct Hc as (row & _ & _ & _ & -> & _).
  - by destruct Hc as [->|(row & _ & -> & _)].
Qed.

#[export] Instance sql_audit_laws : AuditLaws SqlLog.
Proof.
  split; [exact sql_log_write|..|exact claim_logs_nothing|]; intros; simpl; apply quiet_logs;
    try apply quiet_update;
    unfold create_execution, get_execution, get_execution_output, list_executions, list_audit_entries;
    try destruct (with_since _ _ _ _);
    repeat match goal with
    | |- ∀ _ : _, quiet _ => intros ?
    | |- quiet (ret _) => apply quiet_ret
    | |- quiet (bind _ _) => apply quiet_bind
    | |- quiet (bind_res _ _) => apply quiet_bind_res
    | |- quiet (wrap_errM _ _) => apply quiet_wrap
    | |- quiet (sql _) => by apply quiet_sql
    end.
Qed.

(** C14: the SQL stores are a queue. Through the eight operations of [store.Store],
    whatever fails underneath, a store stays consistent and an execution's status
    only moves as the queue's contract says: creating adds an unknown id with its
    own status, or changes nothing; claiming returns a pending execution and moves
    only it, to running; an update moves only the named, existing execution; and
    no other operation moves a status. A failing claim or update moves no other
    execution than the one it was about. *)
Theorem store_refines_queue : QueueLaws SqlView.
Proof. exact sql_queue_laws. Qed.

(** The rows a list is taken from. *)
#[local] Instance SqlList : ListView SqlView :=
  {| line_execution := execution_of_row dl; line_audit := audit_of_row dl;
     listing := λ flt s, ordered (newest_first tle r_created_at r_id)
                  (filter (λ r, matches tle dl.(dl_enc) flt r = true) (content s.1).(t_executions));
     audit_listing := λ flt s, ordered (newest_first tle a_timestamp a_id)
                        (filter (λ r, audit_matches tle dl.(dl_enc) flt r = true) (content s.1).(t_audit)) |}.

Lemma page_paged {R A} (decode : R → res A) def max limit offset (rows sorted : list R) (l : ListResult A) :
  l.(lr_Total) = Z.of_nat (length rows) → sorted ≡ₚ rows →
  l.(lr_Limit) = clampLimit limit def max → l.(lr_Offset) = clampOffset offset →
  res_each decode (page l.(lr_Limit) l.(lr_Offset) sorted) = Ok l.(lr_Items) →
  paged decode def max limit offset sorted l.
Proof. intros Ht Hp Hl Ho Hi%res_each_ok. split_and!; try done. by rewrite Hp. Qed.

#[export] Instance sql_paging_laws : PagingLaws SqlList.
Proof.
  split; intros flt [d n] l (Hs & _) Hr; simpl in Hr.
  - destruct (list_executions dl flt (d, n)) as [r [d' n']] eqn:Hl.
    destruct (list_executions_run (tle := tle) dl flt d n r d' n' Hs Hl) as (_ & _ & Hok).
    destruct (Hok l Hr) as (Ht & Hlm & Hof & sorted & Hord & Hi). exists sorted. split; [exact Hord|].
    exact (page_paged _ _ _ _ _ _ _ _ Ht (proj1 Hord) Hlm Hof Hi).
  - destruct (list_audit_entries dl flt (d, n)) as [r [d' n']] eqn:Hl.
    destruct (list_audit_run (tle := tle) dl flt d n r d' n' Hs Hl) as (_ & _ & Hok).
    destruct (Hok l Hr) as (Ht & Hlm & Hof & sorted & Hord & Hi). exists sorted. split; [exact Hord|].
    exact (page_paged _ _ _ _ _ _ _ _ Ht (proj1 Hord) Hlm Hof Hi).
Qed.
End sql.
