(* ===== verification/TimeText.v ===== *)
(** [time.Format] and [time.Parse] at the layout sqlite.go stores times with,
    "2006-01-02T15:04:05.000000000Z07:00", for times in UTC given as nanoseconds
    since the Unix epoch.

    The store compares the stored text, so what matters is the theorem at the end:
    the text order is the time order, and the text parses back. *)

From S2P Require Import Prelude GoString.
From Stdlib Require Import Ascii.

(** ** Fixed-width decimals *)

Definition digit_char (d : Z) : ascii := ascii_of_nat (Z.to_nat (48 + d)).

Fixpoint pad (w : nat) (n : Z) : string :=
  match w with
  | O => ""
  | S w' => pad w' (n / 10) +:+ String (digit_char (n mod 10)) ""
  end.

(** Reads exactly [w] digits. *)
Fixpoint eat_digits (w : nat) (acc : Z) (s : string) : option (Z * string) :=
  match w, s with
  | O, _ => Some (acc, s)
  | S w', String a s' =>
      match digit_val a with
      | Some d => eat_digits w' (10 * acc + d) s'
      | None => None
      end
  | S _, EmptyString => None
  end.
Definition eat_num (w : nat) (s : string) : option (Z * string) := eat_digits w 0 s.
Definition eat_char (c : ascii) (s : string) : option string :=
  match s with String a s' => if Ascii.eqb a c then Some s' else None | EmptyString => None end.

(** ** The calendar *)

(** Days from 0000-01-01 to the first of January of year [y]. *)
Definition days_before_year (y : Z) : Z := 365 * y + (y + 3) / 4 - (y + 99) / 100 + (y + 399) / 400.
Definition is_leap (y : Z) : bool :=
  (y mod 4 =? 0) && (negb (y mod 100 =? 0) || (y mod 400 =? 0)).

(** Day of the year on which month [m] (from 1) starts; month 13 is its end. *)
Definition month_start (leap : bool) (m : Z) : Z :=
  let l := if leap then 1 else 0 in
  if m <=? 1 then 0 else if m =? 2 then 31 else if m =? 3 then 59 + l else if m =? 4 then 90 + l
  else if m =? 5 then 120 + l else if m =? 6 then 151 + l else if m =? 7 then 181 + l
  else if m =? 8 then 212 + l else if m =? 9 then 243 + l else if m =? 10 then 273 + l
  else if m =? 11 then 304 + l else if m =? 12 then 334 + l else 365 + l.

Definition year_of (days : Z) : Z :=
  let y := (400 * days) / 146097 in
  if days_before_year (y + 1) <=? days then y + 1
  else if days_before_year y <=? days then y else y - 1.

Definition month_of (leap : bool) (yday : Z) : Z :=
  fold_left (λ m k, if month_start leap k <=? yday then k else m) [2; 3; 4; 5; 6; 7; 8; 9; 10; 11; 12] 1.

Definition second_nanos : Z := 1000000000.
Definition day_nanos : Z := 86400 * second_nanos.
(** Days from 0000-01-01 to 1970-01-01. *)
Definition epoch_days : Z := 719528.

Definition days_of (t : Z) : Z := t / day_nanos + epoch_days.

(** ** The layout *)

Definition format_days (days : Z) : string :=
  let y := year_of days in
  let yday := days - days_before_year y in
  let m := month_of (is_leap y) yday in
  pad 4 y +:+ "-" +:+ pad 2 m +:+ "-" +:+ pad 2 (yday - month_start (is_leap y) m + 1).

Definition format_clock (nanos : Z) : string :=
  let secs := nanos / second_nanos in
  pad 2 (secs / 3600) +:+ ":" +:+ pad 2 (secs / 60 mod 60) +:+ ":" +:+ pad 2 (secs mod 60)
  +:+ "." +:+ pad 9 (nanos mod second_nanos).

(** "15:04:05". *)
Definition format_hms (nanos : Z) : string :=
  let secs := nanos / second_nanos in
  pad 2 (secs / 3600) +:+ ":" +:+ pad 2 (secs / 60 mod 60) +:+ ":" +:+ pad 2 (secs mod 60).

Definition format_time (t : Z) : string :=
  format_days (days_of t) +:+ "T" +:+ format_clock (t mod day_nanos) +:+ "Z".

(** The offset "Z" or "+hh:mm"/"-hh:mm", in seconds; [time.Parse] lets the hour
    reach 24 and the minute 60. *)
Definition parse_offset (s : string) : option Z :=
  match s with
  | "Z" => Some 0
  | String a s' =>
      '(h, s) ← eat_num 2 s'; s ← eat_char ":" s; '(m, s) ← eat_num 2 s;
      if negb (bool_decide (s = "")) || (24 <? h) || (60 <? m) then None
      else if Ascii.eqb a "+" then Some (h * 3600 + m * 60)
      else if Ascii.eqb a "-" then Some (- (h * 3600 + m * 60))
      else None
  | EmptyString => None
  end.

(** The hour may be one digit: only the other fields are fixed-width. *)
Definition eat_hour (s : string) : option (Z * string) :=
  match eat_num 2 s with
  | Some r => Some r
  | None => eat_num 1 s
  end.

(** "2006-01-02T15:04:05": the fields, and the rest of the text. *)
Definition parse_date (s : string) : option (Z * Z * Z * string) :=
  '(y, s) ← eat_num 4 s; s ← eat_char "-" s;
  '(m, s) ← eat_num 2 s; s ← eat_char "-" s;
  '(d, s) ← eat_num 2 s; Some (y, m, d, s).
Definition parse_clock (s : string) : option (Z * Z * Z * string) :=
  s ← eat_char "T" s;
  '(hh, s) ← eat_hour s; s ← eat_char ":" s;
  '(mm, s) ← eat_num 2 s; s ← eat_char ":" s;
  '(ss, s) ← eat_num 2 s; Some (hh, mm, ss, s).

(** The instant, in nanoseconds since the epoch, when the fields are in range. *)
Definition instant (y m d hh mm ss ns off : Z) : option Z :=
  let leap := is_leap y in
  if (m <? 1) || (12 <? m) || (d <? 1) || (month_start leap (m + 1) - month_start leap m <? d)
     || (24 <=? hh) || (60 <=? mm) || (60 <=? ss) then None
  else
    let days := days_before_year y + month_start leap m + (d - 1) - epoch_days in
    Some ((days * 86400 + (hh * 3600 + mm * 60 + ss) - off) * second_nanos + ns).

Definition comma_or_period (s : string) : option string :=
  match s with String a s' => if Ascii.eqb a "." || Ascii.eqb a "," then Some s' else None | EmptyString => None end.

Definition parse_fields (s : string) : option Z :=
  '(y, m, d, s) ← parse_date s; '(hh, mm, ss, s) ← parse_clock s;
  s ← comma_or_period s; '(ns, s) ← eat_num 9 s; off ← parse_offset s;
  instant y m d hh mm ss ns off.

(** The digits at the front of [s], and what follows them. *)
Fixpoint span_digits (s : string) : string * string :=
  match s with
  | String a s' => match digit_val a with
                   | Some _ => let '(ds, r) := span_digits s' in (String a ds, r)
                   | None => ("", s)
                   end
  | EmptyString => ("", "")
  end.
(** An optional fraction of any length: its first nine digits count. *)
Definition eat_fraction (s : string) : Z * string :=
  match comma_or_period s with
  | Some s' =>
      let '(ds, r) := span_digits s' in
      match eat_num (Nat.min 9 (String.length ds)) ds with
      | Some (v, _) => if bool_decide (ds = "") then (0, s)
                       else (v * 10 ^ Z.of_nat (9 - Nat.min 9 (String.length ds)), r)
      | None => (0, s)
      end
  | None => (0, s)
  end.

(** [time.Parse(time.RFC3339, s)]. *)
Definition parse_rfc3339 (s : string) : option Z :=
  '(y, m, d, s) ← parse_date s; '(hh, mm, ss, s) ← parse_clock s;
  let '(ns, s) := eat_fraction s in
  off ← parse_offset s;
  instant y m d hh mm ss ns off.

Example rfc3339_plain : parse_rfc3339 "1970-01-02T00:00:01Z" = Some (86401 * second_nanos).
Proof. vm_compute. reflexivity. Qed.
Example rfc3339_offset : parse_rfc3339 "1970-01-01T01:00:00.5+01:00" = Some 500000000.
Proof. vm_compute. reflexivity. Qed.
Example rfc3339_bad : parse_rfc3339 "1970-02-30T01:00:00Z" = None.
Proof. vm_compute. reflexivity. Qed.

Definition parse_time (s : string) : res Z :=
  match parse_fields s with
  | Some t => Ok t
  | None => Err (EText ("parsing time " +:+ quoted s))
  end.

(** Years 0 to 9999, which the layout's four digits hold. *)
Definition four_digit_year (t : Z) : bool := (0 <=? days_of t) && (days_of t <? days_before_year 10000).

(** ** Comparing fixed-width text *)

Definition lex (c1 c2 : comparison) : comparison := match c1 with Eq => c2 | c => c end.

Lemma compare_app s1 s2 t1 t2 :
  String.length s1 = String.length s2 →
  String.compare (s1 +:+ t1) (s2 +:+ t2) = lex (String.compare s1 s2) (String.compare t1 t2).
Proof.
  revert s2. induction s1 as [|a s1 IH]; intros [|b s2]; try done. simpl. intros [= Hl].
  rewrite IH by done. by destruct (Ascii.compare a b).
Qed.

Lemma length_string_app s t : String.length (s +:+ t) = (String.length s + String.length t)%nat.
Proof. induction s as [|a s IH]; [done|]. rewrite string_app_cons. simpl. by rewrite IH. Qed.

Lemma length_pad w n : String.length (pad w n) = w.
Proof. revert n. induction w; intros n; simpl; [done|]. rewrite length_string_app, IHw. simpl. lia. Qed.

Lemma digit_nat d : 0 ≤ d < 10 → nat_of_ascii (digit_char d) = Z.to_nat (48 + d).
Proof. intros. unfold digit_char. rewrite nat_ascii_embedding; [done|]. lia. Qed.

Lemma digit_val_char d : 0 ≤ d < 10 → digit_val (digit_char d) = Some d.
Proof.
  intros Hd. unfold digit_val. rewrite digit_nat by done.
  rewrite Z2Nat.id by lia. replace ((48 <=? 48 + d) && (48 + d <=? 57)) with true by lia.
  f_equal. lia.
Qed.

Lemma compare_digit a b :
  0 ≤ a < 10 → 0 ≤ b < 10 → Ascii.compare (digit_char a) (digit_char b) = Z.compare a b.
Proof.
  intros Ha Hb. unfold Ascii.compare.
  assert (∀ d, 0 ≤ d < 10 → N_of_ascii (digit_char d) = Z.to_N (48 + d)) as Hn.
  { intros d Hd. pose proof (digit_nat d Hd) as Hnat. unfold nat_of_ascii in Hnat. lia. }
  rewrite !Hn by done. rewrite Z2N.inj_compare by lia.
  destruct (Z.compare_spec a b), (Z.compare_spec (48 + a) (48 + b)); lia || done.
Qed.

(** A number split by a radix compares by its quotient, then its remainder. *)
Lemma compare_radix k q1 r1 q2 r2 :
  0 ≤ r1 < k → 0 ≤ r2 < k →
  Z.compare (q1 * k + r1) (q2 * k + r2) = lex (Z.compare q1 q2) (Z.compare r1 r2).
Proof.
  intros H1 H2. destruct (Z.compare_spec q1 q2) as [->|Hq|Hq]; simpl.
  - destruct (Z.compare_spec r1 r2); [subst; apply Z.compare_refl|..].
    + apply Z.compare_lt_iff. lia.
    + apply Z.compare_gt_iff. lia.
  - apply Z.compare_lt_iff. nia.
  - apply Z.compare_gt_iff. nia.
Qed.

Lemma compare_add_r a b c : Z.compare (a + c) (b + c) = Z.compare a b.
Proof. destruct (Z.compare_spec a b); [subst; apply Z.compare_refl|apply Z.compare_lt_iff; lia|apply Z.compare_gt_iff; lia]. Qed.

Lemma compare_div k a b :
  0 < k → Z.compare a b = lex (Z.compare (a / k) (b / k)) (Z.compare (a mod k) (b mod k)).
Proof.
  intros Hk. rewrite <- (compare_radix k) by (apply Z.mod_pos_bound; lia).
  f_equal; rewrite (Z.div_mod _ k) at 1 by lia; lia.
Qed.

Lemma compare_pad w a b :
  0 ≤ a < 10 ^ Z.of_nat w → 0 ≤ b < 10 ^ Z.of_nat w →
  String.compare (pad w a) (pad w b) = Z.compare a b.
Proof.
  revert a b. induction w as [|w IH]; intros a b Ha Hb.
  - simpl in *. assert (a = b) as -> by lia. by rewrite Z.compare_refl.
  - rewrite Nat2Z.inj_succ, Z.pow_succ_r in Ha, Hb by lia. cbn [pad].
    rewrite compare_app by (by rewrite !length_pad).
    rewrite IH by (split; [apply Z.div_pos|apply Z.div_lt_upper_bound]; lia).
    rewrite (compare_div 10 a b) by lia. f_equal. simpl.
    rewrite compare_digit by (apply Z.mod_pos_bound; lia). by destruct (_ ?= _).
Qed.

Lemma eat_digits_add w1 w2 acc s :
  eat_digits (w1 + w2) acc s = '(v, s') ← eat_digits w1 acc s; eat_digits w2 v s'.
Proof.
  revert acc s. induction w1 as [|w1 IH]; intros acc s; [done|]. simpl.
  destruct s as [|a s]; [done|]. destruct (digit_val a); [|done]. apply IH.
Qed.

Lemma eat_digits_pad w n acc s :
  0 ≤ n < 10 ^ Z.of_nat w → eat_digits w acc (pad w n +:+ s) = Some (acc * 10 ^ Z.of_nat w + n, s).
Proof.
  revert n acc s. induction w as [|w IH]; intros n acc s Hn.
  - simpl in *. do 2 f_equal. lia.
  - rewrite Nat2Z.inj_succ, Z.pow_succ_r in * by lia. cbn [pad]. rewrite <- string_app_assoc.
    rewrite <- Nat.add_1_r, eat_digits_add, IH
      by (split; [apply Z.div_pos|apply Z.div_lt_upper_bound]; lia).
    cbn [mbind option_bind]. rewrite string_app_cons. cbn [eat_digits].
    rewrite digit_val_char by (apply Z.mod_pos_bound; lia). do 2 f_equal.
    pose proof (Z.div_mod n 10). lia.
Qed.

Lemma eat_num_pad w n s : 0 ≤ n < 10 ^ Z.of_nat w → eat_num w (pad w n +:+ s) = Some (n, s).
Proof. intros Hn. unfold eat_num. by rewrite eat_digits_pad. Qed.

Lemma eat_char_eq c s : eat_char c (String c "" +:+ s) = Some s.
Proof. simpl. by rewrite Ascii.eqb_refl. Qed.

(** ** The calendar is monotone *)

(** A value located by the interval of a strictly increasing sequence it falls
    in: the interval's index and the offset in it. *)
Lemma compare_bracket (f : Z → Z) i1 i2 x1 x2 :
  (∀ i j, i < j → f (i + 1) ≤ f j) →
  f i1 ≤ x1 < f (i1 + 1) → f i2 ≤ x2 < f (i2 + 1) →
  Z.compare x1 x2 = lex (Z.compare i1 i2) (Z.compare (x1 - f i1) (x2 - f i2)).
Proof.
  intros Hf H1 H2. destruct (Z.compare_spec i1 i2) as [->|Hi|Hi]; simpl.
  - rewrite !(Z.compare_sub x1 x2), (Z.compare_sub (x1 - f i2)). f_equal. lia.
  - apply Z.compare_lt_iff. specialize (Hf _ _ Hi). lia.
  - apply Z.compare_gt_iff. specialize (Hf _ _ Hi). lia.
Qed.

Lemma days_before_year_mono i j : i < j → days_before_year (i + 1) ≤ days_before_year j.
Proof. unfold days_before_year. intros. Z.to_euclidean_division_equations. lia. Qed.

Lemma days_before_year_succ y : days_before_year (y + 1) = days_before_year y + (if is_leap y then 366 else 365).
Proof.
  unfold days_before_year, is_leap.
  destruct (Z.eqb_spec (y mod 4) 0), (Z.eqb_spec (y mod 100) 0), (Z.eqb_spec (y mod 400) 0); simpl;
    Z.to_euclidean_division_equations; lia.
Qed.

Lemma year_of_bracket d : days_before_year (year_of d) ≤ d < days_before_year (year_of d + 1).
Proof.
  unfold year_of. destruct (Z.leb_spec (days_before_year ((400 * d) / 146097 + 1)) d).
  - split; [done|]. unfold days_before_year in *. Z.to_euclidean_division_equations. lia.
  - destruct (Z.leb_spec (days_before_year ((400 * d) / 146097)) d); [lia|].
    rewrite Z.sub_add. split; [|done]. unfold days_before_year in *.
    Z.to_euclidean_division_equations. lia.
Qed.

Lemma month_start_mono leap i j : i < j → month_start leap (i + 1) ≤ month_start leap j.
Proof.
  intros Hij. unfold month_start.
  destruct leap; repeat (match goal with |- context [if ?c then _ else _] => destruct c eqn:? end; try lia).
Qed.

Lemma month_starts (leap : bool) :
  let l := if leap then 1 else 0 in
  month_start leap 1 = 0 ∧ month_start leap 2 = 31 ∧ month_start leap 3 = 59 + l
  ∧ month_start leap 4 = 90 + l ∧ month_start leap 5 = 120 + l ∧ month_start leap 6 = 151 + l
  ∧ month_start leap 7 = 181 + l ∧ month_start leap 8 = 212 + l ∧ month_start leap 9 = 243 + l
  ∧ month_start leap 10 = 273 + l ∧ month_start leap 11 = 304 + l ∧ month_start leap 12 = 334 + l
  ∧ month_start leap 13 = 365 + l.
Proof. by destruct leap. Qed.

Lemma month_of_bracket (leap : bool) yday :
  0 ≤ yday < (if leap then 366 else 365) →
  1 ≤ month_of leap yday ≤ 12
  ∧ month_start leap (month_of leap yday) ≤ yday < month_start leap (month_of leap yday + 1).
Proof.
  intros Hy. unfold month_of. cbn [fold_left]. pose proof (month_starts leap) as Hms. cbv zeta in Hms.
  repeat match goal with
  | |- context [if month_start leap ?k <=? yday then _ else _] =>
      destruct (Z.leb_spec (month_start leap k) yday);
      [let k' := eval compute in (k + 1) in change (k + 1) with k'; destruct leap; lia|]
  end.
  change (1 + 1) with 2. destruct leap; lia.
Qed.

Lemma month_length leap m :
  1 ≤ m ≤ 12 → 28 ≤ month_start leap (m + 1) - month_start leap m ≤ 31.
Proof.
  intros Hm.
  assert (m = 1 ∨ m = 2 ∨ m = 3 ∨ m = 4 ∨ m = 5 ∨ m = 6 ∨ m = 7 ∨ m = 8 ∨ m = 9 ∨ m = 10 ∨ m = 11 ∨ m = 12)
    as Hc by lia.
  destruct leap; repeat destruct Hc as [->|Hc]; try subst m; vm_compute; split; discriminate.
Qed.

(** The fields of a day, and their ranges. *)
Lemma day_fields d :
  0 ≤ d < days_before_year 10000 →
  let y := year_of d in
  let yday := d - days_before_year y in
  let m := month_of (is_leap y) yday in
  0 ≤ y < 10000 ∧ 1 ≤ m ≤ 12
  ∧ month_start (is_leap y) m ≤ yday < month_start (is_leap y) (m + 1)
  ∧ 1 ≤ yday - month_start (is_leap y) m + 1 ≤ 31.
Proof.
  intros Hd y yday m. pose proof (year_of_bracket d) as Hy. fold y in Hy.
  assert (0 ≤ y < 10000) as Hyr.
  { split.
    - destruct (Z.le_gt_cases 0 y); [done|]. pose proof (days_before_year_mono y 0 ltac:(lia)) as Hm.
      change (days_before_year 0) with 0 in Hm. lia.
    - destruct (Z.lt_ge_cases y 10000); [done|].
      destruct (Z.eq_dec y 10000) as [->|]; [lia|].
      pose proof (days_before_year_mono 10000 y ltac:(lia)) as Hm.
      rewrite days_before_year_succ in Hm. destruct (is_leap 10000); lia. }
  rewrite days_before_year_succ in Hy.
  destruct (month_of_bracket (is_leap y) yday) as [Hm Hb]; [unfold yday; lia|]. fold m in Hm, Hb.
  pose proof (month_length (is_leap y) m Hm). repeat split; lia.
Qed.

Lemma string_compare_refl s : String.compare s s = Eq.
Proof. induction s as [|a s IH]; simpl; [done|]. unfold Ascii.compare. by rewrite N.compare_refl. Qed.

Lemma compare_app_const s t1 t2 : String.compare (s +:+ t1) (s +:+ t2) = String.compare t1 t2.
Proof. rewrite compare_app by done. by rewrite string_compare_refl. Qed.

Lemma lex_eq_r c : lex c Eq = c.
Proof. by destruct c. Qed.

Lemma format_days_compare d1 d2 :
  0 ≤ d1 < days_before_year 10000 → 0 ≤ d2 < days_before_year 10000 →
  String.compare (format_days d1) (format_days d2) = Z.compare d1 d2.
Proof.
  intros H1 H2. destruct (day_fields d1 H1) as (Hy1 & Hm1 & Hb1 & Hd1).
  destruct (day_fields d2 H2) as (Hy2 & Hm2 & Hb2 & Hd2). unfold format_days.
  rewrite (compare_bracket days_before_year _ _ d1 d2 days_before_year_mono
    (year_of_bracket d1) (year_of_bracket d2)).
  rewrite compare_app, compare_pad by (rewrite ?length_pad; simpl; lia).
  destruct (Z.compare_spec (year_of d1) (year_of d2)) as [Hy|Hy|Hy]; [|done..]. cbn [lex].
  rewrite <- Hy in *. set (leap := is_leap (year_of d1)) in *.
  rewrite (compare_bracket (month_start leap) _ _ _ _ (month_start_mono leap) Hb1 Hb2).
  rewrite compare_app_const, compare_app, compare_pad by (rewrite ?length_pad; simpl; lia).
  rewrite compare_app_const. destruct (Z.compare_spec (month_of leap (d1 - days_before_year (year_of d1)))
    (month_of leap (d2 - days_before_year (year_of d1)))) as [Hm|Hm|Hm]; [|done..]. cbn [lex].
  rewrite compare_pad by (change (10 ^ Z.of_nat 2) with 100; lia). apply compare_add_r.
Qed.

Lemma clock_fields n :
  0 ≤ n < day_nanos →
  0 ≤ n / second_nanos / 3600 < 24 ∧ 0 ≤ n / second_nanos / 60 mod 60 < 60
  ∧ 0 ≤ n / second_nanos mod 60 < 60 ∧ 0 ≤ n mod second_nanos < second_nanos.
Proof.
  unfold day_nanos, second_nanos. intros Hn. repeat split; Z.to_euclidean_division_equations; lia.
Qed.

Lemma format_clock_compare n1 n2 :
  0 ≤ n1 < day_nanos → 0 ≤ n2 < day_nanos →
  String.compare (format_clock n1) (format_clock n2) = Z.compare n1 n2.
Proof.
  intros H1 H2. destruct (clock_fields n1 H1) as (Hh1 & Hm1 & Hs1 & Hn1).
  destruct (clock_fields n2 H2) as (Hh2 & Hm2 & Hs2 & Hn2). unfold format_clock.
  rewrite (compare_div second_nanos n1 n2) by done.
  set (s1 := n1 / second_nanos) in *. set (s2 := n2 / second_nanos) in *.
  rewrite (compare_div 60 s1 s2), (compare_div 60 (s1 / 60) (s2 / 60)) by done.
  rewrite !Z.div_div by lia. change (60 * 60) with 3600.
  rewrite compare_app, compare_pad by (rewrite ?length_pad; change (10 ^ Z.of_nat 2) with 100; lia).
  rewrite compare_app_const, compare_app, compare_pad
    by (rewrite ?length_pad; change (10 ^ Z.of_nat 2) with 100; lia).
  rewrite compare_app_const, compare_app, compare_pad
    by (rewrite ?length_pad; change (10 ^ Z.of_nat 2) with 100; lia).
  rewrite compare_app_const, compare_pad by (change (10 ^ Z.of_nat 9) with second_nanos; lia).
  by destruct (s1 / 3600 ?= s2 / 3600), (_ ?= _), (_ ?= _).
Qed.

Lemma length_format_days d : String.length (format_days d) = 10%nat.
Proof. unfold format_days. by rewrite !length_string_app, !length_pad. Qed.
Lemma length_format_clock n : String.length (format_clock n) = 18%nat.
Proof. unfold format_clock. by rewrite !length_string_app, !length_pad. Qed.

Lemma format_time_compare a b :
  four_digit_year a = true → four_digit_year b = true →
  String.compare (format_time a) (format_time b) = Z.compare a b.
Proof.
  unfold four_digit_year. intros Ha Hb. unfold format_time.
  rewrite compare_app, format_days_compare by (rewrite ?length_format_days; lia).
  rewrite compare_app_const, compare_app, format_clock_compare
    by (rewrite ?length_format_clock; (done || apply Z.mod_pos_bound; done)).
  rewrite string_compare_refl, lex_eq_r. rewrite (compare_div day_nanos a b) by done.
  unfold days_of. by rewrite compare_add_r.
Qed.

(** ** Parsing back *)

Lemma four_nums k n : k = 10 ^ Z.of_nat n → ∀ x s, 0 ≤ x < k → eat_num n (pad n x +:+ s) = Some (x, s).
Proof. intros -> x s. apply eat_num_pad. Qed.

(** Reads the next field of a parsed text, and the separator after it. *)
Ltac eat k := rewrite (four_nums k) by (done || lia); cbn [mbind option_bind].
Ltac sep := rewrite eat_char_eq; cbn [mbind option_bind].

Lemma parse_date_pad y m d s :
  0 ≤ y < 10000 → 0 ≤ m < 100 → 0 ≤ d < 100 →
  parse_date (pad 4 y +:+ "-" +:+ pad 2 m +:+ "-" +:+ pad 2 d +:+ s) = Some (y, m, d, s).
Proof. intros. unfold parse_date. eat 10000. sep. eat 100. sep. by eat 100. Qed.

Lemma parse_clock_pad hh mm ss s :
  0 ≤ hh < 100 → 0 ≤ mm < 100 → 0 ≤ ss < 100 →
  parse_clock ("T" +:+ pad 2 hh +:+ ":" +:+ pad 2 mm +:+ ":" +:+ pad 2 ss +:+ s) = Some (hh, mm, ss, s).
Proof.
  intros. unfold parse_clock. sep. unfold eat_hour. rewrite (four_nums 100) by (done || lia).
  cbn [mbind option_bind]. sep. eat 100. sep. by eat 100.
Qed.

Lemma parse_format t : four_digit_year t = true → parse_fields (format_time t) = Some t.
Proof.
  unfold four_digit_year. intros Ht.
  destruct (day_fields (days_of t)) as (Hy & Hm & Hb & Hd); [lia|].
  destruct (clock_fields (t mod day_nanos)) as (Hhh & Hmm & Hss & Hns); [by apply Z.mod_pos_bound|].
  unfold format_time, format_days, format_clock, parse_fields.
  set (y := year_of (days_of t)) in *. set (yday := days_of t - days_before_year y) in *.
  set (m := month_of (is_leap y) yday) in *. set (nanos := t mod day_nanos) in *.
  rewrite <- !string_app_assoc.
  rewrite parse_date_pad by lia. cbn [mbind option_bind].
  rewrite parse_clock_pad by lia. cbn [mbind option_bind].
  rewrite string_app_cons. cbn [comma_or_period Ascii.eqb Bool.eqb orb mbind option_bind].
  change ("" +:+ ?s) with s.
  eat second_nanos. cbn [parse_offset mbind option_bind]. unfold instant.
  match goal with |- context [if ?c then None else _] => replace c with false by lia end.
  f_equal. unfold yday, days_of, nanos. unfold day_nanos, second_nanos, epoch_days.
  Z.to_euclidean_division_equations. lia.
Qed.

(** C20: the text SQLite stores sorts like time and reads back exactly. For times
    in years 0 to 9999 - all the layout's four digits can hold - the byte order of
    the stored text is the order of the times, so ORDER BY and >= on the column
    mean what they say, and parsing the text gives the time back to the
    nanosecond. *)
Theorem stored_time_spec a b :
  four_digit_year a = true → four_digit_year b = true →
  String.compare (format_time a) (format_time b) = Z.compare a b
  ∧ parse_time (format_time a) = Ok a.
Proof.
  intros Ha Hb. split; [by apply format_time_compare|]. unfold parse_time. by rewrite parse_format.
Qed.

Lemma stored_time_spec_witness :
  format_time 1752140096789012345 = "2025-07-10T09:34:56.789012345Z"
  ∧ String.compare (format_time 1752140096789012345) (format_time 951782400000000000)
    = Z.compare 1752140096789012345 951782400000000000
  ∧ parse_time (format_time 1752140096789012345) = Ok 1752140096789012345.
Proof.
  split; [vm_compute; reflexivity|].
  apply (stored_time_spec 1752140096789012345 951782400000000000); vm_compute; reflexivity.
Defined.

