(* ===== verification/Stores.v ===== *)
(** The two stores: SQLiteStore (sqlite.go) and PostgresStore (postgres.go) as
    instances of [Store], with the laws of their dialects; an in-memory engine
    that satisfies [SqlLaws]; and the store interface the API and the worker use. *)

From S2P Require Import Prelude GoString Json Env Actions Models Sql Store StoreSpec TimeText.

(** ** sqlite.go: times as text *)
Module Sqlite.

Definition formatTimePtr (t : option Z) : option string := format_time <$> t.

Definition text_le (a b : string) : bool := String.leb a b.

Definition sqlite : dialect string :=
  {| dl_enc := format_time;
     dl_dec := λ column s, wrap_err ("parsing " +:+ column) (parse_time s);
     dl_table_error := EWrap "updating table";
     dl_check_insert := true; dl_skip_locked := false |}.

Section ops.
Context `{SqlEngine string} `{StoreEnv} `{GoJson}.
Definition CreateExecution := create_execution sqlite.
Definition GetExecution := get_execution sqlite.
Definition GetExecutionOutput := get_execution_output.
Definition ListExecutions := list_executions sqlite.
Definition UpdateExecutionWithResult := update_execution_with_result sqlite.
Definition ClaimNextExecution := claim_next_execution sqlite.
Definition CreateAuditEntry := create_audit_entry sqlite.
Definition ListAuditEntries := list_audit_entries sqlite.
Definition execution_toModel := execution_of_row sqlite.
Definition output_toModel := output_of_row.
Definition audit_toModel := audit_of_row sqlite.
End ops.

#[export] Instance sqlite_laws : DialectLaws (tle := text_le) sqlite four_digit_year (λ t, t).
Proof.
  split.
  - intros label t Ht. unfold sqlite; cbn [dl_enc dl_dec]. unfold parse_time. by rewrite parse_format.
  - intros a b Ha Hb. simpl. unfold text_le, String.leb. rewrite format_time_compare by done.
    unfold Z.leb. by destruct (a ?= b).
Qed.

#[export] Instance text_order : TimeOrder (tle := text_le).
Proof.
  split; unfold text_le.
  - intros a b. apply String.leb_total.
  - intros a b. apply String.leb_antisym.
  - intros a b c Hab Hbc. apply Is_true_true. apply Is_true_true in Hab, Hbc.
    exact (transitivity (R := String.le) Hab Hbc).
Qed.
End Sqlite.

(** ** postgres.go: TIMESTAMPTZ, which keeps microseconds *)
Module Postgres.

Definition postgres : dialect Z :=
  {| dl_enc := λ t, t / 1000; dl_dec := λ _ t, Ok (t * 1000);
     dl_table_error := λ e, e; dl_check_insert := false; dl_skip_locked := true |}.

Section ops.
Context `{SqlEngine Z} `{StoreEnv} `{GoJson}.
Definition CreateExecution := create_execution postgres.
Definition GetExecution := get_execution postgres.
Definition GetExecutionOutput := get_execution_output.
Definition ListExecutions := list_executions postgres.
Definition UpdateExecutionWithResult := update_execution_with_result postgres.
Definition ClaimNextExecution := claim_next_execution postgres.
Definition CreateAuditEntry := create_audit_entry postgres.
Definition ListAuditEntries := list_audit_entries postgres.
Definition execution_toModel := execution_of_row postgres.
Definition output_toModel := output_of_row.
Definition audit_toModel := audit_of_row postgres.
End ops.

(** Times come back cut to the microsecond. *)
Definition microseconds (t : Z) : Z := t / 1000 * 1000.

#[export] Instance postgres_laws : DialectLaws (tle := Z.leb) postgres (λ _, true) microseconds.
Proof.
  split; [done|]. intros a b _ _. simpl. unfold microseconds.
  destruct (Z.leb_spec (a / 1000) (b / 1000)), (Z.leb_spec (a / 1000 * 1000) (b / 1000 * 1000)); lia.
Qed.

#[export] Instance micro_order : TimeOrder (tle := Z.leb).
Proof. split; intros; lia. Qed.
End Postgres.

(** ** An engine that satisfies the laws *)
Module MemoryEngine.

(** Sorting by the stores' ORDER BY. *)
Section sorting.
Context {T R : Type} (tle : T → T → bool) `{!TimeOrder (tle := tle)} (time : R → T) (id : R → string).

Lemma newest_first_total : Total (newest_first tle time id).
Proof.
  intros a b. unfold newest_first. pose proof (tle_total (time a) (time b)) as Ht.
  destruct (tle (time a) (time b)) eqn:E1, (tle (time b) (time a)) eqn:E2; simpl.
  - destruct (total String.le (id a) (id b)); auto.
  - by right.
  - by left.
  - by destruct Ht.
Qed.

Lemma newest_first_trans : Transitive (newest_first tle time id).
Proof.
  intros a b c. unfold newest_first. intros Hab Hbc.
  pose proof (tle_trans (time a) (time b) (time c)) as T1.
  pose proof (tle_trans (time c) (time b) (time a)) as T2.
  pose proof (tle_trans (time a) (time c) (time b)) as T3.
  pose proof (tle_trans (time b) (time c) (time a)) as T4.
  pose proof (tle_trans (time b) (time a) (time c)) as T5.
  pose proof (tle_trans (time c) (time a) (time b)) as T6.
  pose proof (tle_total (time a) (time b)) as U1. pose proof (tle_total (time b) (time c)) as U2.
  pose proof (tle_total (time a) (time c)) as U3.
  destruct (tle (time a) (time b)), (tle (time b) (time a)), (tle (time b) (time c)),
    (tle (time c) (time b)), (tle (time a) (time c)), (tle (time c) (time a));
    destruct_and?; try done; try (exfalso; intuition congruence).
  - split; [done|]. by etrans.
Qed.

#[export] Instance newest_first_dec : RelDecision (newest_first tle time id).
Proof. intros a b. unfold newest_first. destruct (tle _ _); apply _. Defined.
Definition sort_newest (l : list R) : list R := merge_sort (newest_first tle time id) l.

Lemma sort_newest_ordered l : ordered (newest_first tle time id) l (sort_newest l).
Proof.
  split; [apply merge_sort_Permutation|].
  pose proof newest_first_total. pose proof newest_first_trans. by apply StronglySorted_merge_sort.
Qed.
End sorting.

(** Oldest first is newest first of the reversed order. *)
Lemma flip_order {T} (tle : T → T → bool) :
  TimeOrder (tle := tle) → TimeOrder (tle := λ a b, tle b a).
Proof. intros [H1 H2 H3]. split; eauto. Qed.

Section memory.
Context {T : Type} (tle : T → T → bool) `{Hto : !TimeOrder (tle := tle)}.

Record memory := Memory { m_committed : tables T; m_tx : option (tables T) }.
Definition seen (m : memory) : tables T := default m.(m_committed) m.(m_tx).

(** The answer of a statement that succeeds. *)
Definition answer (t : tables T) (s : stmt T) : stmt_resp s :=
  match s return stmt_resp s with
  | SelectExecution id => rows_with_id t id
  | SelectOutput id => filter (λ r, r.(o_exec_id) = id) t.(t_outputs)
  | CountExecutions clauses args =>
      Z.of_nat (length (filter (λ r, where_holds tle exec_column clauses args r = true) t.(t_executions)))
  | SelectExecutions clauses args limit offset =>
      page limit offset (sort_newest tle r_created_at r_id
        (filter (λ r, where_holds tle exec_column clauses args r = true) t.(t_executions)))
  | UpdateStatus _ _ _ id => Z.of_nat (length (rows_with_id t id))
  | UpdateRunning _ id => Z.of_nat (length (rows_with_id t id))
  | SelectNextPending _ =>
      take 1 (r_id <$> sort_newest (λ a b, tle b a) r_created_at r_id (pending t))
  | CountAudit clauses args =>
      Z.of_nat (length (filter (λ r, where_holds tle audit_column clauses args r = true) t.(t_audit)))
  | SelectAudit clauses args limit offset =>
      page limit offset (sort_newest tle a_timestamp a_id
        (filter (λ r, where_holds tle audit_column clauses args r = true) t.(t_audit)))
  | InsertExecution _ | InsertOutput _ | InsertAudit _ => 1
  | DeleteOutput id => Z.of_nat (length (filter (λ r, r.(o_exec_id) = id) t.(t_outputs)))
  end.

#[local] Instance key_free_dec s t : Decision (key_free (T := T) s t).
Proof. destruct s; simpl; apply _. Defined.

Definition store_tables (t : tables T) (m : memory) : memory :=
  match m.(m_tx) with
  | Some _ => Memory m.(m_committed) (Some t)
  | None => Memory t None
  end.

Definition mem_run (s : stmt T) (m : memory) : res (stmt_resp s) * memory :=
  if bool_decide (key_free s (seen m))
  then (Ok (answer (seen m) s), store_tables (effect s (seen m)) m)
  else (Err (EText "UNIQUE constraint failed"), m).

#[local] Instance engine : SqlEngine T :=
  {| sql_db := memory; sql_run := mem_run;
     sql_begin := λ m, (None, Memory m.(m_committed) (Some m.(m_committed)));
     sql_commit := λ m, match m.(m_tx) with
                        | Some t => (None, Memory t None)
                        | None => (Some (ESentinel ErrTxDone), m)
                        end;
     sql_rollback := λ m, (match m.(m_tx) with Some _ => None | None => Some (ESentinel ErrTxDone) end,
                           Memory m.(m_committed) None);
     content := m_committed; session := m_tx |}.

Lemma answer_correct t s : answers tle t s (answer t s).
Proof.
  destruct s; simpl; try done.
  - eexists. split; [apply sort_newest_ordered, Hto|done].
  - pose proof (flip_order tle Hto). eexists. split; [|done]. apply (sort_newest_ordered (λ a b, tle b a)).
  - eexists. split; [apply sort_newest_ordered, Hto|done].
Qed.

Lemma engine_laws : SqlLaws tle engine.
Proof.
  split; simpl.
  - intros s d a d'. unfold mem_run, current. simpl. fold (seen d).
    case_bool_decide as Hk; [|done]. intros [= <- <-]. split; [done|]. split; [apply answer_correct|].
    unfold store_tables. destruct d as [c [t|]]; simpl; eauto.
  - intros s d e d'. unfold mem_run. case_bool_decide; [done|]. by intros [= _ <-].
  - by intros [c t].
  - intros [c t0] t. simpl. by intros ->.
  - by intros [c t].
Qed.

Lemma engine_reliable : reliable (E := engine).
Proof.
  split; [|split]; simpl.
  - intros s d Hk. unfold mem_run, current in *. simpl in Hk. fold (seen d) in Hk.
    by rewrite bool_decide_eq_true_2.
  - done.
  - intros [c t0] t. simpl. by intros ->.
Qed.
End memory.
End MemoryEngine.

(** ** Witnesses: a store over the in-memory engine *)
Module StoresExample.
Import ModelsExample.
#[export] Instance engine : SqlEngine string := MemoryEngine.engine Sqlite.text_le.
#[export] Instance laws : SqlLaws Sqlite.text_le engine := MemoryEngine.engine_laws Sqlite.text_le (Hto := Sqlite.text_order).
(** A clock that ticks a second per reading, and ids u0, u1, ... *)
#[export] Instance oracle : StoreEnv :=
  {| env_now := λ n, 1752140096000000000 + Z.of_nat n * 1000000000;
     env_uuid := λ n, "u" +:+ pretty n |}.

Definition exec (id : string) (at_ : Z) : Execution :=
  ExecutionFromRequest id at_ "get" (Build_ExecutionRequest "c-1" "J-1" None None None) "sre".
Definition row (id : string) (at_ : Z) : exec_row string :=
  row_of_execution Sqlite.sqlite (exec id at_).
(** Two pending executions, the older one second. *)
Definition two : tables string :=
  Build_tables [row "e2" 1752140090000000000; row "e1" 1752140080000000000] [] [].
Definition db : sql_db := MemoryEngine.Memory two None.

Lemma db_wf : wf_tables (content db).
Proof. repeat split; decide_closed. Qed.

(** Reads a theorem about an operation's result off the operation's run. *)
Ltac by_run thm :=
  pose proof thm as Hw; cbv zeta in Hw; revert Hw;
  match goal with |- (let '_ := ?m in _) → _ => destruct m as [r [d' n']] end; intros Hw.

Lemma claim_oldest_witness :
  ex_ID <$> (match (Sqlite.ClaimNextExecution (db, 0%nat)).1 with Ok e => Some e | Err _ => None end)
    = Some "e1"
  ∧ session (claim_next_execution Sqlite.sqlite (db, 0%nat)).2.1 = None.
Proof.
  split; [vm_compute; reflexivity|].
  by_run (claim_oldest Sqlite.sqlite db 0%nat eq_refl db_wf). exact (proj1 Hw).
Defined.

Lemma update_execution_atomic_witness :
  (map r_status (content (Sqlite.UpdateExecutionWithResult "e1" "completed" None None (db, 0%nat)).2.1).(t_executions))
    = ["pending"; "completed"]
  ∧ session (update_execution_with_result Sqlite.sqlite "e1" "completed" None None (db, 0%nat)).2.1 = None
  ∧ (∃ e, (update_execution_with_result Sqlite.sqlite "e9" "completed" None None (db, 0%nat)).1 = Err e
          ∧ errors_is e ErrNotFound = true).
Proof.
  split; [vm_compute; reflexivity|]. split.
  - by_run (update_execution_atomic Sqlite.sqlite "e1" "completed" None None db 0%nat eq_refl). exact (proj1 Hw).
  - assert (is_ok (update_execution_with_result Sqlite.sqlite "e9" "completed" None None (db, 0%nat)).1 = false)
      as Herr by (vm_compute; reflexivity). revert Herr.
    by_run (update_execution_atomic Sqlite.sqlite "e9" "completed" None None db 0%nat eq_refl).
    destruct Hw as (_ & _ & Hw). specialize (Hw (MemoryEngine.engine_reliable Sqlite.text_le)).
    destruct r as [u|e]; [discriminate|]. intros _. exists e. split; [reflexivity|].
    apply Hw. intros o Ho. discriminate Ho.
Defined.

Lemma claim_progress_witness :
  is_ok (claim_next_execution Sqlite.sqlite (db, 0%nat)).1 = true.
Proof.
  refine (claim_progress Sqlite.sqlite db 0%nat (MemoryEngine.engine_reliable Sqlite.text_le)
    eq_refl db_wf _).
  intros row Hrow. repeat (apply elem_of_cons in Hrow as [->|Hrow]; [vm_compute; reflexivity|]).
  by apply elem_of_nil in Hrow.
Defined.

Lemma create_then_get_witness :
  (get_execution Sqlite.sqlite "e3" (create_execution Sqlite.sqlite (exec "e3" 0) (db, 0%nat)).2).1
  = Ok (exec "e3" 0).
Proof.
  exact (proj2 (create_then_get Sqlite.sqlite four_digit_year (λ t, t) (exec "e3" 0) db 0%nat
    (create_execution Sqlite.sqlite (exec "e3" 0) (db, 0%nat)).2.1 0%nat
    Sqlite.sqlite_laws eq_refl eq_refl db_wf eq_refl)).
Defined.

(** A filter for one page of [limit] pending executions. *)
Definition pending_page (limit : Z) : ExecutionFilter :=
  {| ef_Status := Some "pending"; ef_Action := None; ef_Target := None; ef_Operator := None;
     ef_Scope := None; ef_Type := None; ef_ApprovalState := None; ef_DryRun := None;
     ef_Force := None; ef_Since := None; ef_Limit := limit; ef_Offset := 0 |}.

Lemma list_executions_spec_witness :
  (res_map (λ l, (lr_Total l, map ex_ID (lr_Items l)))
     (list_executions Sqlite.sqlite (pending_page 1) (db, 0%nat)).1) = Ok (2, ["e2"])
  ∧ content (list_executions Sqlite.sqlite (pending_page 1) (db, 0%nat)).2.1 = content db.
Proof.
  split; [vm_compute; reflexivity|].
  by_run (list_executions_spec Sqlite.sqlite (pending_page 1) db 0%nat eq_refl). exact (proj1 Hw).
Defined.

Definition page_of (k : nat) : ListResult Execution :=
  match (list_executions Sqlite.sqlite (nth_page (pending_page 1) k) (db, 0%nat)).1 with
  | Ok l => l
  | Err _ => Build_ListResult [] 0 0 0
  end.

Lemma pages_cover_witness :
  ∃ sorted, Forall2 (λ row e, execution_of_row Sqlite.sqlite row = Ok e) sorted
    (concat (lr_Items <$> [page_of 0; page_of 1])).
Proof.
  destruct (pages_cover Sqlite.sqlite (pending_page 1) db 2 [page_of 0; page_of 1]
    Sqlite.text_order eq_refl db_wf) as (sorted & _ & Hf).
  - vm_compute. discriminate.
  - lia.
  - repeat constructor; exists 0%nat; vm_compute; reflexivity.
  - by exists sorted.
Defined.

Lemma store_keeps_keys_witness :
  wf_tables (content (claim_next_execution Sqlite.sqlite (db, 0%nat)).2.1).
Proof.
  pose proof (proj1 (proj2 (proj2 (proj2 (proj2 (proj2 (store_keeps_keys Sqlite.sqlite)))))))
    as Hc. specialize (Hc db 0%nat eq_refl db_wf). revert Hc.
  destruct (claim_next_execution Sqlite.sqlite (db, 0%nat)) as [r [d' n']]. intros [_ Hc]. exact Hc.
Defined.
End StoresExample.
