(* ===== verification/Worker.v ===== *)
(** internal/worker: the runner that puts a claimed execution through the
    executor (executor_runner.go) and the pool of workers that claim, run and
    finish executions (pool.go), as a step relation over a shared store.

    A step is one store operation, one run, or one channel or context event of one
    worker; the store's operations are atomic (they are single statements or
    transactions, see [QueueLaws]), everything else interleaves freely. *)

From stdpp Require Import relations.
From S2P Require Import Prelude GoString Json Env Authorization Actions AwsFilters AwsGet AwsWrite AwsApi Backplane Executor Pipeline Models Sql Store StoreSpec StoreApi Stores.
#[local] Open Scope Z_scope.

Record RunResult := { rr_Status : string; rr_Reason : string; rr_Output : option ActionResult }.

(** The statuses an execution ends with. *)
Definition terminal (status : string) : bool := bool_decide (status ∈ ["succeeded"; "failed"]).

(** ** executor_runner.go *)
Section runner.
Context `{Env} `{GoJson} `{GoUUID}.

Definition defaultExecutionTimeout : Z := 120 * 1000000000.
(** [NewExecutorRunner]'s timeout. *)
Definition executor_timeout (executionTimeout : Z) : Z :=
  if executionTimeout <=? 0 then defaultExecutionTimeout else executionTimeout.

Definition resolveAction (registry : gmap string action) (name : string) : res action :=
  match CreateAction registry name with
  | None => Err (EText ("unknown action " +:+ quoted name))
  | Some a => Ok a
  end.

Definition decodeParams (raw : option string) : res strmap :=
  match raw with
  | None => Ok ∅
  | Some s =>
      wrap_err "failed to decode execution params"
        (let? v := json_unmarshal s in
         match decode_string_map v with
         | Some m => Ok m
         | None => Err (EText "json: cannot unmarshal")
         end)
  end.

Definition runResultError (e : gerror) : RunResult :=
  {| rr_Status := "failed"; rr_Reason := error_text e; rr_Output := None |}.

(** The request [Run] builds. *)
Definition runner_request (e : Execution) (act : action) (params : strmap) : Request :=
  {| rq_CallerID := default "" e.(ex_Username); rq_ClusterID := e.(ex_TargetCluster);
     rq_ClusterVersion := ""; rq_Action := act; rq_Target := None; rq_Params := params |}.

Definition ExecutorRunner_Run (registry : gmap string action) (scopes : list Scope) (e : Execution)
  : W RunResult :=
  match resolveAction registry e.(ex_Action) with
  | Err err => ret (runResultError err)
  | Ok act =>
      match decodeParams e.(ex_Params) with
      | Err err => ret (runResultError err)
      | Ok params =>
          do result <- Execute scopes (runner_request e act params);
          match result.(rs_Error) with
          | Some err => ret (runResultError err)
          | None =>
              if negb result.(rs_Allowed)
              then ret (runResultError (EText ("denied: " +:+ result.(rs_Reason))))
              else ret {| rr_Status := "succeeded"; rr_Reason := ""; rr_Output := result.(rs_Output) |}
          end
      end
  end.

Lemma run_terminal registry scopes e w :
  terminal (ExecutorRunner_Run registry scopes e w).1.(rr_Status) = true.
Proof.
  unfold ExecutorRunner_Run. destruct (resolveAction _ _); [|done]. destruct (decodeParams _); [|done].
  unfold bind. destruct (Execute _ _ _) as [r w']. by destruct (rs_Error r), (rs_Allowed r).
Qed.

Context (namespaces secrets : list string) (policy : Aws.policy)
  (bp : KubeClientProvider) (aws : ClientProvider).
Local Notation scopes := (server_scopes namespaces secrets policy bp aws).

(** A run is gated by the policy: it permits the target of the registered action, or
    the run fails without touching a cluster or an account. *)
Lemma run_gated registry e w :
  ProviderLaws aws →
  let '(r, w') := ExecutorRunner_Run registry scopes e w in
  (∃ a params t, registry !! e.(ex_Action) = Some a ∧ decodeParams e.(ex_Params) = Ok params
     ∧ judged_target aws (runner_request e a params) t ∧ policy_permits namespaces secrets policy a t)
  ∨ r.(rr_Status) = "failed" ∧ ∃ new, w'.(w_calls) = w.(w_calls) ++ new ∧ Forall harmless new.
Proof.
  intros Hl. unfold ExecutorRunner_Run, resolveAction, CreateAction.
  assert (∃ new, w.(w_calls) = w.(w_calls) ++ new ∧ Forall harmless new) as Hnone
    by (exists []; by rewrite app_nil_r).
  destruct (registry !! ex_Action e) as [a|] eqn:Ha; [|by right].
  destruct (decodeParams (ex_Params e)) as [params|err] eqn:Hp; [|by right].
  set (req := runner_request e a params). unfold bind.
  pose proof (execute_policy namespaces secrets policy bp aws req w Hl) as Hpol.
  destruct (Execute scopes req w) as [res w']. destruct Hpol as [Hal Hde]. destruct (rs_Allowed res) eqn:Hr.
  - destruct (Hal eq_refl) as (t & Hj & Hper). destruct (rs_Error res); left; by exists a, params, t.
  - destruct (rs_Error res); right; (split; [done|]); exact (Hde eq_refl).
Qed.

(** C13: a run that succeeds was allowed, and the audit trail says so. When the
    runner reports an execution as succeeded, its action is registered, its params
    decode, the configured policy permits the target derived from them, and the
    run ended with one audit record - allowed, successful, in the name of the
    execution's user and cluster. Any other run is reported as failed, without an
    output; and a run whose action or params are unusable makes no call at all. *)
Theorem run_succeeded_sound registry e w :
  ProviderLaws aws → KubeProviderLaws bp →
  (∀ name a, registry !! name = Some a → AuditFreeAction a) →
  let '(r, w') := ExecutorRunner_Run registry scopes e w in
  (r.(rr_Status) = "succeeded" →
     ∃ a params t mid rec,
       registry !! e.(ex_Action) = Some a ∧ decodeParams e.(ex_Params) = Ok params
       ∧ judged_target aws (runner_request e a params) t
       ∧ policy_permits namespaces secrets policy a t
       ∧ w'.(w_calls) = w.(w_calls) ++ CNow :: mid ++ [CAudit rec] ∧ Forall not_audit mid
       ∧ rec.(rec_decision) = DecisionAllowed ∧ rec.(rec_outcome) = OutcomeSuccess
       ∧ rec.(rec_callerID) = default "" e.(ex_Username)
       ∧ rec.(rec_clusterID) = e.(ex_TargetCluster))
  ∧ (r.(rr_Status) ≠ "succeeded" → r.(rr_Status) = "failed" ∧ r.(rr_Output) = None)
  ∧ (registry !! e.(ex_Action) = None ∨ is_ok (decodeParams e.(ex_Params)) = false → w' = w).
Proof.
  intros Hl Hk Hfree. unfold ExecutorRunner_Run, resolveAction, CreateAction.
  destruct (registry !! ex_Action e) as [a|] eqn:Ha; [|by repeat split].
  destruct (decodeParams (ex_Params e)) as [params|err] eqn:Hp; [|by repeat split].
  set (req := runner_request e a params). unfold bind.
  pose proof (execute_policy namespaces secrets policy bp aws req w Hl) as Hpol.
  pose proof (execute_audit scopes req w) as Haud.
  destruct (Execute scopes req w) as [res w'].
  destruct Haud as (mid & rec & Hw & Hmid & (Hc & Hcl & _ & Hm) & _).
  { intros s Hs. specialize (Hfree _ _ Ha).
    repeat (apply elem_of_cons in Hs as [->|Hs]); [apply _..|by apply elem_of_nil in Hs]. }
  destruct (rs_Error res) as [err|] eqn:He; [by split; [|split; [|intros [|]]]|].
  destruct (rs_Allowed res) eqn:Hal; [|by split; [|split; [|intros [|]]]].
  split; [|by split; [|intros [|]]]. intros _.
  destruct (proj1 Hpol eq_refl) as (t & Hj & Hper). exists a, params, t, mid, rec.
  destruct Hm as (_ & Hd & Ho & _). by repeat split.
Qed.
End runner.

(** ** pool.go *)

Definition defaultPollInterval : Z := 5 * 1000000000.

(** [New]: the concurrency and the poll interval are clamped; [notify] is a
    channel of capacity one, here the bit whether it is full. *)
Record PoolConfig := { pc_concurrency : Z; pc_pollInterval : Z }.
Definition pool_New (concurrency pollInterval : Z) : PoolConfig :=
  {| pc_concurrency := if concurrency <? 1 then 1 else concurrency;
     pc_pollInterval := if pollInterval <=? 0 then defaultPollInterval else pollInterval |}.

Section pool.
Context `{Env} `{S : StoreInterface} (run : Execution → W RunResult).

(** Where a worker is in [workerLoop]: at the top of its loop, past the check of its
    context, in [process] before and after the run, at the second check of the
    context, in the final [select], or returned. *)
Inductive wstate :=
| AtTop
| Claiming
| Processing (e : Execution)
| Finishing (e : Execution) (r : RunResult)
| ClaimFailed
| Waiting
| Exited.

(** The pool with the store it shares and the context of [Start]. [ps_claimed] and
    [ps_failed] record history: the executions claimed so far, and whether a store
    operation of a worker has failed other than by finding nothing. *)
Record pool_state := {
  ps_store : store_st; ps_world : world; ps_notify : bool; ps_cancelled : bool;
  ps_workers : list wstate; ps_claimed : list uuid; ps_failed : bool }.

(** [Notify]: a send that drops the token when one is already there. *)
Definition Notify (full : bool) : bool := if full then full else true.

(** [workerLoop] after [ClaimNextExecution]. *)
Definition after_claim (r : res Execution) : wstate :=
  match r with
  | Ok e => Processing e
  | Err err => if errors_is err ErrNotFound then Waiting else ClaimFailed
  end.

(** [process], first part: the run. *)
Definition process_run (e : Execution) : W wstate :=
  do r <- run e; ret (Finishing e r).

(** The result [process] persists: the run's, with its output converted. *)
Definition persisted (r : RunResult) : string * option ExecutionOutput :=
  match OutputFromActionResult r.(rr_Output) with
  | Ok output => (r.(rr_Status), output)
  | Err _ => ("failed", None)
  end.

(** [process], second part: the detached update, whose error is only logged. *)
Definition process_finish (e : Execution) (r : RunResult) (completedAt : Z) : M store_st (res unit) :=
  let '(status, output) := persisted r in
  st_UpdateExecutionWithResult e.(ex_ID) status (Some completedAt) output.

Definition claim_id (r : res Execution) : list uuid := match r with Ok e => [e.(ex_ID)] | Err _ => [] end.
Definition claim_failed (r : res Execution) : bool :=
  match r with Ok _ => false | Err err => negb (errors_is err ErrNotFound) end.

(** Worker [i] moves to [st]. *)
Definition set_worker (i : nat) (st : wstate) (p : pool_state) : pool_state :=
  {| ps_store := p.(ps_store); ps_world := p.(ps_world); ps_notify := p.(ps_notify);
     ps_cancelled := p.(ps_cancelled); ps_workers := <[i := st]> p.(ps_workers);
     ps_claimed := p.(ps_claimed); ps_failed := p.(ps_failed) |}.

(** What a worker does. *)
Inductive worker_step : pool_state → pool_state → Prop :=
(* the context is done at the top of the loop, or in the select *)
| step_exit i p :
    p.(ps_workers) !! i = Some AtTop ∨ p.(ps_workers) !! i = Some Waiting → p.(ps_cancelled) = true →
    worker_step p (set_worker i Exited p)
(* it is not done at the top of the loop; the claim may still come after a cancellation *)
| step_check i p :
    p.(ps_workers) !! i = Some AtTop → p.(ps_cancelled) = false → worker_step p (set_worker i Claiming p)
| step_claim i p r s' :
    p.(ps_workers) !! i = Some Claiming → st_ClaimNextExecution p.(ps_store) = (r, s') →
    worker_step p {| ps_store := s'; ps_world := p.(ps_world); ps_notify := p.(ps_notify);
                     ps_cancelled := p.(ps_cancelled); ps_workers := <[i := after_claim r]> p.(ps_workers);
                     ps_claimed := p.(ps_claimed) ++ claim_id r;
                     ps_failed := p.(ps_failed) || claim_failed r |}
| step_claim_failed i p :
    p.(ps_workers) !! i = Some ClaimFailed →
    worker_step p (set_worker i (if p.(ps_cancelled) then Exited else Waiting) p)
| step_run i p e st w' :
    p.(ps_workers) !! i = Some (Processing e) → process_run e p.(ps_world) = (st, w') →
    worker_step p {| ps_store := p.(ps_store); ps_world := w'; ps_notify := p.(ps_notify);
                     ps_cancelled := p.(ps_cancelled); ps_workers := <[i := st]> p.(ps_workers);
                     ps_claimed := p.(ps_claimed); ps_failed := p.(ps_failed) |}
| step_finish i p e r now u s' :
    p.(ps_workers) !! i = Some (Finishing e r) → process_finish e r now p.(ps_store) = (u, s') →
    worker_step p {| ps_store := s'; ps_world := p.(ps_world); ps_notify := p.(ps_notify);
                     ps_cancelled := p.(ps_cancelled); ps_workers := <[i := AtTop]> p.(ps_workers);
                     ps_claimed := p.(ps_claimed); ps_failed := p.(ps_failed) || negb (is_ok u) |}
(* the select: the poll ticker, or a token *)
| step_tick i p :
    p.(ps_workers) !! i = Some Waiting → worker_step p (set_worker i AtTop p)
| step_wake i p :
    p.(ps_workers) !! i = Some Waiting → p.(ps_notify) = true →
    worker_step p {| ps_store := p.(ps_store); ps_world := p.(ps_world); ps_notify := false;
                     ps_cancelled := p.(ps_cancelled); ps_workers := <[i := AtTop]> p.(ps_workers);
                     ps_claimed := p.(ps_claimed); ps_failed := p.(ps_failed) |}.

(** The state after the pool's environment has acted on what they share. *)
Definition with_shared (s : store_st) (w : world) (notify cancelled : bool) (p : pool_state) : pool_state :=
  {| ps_store := s; ps_world := w; ps_notify := notify; ps_cancelled := cancelled;
     ps_workers := p.(ps_workers); ps_claimed := p.(ps_claimed); ps_failed := p.(ps_failed) |}.

Inductive pool_step : pool_state → pool_state → Prop :=
| step_worker p p' : worker_step p p' → pool_step p p'
(* outside the pool: Notify, cancellation, and the API creating an execution *)
| step_notify p :
    pool_step p (with_shared p.(ps_store) p.(ps_world) (Notify p.(ps_notify)) p.(ps_cancelled) p)
| step_cancel p :
    pool_step p (with_shared p.(ps_store) p.(ps_world) p.(ps_notify) true p)
| step_create p e r s' :
    e.(ex_Status) = ExecutionStatusPending → st_CreateExecution e p.(ps_store) = (r, s') →
    pool_step p (with_shared s' p.(ps_world) p.(ps_notify) p.(ps_cancelled) p).

(** [Start]: every worker at the top of its loop. *)
Definition pool_start (cfg : PoolConfig) (s : store_st) (w : world) : pool_state :=
  {| ps_store := s; ps_world := w; ps_notify := false; ps_cancelled := false;
     ps_workers := replicate (Z.to_nat cfg.(pc_concurrency)) AtTop; ps_claimed := []; ps_failed := false |}.

(** The execution a worker holds. *)
Definition holds (st : wstate) : option uuid :=
  match st with
  | Processing e | Finishing e _ => Some e.(ex_ID)
  | _ => None
  end.
Definition held_by (ws : list wstate) (i : nat) (id : uuid) : Prop :=
  ∃ st, ws !! i = Some st ∧ holds st = Some id.

Lemma held_insert ws i st j id :
  held_by (<[i := st]> ws) j id → j = i ∧ holds st = Some id ∨ j ≠ i ∧ held_by ws j id.
Proof.
  intros (st' & Hl & Hh). apply list_lookup_insert_Some in Hl as [(-> & <- & _)|[Hne Hl]]; [by left|].
  right. split; [done|]. by exists st'.
Qed.
Lemma held_here ws i st0 st id :
  ws !! i = Some st0 → holds st = Some id → held_by (<[i := st]> ws) i id.
Proof.
  intros Hl Hh. exists st. split; [|done]. apply list_lookup_insert_eq. by eapply lookup_lt_Some.
Qed.
Lemma held_elsewhere ws i st j id : j ≠ i → held_by ws j id → held_by (<[i := st]> ws) j id.
Proof. intros Hne (st' & Hl & Hh). exists st'. split; [|done]. by rewrite list_lookup_insert_ne. Qed.

(** ** The pool's invariant *)
Context `{V : !QueueView S} `{!QueueLaws V}.

Record pool_inv (s : store_st) (ws : list wstate) (claimed : list uuid) (failed : bool) : Prop := {
  inv_ok : q_ok s;
  inv_exclusive : ∀ i j id, held_by ws i id → held_by ws j id → i = j;
  inv_running : ∀ i id, held_by ws i id → q_status s id = Some "running" ∧ id ∈ claimed;
  inv_result : ∀ i e r, ws !! i = Some (Finishing e r) → terminal (persisted r).1 = true;
  inv_once : NoDup claimed;
  inv_claimed : ∀ id, id ∈ claimed → ∃ v, q_status s id = Some v ∧ v ≠ "pending";
  inv_accounted : failed = false → ∀ id, id ∈ claimed →
    (∃ v, q_status s id = Some v ∧ terminal v = true) ∨ ∃ i, held_by ws i id }.

(** A worker that holds nothing goes on holding nothing. *)
Lemma inv_idle s ws claimed failed i st0 st :
  ws !! i = Some st0 → holds st0 = None → holds st = None →
  pool_inv s ws claimed failed → pool_inv s (<[i := st]> ws) claimed failed.
Proof.
  intros Hl Hst0 Hst [Hok Hex Hrun Hres Honce Hcl Hacc].
  assert (∀ j id, held_by (<[i := st]> ws) j id → held_by ws j id) as Hb.
  { intros j id [[-> Hh]|[_ Hh]]%held_insert; [congruence|done]. }
  split; eauto.
  - intros j e r [(-> & Heq & _)|[_ Hj]]%list_lookup_insert_Some; [by subst st|eauto].
  - intros Hf id Hid. destruct (Hacc Hf id Hid) as [?|[j Hj]]; [by left|right].
    exists j. apply held_elsewhere; [|done]. intros ->. destruct Hj as (st' & Hl' & Hh'). congruence.
Qed.

(** The store changed one status that no claim depends on. *)
Lemma inv_unmoved s s' ws claimed failed :
  q_ok s' → unmoved (q_status s) (q_status s') →
  pool_inv s ws claimed failed → pool_inv s' ws claimed failed.
Proof.
  intros Hok' Hu [Hok Hex Hrun Hres Honce Hcl Hacc]. split; try done; intros; rewrite ?Hu; eauto.
Qed.

Lemma inv_moved s s' ws claimed failed id v :
  q_ok s' → moved (q_status s) (q_status s') id v → id ∉ claimed →
  pool_inv s ws claimed failed → pool_inv s' ws claimed failed.
Proof.
  intros Hok' Hm Hid [Hok Hex Hrun Hres Honce Hcl Hacc].
  assert (∀ id', id' ∈ claimed → q_status s' id' = q_status s id') as Hs.
  { intros id' Hin. rewrite Hm, bool_decide_eq_false_2; [done|]. by intros ->. }
  split; try done.
  - intros i id' Hh. destruct (Hrun i id' Hh). by rewrite Hs.
  - intros id' Hin. rewrite Hs by done. auto.
  - intros Hf id' Hin. rewrite Hs by done. auto.
Qed.

Lemma pending_unclaimed s ws claimed failed id :
  pool_inv s ws claimed failed → q_status s id = Some "pending" ∨ q_status s id = None → id ∉ claimed.
Proof. intros Hi Hp Hin. destruct (inv_claimed _ _ _ _ Hi id Hin) as (v & Hv & Hne). destruct Hp; congruence. Qed.

Lemma inv_fail s ws claimed failed b :
  pool_inv s ws claimed failed → (b = true ∨ b = failed) → pool_inv s ws claimed b.
Proof. intros [Hok Hex Hrun Hres Honce Hcl Hacc] [->| ->]; split; try done. Qed.

Lemma inv_claim s s' ws claimed failed i r :
  ws !! i = Some Claiming → st_ClaimNextExecution s = (r, s') → pool_inv s ws claimed failed →
  pool_inv s' (<[i := after_claim r]> ws) (claimed ++ claim_id r) (failed || claim_failed r).
Proof.
  intros Hl Hc Hi. pose proof (queue_claim s (inv_ok _ _ _ _ Hi)) as Hq. rewrite Hc in Hq.
  destruct Hq as [Hok' Hq]. destruct r as [e|err]; simpl.
  - destruct Hq as (Hpend & _ & Hm). rewrite orb_false_r.
    pose proof (pending_unclaimed _ _ _ _ _ Hi (or_introl Hpend)) as Hnew.
    destruct (inv_moved _ _ _ _ _ _ _ Hok' Hm Hnew Hi) as [_ Hex Hrun Hres Honce Hcl Hacc].
    assert (q_status s' (ex_ID e) = Some "running") as Hnow by (by rewrite Hm, bool_decide_eq_true_2).
    split; try done.
    + intros j k id [[-> [= <-]]|[Hj Hhj]]%held_insert [[-> Heq]|[Hk Hhk]]%held_insert; try done.
      * by destruct (Hrun _ _ Hhk).
      * injection Heq as <-. by destruct (Hrun _ _ Hhj).
      * by eapply Hex.
    + intros j id [[-> [= <-]]|[Hj Hh]]%held_insert; [split; [done|]; apply elem_of_app; right; by left|].
      destruct (Hrun j id Hh). split; [done|]. apply elem_of_app. by left.
    + intros j e' r' [(-> & Heq & _)|[_ Hj]]%list_lookup_insert_Some; [done|eauto].
    + apply NoDup_app. split; [done|]. split; [|apply NoDup_singleton].
      intros x Hx Hx'. apply list_elem_of_singleton in Hx' as ->. done.
    + intros id [Hid|Hid%list_elem_of_singleton]%elem_of_app; [auto|]. subst id. by exists "running".
    + intros Hf id [Hid|Hid%list_elem_of_singleton]%elem_of_app.
      * destruct (Hacc Hf id Hid) as [?|[j Hj]]; [by left|right]. exists j.
        apply held_elsewhere; [|done]. intros ->. destruct Hj as (st & Hl' & Hh). rewrite Hl in Hl'.
        by simplify_eq/=.
      * right. exists i. subst id. by eapply held_here.
  - rewrite app_nil_r. apply (inv_idle _ _ _ _ i Claiming); [done|done|by repeat case_match|].
    apply (inv_fail _ _ _ failed); [|by destruct failed, (errors_is err ErrNotFound); auto].
    destruct Hq as [Hu|(id & Hpend & Hm)]; [by eapply inv_unmoved|].
    eapply inv_moved; [done|done| |done]. eapply pending_unclaimed; [done|by left].
Qed.

Lemma inv_run s ws claimed failed i e w st w' :
  (∀ e w, terminal (run e w).1.(rr_Status) = true) →
  ws !! i = Some (Processing e) → process_run e w = (st, w') →
  pool_inv s ws claimed failed → pool_inv s (<[i := st]> ws) claimed failed.
Proof.
  intros Ht Hl Hr [Hok Hex Hrun Hres Honce Hcl Hacc]. unfold process_run, bind in Hr.
  specialize (Ht e w). destruct (run e w) as [r w1]. injection Hr as <- <-. simpl in Ht.
  assert (∀ j id, held_by (<[i := Finishing e r]> ws) j id → held_by ws j id) as Hb.
  { intros j id [[-> Hh]|[_ Hh]]%held_insert; [|done]. by exists (Processing e). }
  split; eauto.
  - intros j e' r' [(-> & Heq & _)|[_ Hj]]%list_lookup_insert_Some; [|eauto].
    injection Heq as -> ->. unfold persisted. by destruct (rr_Output r').
  - intros Hf id Hid. destruct (Hacc Hf id Hid) as [?|[j Hj]]; [by left|right]. exists j.
    destruct (decide (j = i)) as [->|]; [|by apply held_elsewhere].
    destruct Hj as (st & Hl' & Hh). rewrite Hl in Hl'. simplify_eq. by eapply held_here.
Qed.

Lemma inv_finish s s' ws claimed failed i e r now u :
  ws !! i = Some (Finishing e r) → process_finish e r now s = (u, s') →
  pool_inv s ws claimed failed →
  pool_inv s' (<[i := AtTop]> ws) claimed (failed || negb (is_ok u)).
Proof.
  intros Hl Hf Hi. unfold process_finish in Hf. pose proof (inv_result _ _ _ _ Hi i e r Hl) as Ht.
  destruct (persisted r) as [status output]. simpl in Ht.
  pose proof (queue_update (ex_ID e) status (Some now) output s (inv_ok _ _ _ _ Hi)) as Hq.
  rewrite Hf in Hq. destruct Hq as [Hok' Hq].
  assert (held_by ws i (ex_ID e)) as Hheld by (by exists (Finishing e r)).
  destruct Hi as [Hok Hex Hrun Hres Honce Hcl Hacc].
  assert (∀ j id, held_by (<[i := AtTop]> ws) j id → held_by ws j id ∧ id ≠ ex_ID e) as Hb.
  { intros j id [[_ Hh]|[Hne Hh]]%held_insert; [done|]. split; [done|]. intros ->. by specialize (Hex _ _ _ Hh Hheld). }
  assert (unmoved (q_status s) (q_status s') ∧ is_ok u = false ∨ moved (q_status s) (q_status s') (ex_ID e) status)
    as Hcase by (destruct u; tauto).
  assert (∀ id, id ≠ ex_ID e → q_status s' id = q_status s id) as Hs.
  { intros id Hne. destruct Hcase as [[Hu _]|Hm]; [apply Hu|]. by rewrite Hm, bool_decide_eq_false_2. }
  assert (status ≠ "pending") as Hnp by (intros ->; done).
  split; try done.
  - intros j k id [Hj _]%Hb [Hk _]%Hb. by eapply Hex.
  - intros j id [Hj Hne]%Hb. rewrite Hs by done. eauto.
  - intros j e' r' [(-> & ? & _)|[_ Hj]]%list_lookup_insert_Some; [done|eauto].
  - intros id Hid. destruct (decide (id = ex_ID e)) as [->|Hne]; [|rewrite Hs by done; auto].
    destruct Hcase as [[Hu _]|Hm]; [rewrite Hu; auto|]. exists status. by rewrite Hm, bool_decide_eq_true_2.
  - intros [Hff Hu]%orb_false_elim id Hid.
    destruct (decide (id = ex_ID e)) as [->|Hne].
    + left. destruct Hcase as [[_ Hu']|Hm]; [by rewrite Hu' in Hu|]. exists status.
      by rewrite Hm, bool_decide_eq_true_2.
    + rewrite Hs by done. destruct (Hacc Hff id Hid) as [?|[j Hj]]; [by left|right]. exists j.
      apply held_elsewhere; [|done]. intros ->. destruct Hj as (st & Hl' & Hh), Hheld as (st2 & Hl2 & Hh2).
      congruence.
Qed.

Definition inv (p : pool_state) : Prop := pool_inv p.(ps_store) p.(ps_workers) p.(ps_claimed) p.(ps_failed).

Lemma inv_step p p' :
  (∀ e w, terminal (run e w).1.(rr_Status) = true) → pool_step p p' → inv p → inv p'.
Proof.
  intros Ht Hstep Hi. unfold inv in *. destruct Hstep as [? ? [] | | | ]; simpl; try done.
  - match goal with Hw : _ ∨ _ |- _ => destruct Hw end; by eapply inv_idle.
  - by eapply inv_idle.
  - by eapply inv_claim.
  - eapply inv_idle; [done..| |done]. by case_match.
  - by eapply inv_run.
  - by eapply inv_finish.
  - by eapply inv_idle.
  - by eapply inv_idle.
  - pose proof (queue_create e (ps_store p) (inv_ok _ _ _ _ Hi)) as Hq.
    match goal with Hc : st_CreateExecution _ _ = _ |- _ => rewrite Hc in Hq end.
    destruct Hq as [Hok Hq]. destruct r; [destruct Hq as [Hn Hm]|by eapply inv_unmoved].
    eapply inv_moved; [done..| |done]. eapply pending_unclaimed; [done|by right].
Qed.

Lemma inv_start cfg s w : q_ok s → inv (pool_start cfg s w).
Proof.
  intros Hok. unfold inv, pool_start. simpl.
  assert (∀ i id, ¬ held_by (replicate (Z.to_nat (pc_concurrency cfg)) AtTop) i id) as Hn.
  { intros i id (st & [-> _]%lookup_replicate_1 & Hh). done. }
  split; try done; try (by intros ? ? ? Hh; destruct (Hn _ _ Hh)); try (by intros ? ? Hh; destruct (Hn _ _ Hh));
    try apply NoDup_nil_2; try by intros ? ?%elem_of_nil.
  - by intros i e r [? _]%lookup_replicate_1.
  - by intros _ ? ?%elem_of_nil.
Qed.

(** What the pool needs of its runner. *)
Class TerminalRunner : Prop := run_is_terminal : ∀ e w, terminal (run e w).1.(rr_Status) = true.

(** The states a pool started on a consistent store goes through. *)
Definition pool_reachable (p : pool_state) : Prop :=
  ∃ cfg s w, q_ok s ∧ rtc pool_step (pool_start cfg s w) p.

Lemma inv_steps p p' : TerminalRunner → rtc pool_step p p' → inv p → inv p'.
Proof. intros Ht. induction 1; [done|]. intros. eauto using inv_step. Qed.
Lemma inv_reachable p : TerminalRunner → pool_reachable p → inv p.
Proof. intros Ht (cfg & s & w & Hok & Hs). eapply inv_steps; [done..|]. by apply inv_start. Qed.

(** C9: an execution is claimed at most once and run by one worker. However many
    workers share the store and however their steps interleave - with
    notifications, polling, cancellation, failing store operations and executions
    being created - no execution is ever claimed twice, no two workers hold the
    same one, and the one a worker holds is recorded as running. *)
Theorem claimed_at_most_once p :
  TerminalRunner → pool_reachable p →
  NoDup p.(ps_claimed)
  ∧ (∀ i j id, held_by p.(ps_workers) i id → held_by p.(ps_workers) j id → i = j)
  ∧ (∀ i id, held_by p.(ps_workers) i id → q_status p.(ps_store) id = Some "running").
Proof.
  intros Ht Hr. destruct (inv_reachable p Ht Hr) as [_ Hex Hrun _ Honce _ _].
  split; [done|]. split; [done|]. intros i id Hh. by destruct (Hrun i id Hh).
Qed.

(** Shutting down loses no execution. Whenever all workers have returned and
    no store operation of theirs has failed, every execution they ever claimed is
    recorded with a terminal status - also those that were running when the
    context was cancelled. *)
Theorem shutdown_loses_nothing p :
  TerminalRunner → pool_reachable p →
  (∀ st, st ∈ p.(ps_workers) → st = Exited) → p.(ps_failed) = false →
  ∀ id, id ∈ p.(ps_claimed) → ∃ v, q_status p.(ps_store) id = Some v ∧ terminal v = true.
Proof.
  intros Ht Hr Hex Hf id Hid. destruct (inv_reachable p Ht Hr) as [_ _ _ _ _ _ Hacc].
  destruct (Hacc Hf id Hid) as [?|(i & st & Hl & Hh)]; [done|].
  by rewrite (Hex st) in Hh by (by eapply list_elem_of_lookup_2).
Qed.

(** The one way a status moves. *)
Definition status_next (a b : option string) : Prop :=
  a = b ∨ a = None ∧ b = Some "pending" ∨ a = Some "pending" ∧ b = Some "running"
  ∨ a = Some "running" ∧ ∃ v, b = Some v ∧ terminal v = true.

Lemma step_status p p' :
  TerminalRunner → pool_step p p' → inv p →
  ∀ id, status_next (q_status p.(ps_store) id) (q_status p'.(ps_store) id).
Proof.
  intros Ht Hstep Hi id. unfold inv in Hi. unfold status_next.
  destruct Hstep as [p1 p2 Hw|p1|p1|p1 e r s']; [destruct Hw as [i p1|i p1|i p1 r s'|i p1|i p1 e st w'|i p1 e r now u s'|i p1|i p1]|..]; simpl; try (by left).
  - pose proof (queue_claim (ps_store p1) (inv_ok _ _ _ _ Hi)) as Hq.
    match goal with Hc : st_ClaimNextExecution _ = _ |- _ => rewrite Hc in Hq end.
    destruct Hq as [_ Hq].
    assert (unmoved (q_status (ps_store p1)) (q_status s') ∨ ∃ id, q_status (ps_store p1) id = Some "pending"
      ∧ moved (q_status (ps_store p1)) (q_status s') id "running") as [Hu|(x & Hx & Hm)]
      by (destruct r; naive_solver).
    + left. by rewrite Hu.
    + rewrite (Hm id). case_bool_decide; [subst; auto 10|by left].
  - match goal with Hc : process_finish _ _ _ _ = _ |- _ => unfold process_finish in Hc; rename Hc into Hc' end.
    match goal with Hl : ps_workers p1 !! i = Some _ |- _ =>
      pose proof (inv_result _ _ _ _ Hi i e r Hl) as Hterm;
      destruct (inv_running _ _ _ _ Hi i (ex_ID e)) as [Hrun _]; [by exists (Finishing e r)|] end.
    destruct (persisted r) as [status output]. simpl in Hterm.
    pose proof (queue_update (ex_ID e) status (Some now) output (ps_store p1) (inv_ok _ _ _ _ Hi)) as Hq.
    rewrite Hc' in Hq. destruct Hq as [_ Hq].
    assert (unmoved (q_status (ps_store p1)) (q_status s')
      ∨ moved (q_status (ps_store p1)) (q_status s') (ex_ID e) status) as [Hu|Hm] by (destruct u; tauto).
    + left. by rewrite Hu.
    + rewrite (Hm id). case_bool_decide; [subst; eauto 10|by left].
  - pose proof (queue_create e (ps_store p1) (inv_ok _ _ _ _ Hi)) as Hq.
    match goal with Hc : st_CreateExecution _ _ = _ |- _ => rewrite Hc in Hq end.
    match goal with Hp : ex_Status e = _ |- _ => rewrite Hp in Hq end.
    destruct Hq as [_ Hq]. destruct r; [destruct Hq as [Hn Hm]|left; by rewrite Hq].
    rewrite (Hm id). case_bool_decide; [subst; auto 10|by left].
Qed.

(** A status only moves forward. In any step of the pool an execution's
    recorded status stays, or goes from absent to pending, from pending to running
    or from running to a terminal status; and once terminal it stays what it is,
    through any number of steps. *)
Theorem status_moves_forward p p' id :
  TerminalRunner → pool_reachable p →
  (pool_step p p' → status_next (q_status p.(ps_store) id) (q_status p'.(ps_store) id))
  ∧ (rtc pool_step p p' → ∀ v, q_status p.(ps_store) id = Some v → terminal v = true →
     q_status p'.(ps_store) id = Some v).
Proof.
  intros Ht Hr. apply (inv_reachable p Ht) in Hr as Hi. split; [intros; by apply step_status|].
  intros Hs v. clear Hr. induction Hs as [|p1 p2 p3 Hstep Hs IH]; [done|]. intros Hv Hterm.
  apply IH; [by eapply inv_step| |done].
  destruct (step_status _ _ Ht Hstep Hi id) as [Heq|[[Hn _]|[[Hp _]|[Hrn _]]]]; try congruence;
    rewrite Hv in *; by simplify_eq.
Qed.
End pool.

#[export] Instance executor_runner_terminal `{Env} `{GoJson} `{GoUUID} registry scopes :
  TerminalRunner (ExecutorRunner_Run registry scopes).
Proof. intros e w. apply run_terminal. Qed.

(** ** Witnesses: two workers over the in-memory SQLite store *)
Module RunnerExample.
Import AwsGetExample ModelsExample.
(** A read of an account's hosted zones, as the API stores it. *)
Definition zones_run : Execution :=
  ExecutionFromRequest "e9" 0 "aws-get"
    (Build_ExecutionRequest "c-1" "J-1" None None (Some {["resource" := "route53-hosted-zones"]})) "sre".
Definition registry : gmap string action := {["aws-get" := PipelineExample.caller.(rq_Action)]}.

Lemma registry_free name a : registry !! name = Some a → AuditFreeAction a.
Proof.
  unfold registry. rewrite (lookup_singleton_Some (M:=gmap string)). intros [_ <-].
  refine (server_actions_audit_free (H0 := AwsGetExample.json_codec) _ _).
  apply list_elem_of_In. simpl. tauto.
Qed.

Lemma run_succeeded_sound_witness :
  (ExecutorRunner_Run registry PipelineExample.scopes zones_run fresh_world).1.(rr_Status) = "succeeded"
  ∧ let '(r, w') := ExecutorRunner_Run registry PipelineExample.scopes zones_run fresh_world in
    r.(rr_Status) ≠ "succeeded" → r.(rr_Status) = "failed" ∧ r.(rr_Output) = None.
Proof.
  split; [vm_compute; reflexivity|].
  pose proof (run_succeeded_sound [] [] PipelineExample.regions (KubeconfigProvider "kc") PipelineExample.static
    registry zones_run fresh_world (static_provider_laws _) (kubeconfig_provider_laws "kc") registry_free) as Hw.
  revert Hw. fold PipelineExample.scopes.
  destruct (ExecutorRunner_Run registry PipelineExample.scopes zones_run fresh_world) as [r w'].
  intros (_ & Hf & _). exact Hf.
Defined.
End RunnerExample.

Module WorkerExample.
Import ModelsExample StoresExample.
#[local] Instance store : StoreInterface := SqlStore Sqlite.sqlite.
#[local] Instance view : QueueView store := SqlView Sqlite.sqlite.
#[local] Instance laws : QueueLaws view := sql_queue_laws (tle := Sqlite.text_le) Sqlite.sqlite.
#[local] Instance env : Env := PipelineExample.write_env.

(** A runner whose registry is empty: every execution fails. *)
Definition run : Execution → W RunResult := ExecutorRunner_Run ∅ [].
Definition before : pool_state := pool_start (pool_New 2 0) (db, 0%nat) fresh_world.

Lemma db_ok : q_ok (QueueView := view) (db, 0%nat).
Proof.
  split; [done|]. split; [exact db_wf|]. intros id Hid. by exists id.
Qed.

(** The first worker claims, after the shutdown has begun. *)
Definition claiming : pool_state :=
  with_shared before.(ps_store) before.(ps_world) false true (set_worker 0 Claiming before).
Definition claimed_state : pool_state :=
  let '(r, s') := st_ClaimNextExecution claiming.(ps_store) in
  {| ps_store := s'; ps_world := claiming.(ps_world); ps_notify := false; ps_cancelled := true;
     ps_workers := <[0%nat := after_claim r]> claiming.(ps_workers); ps_claimed := [] ++ claim_id r;
     ps_failed := false || claim_failed r |}.

Lemma claimed_reachable : pool_reachable run claimed_state.
Proof.
  exists (pool_New 2 0), (db, 0%nat), fresh_world. split; [exact db_ok|].
  eapply rtc_l; [apply step_worker, (step_check run 0 before); reflexivity|].
  eapply rtc_l; [apply (step_cancel run (set_worker 0 Claiming before))|].
  eapply rtc_once, step_worker. unfold claimed_state.
  destruct (st_ClaimNextExecution _) as [r s'] eqn:Hc. exact (step_claim run 0 claiming r s' eq_refl Hc).
Qed.

Lemma claimed_at_most_once_witness :
  ps_claimed claimed_state = ["e1"] ∧ NoDup (ps_claimed claimed_state).
Proof.
  split; [vm_compute; reflexivity|].
  exact (proj1 (claimed_at_most_once run claimed_state (executor_runner_terminal ∅ []) claimed_reachable)).
Defined.

Lemma status_moves_forward_witness :
  rtc (pool_step run) claimed_state claimed_state ∧
  (pool_step run before claimed_state →
   status_next (q_status (QueueView := view) before.(ps_store) "e1")
     (q_status (QueueView := view) claimed_state.(ps_store) "e1")).
Proof.
  split; [apply rtc_refl|].
  refine (proj1 (status_moves_forward run before claimed_state "e1" (executor_runner_terminal ∅ []) _)).
  exists (pool_New 2 0), (db, 0%nat), fresh_world. split; [exact db_ok|apply rtc_refl].
Defined.

Lemma store_refines_queue_witness :
  q_status (QueueView := view) (st_ClaimNextExecution before.(ps_store)).2 "e1" = Some "running"
  ∧ let '(r, s') := st_ClaimNextExecution (StoreInterface := store) (db, 0%nat) in
    q_ok (QueueView := view) s'.
Proof.
  split; [vm_compute; reflexivity|].
  pose proof (@queue_claim _ _ _ (store_refines_queue (tle := Sqlite.text_le) Sqlite.sqlite) (db, 0%nat) db_ok) as Hw.
  revert Hw. fold view. destruct (st_ClaimNextExecution _) as [r s']. intros [Hw _]. exact Hw.
Defined.

(** ... runs it, persists the result, and both workers return. *)
Definition e1 : Execution := match (st_ClaimNextExecution before.(ps_store)).1 with Ok e => e | Err _ => exec "" 0 end.
Definition r1 : RunResult := (run e1 fresh_world).1.
Definition ran_state : pool_state :=
  {| ps_store := claimed_state.(ps_store); ps_world := (process_run run e1 claimed_state.(ps_world)).2;
     ps_notify := claimed_state.(ps_notify); ps_cancelled := claimed_state.(ps_cancelled);
     ps_workers := <[0%nat := Finishing e1 r1]> claimed_state.(ps_workers);
     ps_claimed := claimed_state.(ps_claimed); ps_failed := claimed_state.(ps_failed) |}.
Definition finish1 := process_finish e1 r1 0 ran_state.(ps_store).
Definition finished_state : pool_state :=
  {| ps_store := finish1.2; ps_world := ran_state.(ps_world); ps_notify := ran_state.(ps_notify);
     ps_cancelled := ran_state.(ps_cancelled); ps_workers := <[0%nat := AtTop]> ran_state.(ps_workers);
     ps_claimed := ran_state.(ps_claimed); ps_failed := ran_state.(ps_failed) || negb (is_ok finish1.1) |}.
Definition down : pool_state := set_worker 1 Exited (set_worker 0 Exited finished_state).

Lemma down_reachable : pool_reachable run down.
Proof.
  destruct claimed_reachable as (cfg & s & w & Hok & Hs). exists cfg, s, w. split; [done|].
  etrans; [exact Hs|].
  eapply rtc_l; [apply step_worker, (step_run run 0 claimed_state e1 (Finishing e1 r1)); vm_compute; reflexivity|].
  eapply rtc_l; [apply step_worker, (step_finish run 0 ran_state e1 r1 0 finish1.1 finish1.2); vm_compute; reflexivity|].
  eapply rtc_l; [apply step_worker, (step_exit run 0 finished_state); [left|]; vm_compute; reflexivity|].
  eapply rtc_once. apply step_worker, (step_exit run 1 (set_worker 0 Exited finished_state)); [left|]; vm_compute; reflexivity.
Qed.

Lemma shutdown_loses_nothing_witness :
  ∃ v, q_status (QueueView := view) down.(ps_store) "e1" = Some v ∧ terminal v = true.
Proof.
  refine (shutdown_loses_nothing run down (executor_runner_terminal ∅ []) down_reachable _ _ "e1" _).
  - intros st Hst. replace (ps_workers down) with [Exited; Exited] in Hst by (vm_compute; reflexivity).
    repeat (apply elem_of_cons in Hst as [->|Hst]; [done|]). by apply elem_of_nil in Hst.
  - vm_compute. reflexivity.
  - replace (ps_claimed down) with ["e1"] by (vm_compute; reflexivity). by left.
Defined.
End WorkerExample.
