(* ===== verification/Catalog.v ===== *)
(** internal/catalog: the actions the API describes and the roles that may run
    them, and its agreement with the actions the executor has. *)

From S2P Require Import Prelude GoString Json Env Actions AwsGet AwsWrite DescribeNodes ListAlerts Pipeline.

(** [openapi.ActionType] and [openapi.Scope]. *)
Inductive ActionType := Read | Write.
Inductive ActionScope := KubeApi | AwsApi.

Record ParamDefinition := {
  pd_Name : string; pd_Description : string; pd_Required : bool; pd_Default : string }.

Record ActionDefinition := {
  ad_Name : string; ad_Description : string; ad_Type : ActionType; ad_Scope : ActionScope;
  ad_AllowedRoles : list string; ad_Params : list ParamDefinition; ad_DryRunAction : string;
  ad_WriteCooldownSeconds : Z; ad_Approval : string }.

(** [auth.Action]. *)
Record AuthAction := { aa_Name : string; aa_Description : string; aa_AllowedRoles : list string }.

Record Catalog := { cat_actions : gmap string ActionDefinition; cat_order : list string }.

Definition register (a : ActionDefinition) (c : Catalog) : Catalog :=
  {| cat_actions := <[a.(ad_Name) := a]> c.(cat_actions); cat_order := c.(cat_order) ++ [a.(ad_Name)] |}.

(** A definition without the optional fields. *)
Definition define (name desc : string) (type : ActionType) (scope : ActionScope) (roles : list string)
    (params : list ParamDefinition) : ActionDefinition :=
  {| ad_Name := name; ad_Description := desc; ad_Type := type; ad_Scope := scope;
     ad_AllowedRoles := roles; ad_Params := params; ad_DryRunAction := ""; ad_WriteCooldownSeconds := 0;
     ad_Approval := "" |}.
Definition pdef (name desc : string) : ParamDefinition :=
  {| pd_Name := name; pd_Description := desc; pd_Required := false; pd_Default := "" |}.
Definition required (p : ParamDefinition) : ParamDefinition :=
  {| pd_Name := p.(pd_Name); pd_Description := p.(pd_Description); pd_Required := true;
     pd_Default := p.(pd_Default) |}.
Definition default_to (v : string) (p : ParamDefinition) : ParamDefinition :=
  {| pd_Name := p.(pd_Name); pd_Description := p.(pd_Description); pd_Required := p.(pd_Required);
     pd_Default := v |}.

(** [time.Duration.String] of a whole number of seconds, at least one. *)
Definition duration_string (d : Z) : string :=
  let s := d / 1000000000 in
  (if 3600 <=? s then dec (s / 3600) +:+ "h" else "")
  +:+ (if 60 <=? s then dec (s / 60 mod 60) +:+ "m" else "") +:+ dec (s mod 60) +:+ "s".

Definition allRoles : list string := ["SREP"; "ConfigurationAnomalyDetection"; "ROSAAiAgent"].

Definition group_param := pdef "group" "API group (empty for core resources)".
Definition version_param := default_to "v1" (required (pdef "version" "API version")).
Definition resource_param := required (pdef "resource" "Resource type (plural, e.g. configmaps)").
Definition namespace_param := pdef "namespace" "Target namespace (empty for cluster-scoped resources)".
Definition name_param := required (pdef "name" "Resource name").
Definition instance_param :=
  required (pdef "id" "EC2 instance ID; the instance must be tagged as owned by this cluster").

(** [New], in the order it registers. *)
Definition catalog_definitions `{Env} `{GoJson} `{AwsSdk} `{GoDuration} : list ActionDefinition :=
  [ define "get" "Get or list Kubernetes resources" Read KubeApi allRoles
      [group_param; version_param; resource_param; namespace_param;
       pdef "name" "Resource name (empty to list all)"];
    define "patch" "Patch a Kubernetes resource using JSON merge patch" Write KubeApi allRoles
      [group_param; version_param; resource_param; namespace_param; name_param;
       required (pdef "patch" "JSON merge patch body")];
    define "delete" "Delete a Kubernetes resource" Write KubeApi allRoles
      [group_param; version_param; resource_param; namespace_param; name_param];
    define "describe-nodes" "Describe nodes with correlated pods, events, and lease data"
      Read KubeApi allRoles [pdef "name" "Node name (empty to describe all nodes)"];
    define "get-pull-secret-email" "Get the registered email from the cluster pull secret"
      Read KubeApi allRoles [];
    define "list-alerts"
      "List firing or pending alerts from Prometheus and optionally active silences from Alertmanager"
      Read KubeApi allRoles
      [pdef "severity" "Filter by severity: critical, warning (empty for both)";
       default_to "firing" (pdef "state" "Alert state: firing, pending, all");
       default_to "false" (pdef "silences" "Include active silences: true, false")];
    define "aws-get" "Get or list AWS resources" Read AwsApi allRoles
      [required (pdef "resource" ("AWS resource type, one of: " +:+ join ", " AWSResourceNames));
       pdef "id" "Resource ID (empty to list all); some resources require it, some cannot be narrowed by it";
       pdef "filters" "Comma-separated Name=Value API filters, e.g. instance-state-name=running (not accepted by every resource)";
       default_to "2h" (pdef "since"
         ("How far back to look, as a Go duration, e.g. 30m or 48h; at most "
          +:+ duration_string CloudTrailLookbackMax +:+ " (cloudtrail-events only)"))];
    define "aws-reboot" "Reboot one of the cluster's EC2 instances" Write AwsApi allRoles [instance_param];
    define "aws-terminate" "Terminate one of the cluster's EC2 instances" Write AwsApi ["SREP"]
      [instance_param] ].

Definition empty_catalog : Catalog := {| cat_actions := ∅; cat_order := [] |}.
Definition catalog_New `{Env} `{GoJson} `{AwsSdk} `{GoDuration} : Catalog :=
  fold_left (λ c a, register a c) catalog_definitions empty_catalog.

Definition catalog_GetAction (c : Catalog) (name : string) : option AuthAction :=
  a ← c.(cat_actions) !! name;
  Some {| aa_Name := a.(ad_Name); aa_Description := a.(ad_Description);
          aa_AllowedRoles := a.(ad_AllowedRoles) |}.
Definition catalog_Get (c : Catalog) (name : string) : option ActionDefinition := c.(cat_actions) !! name.
(** [All]: a name without a definition would be a nil pointer. *)
Definition catalog_All (c : Catalog) : list (option ActionDefinition) :=
  (λ name, c.(cat_actions) !! name) <$> c.(cat_order).

(** The OpenAPI forms. *)
Record TrustedActionSummary := {
  tas_Name : string; tas_Type : ActionType; tas_Scope : ActionScope; tas_Description : string }.
Record TrustedActionParam := {
  tap_Name : string; tap_Description : option string; tap_Required : option bool;
  tap_Default : option string }.
Record TrustedAction := {
  ta_summary : TrustedActionSummary; ta_Params : option (list TrustedActionParam);
  ta_DryRunAction : option string; ta_WriteCooldownSeconds : option Z; ta_Approval : option string }.

Definition ToOpenAPISummary (a : ActionDefinition) : TrustedActionSummary :=
  {| tas_Name := a.(ad_Name); tas_Type := a.(ad_Type); tas_Scope := a.(ad_Scope);
     tas_Description := a.(ad_Description) |}.

(** A string field that is left out when empty. *)
Definition unless_empty (s : string) : option string := if is_empty s then None else Some s.

Definition param_openapi (p : ParamDefinition) : TrustedActionParam :=
  {| tap_Name := p.(pd_Name); tap_Description := unless_empty p.(pd_Description);
     tap_Required := if p.(pd_Required) then Some true else None;
     tap_Default := unless_empty p.(pd_Default) |}.

Definition ToOpenAPIDetail (a : ActionDefinition) : TrustedAction :=
  {| ta_summary := ToOpenAPISummary a;
     ta_Params := match a.(ad_Params) with [] => None | ps => Some (param_openapi <$> ps) end;
     ta_DryRunAction := unless_empty a.(ad_DryRunAction);
     ta_WriteCooldownSeconds := if 0 <? a.(ad_WriteCooldownSeconds) then Some a.(ad_WriteCooldownSeconds)
                                else None;
     ta_Approval := unless_empty a.(ad_Approval) |}.

(** ** The catalog and the registry *)
Section agreement.
Context `{Env} `{GoJson} `{AwsSdk} `{GoDuration}.

Lemma register_lookup a c name :
  (register a c).(cat_actions) !! name = if bool_decide (name = a.(ad_Name)) then Some a else c.(cat_actions) !! name.
Proof.
  unfold register. simpl. case_bool_decide as Hn; [subst; apply lookup_insert_eq|].
  by rewrite lookup_insert_ne.
Qed.

(** Registering definitions with distinct names makes each the one found. *)
Lemma registered defs c :
  NoDup (ad_Name <$> defs) →
  let c' := fold_left (λ c a, register a c) defs c in
  (∀ a, a ∈ defs → c'.(cat_actions) !! a.(ad_Name) = Some a)
  ∧ (∀ name, name ∉ ad_Name <$> defs → c'.(cat_actions) !! name = c.(cat_actions) !! name)
  ∧ c'.(cat_order) = c.(cat_order) ++ (ad_Name <$> defs).
Proof.
  revert c. induction defs as [|d defs IH]; intros c Hnd; simpl.
  - split; [by intros ? ?%elem_of_nil|]. split; [done|]. by rewrite app_nil_r.
  - rewrite fmap_cons in *. apply NoDup_cons in Hnd as [Hd Hnd].
    destruct (IH (register d c) Hnd) as (Hin & Hout & Hord). split; [|split].
    + intros a [->|Ha]%elem_of_cons; [|by apply Hin].
      rewrite Hout, register_lookup by done. by rewrite bool_decide_eq_true_2.
    + intros name Hn. apply not_elem_of_cons in Hn as [Hne Hn].
      rewrite Hout, register_lookup by done. by rewrite bool_decide_eq_false_2.
    + rewrite Hord. unfold register. simpl. by rewrite <- app_assoc.
Qed.

Lemma catalog_names : (ad_Name <$> catalog_definitions) ≡ₚ action_name <$> server_actions.
Proof.
  change (["get"; "patch"; "delete"; "describe-nodes"; "get-pull-secret-email"; "list-alerts"; "aws-get";
           "aws-reboot"; "aws-terminate"] ≡ₚ
          ["get"; "delete"; "patch"; "get-pull-secret-email"; "describe-nodes"; "list-alerts"; "aws-get";
           "aws-reboot"; "aws-terminate"]).
  decide_closed.
Qed.
Lemma catalog_nodup : NoDup (ad_Name <$> catalog_definitions).
Proof.
  change (NoDup ["get"; "patch"; "delete"; "describe-nodes"; "get-pull-secret-email"; "list-alerts"; "aws-get";
                 "aws-reboot"; "aws-terminate"]).
  decide_closed.
Qed.

(** How a definition describes an action. *)
Definition describes (d : ActionDefinition) (a : action) : Prop :=
  d.(ad_Name) = action_name a
  ∧ (d.(ad_Scope) = KubeApi ↔ is_Some (as_kube a)) ∧ (d.(ad_Scope) = AwsApi ↔ is_Some (as_aws a))
  ∧ (is_Some (as_aws_write a) → d.(ad_Type) = Write)
  ∧ "SREP" ∈ d.(ad_AllowedRoles).

#[local] Ltac scope_iff :=
  split; [first [by intros [=] | intros _; simpl; by eexists] | first [done | by intros [? ?]]].

Lemma described a : a ∈ server_actions → ∃ d, d ∈ catalog_definitions ∧ describes d a.
Proof.
  intros Ha. unfold describes.
  repeat (apply elem_of_cons in Ha as [->|Ha]); [..|by apply elem_of_nil in Ha];
    match goal with |- ∃ d, d ∈ ?defs ∧ d.(ad_Name) = ?n ∧ _ =>
      let i := eval cbv in (match list_find (λ m, m = n) ["get"; "patch"; "delete"; "describe-nodes";
        "get-pull-secret-email"; "list-alerts"; "aws-get"; "aws-reboot"; "aws-terminate"] with
        | Some (i, _) => i | None => 0%nat end) in
      match eval hnf in (nth_error defs i) with
      | Some ?d => exists d; split; [by apply (list_elem_of_lookup_2 _ i)|]
      end end; cbn [define ad_Name ad_Scope ad_Type ad_AllowedRoles];
    (split; [done|]); (split; [scope_iff|]); (split; [scope_iff|]); (split; [first [done | by intros [? ?]]|]); by left.
Qed.

(** C40: the catalog and the executor know the same actions. The catalog lists every
    action the server registers, and nothing else, each once and in order; what it
    finds by name is that action's description, with the scope that runs it; every
    AWS write is described as a write; and terminating instances is open to SREP
    alone. *)
Theorem catalog_agrees :
  (∀ name, is_Some (catalog_Get catalog_New name) ↔ is_Some (action_registry !! name))
  ∧ (∀ a, a ∈ server_actions → ∃ d, catalog_Get catalog_New (action_name a) = Some d ∧ describes d a)
  ∧ catalog_All catalog_New = Some <$> catalog_definitions
  ∧ aa_AllowedRoles <$> catalog_GetAction catalog_New "aws-terminate" = Some ["SREP"].
Proof.
  destruct (registered catalog_definitions empty_catalog catalog_nodup) as (Hin & Hout & Hord).
  fold catalog_New in Hin, Hout, Hord. unfold catalog_Get.
  split; [|split; [|split]].
  - intros name. assert (is_Some (cat_actions catalog_New !! name) ↔ name ∈ ad_Name <$> catalog_definitions) as ->.
    { split.
      - destruct (decide (name ∈ ad_Name <$> catalog_definitions)); [done|]. rewrite Hout by done. by intros [].
      - intros (d & -> & Hd)%list_elem_of_fmap. rewrite Hin by done. eauto. }
    rewrite catalog_names, registry_names. done.
  - intros a Ha. destruct (described a Ha) as (d & Hd & Hdes). exists d. split; [|done].
    rewrite <- (proj1 Hdes). by apply Hin.
  - unfold catalog_All. rewrite Hord. cbn [cat_order empty_catalog app]. rewrite <- list_fmap_compose.
    apply list_fmap_ext.
    intros i d Hi. simpl. apply Hin. by eapply list_elem_of_lookup_2.
  - unfold catalog_GetAction.
    pose proof (Hin (define "aws-terminate" "Terminate one of the cluster's EC2 instances"
      Write AwsApi ["SREP"] [instance_param])) as Ht.
    change (ad_Name _) with "aws-terminate" in Ht. rewrite Ht; [done|].
    apply list_elem_of_In. simpl. tauto.
Qed.
End agreement.
