(* ===== verification/Http.v ===== *)
(** HTTP as the API code sees it: requests, the values a request context carries
    (internal/auth/context.go, internal/middleware/audit.go), responses, and the
    state the handlers share - the store, the environment, the id generator, the
    worker pool's notify channel, and the request's audit and route contexts.

    A request arrives as the call its wrapper decoded it to (see Openapi). *)

From S2P Require Import Prelude GoString Json Env Actions Models StoreApi Catalog.

(** ** Requests *)
Section requests.
Context `{GoUUID}.

(** [openapi.ListAuditEntriesParams] and [openapi.ListExecutionsParams]; a nil
    pointer is [None], and the enumerations are strings. *)
Record ListAuditEntriesParams := {
  la_Page : option Z; la_Limit : option Z; la_Operator : option string; la_Action : option string;
  la_Target : option string; la_Since : option string; la_Method : option string;
  la_ApprovalState : option string }.
Record ListExecutionsParams := {
  le_Page : option Z; le_Limit : option Z; le_Status : option string; le_Operator : option string;
  le_Action : option string; le_Target : option string; le_Since : option string;
  le_Scope : option string; le_Type : option string; le_ApprovalState : option string;
  le_DryRun : option string; le_Force : option string }.

(** The operations of the generated [ServerInterface]; a run carries the decoding
    of its body. *)
Inductive api_call :=
| ApiCatalog
| ApiDescribe (action : string)
| ApiCreateExecution (action : string) (body : res ExecutionRequest)
| ApiListAuditEntries (params : ListAuditEntriesParams)
| ApiListExecutions (params : ListExecutionsParams)
| ApiGetExecution (id : uuid)
| ApiGetExecutionOutput (id : uuid).

(** The verified token of the request: its claims, when they are a map. *)
Inductive token := MapClaims (claims : gmap string json) | OtherClaims.

Record http_request := {
  hq_Method : string; hq_Path : string; hq_Token : res (option token); hq_Call : api_call }.

(** [chi.URLParam(r, "action")]. *)
Definition url_action (c : api_call) : string :=
  match c with ApiDescribe a | ApiCreateExecution a _ => a | _ => "" end.

(** ** The request context *)
Record CallerIdentity := { ci_Username : string; ci_Email : string; ci_ClientID : string }.
Record context := Context_ {
  cx_identity : option CallerIdentity; cx_role : option string; cx_audit : bool }.

Definition GetCallerIdentityFromContext (ctx : context) : option CallerIdentity := ctx.(cx_identity).
Definition SetCallerIdentityContext (ctx : context) (i : CallerIdentity) : context :=
  Context_ (Some i) ctx.(cx_role) ctx.(cx_audit).
Definition GetRoleFromContext (ctx : context) : string := default "" ctx.(cx_role).
Definition SetRoleInContext (ctx : context) (role : string) : context :=
  Context_ ctx.(cx_identity) (Some role) ctx.(cx_audit).
Definition SetAuditContext (ctx : context) : context :=
  Context_ ctx.(cx_identity) ctx.(cx_role) true.
(** [identity.Username], or the empty string without an identity. *)
Definition context_username (ctx : context) : string :=
  match ctx.(cx_identity) with Some i => i.(ci_Username) | None => "" end.

(** [AuditContext], which the handlers write to through a pointer. *)
Record AuditContext := {
  ac_ExecutionID : string; ac_Jira : string; ac_ApprovalState : string; ac_TargetCluster : string }.
Definition no_audit : AuditContext := Build_AuditContext "" "" "" "".

(** ** Responses *)
Record ExecutionList := {
  el_Items : list openapi_Execution; el_Total : Z; el_Page : Z; el_Limit : Z; el_HasMore : bool }.
Record AuditList := {
  al_Items : list AuditEntry; al_Total : Z; al_Page : Z; al_Limit : Z; al_HasMore : bool }.

Inductive http_body :=
| BCatalog (total : Z) (items : list TrustedActionSummary)
| BAction (a : TrustedAction)
| BExecution (e : openapi_Execution)
| BExecutionList (l : ExecutionList)
| BAuditList (l : AuditList)
| BOutput (o : ExecutionOutput) (self execution : string)
| BError (code reason : string)
| BText (t : string).
Record http_response := Response { hr_Status : Z; hr_Body : http_body }.

(** What serving a request comes to: a response, or a run-time panic. *)
Inductive outcome_of_request := Responded (r : http_response) | Panicked.

Definition respondError (status : Z) (message : string) : outcome_of_request :=
  Responded (Response status (BError ("HTTP_" +:+ dec status) message)).
Definition respondJSON (body : http_body) : outcome_of_request := Responded (Response 200 body).
End requests.

(** [uuid.New()], by the number of ids drawn before. *)
Class IdSource `{GoUUID} := fresh_id : nat → uuid.

(** ** The state *)
Section state.
Context `{S : StoreInterface}.

Record api_state := ApiState {
  api_store : store_st; api_world : world; api_ids : nat; api_notify : bool; api_audit : AuditContext;
  api_routed : string }.

Notation API := (M api_state).

Definition with_store {A} (m : M store_st A) : API A := λ s,
  let '(a, st) := m s.(api_store) in
  (a, ApiState st s.(api_world) s.(api_ids) s.(api_notify) s.(api_audit) s.(api_routed)).
Definition with_world {A} (m : W A) : API A := λ s,
  let '(a, w) := m s.(api_world) in
  (a, ApiState s.(api_store) w s.(api_ids) s.(api_notify) s.(api_audit) s.(api_routed)).
Definition draw_id `{!IdSource} : API uuid := λ s,
  (fresh_id s.(api_ids), ApiState s.(api_store) s.(api_world) (Datatypes.S s.(api_ids)) s.(api_notify) s.(api_audit) s.(api_routed)).
Definition notify_workers (notify : bool → bool) : API unit := λ s,
  (tt, ApiState s.(api_store) s.(api_world) s.(api_ids) (notify s.(api_notify)) s.(api_audit) s.(api_routed)).
Definition get_audit : API AuditContext := λ s, (s.(api_audit), s).
Definition set_audit (a : AuditContext) : API unit := λ s,
  (tt, ApiState s.(api_store) s.(api_world) s.(api_ids) s.(api_notify) a s.(api_routed)).

(** The router records the path parameter in the route context it shares with the
    middlewares that run before it: [chi.URLParam(r, "action")] after routing. *)
Definition routed : API string := λ s, (s.(api_routed), s).
Definition set_routed (action : string) : API unit := λ s,
  (tt, ApiState s.(api_store) s.(api_world) s.(api_ids) s.(api_notify) s.(api_audit) action).

(** [http.Handler]. *)
Definition handler : Type := context → http_request → API outcome_of_request.
End state.
Notation API := (M api_state).
