(* ===== verification/Auth.v ===== *)
(** internal/auth and internal/ocm (authorization.go, authorization_mock.go): who the caller is (authn.go,
    context.go), which role AMS grants them and which actions that role may use
    (authz.go), and the mock middlewares of local development. *)

From S2P Require Import Prelude GoString Json Env Actions Models StoreApi Catalog Http.

(** [config.RoleMapping]. *)
Record RoleMapping := { role_ID : string; role_AMSResource : string }.

(** [auth.respondError]. *)
Definition auth_error `{GoUUID} (status : Z) (message : string) : outcome_of_request :=
  respondError status message.

(** ** Identity *)

(** [claims[key].(string)], the empty string when it is not one. *)
Definition string_claim (claims : gmap string json) (key : string) : string :=
  match claims !! key with Some (JStr s) => s | _ => "" end.

Definition GetCallerIdentityFromJWT (tok : res (option token)) : res CallerIdentity :=
  match tok with
  | Err e => Err (EText ("unable to retrieve JWT token from request context: " +:+ error_text e))
  | Ok None => Err (EText "JWT token in context is nil, unauthorized")
  | Ok (Some OtherClaims) => Err (EText "unable to parse JWT token claims")
  | Ok (Some (MapClaims claims)) =>
      let username := string_claim claims "username" in
      Ok {| ci_Username := if is_empty username then string_claim claims "preferred_username" else username;
            ci_Email := string_claim claims "email"; ci_ClientID := string_claim claims "clientId" |}
  end.

(** ** internal/ocm/authorization.go *)

(** [AccessReview]: [conn] is [sdkConn()]'s error, [connUsername] the user the
    connection itself is authenticated as, who is reviewed with the self API. *)
Definition AccessReview `{Env} (conn : res unit) (connUsername username action resourceType : string)
  : W (res bool) :=
  match conn with
  | Err e => ret (Err e)
  | Ok _ =>
      if bool_decide (username = connUsername) then
        do r <- perform (CAccessReview true "" action resourceType);
        ret (let? allowed := r in
             match allowed with
             | Some b => Ok b
             | None => Err (EText "empty response from authorization post request (self access review)")
             end)
      else
        do r <- perform (CAccessReview false username action resourceType);
        ret (let? allowed := r in
             match allowed with
             | Some b => Ok b
             | None => Err (EText "empty response from authorization post request")
             end)
  end.

(** [ocm.Authorization]: username, action, resource. *)
Definition Authorization : Type := string → string → string → W (res bool).

(** authorization_mock.go: the permissions of each user, and nothing else. *)
Record ConfigurableMockAuthorization := { mk_Permissions : gmap string (list string) }.
Definition Mock_AccessReview (m : ConfigurableMockAuthorization) : Authorization :=
  λ username action resourceType, ret (Ok (contains (default [] (m.(mk_Permissions) !! username)) resourceType)).

Section middleware.
Context `{S : StoreInterface}.

(** ** authn.go *)
Definition AuthenticateAccountJWT (next : handler) : handler := λ ctx r,
  match GetCallerIdentityFromJWT r.(hq_Token) with
  | Err _ => ret (auth_error 401 "Authentication required.")
  | Ok identity =>
      if is_empty identity.(ci_Username) then ret (auth_error 401 "Authentication required.")
      else next (SetCallerIdentityContext ctx identity) r
  end.

(** authn_mock.go *)
Definition dev_user : CallerIdentity :=
  {| ci_Username := "dev-user"; ci_Email := "dev-user@redhat.com"; ci_ClientID := "" |}.
Definition MockAuthenticate (next : handler) : handler := λ ctx r,
  next (SetCallerIdentityContext ctx dev_user) r.

(** ** authz.go *)

(** The loop of [AuthorizeAPI]: the first role AMS allows, else whether a review
    failed. *)
Fixpoint review_roles (authz : Authorization) (username : string) (roles : list RoleMapping) (hadErr : bool)
  : W (RoleMapping + bool) :=
  match roles with
  | [] => ret (inr hadErr)
  | role :: roles' =>
      do review <- authz username "get" role.(role_AMSResource);
      match review with
      | Err _ => review_roles authz username roles' true
      | Ok true => ret (inl role)
      | Ok false => review_roles authz username roles' hadErr
      end
  end.

Definition AuthorizeAPI (roles : list RoleMapping) (authz : Authorization) (next : handler) : handler :=
  λ ctx r,
  match GetCallerIdentityFromContext ctx with
  | None => ret (auth_error 401 "Authentication required.")
  | Some identity =>
      if is_empty identity.(ci_Username) then ret (auth_error 401 "Authentication required.")
      else
        do review <- with_world (review_roles authz identity.(ci_Username) roles false);
        match review with
        | inl role => next (SetRoleInContext ctx role.(role_ID)) r
        | inr true => ret (auth_error 500 "Authorization check failed")
        | inr false => ret (auth_error 403 "Access denied.")
        end
  end.

(** authz_mock.go *)
Definition MockAuthorizeAPI (next : handler) : handler := λ ctx r, next (SetRoleInContext ctx "SREP") r.

Definition CheckActionAccess (catalog : Catalog) (next : handler) : handler := λ ctx r,
  let actionName := url_action r.(hq_Call) in
  if is_empty actionName then next ctx r
  else
    match catalog_GetAction catalog actionName with
    | None => ret (auth_error 404 "Unknown action")
    | Some action =>
        let role := GetRoleFromContext ctx in
        if is_empty role then ret (auth_error 403 "Access denied")
        else if contains action.(aa_AllowedRoles) role then next ctx r
        else ret (auth_error 403 "Access denied")
    end.

(** ** What they promise *)

(** AMS allowed [role] to [username] at some point of the run from [w], and not
    one of the roles configured before it. *)
Definition role_granted (authz : Authorization) (username : string) (roles : list RoleMapping)
    (role : RoleMapping) : Prop :=
  ∃ pre post, roles = pre ++ role :: post
    ∧ (∃ w, (authz username "get" role.(role_AMSResource) w).1 = Ok true)
    ∧ ∀ r, r ∈ pre → ∃ w, (authz username "get" r.(role_AMSResource) w).1 ≠ Ok true.

Lemma review_granted authz username roles hadErr w role w' :
  review_roles authz username roles hadErr w = (inl role, w') → role_granted authz username roles role.
Proof.
  revert hadErr w. induction roles as [|r roles IH]; intros hadErr w; simpl; [done|].
  unfold bind. destruct (authz username "get" (role_AMSResource r) w) as [review w1] eqn:Hr.
  assert (∀ e, review ≠ Ok true → review_roles authz username roles e w1 = (inl role, w') →
          role_granted authz username (r :: roles) role) as Hskip.
  { intros e Hne (pre & post & -> & Hok & Hpre)%IH. exists (r :: pre), post. split; [done|]. split; [done|].
    intros r' [->|Hin]%elem_of_cons; [|auto]. exists w. by rewrite Hr. }
  destruct review as [[]|]; [|by apply Hskip|by apply Hskip].
  intros [= <- _]. exists [], roles. split; [done|]. split; [exists w; by rewrite Hr|].
  by intros ? ?%elem_of_nil.
Qed.

(** Every review said no. *)
Lemma review_refused authz username roles hadErr w b w' :
  review_roles authz username roles hadErr w = (inr b, w') →
  (∀ r, r ∈ roles → ∃ w, (authz username "get" r.(role_AMSResource) w).1 ≠ Ok true)
  ∧ (b = false → hadErr = false ∧
     ∀ r, r ∈ roles → ∃ w, (authz username "get" r.(role_AMSResource) w).1 = Ok false).
Proof.
  revert hadErr w. induction roles as [|r roles IH]; intros hadErr w; simpl.
  - intros [= <- _]. split; [by intros ? ?%elem_of_nil|]. intros ->. split; [done|]. by intros ? ?%elem_of_nil.
  - unfold bind. destruct (authz username "get" (role_AMSResource r) w) as [review w1] eqn:Hr.
    destruct review as [[]|]; [done|..]; intros [Hno Hf]%IH.
    + split; [|intros Hb; destruct (Hf Hb) as [He Hall]; split; [done|]];
        intros r' [->|Hin]%elem_of_cons; auto; exists w; by rewrite Hr.
    + split; [|intros Hb; by destruct (Hf Hb)].
      intros r' [->|Hin]%elem_of_cons; auto; exists w; by rewrite Hr.
Qed.

(** What [next] may rely on behind [AuthorizeAPI]. *)
Lemma authorize_cases roles authz next ctx r s :
  (∃ i role w', ctx.(cx_identity) = Some i ∧ i.(ci_Username) ≠ ""
     ∧ role_granted authz i.(ci_Username) roles role
     ∧ AuthorizeAPI roles authz next ctx r s
       = next (SetRoleInContext ctx role.(role_ID)) r
           (ApiState s.(api_store) w' s.(api_ids) s.(api_notify) s.(api_audit) s.(api_routed)))
  ∨ (∃ status w' msg, status ∈ [401; 403; 500] ∧ AuthorizeAPI roles authz next ctx r s
       = (auth_error status msg, ApiState s.(api_store) w' s.(api_ids) s.(api_notify) s.(api_audit) s.(api_routed))).
Proof.
  unfold AuthorizeAPI, GetCallerIdentityFromContext. destruct s as [st w ids nt au rt]. simpl.
  destruct (cx_identity ctx) as [i|]; [|right; exists 401, w; eexists; split; [by left|done]].
  unfold is_empty. case_bool_decide as Hu; [right; exists 401, w; eexists; split; [by left|done]|].
  unfold bind, with_world. simpl.
  destruct (review_roles authz (ci_Username i) roles false w) as [[role|[]] w'] eqn:Hr.
  - left. exists i, role, w'. apply review_granted in Hr. done.
  - right. exists 500, w'. eexists. split; [|done]. set_solver.
  - right. exists 403, w'. eexists. split; [|done]. set_solver.
Qed.

Lemma action_access_cases catalog next ctx r s :
  (CheckActionAccess catalog next ctx r s = next ctx r s
   ∧ (url_action r.(hq_Call) ≠ "" → ∃ a, catalog_GetAction catalog (url_action r.(hq_Call)) = Some a
        ∧ GetRoleFromContext ctx ∈ a.(aa_AllowedRoles)))
  ∨ (∃ status msg, status ∈ [403; 404] ∧ CheckActionAccess catalog next ctx r s = (auth_error status msg, s)).
Proof.
  unfold CheckActionAccess, is_empty. case_bool_decide as Hn; [by left|].
  destruct (catalog_GetAction catalog _) as [a|]; [|right; do 2 eexists; split; [|done]; set_solver].
  case_bool_decide; [right; do 2 eexists; split; [|done]; set_solver|].
  destruct (contains _ _) eqn:Hc; [|right; do 2 eexists; split; [|done]; set_solver].
  left. split; [done|]. intros _. exists a. split; [done|]. by apply contains_true.
Qed.
End middleware.
