(* ===== verification/Handlers.v ===== *)
(** internal/handlers/api.go: the API operations, over the store, the catalog and
    the worker pool's notifier. *)

From S2P Require Import Prelude GoString Json Env Actions Models Sql Store StoreSpec StoreApi TimeText Stores Pipeline Worker Catalog Http.
From Stdlib Require Import Ascii.
#[local] Open Scope Z_scope.

(** ** [path.Clean], [path.Dir] and [path.Join] *)

(** One element of a path onto the elements kept so far, last first. *)
Definition clean_step (rooted : bool) (kept : list string) (elem : string) : list string :=
  if is_empty elem || bool_decide (elem = ".") then kept
  else if bool_decide (elem = "..") then
    match kept with
    | [] => if rooted then [] else [".."]
    | top :: rest => if bool_decide (top = "..") then ".." :: kept else rest
    end
  else elem :: kept.
Definition path_clean (p : string) : string :=
  let rooted := has_prefix "/" p in
  let elems := rev (fold_left (clean_step rooted) (split_char "/" p) []) in
  if rooted then "/" +:+ join "/" elems
  else match elems with [] => "." | _ => join "/" elems end.

(** Everything up to the last slash. *)
Definition path_dir (p : string) : string :=
  path_clean (join "/" (removelast (split_char "/" p) ++ [""])).
Definition path_join (elems : list string) : string :=
  match filter (λ e, e ≠ "") elems with
  | [] => ""
  | es => path_clean (join "/" es)
  end.

Example dir_of_run : path_dir "/api/v0/trusted-actions/get/run" = "/api/v0/trusted-actions/get".
Proof. reflexivity. Qed.
Example clean_dots : path_clean "/a/./b//../c" = "/a/c".
Proof. reflexivity. Qed.

(** ** [parseSince] *)

(** The unit's length in nanoseconds. *)
Definition since_multiplier (unit_ : ascii) : option Z :=
  if Ascii.eqb unit_ "s" then Some 1000000000
  else if Ascii.eqb unit_ "m" then Some (60 * 1000000000)
  else if Ascii.eqb unit_ "h" then Some (3600 * 1000000000)
  else if Ascii.eqb unit_ "d" then Some (24 * (3600 * 1000000000))
  else None.

(** The text without its last byte, and that byte. *)
Fixpoint split_last (s : string) : option (string * ascii) :=
  match s with
  | EmptyString => None
  | String a s' => match split_last s' with
                   | None => Some ("", a)
                   | Some (front, l) => Some (String a front, l)
                   end
  end.

Definition parseSince (now : Z) (since : string) : res Z :=
  match parse_rfc3339 since with
  | Some t => Ok t
  | None =>
      let since := trim_space since in
      if Nat.ltb (String.length since) 2 then Err (EText ("invalid duration: " +:+ since))
      else
        match split_last since with
        | None => Err (EText ("invalid duration: " +:+ since))
        | Some (numStr, unit_) =>
            match atoi numStr with
            | None => Err (EText ("invalid duration: " +:+ since))
            | Some num =>
                if num <=? 0 then Err (EText ("duration must be positive: " +:+ since))
                else
                  match since_multiplier unit_ with
                  | None => Err (EText ("unknown duration unit: " +:+ String unit_ ""))
                  | Some multiplier =>
                      if Z.quot max_int64 multiplier <? num
                      then Err (EText ("duration too large: " +:+ since))
                      else Ok (now - wrap64 (num * multiplier))
                  end
            end
        end
  end.

(** ** The list parameters *)

(** What the page parameter comes to: an offset, a 400 with its message, or the
    division by zero of [(1<<31-1)/effectiveLimit]. *)
Inductive page_result := PageOffset (offset : Z) | PageInvalid (message : string) | PageDivZero.

Definition compute_offset (page : option Z) (effectiveLimit : Z) : page_result :=
  match page with
  | None => PageOffset 0
  | Some page =>
      if page <? 1 then PageInvalid "Invalid page parameter"
      else if 1 <? page then
        if effectiveLimit =? 0 then PageDivZero
        else if Z.quot (2 ^ 31 - 1) effectiveLimit <? wrap64 (page - 1) then PageInvalid "Invalid page parameter"
        else PageOffset (wrap64 (wrap64 (page - 1) * effectiveLimit))
      else PageOffset 0
  end.

(** [&b] of [*p == "true"]. *)
Definition bool_param (p : option string) : option bool := (λ s, bool_decide (s = "true")) <$> p.

Definition audit_filter `{GoUUID} (p : ListAuditEntriesParams) (limit offset : Z) (since : option Z) : AuditFilter :=
  {| af_Action := p.(la_Action); af_Target := p.(la_Target); af_Operator := p.(la_Operator);
     af_Method := p.(la_Method); af_ApprovalState := p.(la_ApprovalState); af_Since := since;
     af_Limit := limit; af_Offset := offset |}.
Definition execution_filter `{GoUUID} (p : ListExecutionsParams) (limit offset : Z) (since : option Z) : ExecutionFilter :=
  {| ef_Status := p.(le_Status); ef_Action := p.(le_Action); ef_Target := p.(le_Target);
     ef_Operator := p.(le_Operator); ef_Scope := p.(le_Scope); ef_Type := p.(le_Type);
     ef_ApprovalState := p.(le_ApprovalState); ef_DryRun := bool_param p.(le_DryRun);
     ef_Force := bool_param p.(le_Force); ef_Since := since; ef_Limit := limit; ef_Offset := offset |}.

Section handlers.
Context `{Env} `{S : StoreInterface} `{!IdSource} `{GoJson} (catalog : Catalog).

(** [filter.Since] from the parameter: the clock is read for durations. *)
Definition since_param (p : option string) : API (res (option Z)) :=
  match p with
  | None => ret (Ok None)
  | Some s => do now <- with_world (perform CNow); ret (res_map Some (parseSince now s))
  end.

(** The common shape of the two list handlers: page, since, query, answer. *)
Definition list_handler {A} (page : option Z) (limit : Z) (since : option string)
    (query : Z → option Z → M store_st (res (ListResult A))) (failed : string)
    (answer : ListResult A → http_body) : API outcome_of_request :=
  match compute_offset page limit with
  | PageDivZero => ret Panicked
  | PageInvalid message => ret (respondError 400 message)
  | PageOffset offset =>
      do since <- since_param since;
      match since with
      | Err _ => ret (respondError 400 "Invalid since parameter")
      | Ok since =>
          do result <- with_store (query offset since);
          match result with
          | Err _ => ret (respondError 500 failed)
          | Ok l => if l.(lr_Limit) =? 0 then ret Panicked else ret (respondJSON (answer l))
          end
      end
  end.

Definition result_page {A} (l : ListResult A) : Z := Z.quot l.(lr_Offset) l.(lr_Limit) + 1.
Definition result_more {A} (l : ListResult A) : bool :=
  l.(lr_Offset) + Z.of_nat (length l.(lr_Items)) <? l.(lr_Total).

Definition api_ListAuditEntries (p : ListAuditEntriesParams) : API outcome_of_request :=
  let limit := default 50 p.(la_Limit) in
  list_handler p.(la_Page) limit p.(la_Since)
    (λ offset since, st_ListAuditEntries (audit_filter p limit offset since))
    "Failed to list audit entries"
    (λ l, BAuditList {| al_Items := l.(lr_Items); al_Total := l.(lr_Total); al_Page := result_page l;
                        al_Limit := l.(lr_Limit); al_HasMore := result_more l |}).

Definition api_ListExecutions (p : ListExecutionsParams) : API outcome_of_request :=
  let limit := default 20 p.(le_Limit) in
  list_handler p.(le_Page) limit p.(le_Since)
    (λ offset since, st_ListExecutions (execution_filter p limit offset since))
    "Failed to list executions"
    (λ l, BExecutionList {| el_Items := Execution_ToOpenAPI <$> l.(lr_Items); el_Total := l.(lr_Total);
                            el_Page := result_page l; el_Limit := l.(lr_Limit);
                            el_HasMore := result_more l |}).

(** ** The catalog *)

Definition api_Catalog : outcome_of_request :=
  match mapM id (catalog_All catalog) with
  | Some all => respondJSON (BCatalog (Z.of_nat (length all)) (ToOpenAPISummary <$> all))
  | None => Panicked
  end.

Definition api_Describe (action : string) : outcome_of_request :=
  match catalog_Get catalog action with
  | None => respondError 404 "Unknown action"
  | Some def => respondJSON (BAction (ToOpenAPIDetail def))
  end.

(** ** Executions *)

Definition with_links (e : openapi_Execution) (self : string) (output : option string) : openapi_Execution :=
  {| oa_exec := e.(oa_exec); oa_Params := e.(oa_Params); oa_self := Some self; oa_output := output |}.

(** The audit fields of a created execution. *)
Definition audit_of_execution (e : Execution) (ac : AuditContext) : AuditContext :=
  {| ac_ExecutionID := uuid_string e.(ex_ID);
     ac_Jira := default ac.(ac_Jira) e.(ex_Jira);
     ac_ApprovalState := default ac.(ac_ApprovalState) e.(ex_ApprovalState);
     ac_TargetCluster := e.(ex_TargetCluster) |}.

Definition api_CreateExecution (ctx : context) (url_path action : string) (body : res ExecutionRequest)
  : API outcome_of_request :=
  match catalog_Get catalog action with
  | None => ret (respondError 404 "Unknown action")
  | Some _ =>
      match body with
      | Err _ => ret (respondError 400 "Invalid request body")
      | Ok req =>
          let username := context_username ctx in
          do now <- with_world (perform CNow);
          do uid <- draw_id;
          let exec := ExecutionFromRequest uid now action req username in
          do created <- with_store (st_CreateExecution exec);
          match created with
          | Err _ => ret (respondError 500 "Failed to create execution")
          | Ok _ =>
              do _ <- notify_workers Notify;
              do _ <- (if ctx.(cx_audit) then do ac <- get_audit; set_audit (audit_of_execution exec ac)
                       else ret tt);
              let self := path_join [path_dir (path_dir url_path); "runs"; uuid_string uid] in
              ret (Responded (Response 202 (BExecution (with_links (Execution_ToOpenAPI exec) self None))))
          end
      end
  end.

Definition api_GetExecution (url_path : string) (id : uuid) : API outcome_of_request :=
  do exec <- with_store (st_GetExecution id);
  match exec with
  | Err e => if errors_is e ErrNotFound then ret (respondError 404 "Execution not found")
             else ret (respondError 500 "Failed to get execution")
  | Ok exec =>
      do output <- with_store (st_GetExecutionOutput id);
      let link := if is_ok output then Some (path_join [url_path; "output"]) else None in
      ret (respondJSON (BExecution (with_links (Execution_ToOpenAPI exec) url_path link)))
  end.

Definition api_GetExecutionOutput (url_path : string) (id : uuid) : API outcome_of_request :=
  do output <- with_store (st_GetExecutionOutput id);
  match output with
  | Err e => if errors_is e ErrNotFound then ret (respondError 404 "Output not found")
             else ret (respondError 500 "Failed to get output")
  | Ok o => ret (respondJSON (BOutput o url_path (path_dir url_path)))
  end.

(** The generated router's dispatch to [APIHandler]. *)
Definition APIHandler : handler := λ ctx r,
  match r.(hq_Call) with
  | ApiCatalog => ret api_Catalog
  | ApiDescribe action => ret (api_Describe action)
  | ApiCreateExecution action body => api_CreateExecution ctx r.(hq_Path) action body
  | ApiListAuditEntries params => api_ListAuditEntries params
  | ApiListExecutions params => api_ListExecutions params
  | ApiGetExecution id => api_GetExecution r.(hq_Path) id
  | ApiGetExecutionOutput id => api_GetExecutionOutput r.(hq_Path) id
  end.
End handlers.

(** ** Lists *)

Lemma wrap64_small z : - 2 ^ 63 ≤ z < 2 ^ 63 → wrap64 z = z.
Proof. intros. apply wrap64_id. unfold in_int64, min_int64, max_int64. lia. Qed.

Lemma quot_lt_iff a b c : 0 ≤ a → 0 < b → Z.quot a b < c ↔ a < c * b.
Proof.
  intros Ha Hb. rewrite Z.quot_div_nonneg by lia. split; intros.
  - pose proof (Z.mod_pos_bound a b). pose proof (Z.div_mod a b). nia.
  - apply Z.div_lt_upper_bound; nia.
Qed.

(** The offset of a page with a positive limit: exact, or the page is refused. *)
Lemma compute_offset_positive p limit :
  in_int64 p = true → in_int64 limit = true → 0 < limit →
  compute_offset (Some p) limit
  = if bool_decide (1 ≤ p ∧ (p - 1) * limit ≤ 2 ^ 31 - 1) then PageOffset ((p - 1) * limit)
    else PageInvalid "Invalid page parameter".
Proof.
  unfold in_int64, min_int64, max_int64. intros Hp Hl Hpos. unfold compute_offset.
  destruct (Z.ltb_spec p 1); [by rewrite bool_decide_eq_false_2 by lia|].
  destruct (Z.ltb_spec 1 p).
  - rewrite (proj2 (Z.eqb_neq _ _)) by lia. rewrite (wrap64_small (p - 1)) by lia.
    pose proof (quot_lt_iff (2 ^ 31 - 1) limit (p - 1)) as Hq.
    destruct (Z.ltb_spec (Z.quot (2 ^ 31 - 1) limit) (p - 1)).
    + rewrite bool_decide_eq_false_2; [done|]. lia.
    + rewrite bool_decide_eq_true_2 by lia. rewrite wrap64_small by nia. done.
  - rewrite bool_decide_eq_true_2 by nia. f_equal. nia.
Qed.

Definition in_range_page (page : option Z) (limit : Z) : Prop :=
  let p := default 1 page in 1 ≤ p ∧ (p - 1) * limit ≤ 2 ^ 31 - 1.
Lemma in_range_dec page limit : in_range_page page limit ∨ ¬ in_range_page page limit.
Proof. unfold in_range_page. simpl. lia. Qed.

(** What a list answer holds and says of itself, as the page [p] of the rows: [shows] is
    what an item shows of a row. *)
Definition answers_page {R A} (shows : R → A → Prop) (p limit : Z) (rows : list R) (items : list A)
    (total page lim : Z) (more : bool) : Prop :=
  total = Z.of_nat (length rows) ∧ page = p ∧ lim = limit ∧ (more = true ↔ p * limit < total)
  ∧ Forall2 shows (take (Z.to_nat limit) (drop (Z.to_nat ((p - 1) * limit)) rows)) items.

Section lists.
Context `{Env} `{L : ListView} `{!PagingLaws L}.

Lemma paged_answers {R A} (decode : R → res A) def max limit p rows (l : ListResult A) :
  0 < def ≤ max → 1 ≤ limit ≤ max → 1 ≤ p → paged decode def max limit ((p - 1) * limit) rows l →
  lr_Limit l ≠ 0
  ∧ answers_page (λ row x, decode row = Ok x) p limit rows l.(lr_Items) l.(lr_Total) (result_page l)
      l.(lr_Limit) (result_more l).
Proof.
  intros Hd Hl Hp Hpg. pose proof (paged_length decode def max limit _ rows l Hd Hpg) as Hlen.
  destruct Hpg as (Hlim & Hoff & Ht & Hi). unfold answers_page, result_page, result_more.
  assert (lr_Limit l = limit) as Hll by (rewrite Hlim; unfold clampLimit; repeat case_match; lia).
  assert (lr_Offset l = (p - 1) * limit) as Hoo by (rewrite Hoff; unfold clampOffset; case_match; nia).
  rewrite Hll, Hoo in *. split; [lia|]. split; [done|]. split; [rewrite Z.quot_mul by lia; lia|].
  split; [done|]. split; [|exact Hi]. rewrite Z.ltb_lt. nia.
Qed.

(** The instant a since parameter names at the time [now]; none when it names none. *)
Definition since_names (now : Z) (p : option string) (t : option Z) : Prop :=
  match p with
  | None => t = None
  | Some x => ∃ at_, parseSince now x = Ok at_ ∧ t = Some at_
  end.
Definition since_invalid (now : Z) (p : option string) : Prop :=
  ∃ x, p = Some x ∧ is_ok (parseSince now x) = false.
(** The clock a handler reads. *)
Definition clock_at (s : api_state) : Z := respond s.(api_world).(w_calls) CNow.

(** The cases of a list handler. *)
Lemma list_handler_cases {A} page limit since (query : Z → option Z → M store_st (res (ListResult A))) failed
    answer s o s' :
  list_handler page limit since query failed answer s = (o, s') →
  match compute_offset page limit with
  | PageDivZero => o = Panicked ∧ s' = s
  | PageInvalid message => o = respondError 400 message ∧ s' = s
  | PageOffset offset =>
      since_invalid (clock_at s) since ∧ o = respondError 400 "Invalid since parameter"
      ∨ ∃ t, since_names (clock_at s) since t
          ∧ match (query offset t s.(api_store)).1 with
            | Err _ => o = respondError 500 failed
            | Ok l => o = if l.(lr_Limit) =? 0 then Panicked else respondJSON (answer l)
            end
  end.
Proof.
  unfold list_handler. destruct (compute_offset page limit) as [offset|m|]; [|by intros [= <- <-]..].
  unfold bind at 1. destruct (since_param since s) as [r s1] eqn:Hs1.
  assert (s1.(api_store) = s.(api_store)
    ∧ match r with Ok t => since_names (clock_at s) since t | Err _ => since_invalid (clock_at s) since end)
    as [Hst Hr].
  { revert Hs1. unfold since_param, since_names, since_invalid. destruct since as [x|]; [|by intros [= <- <-]].
    unfold bind, with_world, clock_at. simpl. intros [= <- <-]. split; [done|].
    destruct (parseSince _ x) as [at_|e] eqn:Hx; simpl; [eauto|]. exists x. by rewrite Hx. }
  destruct r as [t|e]; [|intros [= <- <-]; auto].
  unfold bind, with_store. destruct (query offset t (api_store s1)) as [r st] eqn:Hq.
  rewrite Hst in Hq. intros Ho. right. exists t. split; [done|]. rewrite Hq. simpl.
  destruct r as [l|e]; [|by injection Ho as <- _]. by destruct (lr_Limit l =? 0); injection Ho as <- _.
Qed.

(** A list request with an in-range limit gets the page it asked for. *)
Lemma list_handler_page {R A} (decode : R → res A) (rows_of : Z → option Z → list R → Prop) def max page limit since
    (query : Z → option Z → M store_st (res (ListResult A))) failed answer s o s' :
  0 < def ≤ max → max < 2 ^ 63 → 1 ≤ limit ≤ max →
  (∀ p, page = Some p → in_int64 p = true) →
  (∀ offset t l, (query offset t s.(api_store)).1 = Ok l →
     ∃ rows, rows_of offset t rows ∧ paged decode def max limit offset rows l) →
  list_handler page limit since query failed answer s = (o, s') →
  let p := default 1 page in
  (¬ in_range_page page limit → o = respondError 400 "Invalid page parameter" ∧ s' = s)
  ∧ (in_range_page page limit →
     since_invalid (clock_at s) since ∧ o = respondError 400 "Invalid since parameter"
     ∨ ∃ t, since_names (clock_at s) since t
         ∧ match (query ((p - 1) * limit) t s.(api_store)).1 with
           | Err _ => o = respondError 500 failed
           | Ok l => o = respondJSON (answer l)
               ∧ ∃ rows, rows_of ((p - 1) * limit) t rows
                 ∧ answers_page (λ row x, decode row = Ok x) p limit rows l.(lr_Items) l.(lr_Total)
                     (result_page l) l.(lr_Limit) (result_more l)
           end).
Proof.
  intros Hd Hm Hl Hp Hq Hr%list_handler_cases. unfold in_range_page. cbv zeta.
  assert (compute_offset page limit = if bool_decide (1 ≤ default 1 page ∧ (default 1 page - 1) * limit ≤ 2 ^ 31 - 1)
    then PageOffset ((default 1 page - 1) * limit) else PageInvalid "Invalid page parameter") as Ho.
  { destruct page as [p|]; [apply compute_offset_positive; [by apply Hp|..|lia];
      unfold in_int64, min_int64, max_int64; lia|]. cbn [default].
    rewrite bool_decide_eq_true_2 by lia. done. }
  rewrite Ho in Hr. case_bool_decide as Hin; [|by split].
  split; [done|]. intros _. destruct Hr as [?|(t & Ht & Hr)]; [by left|right]. exists t. split; [done|].
  specialize (Hq ((default 1 page - 1) * limit) t).
  destruct (query _ t s.(api_store)).1 as [l|e]; [|done]. destruct (Hq l eq_refl) as (rows & Hrows & Hpg).
  destruct (paged_answers decode def max limit (default 1 page) rows l) as [Hne Ha]; [lia..|done|].
  rewrite (proj2 (Z.eqb_neq _ _)) in Hr by done. eauto.
Qed.
Context `{GoJson}.

(** An [int] parameter. *)
Definition int_param (p : option Z) : Prop := ∀ v, p = Some v → in_int64 v = true.

(** The answer to a list request with its page in range: [rows_of] are the rows each
    query is taken from, [body] the answer's list. *)
Definition list_answer {R A F} (since : option string) (now : Z)
    (filter_of : option Z → F) (query : F → res (ListResult A)) (rows_of : F → list R → Prop)
    (body : list R → http_body → Prop) (failed : string) (o : outcome_of_request) : Prop :=
  since_invalid now since ∧ o = respondError 400 "Invalid since parameter"
  ∨ ∃ t, since_names now since t
      ∧ match query (filter_of t) with
        | Err _ => o = respondError 500 failed
        | Ok _ => ∃ rows b, rows_of (filter_of t) rows ∧ o = respondJSON b ∧ body rows b
        end.

(** C33: a list request gets the page it asks for. With a limit in the documented
    range - 1 to 100 executions, 1 to 200 audit entries - a page below 1, or whose
    offset would not fit 31 bits, is refused with a 400 and nothing is read; otherwise a
    since parameter that names no instant is refused with a 400, a store that fails gives
    a 500, and every other answer is a 200. It is taken from the rows that match the
    filter with every parameter as sent: its total counts them, it reports exactly the
    requested page and limit, its items show the rows of that page in order, and it says
    there are more just when there are. *)
Theorem list_pages_answered (le : ListExecutionsParams) (la : ListAuditEntriesParams) s :
  q_ok s.(api_store) → int_param le.(le_Page) → int_param la.(la_Page) →
  (let limit := default 20 le.(le_Limit) in
   let p := default 1 le.(le_Page) in
   let '(o, s') := api_ListExecutions le s in
   1 ≤ limit ≤ 100 →
   (¬ in_range_page le.(le_Page) limit → o = respondError 400 "Invalid page parameter" ∧ s' = s)
   ∧ (in_range_page le.(le_Page) limit →
      list_answer le.(le_Since) (clock_at s)
        (λ since,
          {| ef_Status := le.(le_Status); ef_Action := le.(le_Action); ef_Target := le.(le_Target);
             ef_Operator := le.(le_Operator); ef_Scope := le.(le_Scope); ef_Type := le.(le_Type);
             ef_ApprovalState := le.(le_ApprovalState);
             ef_DryRun := (λ x, bool_decide (x = "true")) <$> le.(le_DryRun);
             ef_Force := (λ x, bool_decide (x = "true")) <$> le.(le_Force);
             ef_Since := since; ef_Limit := limit; ef_Offset := (p - 1) * limit |})
        (λ flt, (st_ListExecutions flt s.(api_store)).1) (λ flt, listing flt s.(api_store))
        (λ rows b, ∃ l, b = BExecutionList l
           ∧ answers_page (λ row x, ∃ e, line_execution row = Ok e ∧ x = Execution_ToOpenAPI e) p limit rows
               l.(el_Items) l.(el_Total) l.(el_Page) l.(el_Limit) l.(el_HasMore))
        "Failed to list executions" o))
  ∧ (let limit := default 50 la.(la_Limit) in
     let p := default 1 la.(la_Page) in
     let '(o, s') := api_ListAuditEntries la s in
     1 ≤ limit ≤ 200 →
     (¬ in_range_page la.(la_Page) limit → o = respondError 400 "Invalid page parameter" ∧ s' = s)
     ∧ (in_range_page la.(la_Page) limit →
        list_answer la.(la_Since) (clock_at s)
          (λ since,
            {| af_Action := la.(la_Action); af_Target := la.(la_Target); af_Operator := la.(la_Operator);
               af_Method := la.(la_Method); af_ApprovalState := la.(la_ApprovalState); af_Since := since;
               af_Limit := limit; af_Offset := (p - 1) * limit |})
          (λ flt, (st_ListAuditEntries flt s.(api_store)).1) (λ flt, audit_listing flt s.(api_store))
          (λ rows b, ∃ l, b = BAuditList l
             ∧ answers_page (λ row x, line_audit row = Ok x) p limit rows
                 l.(al_Items) l.(al_Total) l.(al_Page) l.(al_Limit) l.(al_HasMore))
          "Failed to list audit entries" o)).
Proof.
  intros Hok Hpe Hpa. split; cbv zeta.
  - destruct (api_ListExecutions le s) as [o s'] eqn:Hr. intros Hl.
    eapply (list_handler_page line_execution
      (λ offset t, listing (execution_filter le (default 20 le.(le_Limit)) offset t) s.(api_store)) 20 100)
      in Hr as [Hno Hyes]; [|lia..|done|intros offset t l'; by apply list_paged].
    split; [done|]. intros Hin. destruct (Hyes Hin) as [?|(t & Ht & Hq)]; [by left|right].
    exists t. split; [done|]. unfold execution_filter, bool_param in Hq.
    destruct (st_ListExecutions _ _).1 as [l'|e]; [|done]. destruct Hq as (-> & rows & Hrows & Ha).
    exists rows. eexists. split; [done|]. split; [done|]. eexists. split; [done|]. simpl.
    destruct Ha as (? & ? & ? & ? & Hi). split_and!; try done. apply Forall2_fmap_r.
    eapply Forall2_impl; [exact Hi|]. eauto.
  - destruct (api_ListAuditEntries la s) as [o s'] eqn:Hr. intros Hl.
    eapply (list_handler_page line_audit
      (λ offset t, audit_listing (audit_filter la (default 50 la.(la_Limit)) offset t) s.(api_store)) 50 200)
      in Hr as [Hno Hyes]; [|lia..|done|intros offset t l'; by apply list_audit_paged].
    split; [done|]. intros Hin. destruct (Hyes Hin) as [?|(t & Ht & Hq)]; [by left|right].
    exists t. split; [done|]. unfold audit_filter in Hq.
    destruct (st_ListAuditEntries _ _).1 as [l'|e]; [|done]. destruct Hq as (-> & rows & Hrows & Ha).
    exists rows. eexists. split; [done|]. split; [done|]. by eexists.
Qed.

(** A limit above the maximum loses rows, and a limit of zero panics. The
    handlers compute the offset from the limit as sent, while the store clamps it to
    100 executions (200 audit entries): with a larger limit, the rows between the
    maximum and the limit of every stretch are on no page at all, and from twice the
    maximum on every page after the first misreports its number. A zero limit on a
    page after the first divides by zero. The API documents 1 to 100 (200), and refuses neither. *)
Theorem unchecked_limit_findings (le : ListExecutionsParams) s p limit :
  q_ok s.(api_store) → le.(le_Page) = Some p → le.(le_Limit) = Some limit →
  in_int64 p = true → in_int64 limit = true →
  let '(o, s') := api_ListExecutions le s in
  (limit = 0 → 2 ≤ p → o = Panicked)
  ∧ (100 < limit → ∀ l, o = respondJSON (BExecutionList l) →
      (∀ i, 0 ≤ i → 100 ≤ i mod limit →
        ¬ ((p - 1) * limit ≤ i < (p - 1) * limit + Z.of_nat (length l.(el_Items))))
      ∧ (2 ≤ p → 200 ≤ limit → l.(el_Page) ≠ p)).
Proof.
  intros Hok Hp Hl Hip Hil. destruct (api_ListExecutions le s) as [o s'] eqn:Hr.
  unfold api_ListExecutions in Hr. rewrite Hp, Hl in Hr. cbn [default from_option id] in Hr.
  apply list_handler_cases in Hr. split.
  - intros -> H2. unfold compute_offset in Hr.
    rewrite (proj2 (Z.ltb_ge p 1)), (proj2 (Z.ltb_lt 1 p)) in Hr by lia. by destruct Hr.
  - intros Hbig l ->. rewrite compute_offset_positive in Hr by (done || lia).
    case_bool_decide as Hin; [|by destruct Hr].
    destruct Hr as [[_ ?]|(t & _ & Ho)]; [done|].
    destruct (st_ListExecutions _ _).1 as [l'|e] eqn:Hq; [|done].
    apply list_paged in Hq as (rows & _ & Hpg); [|done].
    pose proof Hpg as Hlen%paged_length; [|lia].
    destruct Hpg as (Hlim & Hoff & Ht & _). simpl in Hlim, Hoff. rewrite Hlim in Ho, Hlen. rewrite Hoff in Hlen. unfold clampLimit, clampOffset in *.
    rewrite (proj2 (Z.leb_gt limit 0)), (proj2 (Z.ltb_lt 100 limit)) in * by lia.
    rewrite (proj2 (Z.ltb_ge ((p - 1) * limit) 0)) in * by nia. injection Ho as ->. simpl.
    rewrite length_fmap. split.
    + intros i Hi Hmod Hrange.
      assert (i - (p - 1) * limit = i mod limit) as Heq; [|lia].
      apply Z.mod_unique with (q := p - 1); lia.
    + intros H2 H200. unfold result_page. rewrite Hlim, Hoff, Z.quot_div_nonneg by nia.
      pose proof (Z.mul_nonneg_nonneg (p - 1) (limit - 200)).
      assert (p ≤ (p - 1) * limit / 100) by (apply Z.div_le_lower_bound; lia). lia.
Qed.
End lists.

(** ** Since *)

Lemma since_multiplier_pos u m : since_multiplier u = Some m → 0 < m.
Proof. unfold since_multiplier. intros. repeat case_match; simplify_eq; lia. Qed.

(** A since parameter means what it says, and cannot overflow. An RFC 3339
    timestamp is that instant; anything else is accepted exactly when, trimmed, it
    is a positive decimal number followed by one of the units s, m, h and d whose
    length in nanoseconds fits 63 bits - and then it is exactly that long before
    now: the multiplication never wraps around. *)
Theorem parseSince_spec now since t :
  parseSince now since = Ok t ↔
  parse_rfc3339 since = Some t
  ∨ parse_rfc3339 since = None
    ∧ ∃ front unit_ num mult,
        split_last (trim_space since) = Some (front, unit_)
        ∧ atoi front = Some num ∧ since_multiplier unit_ = Some mult
        ∧ 0 < num ∧ num * mult ≤ max_int64 ∧ t = now - num * mult.
Proof.
  unfold parseSince. destruct (parse_rfc3339 since) as [t'|]; [naive_solver|].
  split.
  - case_match; [done|]. destruct (split_last _) as [[front u]|]; [|done].
    destruct (atoi front) as [num|] eqn:Hn; [|done]. destruct (Z.leb_spec num 0); [done|].
    destruct (since_multiplier u) as [mult|] eqn:Hm; [|done].
    apply since_multiplier_pos in Hm as Hpos.
    pose proof (quot_lt_iff max_int64 mult num) as Hq.
    destruct (Z.ltb_spec (Z.quot max_int64 mult) num) as [|Hge]; [done|]. intros [= <-].
    right. split; [done|]. exists front, u, num, mult.
    assert (num * mult ≤ max_int64) by (unfold max_int64 in *; lia).
    rewrite wrap64_small; [done|]. unfold max_int64 in *. nia.
  - intros [?|(_ & front & u & num & mult & Hs & Hn & Hm & Hpos & Hle & ->)]; [done|].
    rewrite Hs, Hn, Hm. apply since_multiplier_pos in Hm as Hmp.
    assert (Nat.ltb (String.length (trim_space since)) 2 = false) as ->.
    { apply Nat.ltb_ge. destruct (trim_space since) as [|a [|b r]]; simpl in *; [done| |lia].
      injection Hs as <- <-. done. }
    rewrite (proj2 (Z.leb_gt num 0)) by lia.
    pose proof (quot_lt_iff max_int64 mult num) as Hq.
    rewrite (proj2 (Z.ltb_ge _ _)) by (unfold max_int64 in *; lia).
    rewrite wrap64_small; [done|]. unfold max_int64 in *. nia.
Qed.

(** ** Creating and reading an execution *)
Section executions.
Context `{Env} `{V : QueueView} `{!QueueLaws V} `{!IdSource} `{GoJson} (catalog : Catalog).

(** C34: a run request is accepted only once it is stored. A 202 answer means that
    the action is in the catalog, the body decoded, and an execution the store did
    not know - carrying the caller's name, the action and the request's fields - is
    now recorded as pending, with no other status moved; the workers have been
    notified and the audit context names it. Any other answer is a 404, a 400 or a
    500, and then no status has moved and nobody was notified. *)
Theorem run_request_stored ctx url action body s :
  q_ok s.(api_store) →
  let '(o, s') := api_CreateExecution catalog ctx url action body s in
  let id := fresh_id s.(api_ids) in
  q_ok s'.(api_store)
  ∧ ((∃ req self, body = Ok req ∧ is_Some (catalog_Get catalog action)
      ∧ (let e := ExecutionFromRequest id (respond s.(api_world).(w_calls) CNow) action req (context_username ctx) in
         o = Responded (Response 202 (BExecution (with_links (Execution_ToOpenAPI e) self None)))
         ∧ (st_CreateExecution e s.(api_store)).1 = Ok tt)
      ∧ q_status s.(api_store) id = None
      ∧ moved (q_status s.(api_store)) (q_status s'.(api_store)) id "pending"
      ∧ s'.(api_notify) = true
      ∧ (ctx.(cx_audit) = true → s'.(api_audit).(ac_ExecutionID) = uuid_string id
           ∧ s'.(api_audit).(ac_TargetCluster) = req.(er_TargetCluster)))
     ∨ (∃ status msg, o = respondError status msg ∧ status ∈ [400; 404; 500])
       ∧ unmoved (q_status s.(api_store)) (q_status s'.(api_store))
       ∧ s'.(api_notify) = s.(api_notify) ∧ s'.(api_audit) = s.(api_audit)).
Proof.
  intros Hok. unfold api_CreateExecution. destruct (catalog_Get catalog action) as [d|] eqn:Hd.
  2: { split; [done|]. right. split; [exists 404; eexists; split; [done|set_solver]|done]. }
  destruct body as [req|e].
  2: { split; [done|]. right. split; [exists 400; eexists; split; [done|set_solver]|done]. }
  destruct s as [st w ids nt au rt]. unfold bind, with_world, draw_id, with_store. simpl in *.
  set (now := respond (w_calls w) CNow).
  set (e := ExecutionFromRequest (fresh_id ids) now action req (context_username ctx)).
  pose proof (queue_create e st Hok) as Hq.
  destruct (st_CreateExecution e st) as [[[]|err] st'] eqn:Hc; destruct Hq as [Hok' Hq]; simpl.
  2: { split; [done|]. right. split; [exists 500; eexists; split; [done|set_solver]|done]. }
  destruct Hq as [Hnew Hm].
  destruct (cx_audit ctx) eqn:Ha; simpl; (split; [done|]; left; exists req; eexists);
    (split; [done|]); (split; [by exists d|]); (split; [split; [reflexivity|]; fold e; by rewrite Hc|]);
    (split; [done|]); (split; [done|]); (split; [by destruct nt|]); by intros.
Qed.

(** An execution is reported exactly as stored. [GET /runs/{id}] answers 200
    with the stored execution just when the store has it, linking to an output just
    when there is one; 404 just when the store says not found; 500 for any other
    error. The two reads move no status. *)
Theorem get_execution_reported url id s :
  q_ok s.(api_store) →
  let '(o, s') := api_GetExecution url id s in
  let '(found, st) := st_GetExecution id s.(api_store) in
  q_ok s'.(api_store) ∧ unmoved (q_status s.(api_store)) (q_status s'.(api_store))
  ∧ match found with
    | Ok e => o = respondJSON (BExecution (with_links (Execution_ToOpenAPI e) url
                     (if is_ok (st_GetExecutionOutput id st).1 then Some (path_join [url; "output"]) else None)))
    | Err err => o = if errors_is err ErrNotFound then respondError 404 "Execution not found"
                     else respondError 500 "Failed to get execution"
    end.
Proof.
  intros Hok. destruct s as [st w ids nt au rt]. unfold api_GetExecution, bind, with_store. simpl in *.
  pose proof (queue_get id st Hok) as Hg. destruct (st_GetExecution id st) as [[e|err] st1]; destruct Hg as [Hok1 Hu1].
  - pose proof (queue_output id st1 Hok1) as Ho. simpl.
    destruct (st_GetExecutionOutput id st1) as [r st2].
    destruct Ho as [Hok2 Hu2]. simpl. split; [done|]. split; [|done]. intros x. by rewrite Hu2, Hu1.
  - destruct (errors_is err ErrNotFound); simpl; (split; [done|]); by split.
Qed.
End executions.

(** ** Witnesses: the handlers over the in-memory SQLite store *)
Module HandlersExample.
Import ModelsExample StoresExample.
#[export] Instance store : StoreInterface := WorkerExample.store.
#[export] Instance view : QueueView store := WorkerExample.view.
#[export] Instance queue_laws : QueueLaws view := WorkerExample.laws.
#[export] Instance list_view : ListView view := SqlList (tle := Sqlite.text_le) Sqlite.sqlite.
#[export] Instance paging : PagingLaws list_view := sql_paging_laws (tle := Sqlite.text_le) Sqlite.sqlite.
#[export] Instance audit_view : AuditView view := SqlLog Sqlite.sqlite.
#[export] Instance audit_laws : AuditLaws audit_view := sql_audit_laws (tle := Sqlite.text_le) Sqlite.sqlite.
#[export] Instance env : Env := PipelineExample.write_env.
#[export] Instance id_source : IdSource := λ n, "u" +:+ pretty n.

Definition start : api_state := ApiState ((db, 0%nat) : store_st) fresh_world 0 false no_audit "".
Lemma start_ok : q_ok start.(api_store).
Proof. exact WorkerExample.db_ok. Qed.

Definition catalog : Catalog := register (define "get" "Get" Read KubeApi ["SREP"] []) empty_catalog.

(** The page and limit of an execution list. *)
Definition runs (page limit : Z) : ListExecutionsParams :=
  Build_ListExecutionsParams (Some page) (Some limit) None None None None None None None None None None.
Definition audit_page (page limit : Z) : ListAuditEntriesParams :=
  Build_ListAuditEntriesParams (Some page) (Some limit) None None None None None None.
Definition body_of (o : outcome_of_request) : option (Z * list string * Z * bool) :=
  match o with
  | Responded r =>
      match r.(hr_Body) with
      | BExecutionList l =>
          Some (el_Total l, map (λ e, (ex_ID e.(oa_exec) : string)) (el_Items l), el_Page l, el_HasMore l)
      | _ => None
      end
  | Panicked => None
  end.

Lemma list_pages_answered_witness :
  body_of (api_ListExecutions (runs 2 1) start).1 = Some (2, ["e1"], 2, false)
  ∧ (api_ListExecutions (runs 0 1) start).1 = respondError 400 "Invalid page parameter".
Proof.
  split; [vm_compute; reflexivity|].
  pose proof (list_pages_answered (L := list_view) (runs 0 1) (audit_page 1 1) start start_ok) as Hw.
  destruct Hw as [Hw _]; [intros v [= <-]; reflexivity..|]. revert Hw. cbv zeta.
  destruct (api_ListExecutions (runs 0 1) start) as [o s']. intros Hw.
  refine (proj1 (proj1 (Hw _) _)); [simpl; lia|]. intros [Hp _]. simpl in Hp. lia.
Defined.

Lemma unchecked_limit_findings_witness :
  (api_ListExecutions (runs 2 0) start).1 = Panicked.
Proof.
  pose proof (unchecked_limit_findings (L := list_view) (runs 2 0) start 2 0 start_ok eq_refl eq_refl eq_refl eq_refl) as Hw.
  revert Hw. destruct (api_ListExecutions (runs 2 0) start) as [o s']. intros [Hw _].
  apply Hw; [reflexivity|lia].
Defined.

Definition ctx : context := Context_ (Some (Build_CallerIdentity "sre" "" "")) (Some "SREP") true.

Lemma run_request_stored_witness :
  q_ok (api_CreateExecution catalog ctx "/get/run" "get" (Ok ModelsExample.request) start).2.(api_store).
Proof.
  pose proof (run_request_stored catalog ctx "/get/run" "get" (Ok ModelsExample.request) start start_ok) as Hw.
  revert Hw. destruct (api_CreateExecution _ _ _ _ _ start) as [o s']. intros [Hw _]. exact Hw.
Defined.

Lemma get_execution_reported_witness :
  q_ok (api_GetExecution "/runs/e1" ("e1" : uuid) start).2.(api_store).
Proof.
  pose proof (get_execution_reported "/runs/e1" ("e1" : uuid) start start_ok) as Hw.
  revert Hw. destruct (api_GetExecution _ _ start) as [o s']. destruct (st_GetExecution _ _) as [f st].
  intros [Hw _]. exact Hw.
Defined.
End HandlersExample.
