(* ===== verification/Server.v ===== *)
(** cmd/server/main.go's request path: the audit middleware
    (internal/middleware/audit.go) and the panic recovery
    (internal/middleware/middleware.go), and the order in which the server stacks
    them with authentication, authorization and the handlers. *)

From S2P Require Import Prelude GoString Json Env Actions Models Sql Store StoreSpec StoreApi Stores Pipeline Worker Catalog Http Auth Handlers.
#[local] Open Scope Z_scope.

Section server.
Context `{Env} `{S : StoreInterface} `{!IdSource} `{GoJson}.

(** ** internal/middleware *)

Definition audit_entry (uid : uuid) (now : Z) (ctx : context) (r : http_request) (status : Z)
    (action : string) (ac : AuditContext) : AuditEntry :=
  {| ae_ID := uid; ae_Timestamp := now; ae_Method := r.(hq_Method); ae_Path := r.(hq_Path);
     ae_Username := context_username ctx; ae_StatusCode := status; ae_Action := unless_empty action;
     ae_ExecutionID := unless_empty ac.(ac_ExecutionID); ae_Jira := unless_empty ac.(ac_Jira);
     ae_ApprovalState := unless_empty ac.(ac_ApprovalState);
     ae_TargetCluster := unless_empty ac.(ac_TargetCluster) |}.

(** [NewAuditLogger]: nothing after [next.ServeHTTP] runs when the handler panics,
    and a failed write is only logged. *)
Definition AuditLogger (next : handler) : handler := λ ctx r,
  do _ <- set_audit no_audit;
  let ctx := SetAuditContext ctx in
  do o <- next ctx r;
  match o with
  | Panicked => ret Panicked
  | Responded resp =>
      do action <- routed;
      do uid <- draw_id;
      do now <- with_world (perform CNow);
      do ac <- get_audit;
      do _ <- with_store (st_CreateAuditEntry (audit_entry uid now ctx r resp.(hr_Status) action ac));
      ret (Responded resp)
  end.

(** [Recoverer]. *)
Definition Recoverer (next : handler) : handler := λ ctx r,
  do o <- next ctx r;
  match o with
  | Panicked => ret (Responded (Response 500 (BText "Internal Server Error")))
  | Responded resp => ret (Responded resp)
  end.

(** ** The routing tree of runServer *)

(** The sub-router: it finds the route, then runs the generated wrapper. *)
Definition route (next : handler) : handler := λ ctx r,
  do _ <- set_routed (url_action r.(hq_Call)); next ctx r.

(** "/api/v0/trusted-actions": authentication, audit, role, route, action access. *)
Definition api_routes (authn authz : handler → handler) (catalog : Catalog) (h : handler) : handler :=
  authn (AuditLogger (authz (route (CheckActionAccess catalog h)))).

(** A request starts with an empty context and route. *)
Definition empty_context : context := Context_ None None false.
Definition serve (authn authz : handler → handler) (catalog : Catalog) (r : http_request)
  : API outcome_of_request :=
  do _ <- set_routed "";
  Recoverer (api_routes authn authz catalog (APIHandler catalog)) empty_context r.

(** With auth enabled: OCM tokens and AMS roles; disabled: the mocks. *)
Definition serve_enabled (roles : list RoleMapping) (authz : Authorization) :=
  serve AuthenticateAccountJWT (AuthorizeAPI roles authz).
Definition serve_disabled := serve MockAuthenticate MockAuthorizeAPI.

(** ** Who gets through *)

(** The request carries a verified user, to whom AMS grants a configured role, which
    may use the action the route names. *)
Definition authorised (roles : list RoleMapping) (authz : Authorization) (catalog : Catalog)
    (r : http_request) (i : CallerIdentity) : Prop :=
  GetCallerIdentityFromJWT r.(hq_Token) = Ok i ∧ i.(ci_Username) ≠ ""
  ∧ ∃ role, role_granted authz i.(ci_Username) roles role
      ∧ (url_action r.(hq_Call) ≠ "" →
         ∃ a, catalog_GetAction catalog (url_action r.(hq_Call)) = Some a
              ∧ role.(role_ID) ∈ a.(aa_AllowedRoles)).

Lemma audit_logger_run next ctx r s :
  let '(o, s1) := next (SetAuditContext ctx) r (set_audit no_audit s).2 in
  AuditLogger next ctx r s
  = match o with
    | Panicked => (Panicked, s1)
    | Responded resp =>
        let now := respond s1.(api_world).(w_calls) CNow in
        let '(_, st) := st_CreateAuditEntry
          (audit_entry (fresh_id s1.(api_ids)) now (SetAuditContext ctx) r resp.(hr_Status)
             s1.(api_routed) s1.(api_audit)) s1.(api_store) in
        (Responded resp,
         ApiState st (perform CNow s1.(api_world)).2 (Datatypes.S s1.(api_ids)) s1.(api_notify) s1.(api_audit)
           s1.(api_routed))
    end.
Proof.
  unfold AuditLogger, bind. simpl.
  destruct (next (SetAuditContext ctx) r _) as [[resp|] s1]; [|done].
  unfold bind, routed, draw_id, with_world, get_audit, with_store. simpl.
  by destruct (st_CreateAuditEntry _ (api_store s1)).
Qed.

Context `{V : !QueueView S} `{!QueueLaws V}.

(** The part of the chain behind the audit middleware. *)
Lemma inner_cases roles authz catalog h ctx i r s :
  ctx.(cx_identity) = Some i →
  (∃ role w', i.(ci_Username) ≠ "" ∧ role_granted authz i.(ci_Username) roles role
     ∧ (url_action r.(hq_Call) ≠ "" → ∃ a, catalog_GetAction catalog (url_action r.(hq_Call)) = Some a
          ∧ role.(role_ID) ∈ a.(aa_AllowedRoles))
     ∧ AuthorizeAPI roles authz (route (CheckActionAccess catalog h)) ctx r s
       = h (SetRoleInContext ctx role.(role_ID)) r
           (ApiState s.(api_store) w' s.(api_ids) s.(api_notify) s.(api_audit) (url_action r.(hq_Call))))
  ∨ (∃ status msg s', status ∈ [401; 403; 404; 500] ∧ s'.(api_store) = s.(api_store)
     ∧ s'.(api_notify) = s.(api_notify)
     ∧ AuthorizeAPI roles authz (route (CheckActionAccess catalog h)) ctx r s = (auth_error status msg, s')).
Proof.
  intros Hi. destruct (authorize_cases roles authz (route (CheckActionAccess catalog h)) ctx r s)
    as [(i' & role & w' & Hi' & Hu & Hg & ->)|(status & w' & msg & Hst & ->)].
  2: { right. do 3 eexists. split_and!; [..|reflexivity]; [set_solver|done|done]. }
  assert (i' = i) as -> by congruence. unfold route, bind, set_routed. simpl.
  match goal with |- context [CheckActionAccess catalog h ?c r ?x] =>
    destruct (action_access_cases catalog h c r x) as [[-> Ha]|(status & msg & Hst & ->)] end.
  - left. exists role, w'. done.
  - right. do 3 eexists. split_and!; [..|reflexivity]; [set_solver|done|done].
Qed.

(** C3: nobody uses the API without a role that allows it. With authentication
    enabled, a request whose caller is not authorised - a verified user name, a
    role AMS grants that user, and for an action's routes one of the roles the
    catalog allows it - is answered 401, 403, 404 or 500 whatever the handlers
    would have done, and moves no execution's status and wakes no worker. *)
Theorem api_requires_role roles authz catalog r s :
  q_ok s.(api_store) → (∀ i, ¬ authorised roles authz catalog r i) →
  let '(o, s') := serve_enabled roles authz catalog r s in
  (∃ status msg, o = auth_error status msg ∧ status ∈ [401; 403; 404; 500])
  ∧ q_ok s'.(api_store) ∧ unmoved (q_status s.(api_store)) (q_status s'.(api_store))
  ∧ s'.(api_notify) = s.(api_notify).
Proof.
  intros Hok Hno. unfold serve_enabled, serve, Recoverer, api_routes, AuthenticateAccountJWT, bind, ret. simpl.
  destruct (GetCallerIdentityFromJWT (hq_Token r)) as [i|e] eqn:Hi; simpl.
  2: { split; [exists 401; eexists; split; [done|by left]|done]. }
  unfold is_empty. case_bool_decide as Hu; simpl.
  { split; [exists 401; eexists; split; [done|by left]|done]. }
  set (ctx := SetCallerIdentityContext empty_context i). set (s0 := ApiState _ _ _ _ _ "").
  pose proof (audit_logger_run (AuthorizeAPI roles authz (route (CheckActionAccess catalog (APIHandler catalog))))
    ctx r s0) as Ha.
  destruct (inner_cases roles authz catalog (APIHandler catalog) (SetAuditContext ctx) i r (set_audit no_audit s0).2 eq_refl)
    as [(role & w' & Hne & Hg & Hact & Heq)|(status & msg & s1 & Hst & Hstore & Hnot & Heq)].
  - exfalso. apply (Hno i). split; [done|]. split; [done|]. eauto.
  - rewrite Heq in Ha. simpl in Ha. rewrite Ha, Hstore.
    match goal with |- context [st_CreateAuditEntry ?e ?st] =>
      pose proof (queue_audit e st Hok) as Hq; destruct (st_CreateAuditEntry e st) as [x st'] end.
    destruct Hq as [Hok' Hu']. simpl. rewrite Hnot. split; [eauto|]. done.
Qed.

(** ** The audit log *)
Context `{Al : !AuditView V} `{!AuditLaws Al}.

(** [m] leaves the log as it is. *)
Definition quiet_api {A} (m : API A) : Prop :=
  ∀ s, q_ok s.(api_store) → q_ok (m s).2.(api_store) ∧ q_log (m s).2.(api_store) = q_log s.(api_store).

Lemma quiet_local {A} (m : API A) : (∀ s, (m s).2.(api_store) = s.(api_store)) → quiet_api m.
Proof. intros Hm s. by rewrite Hm. Qed.
Lemma quiet_api_bind {A C} (m : API A) (k : A → API C) : quiet_api m → (∀ a, quiet_api (k a)) → quiet_api (bind m k).
Proof.
  intros Hm Hk s Hs. unfold bind. destruct (Hm s Hs) as [Hs1 <-]. destruct (m s) as [a s1]. by apply Hk.
Qed.
Lemma quiet_world {A} (m : W A) : quiet_api (with_world m).
Proof. apply quiet_local. intros s. unfold with_world. by destruct (m (api_world s)). Qed.
Lemma quiet_read {A} (m : M store_st A) : reads m → logs_nothing m → quiet_api (with_store m).
Proof.
  intros Hr Hl s Hs. unfold with_store. specialize (Hr _ Hs). specialize (Hl _ Hs).
  destruct (m (api_store s)) as [a st]. by destruct Hr.
Qed.
Lemma quiet_create e : quiet_api (with_store (st_CreateExecution e)).
Proof.
  intros s Hs. unfold with_store. pose proof (queue_create e _ Hs) as Hr. pose proof (log_create e _ Hs) as Hl.
  destruct (st_CreateExecution e (api_store s)) as [a st]. by destruct Hr.
Qed.

Hint Resolve quiet_world quiet_create queue_get queue_output queue_list queue_list_audit
  log_get log_output log_list log_list_audit : server.
Hint Extern 3 (quiet_api (with_store _)) => apply quiet_read : server.
Hint Extern 2 (quiet_api _) => apply quiet_local; reflexivity : server.
Ltac solve_quiet :=
  repeat match goal with
  | |- ∀ _, _ => intro
  | |- quiet_api (bind _ _) => apply quiet_api_bind
  | |- quiet_api (if ?b then _ else _) => destruct b eqn:?
  | |- quiet_api (match ?x with _ => _ end) => destruct x eqn:?
  end; eauto with server.

Lemma handler_quiet catalog ctx r : quiet_api (APIHandler catalog ctx r).
Proof.
  unfold APIHandler, api_CreateExecution, api_ListAuditEntries, api_ListExecutions, api_GetExecution,
    api_GetExecutionOutput, list_handler, since_param. solve_quiet.
Qed.
Lemma authorize_quiet roles authz next ctx r : (∀ ctx, quiet_api (next ctx r)) → quiet_api (AuthorizeAPI roles authz next ctx r).
Proof. intros Hn. unfold AuthorizeAPI. solve_quiet. Qed.
Lemma inner_quiet roles authz catalog ctx r :
  quiet_api (AuthorizeAPI roles authz (route (CheckActionAccess catalog (APIHandler catalog))) ctx r).
Proof.
  apply authorize_quiet. intros ctx'. unfold route, CheckActionAccess. cbv zeta. solve_quiet; apply handler_quiet.
Qed.

(** The entry a request is recorded by. *)
Definition records (r : http_request) (i : CallerIdentity) (resp : http_response) (s : api_state) (e : AuditEntry) : Prop :=
  e.(ae_StatusCode) = resp.(hr_Status) ∧ e.(ae_Username) = i.(ci_Username)
  ∧ e.(ae_Method) = r.(hq_Method) ∧ e.(ae_Path) = r.(hq_Path) ∧ e.(ae_Action) = unless_empty s.(api_routed)
  ∧ e.(ae_ExecutionID) = unless_empty s.(api_audit).(ac_ExecutionID)
  ∧ e.(ae_Jira) = unless_empty s.(api_audit).(ac_Jira)
  ∧ e.(ae_TargetCluster) = unless_empty s.(api_audit).(ac_TargetCluster).

End server.

Module ServerExample.
Import ModelsExample StoresExample HandlersExample.

Definition roles : list RoleMapping := [Build_RoleMapping "SREP" "res"].
Definition ocm : Authorization := AccessReview (Ok tt) "svc".
(** A request without a token. *)
Definition anonymous : http_request :=
  {| hq_Method := "POST"; hq_Path := "/api/v0/trusted-actions/get/run"; hq_Token := Ok None;
     hq_Call := ApiCreateExecution "get" (Ok ModelsExample.request) |}.

Lemma api_requires_role_witness :
  q_ok (serve_enabled roles ocm catalog anonymous start).2.(api_store)
  ∧ (serve_enabled roles ocm catalog anonymous start).1 = auth_error 401 "Authentication required.".
Proof.
  split; [|vm_compute; reflexivity].
  pose proof (api_requires_role roles ocm catalog anonymous start start_ok) as Hw.
  assert (∀ i, ¬ authorised roles ocm catalog anonymous i) as Hno by (intros i [Hj _]; discriminate Hj).
  specialize (Hw Hno). revert Hw. destruct (serve_enabled _ _ _ anonymous start) as [o s'].
  intros (_ & Hw & _). exact Hw.
Defined.

(** A request by a named user, and its one entry. *)
Definition named : http_request :=
  {| hq_Method := "GET"; hq_Path := "/api/v0/trusted-actions/";
     hq_Token := Ok (Some (MapClaims {["username" := JStr "sre"]})); hq_Call := ApiCatalog |}.
End ServerExample.
