(* ===== verification/Config.v ===== *)
(** internal/config/config.go - the configuration from the environment and the
    config file - and the decisions runServer (cmd/server/main.go) takes from it
    before it serves anything.

    [getenv] is os.Getenv; reading and decoding the YAML file is outside the model,
    so its result is an argument. *)

From S2P Require Import Prelude GoString Json Env Authorization Actions AwsGet AwsApi Backplane Worker Auth.
From Stdlib Require Import Ascii.
#[local] Open Scope Z_scope.

Inductive AuthPolicy := EnabledAuthPolicy | DisabledAuthPolicy | OcmConfigAuthPolicy.
#[global] Instance auth_policy_eq_dec : EqDecision AuthPolicy.
Proof. solve_decision. Defined.

Record Config := {
  ListenAddr : string; LogLevel : string; LogJSON : bool;
  AWSRegion : string; AWSAccessKeyID : string; AWSSecretAccessKey : string; AWSSessionToken : string;
  AWSEndpointURL : string; AWSProxyURL : string;
  S3Bucket : string; S3KeyPrefix : string;
  AllowedAccounts : list string; Roles : list RoleMapping; JWKCertFile : string; JWKCertURL : string;
  OCMBaseURL : string; OCMClientID : string; OCMClientSecret : string; OCMToken : string;
  DatabaseURL : string; DBMaxOpenConns : Z; DBMaxIdleConns : Z; DBConnMaxLifetime : Z;
  WorkerConcurrency : Z; WorkerPollInterval : Z; WorkerExecutionTimeout : Z;
  BackplaneURL : string; BackplaneClientID : string; BackplaneClientSecret : string;
  BackplaneAssumeInitialARN : string; BackplaneProxyURL : string;
  Kubeconfig : string;
  AllowedNamespaces : list string; AllowedSecrets : list string;
  AWSAllowedRegions : list string; AWSAllowedOperations : list string;
  cfg_AuthPolicy : AuthPolicy }.

(** [configFile]. *)
Record configFile := {
  cf_Concurrency : Z; cf_PollInterval : Z; cf_ExecutionTimeout : Z;
  cf_AllowedNamespaces : list string; cf_AllowedSecrets : list string;
  cf_AWSAllowedRegions : list string; cf_AWSAllowedOperations : list string;
  cf_AWSEndpointURL : string; cf_AWSProxyURL : string;
  cf_AssumeInitialARN : string; cf_BackplaneProxyURL : string; cf_Roles : list RoleMapping }.

(** The defaults [readConfigFile] starts from. *)
Definition default_configFile : configFile :=
  {| cf_Concurrency := 4; cf_PollInterval := 5 * 1000000000; cf_ExecutionTimeout := 120 * 1000000000;
     cf_AllowedNamespaces := []; cf_AllowedSecrets := []; cf_AWSAllowedRegions := [];
     cf_AWSAllowedOperations := []; cf_AWSEndpointURL := ""; cf_AWSProxyURL := "";
     cf_AssumeInitialARN := ""; cf_BackplaneProxyURL := ""; cf_Roles := [] |}.

(** [readConfigFile]: [file] is what reading the path gives, [decode] what
    yaml.Unmarshal makes of it over the defaults. *)
Definition readConfigFile (path : string) (file : res string) (decode : string → configFile → res configFile)
  : res configFile :=
  if is_empty path then Ok default_configFile
  else
    let? data := wrap_err ("failed to read '" +:+ path +:+ "' config file") file in
    wrap_err ("failed to unmarshal '" +:+ path +:+ "' config file") (decode data default_configFile).

Section load.
Context `{GoDuration} (getenv : string → string).

Definition getEnv (key defaultValue : string) : string :=
  if is_empty (getenv key) then defaultValue else getenv key.
Definition getBoolEnv (key : string) (defaultValue : bool) : bool :=
  if is_empty (getenv key) then defaultValue else default defaultValue (parse_bool (getenv key)).
Definition getIntEnv (key : string) (defaultValue : Z) : Z :=
  if is_empty (getenv key) then defaultValue else default defaultValue (atoi (getenv key)).
Definition getDurationEnv (key : string) (defaultValue : Z) : Z :=
  if is_empty (getenv key) then defaultValue
  else match parse_duration (getenv key) with Ok d => d | Err _ => defaultValue end.
Definition getPositiveIntEnv (key : string) (defaultValue : Z) : Z :=
  let v := getIntEnv key defaultValue in if 0 <? v then v else defaultValue.
Definition getPositiveDurationEnv (key : string) (defaultValue : Z) : Z :=
  let v := getDurationEnv key defaultValue in if 0 <? v then v else defaultValue.
Definition getStringSliceEnv (key : string) (defaultValue : list string) : list string :=
  let value := getenv key in
  if is_empty value then defaultValue
  else filter (λ s, s ≠ "") (trim_space <$> split_char "," value).

(** The auth policy of [Load]. *)
Definition load_auth_policy : res AuthPolicy :=
  let env := getEnv "ROSA_TA_AUTH" "" in
  if is_empty env then
    Ok (if getBoolEnv "ROSA_TA_ENABLE_AUTH" true then EnabledAuthPolicy else DisabledAuthPolicy)
  else if bool_decide (env = "enabled") then Ok EnabledAuthPolicy
  else if bool_decide (env = "disabled") then Ok DisabledAuthPolicy
  else if bool_decide (env = "ocmconfig") then Ok OcmConfigAuthPolicy
  else Err (EText ("invalid ROSA_TA_AUTH value: " +:+ env)).

Definition Load (file : res configFile) : res Config :=
  let? cf := file in
  let awsAllowedRegions := match cf.(cf_AWSAllowedRegions) with
                           | [] => Aws.DefaultAllowedRegions
                           | l => l
                           end in
  let? authPolicy := load_auth_policy in
  Ok {| ListenAddr := getEnv "ROSA_TA_LISTEN_ADDR" ":8080"; LogLevel := getEnv "ROSA_TA_LOG_LEVEL" "info";
        LogJSON := getBoolEnv "ROSA_TA_LOG_JSON" false;
        AWSRegion := getEnv "AWS_REGION" ""; AWSAccessKeyID := getEnv "AWS_ACCESS_KEY_ID" "";
        AWSSecretAccessKey := getEnv "AWS_SECRET_ACCESS_KEY" "";
        AWSSessionToken := getEnv "AWS_SESSION_TOKEN" "";
        AWSEndpointURL := getEnv "ROSA_TA_AWS_ENDPOINT_URL" cf.(cf_AWSEndpointURL);
        AWSProxyURL := getEnv "ROSA_TA_AWS_PROXY_URL" cf.(cf_AWSProxyURL);
        S3Bucket := getEnv "ROSA_TA_S3_BUCKET" ""; S3KeyPrefix := getEnv "ROSA_TA_S3_KEY_PREFIX" "trusted-actions";
        AllowedAccounts := getStringSliceEnv "ROSA_TA_ALLOWED_ACCOUNTS" []; Roles := cf.(cf_Roles);
        JWKCertFile := getEnv "ROSA_TA_JWK_CERT_FILE" "";
        JWKCertURL := getEnv "ROSA_TA_JWK_CERT_URL"
          "https://sso.redhat.com/auth/realms/redhat-external/protocol/openid-connect/certs";
        OCMBaseURL := getEnv "ROSA_TA_OCM_BASE_URL" "https://api.openshift.com";
        OCMClientID := getEnv "ROSA_TA_OCM_CLIENT_ID" "";
        OCMClientSecret := getEnv "ROSA_TA_OCM_CLIENT_SECRET" ""; OCMToken := getEnv "ROSA_TA_OCM_TOKEN" "";
        DatabaseURL := getEnv "DATABASE_URL" "";
        DBMaxOpenConns := getPositiveIntEnv "ROSA_TA_DB_MAX_OPEN_CONNS" 10;
        DBMaxIdleConns := getPositiveIntEnv "ROSA_TA_DB_MAX_IDLE_CONNS" 5;
        DBConnMaxLifetime := getPositiveDurationEnv "ROSA_TA_DB_CONN_MAX_LIFETIME" (300 * 1000000000);
        WorkerConcurrency := getPositiveIntEnv "ROSA_TA_WORKER_CONCURRENCY" cf.(cf_Concurrency);
        WorkerPollInterval := getPositiveDurationEnv "ROSA_TA_WORKER_POLL_INTERVAL" cf.(cf_PollInterval);
        WorkerExecutionTimeout :=
          getPositiveDurationEnv "ROSA_TA_WORKER_EXECUTION_TIMEOUT" cf.(cf_ExecutionTimeout);
        BackplaneURL := getEnv "ROSA_TA_BACKPLANE_URL" "";
        BackplaneClientID := getEnv "ROSA_TA_BACKPLANE_CLIENT_ID" "";
        BackplaneClientSecret := getEnv "ROSA_TA_BACKPLANE_CLIENT_SECRET" "";
        BackplaneAssumeInitialARN := getEnv "ROSA_TA_BACKPLANE_ASSUME_INITIAL_ARN" cf.(cf_AssumeInitialARN);
        BackplaneProxyURL := getEnv "ROSA_TA_BACKPLANE_PROXY_URL" cf.(cf_BackplaneProxyURL);
        Kubeconfig := getEnv "ROSA_TA_KUBECONFIG" "";
        AllowedNamespaces := getStringSliceEnv "ROSA_TA_ALLOWED_NAMESPACES" cf.(cf_AllowedNamespaces);
        AllowedSecrets := getStringSliceEnv "ROSA_TA_ALLOWED_SECRETS" cf.(cf_AllowedSecrets);
        AWSAllowedRegions := getStringSliceEnv "ROSA_TA_AWS_ALLOWED_REGIONS" awsAllowedRegions;
        AWSAllowedOperations := getStringSliceEnv "ROSA_TA_AWS_ALLOWED_OPERATIONS" cf.(cf_AWSAllowedOperations);
        cfg_AuthPolicy := authPolicy |}.
Lemma getPositiveIntEnv_pos key d : 0 < d → 0 < getPositiveIntEnv key d.
Proof. unfold getPositiveIntEnv. cbv zeta. case_match; lia. Qed.
Lemma getPositiveDurationEnv_pos key d : 0 < d → 0 < getPositiveDurationEnv key d.
Proof. unfold getPositiveDurationEnv. cbv zeta. case_match; lia. Qed.

Lemma getStringSliceEnv_entries key d x :
  "" ∉ d → x ∈ getStringSliceEnv key d → x ≠ "".
Proof.
  unfold getStringSliceEnv. cbv zeta. case_match; intros Hd Hx; [by intros ->|].
  by apply list_elem_of_filter in Hx as [? _].
Qed.

Definition auth_values : list string := [""; "enabled"; "disabled"; "ocmconfig"].

Lemma load_auth_policy_cases :
  match load_auth_policy with
  | Ok p =>
      getenv "ROSA_TA_AUTH" ∈ auth_values
      ∧ (p = DisabledAuthPolicy ↔
         getenv "ROSA_TA_AUTH" = "disabled"
         ∨ getenv "ROSA_TA_AUTH" = "" ∧ parse_bool (getenv "ROSA_TA_ENABLE_AUTH") = Some false)
  | Err e => getenv "ROSA_TA_AUTH" ∉ auth_values
             ∧ e = EText ("invalid ROSA_TA_AUTH value: " +:+ getenv "ROSA_TA_AUTH")
  end.
Proof.
  unfold load_auth_policy, auth_values.
  assert (getEnv "ROSA_TA_AUTH" "" = getenv "ROSA_TA_AUTH") as ->
    by (unfold getEnv, is_empty; by case_bool_decide).
  cbv zeta. unfold is_empty at 1. case_bool_decide as E.
  - split; [rewrite E; by left|]. unfold getBoolEnv, is_empty. case_bool_decide as E1.
    { rewrite E1. simpl. split; [done|]. intros [?|[_ Hp]]; [congruence|by vm_compute in Hp]. }
    destruct (parse_bool _) as [[]|]; cbn [default from_option id]; split; intuition congruence.
  - repeat case_bool_decide; simpl; rewrite !elem_of_cons, elem_of_nil.
    all: split; [tauto|]; try done; intuition congruence.
Qed.

(** C24: the configuration fails closed. [Load] fails exactly when the config file
    does or ROSA_TA_AUTH names no policy. The configuration it gives disables
    authentication only if the environment says so outright - ROSA_TA_AUTH is
    "disabled", or it is unset and ROSA_TA_ENABLE_AUTH parses as false, so that an
    unreadable value leaves authentication on; the pool sizes and durations are
    positive whatever the environment holds (the workers' when the file's are); no
    allowlist has an empty entry when the file's have none; and no region is allowed
    unless the file or the environment names one. *)
Theorem load_fails_closed (file : res configFile) :
  (is_ok (Load file) = true ↔ is_ok file = true ∧ getenv "ROSA_TA_AUTH" ∈ auth_values)
  ∧ ∀ cf cfg, file = Ok cf → Load file = Ok cfg →
    (cfg.(cfg_AuthPolicy) = DisabledAuthPolicy ↔
       getenv "ROSA_TA_AUTH" = "disabled"
       ∨ getenv "ROSA_TA_AUTH" = "" ∧ parse_bool (getenv "ROSA_TA_ENABLE_AUTH") = Some false)
    ∧ 0 < cfg.(DBMaxOpenConns) ∧ 0 < cfg.(DBMaxIdleConns) ∧ 0 < cfg.(DBConnMaxLifetime)
    ∧ (0 < cf.(cf_Concurrency) → 0 < cfg.(WorkerConcurrency))
    ∧ (0 < cf.(cf_PollInterval) → 0 < cfg.(WorkerPollInterval))
    ∧ (0 < cf.(cf_ExecutionTimeout) → 0 < cfg.(WorkerExecutionTimeout))
    ∧ ("" ∉ cf.(cf_AllowedNamespaces) → "" ∉ cfg.(AllowedNamespaces))
    ∧ ("" ∉ cf.(cf_AllowedSecrets) → "" ∉ cfg.(AllowedSecrets))
    ∧ ("" ∉ cf.(cf_AWSAllowedRegions) → "" ∉ cfg.(AWSAllowedRegions))
    ∧ ("" ∉ cf.(cf_AWSAllowedOperations) → "" ∉ cfg.(AWSAllowedOperations))
    ∧ (cf.(cf_AWSAllowedRegions) = [] → getenv "ROSA_TA_AWS_ALLOWED_REGIONS" = "" →
       cfg.(AWSAllowedRegions) = []).
Proof.
  pose proof load_auth_policy_cases as Ha. unfold Load.
  destruct file as [cf|e]; cbn [res_bind is_ok]; [|split; [split; [done|by intros [? _]]|done]].
  destruct load_auth_policy as [p|e]; cbn [res_bind is_ok]; [|split; [split; [done|by intros [_ ?]; destruct Ha]|done]].
  destruct Ha as [Hv Hd]. split; [by split|]. intros ? cfg [= <-] [= <-]. simpl.
  assert (∀ key d, "" ∉ d → "" ∉ getStringSliceEnv key d) as Hs
    by (intros key d Hn Hin; by apply (getStringSliceEnv_entries key d "" Hn Hin)).
  assert (∀ l : list string, match l with [] => Aws.DefaultAllowedRegions | _ => l end = l) as Hdef by by intros [].
  split; [done|]. repeat (split; [first [by apply getPositiveIntEnv_pos|by apply getPositiveDurationEnv_pos]|]).
  repeat (split; [first [apply getPositiveIntEnv_pos|apply getPositiveDurationEnv_pos]|]).
  repeat (split; [apply Hs|]).
  split; [intros Hn; apply Hs; by destruct (cf_AWSAllowedRegions cf)|].
  split; [apply Hs|]. intros -> He. unfold getStringSliceEnv, is_empty. by rewrite He.
Qed.
End load.

(** ** runServer: the decisions before serving *)

Inductive AuthMode := AuthOCM (roles : list RoleMapping) | AuthMock.
Inductive KubeMode := KubeKubeconfig (path : string) | KubeBackplane (baseURL : string).
Inductive AwsMode := AwsStatic (cfg : StaticConfig) | AwsCloud (cfg : CloudCredentialsConfig).
Record ServerSetup := {
  su_auth : AuthMode; su_kube : KubeMode; su_aws : AwsMode; su_policy : Aws.policy;
  su_namespaces : list string; su_secrets : list string; su_pool : PoolConfig;
  su_executionTimeout : Z; su_jwks : bool }.

(** The constructors that can fail: the store, the OCM client (or its saved
    configuration) and its connection, the backplane connection and provider. *)
Record StartupDeps := {
  sd_store : res unit; sd_ocmClient : res unit; sd_ocmConnection : res unit;
  sd_bpConnection : res unit; sd_bpProvider : res unit }.

Section startup.
Context `{GoURL}.

(** [logger.Fatal] ends the process. *)
Definition fatal {A} (msg : string) : res A := Err (EText msg).

Definition startup_auth (cfg : Config) (deps : StartupDeps) : res AuthMode :=
  match cfg.(cfg_AuthPolicy) with
  | EnabledAuthPolicy | OcmConfigAuthPolicy =>
      match cfg.(Roles) with
      | [] => fatal "No roles configured"
      | roles =>
          if existsb (λ r, is_empty r.(role_ID) || is_empty r.(role_AMSResource)) roles
          then fatal "Role entry has empty id or amsResource"
          else let? _ := wrap_err "Failed to create OCM client" deps.(sd_ocmClient) in Ok (AuthOCM roles)
      end
  | DisabledAuthPolicy =>
      if is_empty cfg.(Kubeconfig) then fatal "ROSA_TA_AUTH=disabled requires ROSA_TA_KUBECONFIG to be set"
      else if is_empty cfg.(AWSEndpointURL)
      then fatal "ROSA_TA_AUTH=disabled requires ROSA_TA_AWS_ENDPOINT_URL to be set"
      else Ok AuthMock
  end.

Definition startup_kube (cfg : Config) (deps : StartupDeps) : res KubeMode :=
  if negb (is_empty cfg.(Kubeconfig)) then Ok (KubeKubeconfig cfg.(Kubeconfig))
  else
    match url_parse cfg.(BackplaneURL) with
    | Ok u =>
        if bool_decide (url_scheme u = "https") then
          let? _ := wrap_err "Failed to create backplane OCM connection" deps.(sd_bpConnection) in
          let? _ := wrap_err "Failed to create backplane provider" deps.(sd_bpProvider) in
          Ok (KubeBackplane cfg.(BackplaneURL))
        else fatal ("ROSA_TA_BACKPLANE_URL must use HTTPS: " +:+ cfg.(BackplaneURL))
    | Err _ => fatal ("ROSA_TA_BACKPLANE_URL must use HTTPS: " +:+ cfg.(BackplaneURL))
    end.

Definition startup_aws (cfg : Config) (deps : StartupDeps) (auth : AuthMode) : res AwsMode :=
  if negb (is_empty cfg.(AWSEndpointURL)) then
    Ok (AwsStatic {| sc_Region := cfg.(AWSRegion); sc_AccessKeyID := cfg.(AWSAccessKeyID);
                     sc_SecretAccessKey := cfg.(AWSSecretAccessKey); sc_SessionToken := cfg.(AWSSessionToken);
                     sc_EndpointURL := cfg.(AWSEndpointURL); sc_InfraID := "" |})
  else
    match auth with
    | AuthMock => fatal "AWS access needs either ROSA_TA_AWS_ENDPOINT_URL or an OCM client"
    | AuthOCM _ =>
        let? _ := wrap_err "Failed to get the OCM connection required for AWS credentials"
                    deps.(sd_ocmConnection) in
        Ok (AwsCloud {| cc_URL := cfg.(BackplaneURL); cc_AssumeInitialARN := cfg.(BackplaneAssumeInitialARN);
                        cc_ProxyURL := cfg.(BackplaneProxyURL); cc_AWSProxyURL := cfg.(AWSProxyURL);
                        cc_ClusterCacheTTL := 0 |})
    end.

Definition runServer_setup (cfg : Config) (deps : StartupDeps) : res ServerSetup :=
  let? _ := wrap_err "Failed to initialize database" deps.(sd_store) in
  let? auth := startup_auth cfg deps in
  let? kube := startup_kube cfg deps in
  match cfg.(AWSAllowedRegions) with
  | [] => fatal "No AWS region allowlist configured"
  | regions =>
      let? aws := startup_aws cfg deps auth in
      Ok {| su_auth := auth; su_kube := kube; su_aws := aws;
            su_policy := Aws.Policy regions cfg.(AWSAllowedOperations);
            su_namespaces := cfg.(AllowedNamespaces); su_secrets := cfg.(AllowedSecrets);
            su_pool := pool_New cfg.(WorkerConcurrency) cfg.(WorkerPollInterval);
            su_executionTimeout := executor_timeout cfg.(WorkerExecutionTimeout);
            su_jwks := negb (bool_decide (cfg.(cfg_AuthPolicy) = DisabledAuthPolicy)) |}
  end.

(** The text is a URL with the scheme https. *)
Definition https_url (s : string) : Prop := ∃ u, url_parse s = Ok u ∧ url_scheme u = "https".

Lemma startup_kube_cases cfg deps kube :
  startup_kube cfg deps = Ok kube →
  kube = KubeBackplane cfg.(BackplaneURL) ∧ https_url cfg.(BackplaneURL)
  ∨ kube = KubeKubeconfig cfg.(Kubeconfig) ∧ cfg.(Kubeconfig) ≠ "".
Proof.
  unfold startup_kube, https_url, is_empty. case_bool_decide; simpl; [|intros [= <-]; auto].
  destruct (url_parse (BackplaneURL cfg)) as [u|] eqn:Hu; [|done]. case_bool_decide; [|done].
  intros (? & _ & (? & _ & [= <-])%res_bind_ok)%res_bind_ok. left. eauto.
Qed.

(** C23: a server that starts is safe to serve. If startup succeeds, then with
    mocked authentication the clusters are reached through a kubeconfig and AWS
    through an endpoint override, and no token is checked only then; with real
    authentication there are roles, each with an id and a resource. Clusters are reached
    through backplane only at the configured URL and over HTTPS. Per-cluster AWS
    credentials are fetched only with an OCM client, from that same configured URL: over
    HTTPS when clusters are reached through backplane, while with a kubeconfig and no
    endpoint override no check looks at the URL. The region allowlist is not empty; and
    there is at least one worker, with a positive poll interval and timeout. *)
Theorem startup_is_safe cfg deps su :
  runServer_setup cfg deps = Ok su →
  (su.(su_auth) = AuthMock →
     su.(su_kube) = KubeKubeconfig cfg.(Kubeconfig) ∧ cfg.(Kubeconfig) ≠ ""
     ∧ ∃ sc, su.(su_aws) = AwsStatic sc ∧ sc.(sc_EndpointURL) ≠ "")
  ∧ (su.(su_jwks) = false ↔ su.(su_auth) = AuthMock)
  ∧ (∀ roles, su.(su_auth) = AuthOCM roles →
       roles ≠ [] ∧ ∀ r, r ∈ roles → r.(role_ID) ≠ "" ∧ r.(role_AMSResource) ≠ "")
  ∧ (∀ base, su.(su_kube) = KubeBackplane base → base = cfg.(BackplaneURL) ∧ https_url base)
  ∧ (∀ cc, su.(su_aws) = AwsCloud cc →
       (∃ roles, su.(su_auth) = AuthOCM roles) ∧ cc.(cc_URL) = cfg.(BackplaneURL)
       ∧ ((∃ base, su.(su_kube) = KubeBackplane base) ∧ https_url cc.(cc_URL)
          ∨ su.(su_kube) = KubeKubeconfig cfg.(Kubeconfig) ∧ cfg.(Kubeconfig) ≠ ""))
  ∧ Aws.AllowedRegions su.(su_policy) ≠ []
  ∧ 1 ≤ su.(su_pool).(pc_concurrency) ∧ 0 < su.(su_pool).(pc_pollInterval) ∧ 0 < su.(su_executionTimeout).
Proof.
  unfold runServer_setup. intros (? & _ & (auth & Ha & (kube & Hk & Hrest)%res_bind_ok)%res_bind_ok)%res_bind_ok.
  destruct (AWSAllowedRegions cfg) as [|region regions]; [done|].
  apply res_bind_ok in Hrest as (aws & Haws & [= <-]). simpl.
  assert (∀ s, is_empty s = false → s ≠ "") as Hne by (intros s; unfold is_empty; by case_bool_decide).
  split; [|split; [|split; [|split; [|split; [|split; [done|]]]]]].
  - intros ->. unfold startup_auth in Ha. destruct (cfg_AuthPolicy cfg).
    1, 3: by destruct (Roles cfg); [|case_match; [|by apply res_bind_ok in Ha as (? & _ & ?)]].
    destruct (is_empty (Kubeconfig cfg)) eqn:Hkc; [done|].
    destruct (is_empty (AWSEndpointURL cfg)) eqn:Hep; [done|].
    unfold startup_kube in Hk. rewrite Hkc in Hk. injection Hk as <-.
    unfold startup_aws in Haws. rewrite Hep in Haws. injection Haws as <-. eauto 10.
  - unfold startup_auth in Ha. destruct (cfg_AuthPolicy cfg); simpl.
    1, 3: destruct (Roles cfg); [done|]; case_match; [done|];
      apply res_bind_ok in Ha as (? & _ & [= <-]); done.
    repeat (case_match; [done|]). by injection Ha as <-.
  - intros roles ->. unfold startup_auth in Ha.
    destruct (cfg_AuthPolicy cfg); [|by repeat (case_match; [done|])|].
    all: destruct (Roles cfg) as [|r0 rs] eqn:Hr; [done|];
      destruct (existsb _ _) eqn:Hex; [done|]; apply res_bind_ok in Ha as (? & _ & [= <-]);
      split; [done|]; intros r Hin;
      assert (is_empty (role_ID r) || is_empty (role_AMSResource r) = false) as [? ?]%orb_false_elim
        by (destruct (_ || _) eqn:Hb; [|done]; rewrite (proj2 (existsb_exists _ _)) in Hex; [done|];
            exists r; split; [by apply list_elem_of_In|done]); auto.
  - intros base ->. by destruct (startup_kube_cases _ _ _ Hk) as [[[= ->] ?]|[? _]].
  - intros cc ->. unfold startup_aws in Haws. case_match; [done|]. destruct auth; [|done].
    apply res_bind_ok in Haws as (? & _ & [= <-]). simpl. split; [eauto|]. split; [done|].
    destruct (startup_kube_cases _ _ _ Hk) as [[-> ?]|[-> ?]]; eauto.
  - unfold pool_New, executor_timeout, defaultPollInterval, defaultExecutionTimeout. simpl.
    repeat case_match; lia.
Qed.
End startup.

Module ConfigExample.
Import BackplaneExample AwsGetExample.
#[local] Existing Instance url_stub.

(** A server with mocked authentication, a kubeconfig and an AWS emulator. *)
Definition getenv (key : string) : string :=
  if bool_decide (key = "ROSA_TA_AUTH") then "disabled"
  else if bool_decide (key = "ROSA_TA_KUBECONFIG") then "/kc"
  else if bool_decide (key = "ROSA_TA_AWS_ENDPOINT_URL") then "http://localhost:4566"
  else if bool_decide (key = "ROSA_TA_AWS_ALLOWED_REGIONS") then "us-east-1, us-west-2,"
  else if bool_decide (key = "ROSA_TA_DB_MAX_OPEN_CONNS") then "-3"
  else "".
Definition loaded : res Config := Load getenv (Ok default_configFile).
Definition all_up : StartupDeps := Build_StartupDeps (Ok tt) (Ok tt) (Ok tt) (Ok tt) (Ok tt).
Definition dev_config : Config :=
  Eval vm_compute in match loaded with Ok c => c | Err _ => Build_Config "" "" false "" "" "" "" "" "" "" "" [] []
    "" "" "" "" "" "" "" 0 0 0 0 0 0 "" "" "" "" "" "" [] [] [] [] DisabledAuthPolicy end.
Definition dev_setup : ServerSetup :=
  {| su_auth := AuthMock; su_kube := KubeKubeconfig "/kc";
     su_aws := AwsStatic (Build_StaticConfig "" "" "" "" "http://localhost:4566" "");
     su_policy := Aws.Policy ["us-east-1"; "us-west-2"] []; su_namespaces := []; su_secrets := [];
     su_pool := pool_New 4 5000000000; su_executionTimeout := 120000000000; su_jwks := false |}.

Lemma load_fails_closed_witness :
  dev_config.(AWSAllowedRegions) = ["us-east-1"; "us-west-2"] ∧ 0 < dev_config.(DBMaxOpenConns)
  ∧ 0 < dev_config.(WorkerConcurrency).
Proof.
  split; [vm_compute; reflexivity|].
  destruct (proj2 (load_fails_closed getenv (Ok default_configFile)) default_configFile dev_config eq_refl
    ltac:(vm_compute; reflexivity)) as (_ & Hconns & _ & _ & Hw & _).
  split; [exact Hconns|]. apply Hw. reflexivity.
Defined.

Lemma startup_is_safe_witness :
  runServer_setup dev_config all_up = Ok dev_setup ∧ 1 ≤ dev_setup.(su_pool).(pc_concurrency).
Proof.
  split; [vm_compute; reflexivity|].
  destruct (startup_is_safe dev_config all_up dev_setup ltac:(vm_compute; reflexivity))
    as (_ & _ & _ & _ & _ & _ & Hw & _). exact Hw.
Defined.
End ConfigExample.
