(* ===== verification/RtaClient.v ===== *)
(** internal/rta/client.go and version.go - the HTTP client of the rta command
    line: where it may send a token, which requests it makes, and what it makes of
    the answers.

    The network is a [Transport]: the answer to a request, given the requests sent
    before. [net/http]'s redirect loop is modelled as far as the client's
    [CheckRedirect] steers it ([follow_redirects]). Decoding a body into the struct a
    call expects is an argument of the call. *)

From Stdlib Require Import Ascii.
From S2P Require Import Prelude GoString Json Env Actions ListAlerts Backplane Models Catalog Http.
#[local] Open Scope Z_scope.

(** ** version.go *)

(** The variables the linker sets, and what the runtime reports: the main module's
    version, if there is build information, the Go version and the platform. *)
Record build := {
  bd_Version : string; bd_Commit : string; bd_BuildDate : string;
  bd_info : option string; bd_goVersion : string; bd_GOOS : string; bd_GOARCH : string }.

Record versionInfo := {
  vi_Version : string; vi_Commit : string; vi_BuildDate : string; vi_GoVersion : string;
  vi_Platform : string }.

Definition or_unknown (s : string) : string := if is_empty s then "unknown" else s.

Definition getVersionInfo (b : build) : versionInfo :=
  let v := if bool_decide (b.(bd_Version) = "dev") then
             match b.(bd_info) with
             | Some main => if has_prefix "v" main then main else b.(bd_Version)
             | None => b.(bd_Version)
             end
           else b.(bd_Version) in
  {| vi_Version := v; vi_Commit := or_unknown b.(bd_Commit); vi_BuildDate := or_unknown b.(bd_BuildDate);
     vi_GoVersion := b.(bd_goVersion); vi_Platform := b.(bd_GOOS) +:+ "/" +:+ b.(bd_GOARCH) |}.

Definition newline : string := bytes [10]%nat.

(** [versionInfo.String]. *)
Definition versionInfo_String (i : versionInfo) : string :=
  "rta version: " +:+ i.(vi_Version) +:+ newline +:+ "commit: " +:+ i.(vi_Commit) +:+ newline
  +:+ "build date: " +:+ i.(vi_BuildDate) +:+ newline +:+ "go: " +:+ i.(vi_GoVersion) +:+ newline
  +:+ "platform: " +:+ i.(vi_Platform).

Definition userAgent (b : build) : string :=
  let info := getVersionInfo b in "rta/" +:+ info.(vi_Version) +:+ " (" +:+ info.(vi_Platform) +:+ ")".

(** ** [url.PathEscape] *)

Definition is_alnum (n : nat) : bool :=
  (Nat.leb 48 n && Nat.leb n 57) || (Nat.leb 65 n && Nat.leb n 90) || (Nat.leb 97 n && Nat.leb n 122).
(** Letters, digits, [-_.~] and, in a path segment, [$&+:=@]. *)
Definition segment_safe (a : ascii) : bool :=
  let n := nat_of_ascii a in
  is_alnum n || existsb (Nat.eqb n) [45; 95; 46; 126; 36; 38; 43; 58; 61; 64]%nat.
Definition path_escape_char (a : ascii) : string :=
  let n := nat_of_ascii a in
  if segment_safe a then String a ""
  else String "%" (String (upper_hex (n / 16)) (String (upper_hex (n mod 16)) "")).
Fixpoint path_escape (s : string) : string :=
  match s with EmptyString => "" | String a s' => path_escape_char a +:+ path_escape s' end.

(** [url.PathUnescape], the server's side of it. *)
Definition unhex (a : ascii) : option nat :=
  let n := nat_of_ascii a in
  if (Nat.leb 48 n && Nat.leb n 57) then Some (n - 48)%nat
  else if (Nat.leb 65 n && Nat.leb n 70) then Some (n - 55)%nat
  else if (Nat.leb 97 n && Nat.leb n 102) then Some (n - 87)%nat
  else None.
Fixpoint path_unescape (s : string) : option string :=
  match s with
  | EmptyString => Some ""
  | String a s' =>
      if bool_decide (a = "%"%char) then
        match s' with
        | String x (String y t) =>
            match unhex x, unhex y with
            | Some hi, Some lo => String (ascii_of_nat (16 * hi + lo)) <$> path_unescape t
            | _, _ => None
            end
        | _ => None
        end
      else String a <$> path_unescape s'
  end.

(** ** The client *)

Definition basePath : string := "/api/v0/trusted-actions".

(** The part of a parsed URL the client looks at besides [GoURL]'s. *)
Class UrlParts `{GoURL} := { url_hostname : url → string; url_path : url → string }.

Record api_request := {
  aq_method : string; aq_url : string; aq_authorization : option string; aq_userAgent : string;
  aq_accept : string; aq_contentType : option string; aq_body : option string }.
(** A status and what reading the body gave. *)
Record api_response := { ap_status : Z; ap_data : res string }.

(** [http.Client.Do], by the requests sent before. *)
Class Transport := http_Do : list api_request → api_request → res api_response.

Section client.
Context `{U : GoURL} `{!UrlParts} `{GoJson} (b : build).

(** [rejectHTTPSDowngrade]: [via] are the requests made already, oldest first. *)
Definition rejectHTTPSDowngrade (req : url) (via : list url) : res unit :=
  if (10 <=? length via)%nat then Err (EText "stopped after 10 redirects")
  else
    match last via with
    | Some prev =>
        if bool_decide (url_scheme prev = "https") && negb (bool_decide (url_scheme req = "https"))
        then Err (EText ("refusing redirect from HTTPS to " +:+ url_string req +:+ ": would expose credentials"))
        else Ok tt
    | None => Ok tt
    end.

Record Client := {
  cl_base : string; cl_token : string; cl_userAgent : string;
  cl_checkRedirect : url → list url → res unit }.

(** [ClientOption]. *)
Definition ClientOption : Type := Client → Client.
Definition WithToken (token : string) : ClientOption := λ c,
  {| cl_base := c.(cl_base); cl_token := token; cl_userAgent := c.(cl_userAgent);
     cl_checkRedirect := c.(cl_checkRedirect) |}.
(** A caller's own [http.Client] brings its own redirect policy. *)
Definition WithHTTPClient (check : url → list url → res unit) : ClientOption := λ c,
  {| cl_base := c.(cl_base); cl_token := c.(cl_token); cl_userAgent := c.(cl_userAgent);
     cl_checkRedirect := check |}.

Definition isSecureOrLoopback (rawURL : string) : bool :=
  match url_parse rawURL with
  | Err _ => false
  | Ok u =>
      if bool_decide (url_scheme u = "https") then true
      else contains ["localhost"; "127.0.0.1"; "::1"] (url_hostname u)
  end.

Definition NewClient (serverURL : string) (opts : list ClientOption) : res Client :=
  if is_empty serverURL then Err (EText "server URL is required; set --server or RTA_SERVER")
  else
    let serverURL := trim_right_char "/" serverURL in
    let c := foldl (λ c o, o c)
               {| cl_base := serverURL +:+ basePath; cl_token := ""; cl_userAgent := userAgent b;
                  cl_checkRedirect := rejectHTTPSDowngrade |} opts in
    if negb (is_empty c.(cl_token)) && negb (isSecureOrLoopback serverURL)
    then Err (EText ("refusing to send credentials over plain HTTP to " +:+ serverURL
                     +:+ "; use HTTPS or a loopback address"))
    else Ok c.

(** ** Following redirects

    [hop] is the answer of the servers to the next request, given the requests made:
    the URL of a redirect, or none. The result is the URLs requested, oldest first,
    and whether the client stopped with an error; [None] when the fuel ran out. *)
Fixpoint follow_redirects (fuel : nat) (check : url → list url → res unit)
    (hop : list url → url → option url) (via : list url) (u : url)
  : option (list url * res unit) :=
  match fuel with
  | O => None
  | S fuel =>
      let via' := via ++ [u] in
      match hop via u with
      | None => Some (via', Ok tt)
      | Some next =>
          match check next via' with
          | Err e => Some (via', Err e)
          | Ok _ => follow_redirects fuel check hop via' next
          end
      end
  end.
End client.

(** ** Errors of the API *)

Definition http_statuses : list (Z * string) :=
  [(100, "Continue"); (101, "Switching Protocols"); (102, "Processing"); (103, "Early Hints");
   (200, "OK"); (201, "Created"); (202, "Accepted"); (203, "Non-Authoritative Information");
   (204, "No Content"); (205, "Reset Content"); (206, "Partial Content"); (207, "Multi-Status");
   (208, "Already Reported"); (226, "IM Used");
   (300, "Multiple Choices"); (301, "Moved Permanently"); (302, "Found"); (303, "See Other");
   (304, "Not Modified"); (305, "Use Proxy"); (307, "Temporary Redirect"); (308, "Permanent Redirect");
   (400, "Bad Request"); (401, "Unauthorized"); (402, "Payment Required"); (403, "Forbidden");
   (404, "Not Found"); (405, "Method Not Allowed"); (406, "Not Acceptable");
   (407, "Proxy Authentication Required"); (408, "Request Timeout"); (409, "Conflict"); (410, "Gone");
   (411, "Length Required"); (412, "Precondition Failed"); (413, "Request Entity Too Large");
   (414, "Request URI Too Long"); (415, "Unsupported Media Type");
   (416, "Requested Range Not Satisfiable"); (417, "Expectation Failed"); (418, "I'm a teapot");
   (421, "Misdirected Request"); (422, "Unprocessable Entity"); (423, "Locked");
   (424, "Failed Dependency"); (425, "Too Early"); (426, "Upgrade Required");
   (428, "Precondition Required"); (429, "Too Many Requests");
   (431, "Request Header Fields Too Large"); (451, "Unavailable For Legal Reasons");
   (500, "Internal Server Error"); (501, "Not Implemented"); (502, "Bad Gateway");
   (503, "Service Unavailable"); (504, "Gateway Timeout"); (505, "HTTP Version Not Supported");
   (506, "Variant Also Negotiates"); (507, "Insufficient Storage"); (508, "Loop Detected");
   (510, "Not Extended"); (511, "Network Authentication Required")].
(** [http.StatusText]. *)
Definition StatusText (code : Z) : string :=
  match List.find (λ p, p.1 =? code) http_statuses with Some (_, text) => text | None => "" end.

Record APIError := {
  xe_Method : string; xe_Path : string; xe_StatusCode : Z; xe_Code : string; xe_Reason : string }.

(** [APIError.Error]. *)
Definition APIError_Error (e : APIError) : string :=
  let status := if is_empty e.(xe_Code) then StatusText e.(xe_StatusCode) else e.(xe_Code) in
  let line := e.(xe_Method) +:+ " " +:+ e.(xe_Path) +:+ ": " +:+ dec e.(xe_StatusCode) +:+ " " +:+ status in
  if is_empty e.(xe_Reason) then line else line +:+ ": " +:+ e.(xe_Reason).

(** Decoding into [openapi.Error]: its code and reason. All three members are strings;
    one of another type fails the decoding. *)
Definition decode_api_error (v : json) : option (string * string) :=
  match v with
  | JNull => Some ("", "")
  | JObj o =>
      foldl (λ acc kv,
        match acc with
        | None => None
        | Some (code, reason) =>
            let key := fold_key kv.1 in
            if contains ["code"; "kind"; "reason"] key then
              match kv.2 with
              | JStr s => Some (if bool_decide (key = "code") then s else code,
                                if bool_decide (key = "reason") then s else reason)
              | JNull => Some (code, reason)
              | _ => None
              end
            else Some (code, reason)
        end) (Some ("", "")) o
  | _ => None
  end.

Section calls.
Context `{U : GoURL} `{!UrlParts} `{GoJson} `{Transport}.

(** The path of a request's URL. *)
Definition request_path (req : api_request) : string :=
  match url_parse req.(aq_url) with Ok u => url_path u | Err _ => "" end.

Definition parseAPIError (req : api_request) (statusCode : Z) (body : string) : APIError :=
  let plain :=
    let trimmed := trim_space body in
    {| xe_Method := req.(aq_method); xe_Path := request_path req; xe_StatusCode := statusCode; xe_Code := "";
       xe_Reason := if (256 <? String.length trimmed)%nat then String.substring 0 256 trimmed +:+ "..."
                    else trimmed |} in
  match json_unmarshal body with
  | Err _ => plain
  | Ok v =>
      match decode_api_error v with
      | Some (code, reason) =>
          if is_empty code then plain
          else {| xe_Method := req.(aq_method); xe_Path := request_path req; xe_StatusCode := statusCode;
                  xe_Code := code; xe_Reason := reason |}
      | None => plain
      end
  end.

(** The requests sent so far. *)
Notation Net := (M (list api_request)).
Definition send (req : api_request) : Net (res api_response) := λ sent,
  (http_Do sent req, sent ++ [req]).

(** [Client.do]; [zero] is the zero value of what [out] points to. *)
Definition client_do {A} (c : Client) (zero : A) (decode : string → res A) (req : api_request) : Net (res A) :=
  let req := {| aq_method := req.(aq_method); aq_url := req.(aq_url);
                aq_authorization := if is_empty c.(cl_token) then None else Some ("Bearer " +:+ c.(cl_token));
                aq_userAgent := c.(cl_userAgent); aq_accept := "application/json";
                aq_contentType := req.(aq_contentType); aq_body := req.(aq_body) |} in
  let where_ := req.(aq_method) +:+ " " +:+ request_path req in
  do? resp <- wrap_errM where_ (send req);
  do? data <- ret (wrap_err (where_ +:+ ": read response") resp.(ap_data));
  if (resp.(ap_status) <? 200) || (300 <=? resp.(ap_status))
  then ret (Err (EText (APIError_Error (parseAPIError req resp.(ap_status) data))))
  else if is_empty data then ret (Ok zero)
  else ret (wrap_err (where_ +:+ ": decode response") (decode data)).

(** [http.NewRequestWithContext]: it fails on a URL that does not parse. *)
Definition new_request (method u : string) (contentType body : option string) : res api_request :=
  let? _ := url_parse u in
  Ok {| aq_method := method; aq_url := u; aq_authorization := None; aq_userAgent := ""; aq_accept := "";
        aq_contentType := contentType; aq_body := body |}.

Definition client_get {A} (c : Client) (zero : A) (decode : string → res A) (path : string) (query : strmap)
  : Net (res A) :=
  let u := c.(cl_base) +:+ path in
  let u := if bool_decide (query = ∅) then u else u +:+ "?" +:+ encode_values query in
  do? req <- ret (new_request "GET" u None None);
  client_do c zero decode req.

Definition client_post {A} (c : Client) (zero : A) (decode : string → res A) (path body : string)
  : Net (res A) :=
  do? req <- ret (new_request "POST" (c.(cl_base) +:+ path) (Some "application/json") (Some body));
  client_do c zero decode req.
End calls.
Notation Net := (M (list api_request)).

(** ** The API's operations

    [ApiCodec]: encoding a run request and decoding the generated types, with the
    zero value a body of length zero leaves. *)
Class ApiCodec `{GoUUID} := {
  encode_request : ExecutionRequest → string;
  decode_catalog : string → res (list TrustedActionSummary); zero_catalog : list TrustedActionSummary;
  decode_action : string → res TrustedAction; zero_action : TrustedAction;
  decode_execution : string → res openapi_Execution; zero_execution : openapi_Execution;
  decode_executions : string → res ExecutionList; zero_executions : ExecutionList;
  decode_output : string → res ExecutionOutput; zero_output : ExecutionOutput;
  decode_audits : string → res AuditList; zero_audits : AuditList }.

Section operations.
Context `{U : GoURL} `{!UrlParts} `{GoJson} `{Transport} `{ApiCodec} (c : Client).

Definition client_Catalog : Net (res (list TrustedActionSummary)) :=
  client_get c zero_catalog decode_catalog "/" ∅.
Definition client_Describe (action : string) : Net (res TrustedAction) :=
  client_get c zero_action decode_action ("/" +:+ path_escape action) ∅.
Definition client_CreateExecution (action : string) (req : ExecutionRequest) : Net (res openapi_Execution) :=
  client_post c zero_execution decode_execution ("/" +:+ path_escape action +:+ "/run") (encode_request req).
Definition client_ListExecutions (params : strmap) : Net (res ExecutionList) :=
  client_get c zero_executions decode_executions "/runs" params.
Definition client_GetExecution (id : string) : Net (res openapi_Execution) :=
  client_get c zero_execution decode_execution ("/runs/" +:+ path_escape id) ∅.
Definition client_GetExecutionOutput (id : string) : Net (res ExecutionOutput) :=
  client_get c zero_output decode_output ("/runs/" +:+ path_escape id +:+ "/output") ∅.
Definition client_ListAuditEntries (params : strmap) : Net (res AuditList) :=
  client_get c zero_audits decode_audits "/audit" params.
End operations.

(** ** Paths *)

Lemma path_unescape_char a t : path_unescape (path_escape_char a +:+ t) = String a <$> path_unescape t.
Proof. destruct a as [[] [] [] [] [] [] [] []]; reflexivity. Qed.

Lemma mem_char_app c s t : mem_char c (s +:+ t) = mem_char c s || mem_char c t.
Proof. induction s as [|a s IH]; [done|]. simpl. by rewrite IH, orb_assoc. Qed.

(** The characters that end a path segment or a path. *)
Definition delimiters : list ascii := ["/"; "?"; "#"]%char.

Lemma path_escape_char_safe a c : c ∈ delimiters → mem_char c (path_escape_char a) = false.
Proof.
  intros Hc. repeat (apply elem_of_cons in Hc as [->|Hc]); [..|by apply elem_of_nil in Hc].
  all: by destruct a as [[] [] [] [] [] [] [] []].
Qed.

(** An argument stays one path segment. What the client escapes into a request
    path is decoded by the server to the same string, and the escaped text holds no
    slash, question mark or hash, so an action name or an execution id given on the
    command line cannot change which operation is called. *)
Theorem path_escape_segment s :
  path_unescape (path_escape s) = Some s
  ∧ ∀ c, c ∈ delimiters → mem_char c (path_escape s) = false.
Proof.
  split.
  - induction s as [|a s IH]; [done|]. simpl. by rewrite path_unescape_char, IH.
  - intros c Hc. induction s as [|a s IH]; [done|]. simpl.
    by rewrite mem_char_app, IH, path_escape_char_safe.
Qed.

(** ** Redirects *)
Section redirects.
Context `{U : GoURL} (hop : list url → url → option url).

(** Once a request went over HTTPS, all later ones did. *)
Definition no_downgrade (urls : list url) : Prop :=
  ∀ i j u v, (i < j)%nat → urls !! i = Some u → urls !! j = Some v →
  url_scheme u = "https" → url_scheme v = "https".

Lemma no_downgrade_snoc urls next :
  no_downgrade urls → rejectHTTPSDowngrade next urls = Ok tt → no_downgrade (urls ++ [next]).
Proof.
  intros Hd Hr i j u v Hij Hi Hj Hu.
  destruct (decide (j < length urls)%nat) as [Hlt|Hge].
  { rewrite lookup_app_l in Hi, Hj by lia. by eapply (Hd i j). }
  rewrite lookup_app_r in Hj by lia. apply list_lookup_singleton_Some in Hj as [Hj <-].
  rewrite lookup_app_l in Hi by lia. unfold rejectHTTPSDowngrade in Hr. case_match; [done|].
  destruct (last urls) as [prev|] eqn:Hlast.
  - rewrite last_lookup in Hlast.
    assert (url_scheme prev = "https") as Hp.
    { destruct (decide (i = Nat.pred (length urls))) as [->|]; [by simplify_eq|].
      by eapply (Hd i (Nat.pred (length urls))); [lia|..]. }
    rewrite (bool_decide_eq_true_2 _ Hp) in Hr. by case_bool_decide.
  - apply last_None in Hlast as ->. done.
Qed.

Lemma follow_safe fuel via u :
  (length via + fuel = 10)%nat → (0 < fuel)%nat → no_downgrade (via ++ [u]) →
  ∃ urls r, follow_redirects fuel rejectHTTPSDowngrade hop via u = Some (urls, r)
    ∧ (length urls ≤ 10)%nat ∧ no_downgrade urls.
Proof.
  revert via u. induction fuel as [|fuel IH]; [lia|]. intros via u Hlen _ Hd. simpl.
  assert (length (via ++ [u]) ≤ 10)%nat by (rewrite length_app; simpl; lia).
  destruct (hop via u) as [next|]; [|by do 2 eexists].
  destruct (rejectHTTPSDowngrade next (via ++ [u])) as [[]|e] eqn:Hr; [|by do 2 eexists].
  assert (length (via ++ [u]) < 10)%nat as Hlt.
  { unfold rejectHTTPSDowngrade in Hr. destruct (10 <=? length (via ++ [u]))%nat eqn:E; [done|].
    by apply Nat.leb_gt in E. }
  rewrite length_app in Hlt. simpl in Hlt.
  apply IH; [rewrite length_app; simpl; lia|lia|by apply no_downgrade_snoc].
Qed.

(** C31: following redirects stops, and never leaves HTTPS. Whatever the servers
    answer, the client makes at most ten requests, and once one of them went over
    HTTPS every later one did. *)
Theorem redirects_stop_and_stay_secure u :
  ∃ urls r, follow_redirects 10 rejectHTTPSDowngrade hop [] u = Some (urls, r)
    ∧ (length urls ≤ 10)%nat ∧ no_downgrade urls.
Proof.
  apply follow_safe; [done|lia|]. intros i j v w Hij Hi Hj.
  apply lookup_lt_Some in Hj. simpl in Hj. lia.
Qed.
End redirects.

(** ** What the client sends *)
Section sends.
Context `{U : GoURL} `{P : !UrlParts} `{J : GoJson} `{T : Transport} (b : build).

(** The options the package offers. *)
Definition client_option (o : ClientOption) : Prop :=
  (∃ token, o = WithToken token) ∨ (∃ check, o = WithHTTPClient check).

Lemma client_options_keep opts c :
  Forall client_option opts →
  let c' := foldl (λ c o, o c) c opts in
  c'.(cl_base) = c.(cl_base) ∧ c'.(cl_userAgent) = c.(cl_userAgent).
Proof.
  intros Ho. revert c. induction Ho as [|o opts Ho _ IH]; intros c; [done|]. simpl.
  destruct (IH (o c)) as [-> ->]. by destruct Ho as [[? ->]|[? ->]].
Qed.

(** A request of the client [c]: at most one is sent, with this method below this
    URL, and with the bearer token only if there is one. *)
Definition sends {A} (c : Client) (method prefix : string) (m : Net A) : Prop := ∀ sent,
  ∃ new, (m sent).2 = sent ++ new ∧ (length new ≤ 1)%nat
    ∧ Forall (λ q, q.(aq_method) = method ∧ has_prefix prefix q.(aq_url) = true
        ∧ q.(aq_authorization)
          = if is_empty c.(cl_token) then None else Some ("Bearer " +:+ c.(cl_token))) new.

Lemma client_do_sent {A} c (zero : A) decode req sent :
  (client_do c zero decode req sent).2
  = sent ++ [ {| aq_method := req.(aq_method); aq_url := req.(aq_url);
                 aq_authorization := if is_empty c.(cl_token) then None
                                     else Some ("Bearer " +:+ c.(cl_token));
                 aq_userAgent := c.(cl_userAgent); aq_accept := "application/json";
                 aq_contentType := req.(aq_contentType); aq_body := req.(aq_body) |} ].
Proof.
  unfold client_do, bind_res, wrap_errM, send, bind, ret. simpl.
  destruct (http_Do _ _) as [resp|e]; simpl; [|done]. destruct (ap_data resp); simpl; [|done].
  by destruct (_ || _), (is_empty _).
Qed.

Lemma sends_new_request {A} c method prefix url ct body (zero : A) decode :
  has_prefix prefix url = true →
  sends c method prefix
    (bind_res (ret (new_request method url ct body)) (client_do c zero decode)).
Proof.
  intros Hp sent. unfold bind_res, ret, new_request. destruct (url_parse url); simpl.
  - rewrite client_do_sent. eexists. split; [done|]. split; [done|]. by constructor.
  - exists []. rewrite app_nil_r. split; [done|]. split; [simpl; lia|done].
Qed.

Lemma has_prefix_app p q s : has_prefix p (p +:+ q +:+ s) = true.
Proof. unfold has_prefix. by rewrite drop_prefix_app. Qed.

Lemma client_get_sends {A} c (zero : A) decode path query :
  sends c "GET" (c.(cl_base) +:+ path) (client_get c zero decode path query).
Proof.
  unfold client_get. cbv zeta. apply sends_new_request. case_bool_decide.
  - rewrite <- (string_app_nil_r (cl_base c +:+ path)) at 2. apply (has_prefix_app _ "" "").
  - apply (has_prefix_app _ "?").
Qed.
Lemma client_post_sends {A} c (zero : A) decode path body :
  sends c "POST" (c.(cl_base) +:+ path) (client_post c zero decode path body).
Proof.
  unfold client_post. apply sends_new_request.
  rewrite <- (string_app_nil_r (cl_base c +:+ path)) at 2. apply (has_prefix_app _ "" "").
Qed.

(** Where a token may be sent: the URL parses, over HTTPS or to a loopback host. *)
Definition safe_origin (origin : string) : Prop :=
  ∃ u, url_parse origin = Ok u
    ∧ (url_scheme u = "https" ∨ url_hostname u ∈ ["localhost"; "127.0.0.1"; "::1"]).

Lemma isSecureOrLoopback_spec origin : isSecureOrLoopback origin = true ↔ safe_origin origin.
Proof.
  unfold isSecureOrLoopback, safe_origin. destruct (url_parse origin) as [u|e].
  2: { split; [done|]. by intros (? & ? & _). }
  case_bool_decide as Hu; [split; [eauto|done]|]. rewrite contains_true.
  split; [eauto|]. by intros (? & [= <-] & [?|?]).
Qed.

Lemma NewClient_ok server opts c :
  NewClient b server opts = Ok c → Forall client_option opts →
  server ≠ "" ∧ c.(cl_base) = trim_right_char "/" server +:+ basePath
  ∧ (c.(cl_token) ≠ "" → safe_origin (trim_right_char "/" server)).
Proof.
  intros Hc Ho. unfold NewClient in Hc. unfold is_empty at 1 in Hc. case_bool_decide; [done|].
  cbv zeta in Hc. set (c0 := Build_Client _ _ _ _) in Hc.
  destruct (client_options_keep opts c0 Ho) as [Hb _].
  destruct (negb _ && negb _) eqn:Hs; [done|]. injection Hc as <-.
  split; [done|]. split; [done|]. intros Ht.
  apply andb_false_iff in Hs as [Hs|Hs]; apply negb_false_iff in Hs.
  - by apply bool_decide_eq_true in Hs.
  - by apply isSecureOrLoopback_spec.
Qed.

(** C25: credentials only go to the configured server, over a safe connection. A
    client built from a server URL and the package's options addresses everything to
    that server's API: each call sends at most one request, below that base; when it
    carries a token, the server URL parses and its scheme is https or its host is
    localhost, 127.0.0.1 or ::1 - with a token and any other URL, or without a URL, no
    client is made. *)
Theorem client_confines_token server opts c :
  NewClient b server opts = Ok c → Forall client_option opts →
  let origin := trim_right_char "/" server in
  server ≠ "" ∧ c.(cl_base) = origin +:+ basePath
  ∧ (c.(cl_token) ≠ "" → safe_origin origin)
  ∧ (∀ A (zero : A) decode path query,
       sends c "GET" (origin +:+ basePath +:+ path) (client_get c zero decode path query))
  ∧ (∀ A (zero : A) decode path body,
       sends c "POST" (origin +:+ basePath +:+ path) (client_post c zero decode path body)).
Proof.
  intros Hc Ho origin. destruct (NewClient_ok server opts c Hc Ho) as (Hs & Hb & Ht).
  assert (∀ path, origin +:+ basePath +:+ path = cl_base c +:+ path) as Hpath
    by (intros path; rewrite Hb; apply string_app_assoc).
  split_and!; [done|done|done|..]; intros; rewrite Hpath.
  - apply client_get_sends.
  - apply client_post_sends.
Qed.

(** The answer to the request [q], sent after [sent], holds the value [a]: the exchange
    succeeded with a 2xx status, and the body was read and is empty, giving the zero
    value, or decodes to it. *)
Definition answers {A} (zero : A) (decode : string → res A) (sent : list api_request) (q : api_request)
    (a : A) : Prop :=
  ∃ resp data, http_Do sent q = Ok resp ∧ 200 ≤ resp.(ap_status) < 300
    ∧ resp.(ap_data) = Ok data ∧ (data = "" ∧ a = zero ∨ data ≠ "" ∧ decode data = Ok a).

(** What a call makes of an answer. Exactly one request is sent, and it yields the
    value that answers it, if any; a status other than 2xx is an error that names the
    method, path and status. *)
Theorem client_do_spec {A} c (zero : A) decode req sent a :
  let '(r, sent') := client_do c zero decode req sent in
  ∃ q, sent' = sent ++ [q] ∧ q.(aq_url) = req.(aq_url) ∧ q.(aq_method) = req.(aq_method)
    ∧ q.(aq_body) = req.(aq_body)
    ∧ (r = Ok a ↔ answers zero decode sent q a)
    ∧ (∀ resp data, http_Do sent q = Ok resp → ¬ 200 ≤ resp.(ap_status) < 300 → resp.(ap_data) = Ok data →
         r = Err (EText (APIError_Error (parseAPIError q resp.(ap_status) data)))).
Proof.
  pose proof (client_do_sent c zero decode req sent) as Hs.
  destruct (client_do _ _ _ _ _) as [r sent'] eqn:Hd. simpl in Hs. subst sent'.
  eexists. do 4 (split; [done|]). revert Hd. unfold answers, client_do, bind_res, wrap_errM, send, bind, ret. cbv zeta. set (q := Build_api_request _ _ _ _ _ _ _).
  simpl. destruct (http_Do sent q) as [resp|e]; simpl.
  2: { intros Hr. injection Hr as <-. split; [|congruence]. split; [congruence|]. intros (? & ? & ? & _). congruence. }
  destruct (ap_data resp) as [data|e] eqn:Hdata; simpl.
  2: { intros Hr. injection Hr as <-. split; [|congruence]. split; [congruence|].
       intros (? & ? & ? & _ & ? & _). congruence. }
  destruct ((ap_status resp <? 200) || (300 <=? ap_status resp)) eqn:Hst.
  - apply orb_true_iff in Hst. intros Hr. injection Hr as <-. split.
    + split; [congruence|]. intros (? & ? & [= <-] & Hr & _). lia.
    + intros ? ? [= <-] _ ?. congruence.
  - apply orb_false_iff in Hst as [H1 H2].
    intros Hd. split; [|intros ? ? [= <-] Hn; lia].
    unfold is_empty in Hd. case_bool_decide as He.
    + injection Hd as <-. split.
      * intros Ha. injection Ha as <-. exists resp, data. split_and!; auto; lia.
      * intros (? & ? & [= <-] & _ & Hx & [[_ ->]|[? _]]); congruence.
    + injection Hd as <-. split.
      * intros Hok. exists resp, data. split_and!; [done|lia|lia|done|]. right. split; [done|].
        by destruct (decode data).
      * intros (? & d & [= <-] & _ & Hx & [[? _]|[_ Hdec]]); [congruence|].
        assert (data = d) as <- by congruence. by rewrite Hdec.
Qed.

(** A request whose URL parses is sent, and a value it yields answers it. *)
Lemma new_request_ok {A} c method u ct body (zero : A) decode sent a sent' :
  bind_res (ret (new_request method u ct body)) (client_do c zero decode) sent = (Ok a, sent') →
  ∃ q, sent' = sent ++ [q] ∧ q.(aq_method) = method ∧ q.(aq_url) = u ∧ q.(aq_body) = body
    ∧ answers zero decode sent q a.
Proof.
  unfold bind_res, ret, bind, new_request. destruct (url_parse u); simpl; [|done].
  set (req := Build_api_request _ _ _ _ _ _ _). intros Hd.
  pose proof (client_do_spec c zero decode req sent a) as Hs. rewrite Hd in Hs.
  destruct Hs as (q & -> & Hu & Hm & Hb & Ha & _). exists q. split_and!; [done..|]. by apply Ha.
Qed.

Lemma client_get_ok {A} c (zero : A) decode path sent a sent' :
  client_get c zero decode path ∅ sent = (Ok a, sent') →
  ∃ q, sent' = sent ++ [q] ∧ q.(aq_method) = "GET" ∧ q.(aq_url) = c.(cl_base) +:+ path
    ∧ answers zero decode sent q a.
Proof. intros (q & ? & ? & ? & _ & ?)%new_request_ok. by exists q. Qed.

Lemma client_post_ok {A} c (zero : A) decode path body sent a sent' :
  client_post c zero decode path body sent = (Ok a, sent') →
  ∃ q, sent' = sent ++ [q] ∧ q.(aq_method) = "POST" ∧ q.(aq_url) = c.(cl_base) +:+ path
    ∧ q.(aq_body) = Some body ∧ answers zero decode sent q a.
Proof. apply new_request_ok. Qed.
End sends.

Module RtaExample.
(** A parser enough for the example: scheme and host of "scheme://host/...". *)
#[export] Instance urls : GoURL :=
  {| url := string * string;
     url_parse := λ s, match cut ":" s with
                       | Some (scheme, rest) => Ok (scheme, default rest (drop_prefix "//" rest))
                       | None => Err (EText "missing scheme")
                       end;
     url_resolve := λ _ u, u; url_scheme := fst; url_host := snd; url_string := λ u, u.1 +:+ "://" +:+ u.2 |}.
#[export] Instance parts : UrlParts :=
  {| url_hostname := λ u, match split_char "/" u.2 with h :: _ => h | [] => "" end; url_path := λ _, "/" |}.
Definition release : build := Build_build "1.2.0" "" "" None "go1.25" "linux" "amd64".

Lemma client_confines_token_witness :
  match NewClient release "https://rta.example.com/" [WithToken "t"] with
  | Ok c => c.(cl_base) = "https://rta.example.com/api/v0/trusted-actions"
            ∧ safe_origin "https://rta.example.com"
  | Err _ => False
  end
  ∧ is_ok (NewClient release "http://rta.example.com" [WithToken "t"]) = false.
Proof.
  split; [|vm_compute; reflexivity].
  destruct (NewClient release "https://rta.example.com/" [WithToken "t"]) as [c|e] eqn:Hc; [|discriminate Hc].
  destruct (client_confines_token (J := TreeCodec.codec) (T := λ _ _, Err (EText "no network")) release
    "https://rta.example.com/" [WithToken "t"] c Hc) as (_ & Hb & Hs & _).
  { constructor; [left; by exists "t"|constructor]. }
  split; [exact Hb|]. apply Hs. by injection Hc as <-.
Defined.
End RtaExample.
