(* ===== verification/RtaCommands.v ===== *)
(** internal/rta - the commands of the rta command line: command.go, auth.go,
    action.go, execution.go, audit.go, output.go and usage.go.

    A command is its [RunE]; what declares it is in [RtaTree]. The flags cobra parsed are
    functions from their names, the server URL comes from viper, the token from the flag or
    the OCM configuration, and the answers from the [Transport]. Its state is what it has
    sent and printed; a table or a JSON document is printed as the values it shows. *)

From S2P Require Import Prelude GoString Json Env Actions ListAlerts Backplane Models TimeText Catalog Http Flags RtaClient.
From Stdlib Require Import Ascii.
#[local] Open Scope Z_scope.

(** ** The command line *)

Definition fromFlag (cmd : flags) (name : string) : string := cmd.(fl_string) name.
Definition boolFlag (cmd : flags) (name : string) : bool := cmd.(fl_bool) name.

(** How a command ends: well, with an error, or with a usage error, for which main
    prints the usage. *)
Inductive exit := Done | Failed (e : gerror) | BadUsage (msg : string).

(** The OCM CLI's saved configuration; [Armed] says whether its token still holds. *)
Record ocm_login := { ol_AccessToken : string; ol_Armed : res (bool * string) }.

(** The iteration order of a Go map, which is not specified. *)
Class MapOrder := map_order : strmap → list (string * string).
Class MapOrderLaws `{MapOrder} : Prop := map_order_perm m : map_order m ≡ₚ map_to_list m.

Section output.
Context `{GoUUID}.

(** What [writeJSON] encodes. *)
Inductive document :=
| DActions (l : list TrustedActionSummary)
| DAction (a : TrustedAction)
| DExecutions (l : list openapi_Execution)
| DExecution (e : openapi_Execution)
| DRun (e : openapi_Execution) (output : option ExecutionOutput) (error : string)
| DOutput (o : ExecutionOutput)
| DResources (l : list object)
| DAudits (l : list AuditEntry)
| DVersion (v : versionInfo).

Inductive printed := PLine (s : string) | PTable (headers : list string) (rows : list (list string)) | PJSON (d : document).

(** What the command has sent, and printed to its output and its error stream. *)
Record cli := { cs_sent : list api_request; cs_out : list printed; cs_err : list string }.

Definition fprint (p : printed) : M cli unit := λ s,
  (tt, {| cs_sent := s.(cs_sent); cs_out := s.(cs_out) ++ [p]; cs_err := s.(cs_err) |}).
Definition fprint_err (l : string) : M cli unit := λ s,
  (tt, {| cs_sent := s.(cs_sent); cs_out := s.(cs_out); cs_err := s.(cs_err) ++ [l] |}).
Definition net {A} (m : Net A) : M cli A := λ s,
  let '(a, sent) := m s.(cs_sent) in
  (a, {| cs_sent := sent; cs_out := s.(cs_out); cs_err := s.(cs_err) |}).

(** [if err != nil { return err }]. *)
Definition attempt {A} (r : res A) (k : A → M cli exit) : M cli exit :=
  match r with Ok a => k a | Err e => ret (Failed e) end.
(** Prints and returns nil. *)
Definition finish (p : printed) : M cli exit := do _ <- fprint p; ret Done.

(** ** output.go *)

Definition isJSON (cmd : flags) : bool := bool_decide (fromFlag cmd "output" = "json").

Definition filter_parts (entries : list (string * string)) : list string :=
  omap (λ kv, if is_empty kv.2 then None else Some (kv.1 +:+ " " +:+ kv.2)) entries.

(** [writeEmptyList]'s line, for one iteration order of the filters. *)
Definition empty_list_line (resource : string) (entries : list (string * string)) : string :=
  let msg := "No " +:+ resource +:+ " found" in
  match filter_parts entries with
  | [] => msg +:+ "."
  | parts => msg +:+ " matching " +:+ join ", " parts +:+ "."
  end.

(** [handleJSONOutputAndEmptyLists]: [None] when the caller goes on to the table. *)
Definition handleJSONOutputAndEmptyLists `{MapOrder} (cmd : flags) (items : document) (count : nat)
    (resource : string) (filters : strmap) : option (M cli exit) :=
  if isJSON cmd then
    Some (if Nat.eqb count 0 then finish (PLine "[]") else finish (PJSON items))
  else if Nat.eqb count 0 then Some (finish (PLine (empty_list_line resource (map_order filters))))
  else None.
End output.

(** ** usage.go and command.go *)

(** The check each command starts with; [None] when the format is known. *)
Definition validateFormat (cmd : flags) : option exit :=
  let f := fromFlag cmd "output" in
  if negb (bool_decide (f = "text")) && negb (bool_decide (f = "json"))
  then Some (BadUsage ("invalid --output " +:+ quoted f +:+ ": expected text or json"))
  else None.

(** [requiredArgs]: the validator of the positional arguments. *)
Definition requiredArgs (names args : list string) : option exit :=
  if (length args <? length names)%nat
  then Some (BadUsage ("missing required argument: " +:+ nth (length args) names ""))
  else if (length names <? length args)%nat
  then Some (BadUsage ("unexpected argument: " +:+ nth (length names) args ""))
  else None.

(** [rejectUnknownArgsAndSuggestSimilar]: [subcommands] and [suggestions] are cobra's
    answers for the command and the first argument. *)
Definition rejectUnknownArgs (commandPath : string) (subcommands : bool) (suggestions : string → list string)
    (args : list string) : option exit :=
  match args with
  | [] => None
  | a :: _ =>
      if subcommands then
        let msg := quoted a +:+ " is not a valid subcommand of " +:+ commandPath in
        Some (BadUsage (match suggestions a with
                        | [s] => msg +:+ "; did you mean " +:+ quoted s +:+ "?"
                        | _ => msg
                        end))
      else Some (BadUsage "unexpected positional arguments: this command takes none")
  end.

(** [resolveToken] (auth.go). *)
Definition resolveToken (cmd : flags) (login : res (option ocm_login)) : res string :=
  let t := fromFlag cmd "token" in
  if negb (is_empty t) then Ok t
  else
    let? cfg := wrap_err "load OCM configuration" login in
    match cfg with
    | None => Err (EText "not authenticated: use --token or log in with ocm")
    | Some cfg =>
        if is_empty cfg.(ol_AccessToken)
        then Err (EText "not authenticated: OCM config has no access token; log in with ocm")
        else
          let? (armed, reason) := wrap_err "check OCM token" cfg.(ol_Armed) in
          if negb armed then Err (EText ("OCM token expired: " +:+ reason +:+ "; log in again with ocm"))
          else Ok cfg.(ol_AccessToken)
    end.

(** [parseParams] (action.go). *)
Fixpoint params_loop (raw : list string) (params : strmap) : sum strmap string :=
  match raw with
  | [] => inl params
  | kv :: raw =>
      match cut "=" kv with
      | None => inr ("invalid --param " +:+ quoted kv +:+ ": expected key=value")
      | Some (k, v) => params_loop raw (<[k := v]> params)
      end
  end.
Definition parseParams (cmd : flags) : sum (option strmap) string :=
  match cmd.(fl_slice) "param" with
  | [] => inl None
  | raw => match params_loop raw ∅ with inl m => inl (Some m) | inr msg => inr msg end
  end.

(** "2006-01-02 15:04:05"; the API's times are in UTC. *)
Definition display_time (t : Z) : string :=
  format_days (days_of t) +:+ " " +:+ format_hms (t mod day_nanos).

(** ** The commands *)
Section commands.
Context `{U : GoURL} `{!UrlParts} `{GoJson} `{Transport} `{ApiCodec} `{MapOrder}.
Context (b : build) (server : string) (login : res (option ocm_login)).

Definition newClient (cmd : flags) (requireAuth : bool) : res Client :=
  if requireAuth then
    let? token := resolveToken cmd login in NewClient b server [WithToken token]
  else
    let t := fromFlag cmd "token" in
    NewClient b server (if negb (is_empty t) then [WithToken t] else []).

(** What every command that talks to the API does first. *)
Definition with_api (cmd : flags) (requireAuth : bool) (k : Client → M cli exit) : M cli exit :=
  match validateFormat cmd with
  | Some e => ret e
  | None => attempt (newClient cmd requireAuth) k
  end.

(** The rest of a command after an optional early return. *)
Definition or_else (m : option (M cli exit)) (k : M cli exit) : M cli exit :=
  match m with Some m => m | None => k end.

Definition scope_text (s : ActionScope) : string := match s with KubeApi => "kube-api" | AwsApi => "aws-api" end.
Definition type_text (t : ActionType) : string := match t with Read => "read" | Write => "write" end.

Definition run_action_list (cmd : flags) : M cli exit :=
  with_api cmd false (λ client,
    do r <- net (client_Catalog client);
    attempt r (λ items,
      or_else (handleJSONOutputAndEmptyLists cmd (DActions items) (length items) "actions" ∅)
        (finish (PTable ["NAME"; "SCOPE"; "TYPE"; "DESCRIPTION"]
           ((λ a, [a.(tas_Name); scope_text a.(tas_Scope); type_text a.(tas_Type); a.(tas_Description)])
              <$> items))))).

Definition param_row (p : TrustedActionParam) : list string :=
  [ "  " +:+ p.(tap_Name); if default false p.(tap_Required) then "yes" else "no";
    default "" p.(tap_Default); default "" p.(tap_Description) ].

Definition run_action_describe (cmd : flags) (action : string) : M cli exit :=
  with_api cmd false (λ client,
    do r <- net (client_Describe client action);
    attempt r (λ a,
      if isJSON cmd then finish (PJSON (DAction a))
      else
        let s := a.(ta_summary) in
        do _ <- fprint (PLine ("Name:        " +:+ s.(tas_Name)));
        do _ <- fprint (PLine ("Scope:       " +:+ scope_text s.(tas_Scope)));
        do _ <- fprint (PLine ("Type:        " +:+ type_text s.(tas_Type)));
        do _ <- fprint (PLine ("Description: " +:+ s.(tas_Description)));
        match a.(ta_Params) with
        | None | Some [] => ret Done
        | Some params =>
            do _ <- fprint (PLine "");
            do _ <- fprint (PLine "Parameters:");
            finish (PTable ["  NAME"; "REQUIRED"; "DEFAULT"; "DESCRIPTION"] (param_row <$> params))
        end)).

(** *** Waiting for an execution *)

Definition cli_terminal (status : string) : bool := contains ["succeeded"; "failed"; "timed_out"] status.

(** What the wait loop's [select] sees: the next tick, or the command's deadline. *)
Inductive wait_event := Tick | Deadline.

(** The loop over the events it is given; [None] when they end before it does. *)
Fixpoint wait_loop (client : Client) (events : list wait_event) (e : openapi_Execution)
  : Net (option (res openapi_Execution)) :=
  match events with
  | [] => ret None
  | Deadline :: _ =>
      ret (Some (Err (EText ("timed out waiting for execution " +:+ uuid_string e.(oa_exec).(ex_ID)
                             +:+ " (last status: " +:+ e.(oa_exec).(ex_Status) +:+ ")"))))
  | Tick :: events =>
      do r <- client_GetExecution client (uuid_string e.(oa_exec).(ex_ID));
      match r with
      | Err err => ret (Some (Err (EWrap "poll execution" err)))
      | Ok updated =>
          if cli_terminal updated.(oa_exec).(ex_Status) then ret (Some (Ok updated))
          else wait_loop client events updated
      end
  end.

Definition waitForCompletion (client : Client) (events : list wait_event) (e : openapi_Execution)
  : M cli (option (res openapi_Execution)) :=
  if cli_terminal e.(oa_exec).(ex_Status) then ret (Some (Ok e))
  else
    do _ <- fprint_err ("Waiting for execution " +:+ uuid_string e.(oa_exec).(ex_ID) +:+ "...");
    net (wait_loop client events e).

(** *** rta action run *)

Definition run_failed (e : openapi_Execution) : bool := contains ["failed"; "timed_out"] e.(oa_exec).(ex_Status).
Definition run_error (e : openapi_Execution) (detail : string) : exit :=
  Failed (EText ("execution " +:+ uuid_string e.(oa_exec).(ex_ID) +:+ ": " +:+ e.(oa_exec).(ex_Status) +:+ detail)).

(** The report on a finished execution as JSON ... *)
Definition report_json (client : Client) (e : openapi_Execution) : M cli exit :=
  do output <- net (client_GetExecutionOutput client (uuid_string e.(oa_exec).(ex_ID)));
  do _ <- fprint (PJSON (match output with
                         | Ok o => DRun e (Some o) ""
                         | Err err => DRun e None ("fetch output: " +:+ error_text err)
                         end));
  if run_failed e then ret (run_error e "") else ret Done.

(** ... and as text. *)
Definition print_resources (resources : list object) : M cli exit :=
  match resources with
  | [] => ret Done
  | _ => do _ <- fprint (PLine (newline +:+ "Resources (" +:+ dec (Z.of_nat (length resources)) +:+ "):"));
         finish (PJSON (DResources resources))
  end.

Definition report_outcome (client : Client) (e : openapi_Execution) : M cli exit :=
  let id := uuid_string e.(oa_exec).(ex_ID) in
  if bool_decide (e.(oa_exec).(ex_Status) = "succeeded") then
    do output <- net (client_GetExecutionOutput client id);
    attempt (wrap_err "fetch output" output) (λ o,
      do _ <- (if is_empty o.(eo_Message) then ret tt else fprint (PLine (newline +:+ o.(eo_Message))));
      print_resources (default [] o.(eo_Resources)))
  else if run_failed e then
    do output <- net (client_GetExecutionOutput client id);
    match output with
    | Ok o => ret (run_error e (if is_empty o.(eo_Message) then "" else ": " +:+ o.(eo_Message)))
    | Err _ => ret (run_error e "")
    end
  else ret Done.

Definition report_text (client : Client) (dryRun : bool) (e : openapi_Execution) : M cli exit :=
  let x := e.(oa_exec) in
  do _ <- fprint (PLine ("Execution:  " +:+ uuid_string x.(ex_ID)));
  do _ <- fprint (PLine ("Action:     " +:+ x.(ex_Action)));
  do _ <- fprint (PLine ("Cluster:    " +:+ x.(ex_TargetCluster)));
  do _ <- fprint (PLine ("Status:     " +:+ x.(ex_Status)));
  do _ <- match x.(ex_DurationSeconds) with
          | Some d => fprint (PLine ("Duration:   " +:+ dec d +:+ "s"))
          | None => ret tt
          end;
  do _ <- (if dryRun then fprint (PLine (newline +:+ "Dry run: no changes were made.")) else ret tt);
  report_outcome client e.

(** The request the flags describe. *)
Definition run_request (cmd : flags) (params : option strmap) : ExecutionRequest :=
  {| er_TargetCluster := fromFlag cmd "cluster"; er_Jira := fromFlag cmd "jira";
     er_DryRun := Some (boolFlag cmd "dry-run"); er_Force := Some (boolFlag cmd "force");
     er_Params := params |}.

(** What follows an accepted run; [None] when the events end before the wait does. *)
Definition run_submitted (cmd : flags) (events : list wait_event) (client : Client) (e : openapi_Execution)
  : M cli (option exit) :=
  if boolFlag cmd "no-wait" then
    do r <- finish (if isJSON cmd then PJSON (DExecution e)
                    else PLine ("Execution " +:+ uuid_string e.(oa_exec).(ex_ID)
                                +:+ " submitted (status: " +:+ e.(oa_exec).(ex_Status) +:+ ")"));
    ret (Some r)
  else
    do done_ <- waitForCompletion client events e;
    match done_ with
    | None => ret None
    | Some (Err err) => ret (Some (Failed err))
    | Some (Ok e) =>
        do r <- (if isJSON cmd then report_json client e
                 else report_text client (boolFlag cmd "dry-run") e);
        ret (Some r)
    end.

Definition run_action_run (cmd : flags) (events : list wait_event) (action : string) : M cli (option exit) :=
  match validateFormat cmd with
  | Some e => ret (Some e)
  | None =>
      match parseParams cmd with
      | inr msg => ret (Some (BadUsage msg))
      | inl params =>
          match newClient cmd true with
          | Err e => ret (Some (Failed e))
          | Ok client =>
              do created <- net (client_CreateExecution client action (run_request cmd params));
              match created with
              | Err e => ret (Some (Failed e))
              | Ok e => run_submitted cmd events client e
              end
          end
      end
  end.

(** *** rta execution and rta audit *)

(** The query and the filters of a list command: the flags that are set, with the
    cluster sent as the API's target. *)
Definition list_query (cmd : flags) (names : list string) : strmap * strmap :=
  foldl (λ '(query, filters) f,
    let v := fromFlag cmd f in
    if is_empty v then (query, filters)
    else (<[(if bool_decide (f = "cluster") then "target" else f) := v]> query, <[f := v]> filters))
    (∅, ∅) names.

Definition execution_table_row (e : openapi_Execution) : list string :=
  let x := e.(oa_exec) in
  [uuid_string x.(ex_ID); x.(ex_Action); x.(ex_TargetCluster); x.(ex_Status); display_time x.(ex_CreatedAt)].

Definition run_execution_list (cmd : flags) : M cli exit :=
  with_api cmd true (λ client,
    let '(query, filters) := list_query cmd ["status"; "action"; "cluster"] in
    do r <- net (client_ListExecutions client query);
    attempt r (λ l,
      or_else (handleJSONOutputAndEmptyLists cmd (DExecutions l.(el_Items)) (length l.(el_Items)) "executions" filters)
        (finish (PTable ["ID"; "ACTION"; "CLUSTER"; "STATUS"; "CREATED"] (execution_table_row <$> l.(el_Items)))))).

(** A line for a field that is set. *)
Definition fprint_opt {A} (label : string) (show : A → string) (v : option A) : M cli unit :=
  match v with Some v => fprint (PLine (label +:+ show v)) | None => ret tt end.

Definition run_execution_get (cmd : flags) (id : string) : M cli exit :=
  with_api cmd true (λ client,
    do r <- net (client_GetExecution client id);
    attempt r (λ e,
      if isJSON cmd then finish (PJSON (DExecution e))
      else
        let x := e.(oa_exec) in
        do _ <- fprint (PLine ("ID:        " +:+ uuid_string x.(ex_ID)));
        do _ <- fprint (PLine ("Action:    " +:+ x.(ex_Action)));
        do _ <- fprint (PLine ("Cluster:   " +:+ x.(ex_TargetCluster)));
        do _ <- fprint (PLine ("Status:    " +:+ x.(ex_Status)));
        do _ <- fprint (PLine ("Created:   " +:+ display_time x.(ex_CreatedAt)));
        do _ <- fprint_opt "Completed: " display_time x.(ex_CompletedAt);
        do _ <- fprint_opt "Duration:  " (λ d, dec d +:+ "s") x.(ex_DurationSeconds);
        do _ <- fprint_opt "User:      " (λ u, u) x.(ex_Username);
        do _ <- fprint_opt "Jira:      " (λ j, j) x.(ex_Jira);
        do _ <- (if default false x.(ex_DryRun) then fprint (PLine "Dry run:   yes") else ret tt);
        ret Done)).

Definition run_execution_output (cmd : flags) (id : string) : M cli exit :=
  with_api cmd true (λ client,
    do r <- net (client_GetExecutionOutput client id);
    attempt r (λ o,
      if isJSON cmd then finish (PJSON (DOutput o))
      else
        do _ <- (if is_empty o.(eo_Message) then ret tt else fprint (PLine o.(eo_Message)));
        print_resources (default [] o.(eo_Resources)))).

Definition audit_table_row (e : AuditEntry) : list string :=
  [display_time e.(ae_Timestamp); e.(ae_Username); e.(ae_Method); e.(ae_Path); dec e.(ae_StatusCode);
   default "" e.(ae_Action)].

Definition run_audit_list (cmd : flags) : M cli exit :=
  with_api cmd true (λ client,
    let '(query, filters) := list_query cmd ["action"; "cluster"] in
    do r <- net (client_ListAuditEntries client query);
    attempt r (λ l,
      or_else (handleJSONOutputAndEmptyLists cmd (DAudits l.(al_Items)) (length l.(al_Items)) "audit entries" filters)
        (finish (PTable ["TIMESTAMP"; "USER"; "METHOD"; "PATH"; "STATUS"; "ACTION"] (audit_table_row <$> l.(al_Items)))))).

(** *** rta version *)
Definition run_version (cmd : flags) : M cli exit :=
  match validateFormat cmd with
  | Some e => ret e
  | None =>
      let info := getVersionInfo b in
      finish (if isJSON cmd then PJSON (DVersion info) else PLine (versionInfo_String info))
  end.

(** *** usage.go and cmd/rta/main.go *)

(** [PrintUsageIfUsageError], with cobra's usage line and the example of the command
    that was misused. *)
Definition PrintUsageIfUsageError (useLine example : string) (e : exit) : M cli unit :=
  match e with
  | BadUsage _ =>
      do _ <- fprint_err ("Usage:" +:+ newline +:+ "  " +:+ useLine);
      if is_empty example then ret tt else fprint_err (newline +:+ "Examples:" +:+ newline +:+ example)
  | _ => ret tt
  end.

Definition exit_text (e : exit) : option string :=
  match e with Done => None | Failed e => Some (error_text e) | BadUsage msg => Some msg end.

(** [main]: the exit code of the process. *)
Definition rta_main (useLine example : string) (command : M cli exit) : M cli Z :=
  do e <- command;
  match exit_text e with
  | None => ret 0
  | Some text =>
      do _ <- fprint_err ("Error: " +:+ text +:+ newline);
      do _ <- PrintUsageIfUsageError useLine example e;
      ret 1
  end.
End commands.

(** ** Parameters *)

Lemma params_loop_ok entries m :
  (∀ kv, kv ∈ entries → mem_char "=" kv.1 = false) →
  params_loop ((λ kv, kv.1 +:+ "=" +:+ kv.2) <$> entries) m
  = inl (foldl (λ m kv, <[kv.1 := kv.2]> m) m entries).
Proof.
  revert m. induction entries as [|[k v] entries IH]; intros m Hk; [done|]. simpl.
  change ("=" +:+ v) with (String "=" v). rewrite cut_app by (apply (Hk (k, v)); by left).
  apply IH. intros kv Hkv. apply Hk. by right.
Qed.

Lemma params_loop_bad raw m :
  (∃ msg, params_loop raw m = inr msg) ↔ ∃ kv, kv ∈ raw ∧ mem_char "=" kv = false.
Proof.
  revert m. induction raw as [|kv raw IH]; intros m; simpl.
  - split; [by intros [? ?]|]. intros (? & ?%elem_of_nil & _). done.
  - destruct (cut "=" kv) as [[k v]|] eqn:Hc.
    + rewrite IH. split; [intros (x & ? & ?); exists x; split; [by right|done]|].
      intros (x & [->|?]%elem_of_cons & Hx); [|eauto]. apply cut_None in Hx. congruence.
    + split; [|eauto]. intros _. exists kv. split; [by left|]. by apply cut_None.
Qed.

(** ** Requests of a command *)
Section requests.
Context `{U : GoURL} `{!UrlParts} `{GoJson} `{Transport} `{ApiCodec} `{MapOrder}.
Context (b : build) (server : string) (login : res (option ocm_login)).

(** A computation that only sends requests satisfying [P], and takes back nothing it
    printed. *)
Definition cli_sends {A} (P : api_request → Prop) (m : M cli A) : Prop :=
  ∀ s, (∃ new, (m s).2.(cs_sent) = s.(cs_sent) ++ new ∧ Forall P new)
       ∧ ∃ more, (m s).2.(cs_out) = s.(cs_out) ++ more.

Lemma cli_sends_bind {A B} P (m : M cli A) (k : A → M cli B) :
  cli_sends P m → (∀ a, cli_sends P (k a)) → cli_sends P (bind m k).
Proof.
  intros Hm Hk s. unfold bind. destruct (Hm s) as [(n1 & E1 & F1) (o1 & O1)].
  destruct (m s) as [a s1]. destruct (Hk a s1) as [(n2 & E2 & F2) (o2 & O2)]. simpl in *.
  split; [exists (n1 ++ n2)|exists (o1 ++ o2)].
  - rewrite E2, E1, app_assoc. split; [done|]. by apply Forall_app.
  - by rewrite O2, O1, app_assoc.
Qed.

Lemma cli_sends_none {A} P (m : M cli A) :
  (∀ s, (m s).2.(cs_sent) = s.(cs_sent) ∧ ∃ more, (m s).2.(cs_out) = s.(cs_out) ++ more) → cli_sends P m.
Proof. intros Hm s. destruct (Hm s) as [E O]. split; [|done]. exists []. by rewrite E, app_nil_r. Qed.

Lemma cli_sends_ret {A} P (a : A) : cli_sends P (ret a).
Proof. apply cli_sends_none. intros s. split; [done|]. exists []. by rewrite app_nil_r. Qed.
Lemma cli_sends_fprint P p : cli_sends P (fprint p).
Proof. apply cli_sends_none. intros s. split; [done|]. by exists [p]. Qed.
Lemma cli_sends_fprint_err P l : cli_sends P (fprint_err l).
Proof. apply cli_sends_none. intros s. split; [done|]. exists []. by rewrite app_nil_r. Qed.

(** A request of the client, by its method, under its base and with its token. *)
Definition from_client (c : Client) (method : string) (q : api_request) : Prop :=
  q.(aq_method) = method ∧ has_prefix c.(cl_base) q.(aq_url) = true
  ∧ q.(aq_authorization) = if is_empty c.(cl_token) then None else Some ("Bearer " +:+ c.(cl_token)).

Lemma has_prefix_trans p q s : has_prefix (p +:+ q) s = true → has_prefix p s = true.
Proof.
  rewrite !has_prefix_spec. intros [t ->]. exists (q +:+ t). by rewrite string_app_assoc.
Qed.

Lemma sends_from_client {A} c method path (m : Net A) sent :
  sends c method (c.(cl_base) +:+ path) m →
  ∃ new, (m sent).2 = sent ++ new ∧ (length new ≤ 1)%nat ∧ Forall (from_client c method) new.
Proof.
  intros Hm. destruct (Hm sent) as (new & E & L & F). exists new. split; [done|]. split; [done|].
  eapply Forall_impl; [exact F|]. intros q (? & ?%has_prefix_trans & ?). done.
Qed.

Lemma cli_sends_net {A} c method path (m : Net A) :
  sends c method (c.(cl_base) +:+ path) m → cli_sends (from_client c method) (net m).
Proof.
  intros Hm s. destruct (sends_from_client c method path m s.(cs_sent) Hm) as (new & E & _ & F).
  unfold net. destruct (m s.(cs_sent)) as [a sent]. split; [by exists new|]. exists []. by rewrite app_nil_r.
Qed.

Lemma cli_sends_output c id :
  cli_sends (from_client c "GET") (net (client_GetExecutionOutput c id)).
Proof. eapply cli_sends_net, client_get_sends. Qed.

(** The ticks before the deadline. *)
Fixpoint ticks (events : list wait_event) : nat :=
  match events with Tick :: events => Datatypes.S (ticks events) | _ => O end.

(** [polled base sent e polls e']: after the requests [sent], which answered the execution
    [e], the requests [polls] were sent, each a GET for the execution the previous answer
    holds, and the last answer holds [e']. *)
Inductive polled (base : string) : list api_request → openapi_Execution →
    list api_request → openapi_Execution → Prop :=
| polled_here sent e : polled base sent e [] e
| polled_tick sent e q e1 polls e' :
    q.(aq_method) = "GET" →
    q.(aq_url) = base +:+ "/runs/" +:+ path_escape (uuid_string e.(oa_exec).(ex_ID)) →
    answers zero_execution decode_execution sent q e1 →
    polled base (sent ++ [q]) e1 polls e' →
    polled base sent e (q :: polls) e'.

Lemma wait_loop_spec c events e sent :
  let '(r, sent') := wait_loop c events e sent in
  ∃ new, sent' = sent ++ new ∧ Forall (from_client c "GET") new ∧ (length new ≤ ticks events)%nat
    ∧ (Deadline ∈ events → is_Some r)
    ∧ ∀ e', r = Some (Ok e') →
        cli_terminal e'.(oa_exec).(ex_Status) = true ∧ polled c.(cl_base) sent e new e'.
Proof.
  revert e sent. induction events as [|[] events IH]; intros e sent; simpl.
  - exists []. rewrite app_nil_r. split_and!; try done; auto. by intros ?%elem_of_nil.
  - unfold bind at 1. set (id := uuid_string (ex_ID (oa_exec e))).
    destruct (sends_from_client c "GET" ("/runs/" +:+ path_escape id)
      (client_GetExecution c id) sent (client_get_sends _ _ _ _ _)) as (n1 & E1 & L1 & F1).
    destruct (client_GetExecution c id sent) as [[updated|err] sent1] eqn:Hget; simpl in E1; subst sent1.
    2: { exists n1. split_and!; auto; [simpl; lia|done]. }
    apply client_get_ok in Hget as (q & ->%app_inv_head & Hm & Hu & Ha).
    destruct (cli_terminal (ex_Status (oa_exec updated))) eqn:Ht.
    { exists [q]. split_and!; auto; [simpl; lia|]. intros e' [= <-]. split; [done|].
      econstructor; [done..|constructor]. }
    specialize (IH updated (sent ++ [q])). destruct (wait_loop c events updated _) as [r sent'].
    destruct IH as (n2 & -> & F2 & L2 & Hd & Hr). exists (q :: n2). rewrite <- app_assoc. simpl.
    split_and!; [done|by apply (Forall_app_2 _ [q])|lia|by intros [?|?]%elem_of_cons; auto|].
    intros e' He. destruct (Hr e' He) as [? Hp]. split; [done|]. by econstructor.
  - exists []. rewrite app_nil_r. split_and!; try done; eauto.
Qed.

(** Waiting for an execution ends, with a finished execution or an error. Once
    the deadline is among the events, the wait returns; it polls at most once per tick
    before the deadline, only with GET requests of its client, and an execution it
    returns without an error has a final status and is what the last poll answered. *)
Lemma wait_ends c events e s :
  let '(r, s') := waitForCompletion c events e s in
  ∃ new, s'.(cs_sent) = s.(cs_sent) ++ new ∧ Forall (from_client c "GET") new
    ∧ (length new ≤ ticks events)%nat ∧ s'.(cs_out) = s.(cs_out)
    ∧ (Deadline ∈ events → is_Some r)
    ∧ ∀ e', r = Some (Ok e') →
        cli_terminal e'.(oa_exec).(ex_Status) = true ∧ polled c.(cl_base) s.(cs_sent) e new e'.
Proof.
  unfold waitForCompletion. destruct (cli_terminal _) eqn:Ht.
  - exists []. rewrite app_nil_r. split_and!; auto; [simpl; lia|]. intros e' [= <-]. split; [done|constructor].
  - unfold bind, net, fprint_err. simpl. pose proof (wait_loop_spec c events e s.(cs_sent)) as Hw.
    destruct (wait_loop c events e _) as [r sent]. destruct Hw as (new & ? & ? & ? & ? & ?). by exists new.
Qed.

Lemma wait_sends c events e : cli_sends (from_client c "GET") (waitForCompletion c events e).
Proof.
  intros s. pose proof (wait_ends c events e s) as Hw.
  destruct (waitForCompletion c events e s) as [r s']. destruct Hw as (new & ? & ? & _ & Ho & _).
  split; [by exists new|]. exists []. by rewrite app_nil_r.
Qed.

(** Splits a printing or sending computation into its steps. *)
Ltac cli_steps :=
  repeat first
    [ apply cli_sends_ret | apply cli_sends_fprint | apply cli_sends_fprint_err | apply cli_sends_output
    | apply wait_sends
    | (apply cli_sends_bind; [|intros ?])
    | match goal with |- cli_sends _ (match ?x with _ => _ end) => destruct x end
    | match goal with |- cli_sends _ (if ?x then _ else _) => destruct x end ].

Lemma report_sends cmd c e :
  cli_sends (from_client c "GET")
    (if isJSON cmd then report_json c e else report_text c (boolFlag cmd "dry-run") e).
Proof.
  unfold report_json, report_text, report_outcome, attempt, print_resources, finish.
  destruct (isJSON cmd); cli_steps.
Qed.

(** ** rta action run *)

Lemma run_failed_terminal e :
  cli_terminal e.(oa_exec).(ex_Status) = true → run_failed e = false → e.(oa_exec).(ex_Status) = "succeeded".
Proof.
  unfold cli_terminal, run_failed. rewrite contains_true, contains_false. set_solver.
Qed.

(** What a report on the execution [e] adds to the output: its id and its status, or it
    as a document. *)
Definition reported (e : openapi_Execution) (out out' : list printed) : Prop :=
  ∃ more, out' = out ++ more
    ∧ (PLine ("Execution:  " +:+ uuid_string e.(oa_exec).(ex_ID)) ∈ more
         ∧ PLine ("Status:     " +:+ e.(oa_exec).(ex_Status)) ∈ more
       ∨ ∃ o err, PJSON (DRun e o err) ∈ more).

Lemma report_json_done c e s :
  let '(r, s') := report_json c e s in
  (r = Done → run_failed e = false) ∧ reported e s.(cs_out) s'.(cs_out).
Proof.
  unfold report_json, bind, net, fprint, ret. destruct (client_GetExecutionOutput _ _ _) as [o sent]. simpl.
  destruct (run_failed e); simpl; (split; [done|]); eexists; (split; [done|]); right; destruct o; do 2 eexists; by left.
Qed.

Lemma report_outcome_done c e s :
  (report_outcome c e s).1 = Done → run_failed e = false.
Proof.
  unfold report_outcome, run_failed. case_bool_decide as Hs; [by rewrite Hs|].
  destruct (contains _ _); [|done]. unfold bind, net. simpl.
  destruct (client_GetExecutionOutput _ _ _) as [[o|err] sent]; done.
Qed.

Lemma report_outcome_sends c e : cli_sends (from_client c "GET") (report_outcome c e).
Proof. unfold report_outcome, attempt, print_resources, finish. cli_steps. Qed.

Lemma report_text_done c dryRun e s :
  let '(r, s') := report_text c dryRun e s in
  (r = Done → run_failed e = false) ∧ reported e s.(cs_out) s'.(cs_out).
Proof.
  unfold report_text. cbv zeta. unfold bind at 1 2 3 4. cbn [fprint]. cbv beta iota.
  match goal with |- context [bind ?m ?k ?s0] =>
    assert (∃ s1, reported e s.(cs_out) s1.(cs_out) ∧ bind m k s0 = report_outcome c e s1) as (s1 & Hr & ->) end.
  { unfold bind. destruct (ex_DurationSeconds _), dryRun; simpl; eexists; (split; [|reflexivity]);
      simpl; rewrite <- !app_assoc; eexists; (split; [reflexivity|]); left; set_solver. }
  pose proof (report_outcome_done c e s1) as Hd.
  destruct (report_outcome_sends c e s1) as [_ [more Hm]].
  destruct (report_outcome c e s1) as [r s']. simpl in *. split; [done|]. rewrite Hm.
  destruct Hr as (new & -> & Hr). exists (new ++ more). rewrite app_assoc. split; [done|]. set_solver.
Qed.

Lemma report_done cmd c e s :
  let '(r, s') := (if isJSON cmd then report_json c e else report_text c (boolFlag cmd "dry-run") e) s in
  (r = Done → run_failed e = false) ∧ reported e s.(cs_out) s'.(cs_out).
Proof. destruct (isJSON cmd); [apply report_json_done|apply report_text_done]. Qed.
#[local] Arguments newClient : simpl never.
Lemma newClient_required cmd c :
  newClient b server login cmd true = Ok c →
  c.(cl_base) = trim_right_char "/" server +:+ basePath ∧ c.(cl_token) ≠ ""
  ∧ safe_origin (trim_right_char "/" server).
Proof.
  unfold newClient. intros (token & Ht & Hc)%res_bind_ok.
  assert (token ≠ "") as Hne.
  { unfold resolveToken in Ht. cbv zeta in Ht. unfold is_empty in Ht. case_bool_decide; simpl in Ht.
    - apply res_bind_ok in Ht as (cfg & _ & Ht). destruct cfg as [cfg|]; [|done].
      case_bool_decide; [done|]. apply res_bind_ok in Ht as ([armed reason] & _ & Ht).
      destruct armed; simpl in Ht; [|done]. by injection Ht as <-.
    - by injection Ht as <-. }
  destruct (NewClient_ok b server [WithToken token] c Hc) as (_ & Hb & Hs).
  { constructor; [left; by exists token|constructor]. }
  assert (cl_token c = token) as Htok.
  { revert Hc. unfold NewClient. case_match; [done|]. cbv zeta. case_match; [done|]. by intros [= <-]. }
  rewrite Htok in *. auto.
Qed.

(** A request with credentials, to the configured server's API over a safe connection. *)
Definition authenticated (method : string) (q : api_request) : Prop :=
  q.(aq_method) = method ∧ has_prefix (trim_right_char "/" server +:+ basePath) q.(aq_url) = true
  ∧ is_Some q.(aq_authorization) ∧ safe_origin (trim_right_char "/" server).

Lemma from_client_authenticated cmd c method q :
  newClient b server login cmd true = Ok c → from_client c method q → authenticated method q.
Proof.
  intros (Hb & Ht & Hs)%newClient_required (Hm & Hp & Ha). unfold authenticated.
  rewrite <- Hb, Ha. unfold is_empty. rewrite bool_decide_eq_false_2 by done. eauto.
Qed.

(** At most one POST, then GETs. *)
Definition sent_once (sent sent' : list api_request) : Prop :=
  ∃ posts gets, sent' = sent ++ posts ++ gets ∧ (length posts ≤ 1)%nat
    ∧ Forall (authenticated "POST") posts ∧ Forall (authenticated "GET") gets.

Lemma sent_once_none sent : sent_once sent sent.
Proof. exists [], []. rewrite app_nil_r. auto. Qed.

(** A run that ends well has reported the execution [e], submitted by the last of the
    requests [sent], as succeeded: it was so already, or the server's answer to the last
    of the polls said so. *)
Definition ran_well (base : string) (e : openapi_Execution) (sent sent' : list api_request)
    (out out' : list printed) : Prop :=
  ∃ polls rest e', sent' = sent ++ polls ++ rest ∧ polled base sent e polls e'
    ∧ e'.(oa_exec).(ex_Status) = "succeeded" ∧ reported e' out out'.

(** The run of an accepted execution: only GETs, an end, and a true report. *)
Lemma run_submitted_spec cmd events c e s :
  let '(r, s') := run_submitted cmd events c e s in
  (∃ gets, s'.(cs_sent) = s.(cs_sent) ++ gets ∧ Forall (from_client c "GET") gets)
  ∧ (Deadline ∈ events → is_Some r)
  ∧ (r = Some Done → boolFlag cmd "no-wait" = false →
     ran_well c.(cl_base) e s.(cs_sent) s'.(cs_sent) s.(cs_out) s'.(cs_out)).
Proof.
  unfold run_submitted. destruct (boolFlag cmd "no-wait"); simpl.
  { split; [exists []; by rewrite app_nil_r|]. split; [intros _; by eexists|done]. }
  unfold bind at 1. pose proof (wait_ends c events e s) as Hw.
  destruct (waitForCompletion c events e s) as [w s1]. destruct Hw as (g1 & E1 & F1 & _ & O1 & Hd & Ht).
  destruct w as [[e'|err]|]; simpl.
  2: { split; [by exists g1|]. split; [intros _; by eexists|done]. }
  2: { split; [by exists g1|]. split; [by intros [? ?]%Hd|done]. }
  destruct (Ht e' eq_refl) as [Hterm Hpoll]. unfold bind, ret.
  destruct (report_sends cmd c e' s1) as [(g2 & E2 & F2) _]. pose proof (report_done cmd c e' s1) as Hdone.
  set (report := if isJSON cmd then report_json c e' else _) in *. destruct (report s1) as [r s']. destruct Hdone as [Hdone Hrep]. simpl in E2.
  rewrite E2, E1, <- app_assoc. split; [exists (g1 ++ g2); split; [done|by apply Forall_app]|].
  split; [intros _; by eexists|]. intros [= ->] _. exists g1, g2, e'. rewrite <- O1.
  split_and!; [done|done| |done]. apply run_failed_terminal; [done|by apply Hdone].
Qed.

Lemma parseParams_bad cmd :
  (∃ kv, kv ∈ cmd.(fl_slice) "param" ∧ mem_char "=" kv = false) → ∃ msg, parseParams cmd = inr msg.
Proof.
  intros Hbad. unfold parseParams. destruct (fl_slice cmd "param") as [|kv raw].
  - destruct Hbad as (? & ?%elem_of_nil & _). done.
  - apply (params_loop_bad _ ∅) in Hbad as [msg ->]. eauto.
Qed.

End requests.
