(* ===== verification/RtaTree.v ===== *)
(** internal/rta: the command tree [NewCommand] builds (command.go, and the constructors
    of action.go, execution.go, audit.go and version.go) - what each command declares,
    the validator of its arguments and the [RunE] that follows.

    Finding the command a line names and parsing its flags are cobra's. *)

From S2P Require Import Prelude GoString Json Env Actions Backplane Models Catalog Http Flags RtaClient RtaCommands.
#[local] Open Scope Z_scope.

(** ** Declarations *)

(** [addOutputFormatFlag]. *)
Definition addOutputFormatFlag (declared : list flag_decl) : list flag_decl :=
  declared ++ [flag "output" (TString "text")].

(** The commands that do something, and what the others hold. *)
Inductive leaf :=
| ActionList | ActionDescribe | ActionRun | ExecutionList | ExecutionGet | ExecutionOutput | AuditListCmd | VersionCmd.
Record leaf_command := {
  lc_use : string; lc_args : option (list string); lc_flags : list flag_decl; lc_run : leaf }.
Record group_command := { gc_use : string; gc_commands : list leaf_command }.

(** [actionCommands], [executionCommands], [auditCommands] and [versionCommand]:
    [lc_args] is [None] for [rejectUnknownArgsAndSuggestSimilar], else the names
    [requiredArgs] has. *)
Definition actionCommands : group_command :=
  {| gc_use := "action"; gc_commands :=
       [ {| lc_use := "list"; lc_args := None; lc_flags := addOutputFormatFlag []; lc_run := ActionList |};
         {| lc_use := "describe"; lc_args := Some ["action name"]; lc_flags := addOutputFormatFlag [];
            lc_run := ActionDescribe |};
         {| lc_use := "run"; lc_args := Some ["action name"];
            lc_flags := addOutputFormatFlag
              [ mark_required (string_flag "cluster"); mark_required (string_flag "jira"); flag "param" TStringSlice;
                bool_flag "force"; bool_flag "dry-run"; bool_flag "no-wait" ];
            lc_run := ActionRun |} ] |}.
Definition executionCommands : group_command :=
  {| gc_use := "execution"; gc_commands :=
       [ {| lc_use := "list"; lc_args := None;
            lc_flags := addOutputFormatFlag
              [string_flag "status"; string_flag "action"; string_flag "cluster"];
            lc_run := ExecutionList |};
         {| lc_use := "get"; lc_args := Some ["execution ID"]; lc_flags := addOutputFormatFlag [];
            lc_run := ExecutionGet |};
         {| lc_use := "output"; lc_args := Some ["execution ID"]; lc_flags := addOutputFormatFlag [];
            lc_run := ExecutionOutput |} ] |}.
Definition auditCommands : group_command :=
  {| gc_use := "audit"; gc_commands :=
       [ {| lc_use := "list"; lc_args := None;
            lc_flags := addOutputFormatFlag [string_flag "action"; string_flag "cluster"];
            lc_run := AuditListCmd |} ] |}.
Definition versionCommand : leaf_command :=
  {| lc_use := "version"; lc_args := None; lc_flags := addOutputFormatFlag []; lc_run := VersionCmd |}.

(** [NewCommand]: the persistent flags and the tree. *)
Definition defaultTimeout : Z := 5 * 60 * 1000000000.
Definition persistent_flags : list flag_decl :=
  [ bool_flag "verbose"; flag "timeout" (TDuration defaultTimeout); string_flag "server"; string_flag "token" ].
Record root_command := { rc_groups : list group_command; rc_leaves : list leaf_command }.
Definition NewCommand : root_command :=
  {| rc_groups := [actionCommands; executionCommands; auditCommands]; rc_leaves := [versionCommand] |}.
Definition all_commands : list leaf_command :=
  concat (gc_commands <$> NewCommand.(rc_groups)) ++ NewCommand.(rc_leaves).

(** A group and the root are commands of their own: their arguments are rejected and
    they print their help. *)
Inductive parent_outcome := ShowsHelp | Rejects (e : exit).
Definition run_parent (commandPath : string) (suggestions : string → list string) (args : list string) : parent_outcome :=
  match rejectUnknownArgs commandPath true suggestions args with
  | Some e => Rejects e
  | None => ShowsHelp
  end.

(** ** Running a command *)
Section run.
Context `{U : GoURL} `{!UrlParts} `{GoJson} `{Transport} `{ApiCodec} `{MapOrder}.
Context (b : build) (server : string) (login : res (option ocm_login)).

(** [requestContext]: the deadline of a command that starts now. *)
Definition requestContext (timeout now : Z) : Z := now + timeout.

(** What running a command comes to: it ends, its wait outlasts the given events, or it
    indexes an argument that is not there. *)
Inductive command_outcome := Ends (e : exit) | Waits | ArgPanic.

Definition ending (m : M cli exit) : M cli command_outcome := do e <- m; ret (Ends e).
(** [args[0]]. *)
Definition with_arg (args : list string) (k : string → M cli command_outcome) : M cli command_outcome :=
  match args with [] => ret ArgPanic | a :: _ => k a end.

(** The [RunE] of each command. *)
Definition run_leaf (l : leaf) (cmd : flags) (events : list wait_event) (args : list string) : M cli command_outcome :=
  match l with
  | ActionList => ending (run_action_list b server login cmd)
  | ActionDescribe => with_arg args (λ a, ending (run_action_describe b server login cmd a))
  | ActionRun =>
      with_arg args (λ a, do r <- run_action_run b server login cmd events a;
                          ret (match r with Some e => Ends e | None => Waits end))
  | ExecutionList => ending (run_execution_list b server login cmd)
  | ExecutionGet => with_arg args (λ a, ending (run_execution_get b server login cmd a))
  | ExecutionOutput => with_arg args (λ a, ending (run_execution_output b server login cmd a))
  | AuditListCmd => ending (run_audit_list b server login cmd)
  | VersionCmd => ending (run_version b cmd)
  end.

(** A command as cobra executes it: its validator, then its [RunE]. *)
Definition validate_args (c : leaf_command) (args : list string) : option exit :=
  match c.(lc_args) with
  | Some names => requiredArgs names args
  | None => rejectUnknownArgs "" false (λ _, []) args
  end.
Definition execute_command (c : leaf_command) (cmd : flags) (events : list wait_event) (args : list string)
  : M cli command_outcome :=
  match validate_args c args with
  | Some e => ret (Ends e)
  | None => run_leaf c.(lc_run) cmd events args
  end.

(** ** Declared flags *)

(** The names a command declares, with the one persistent flag its [RunE] reads. *)
Definition readable (c : leaf_command) : list string := "token" :: (fd_name <$> c.(lc_flags)).

Lemma resolveToken_agree f g :
  f.(fl_string) "token" = g.(fl_string) "token" → resolveToken f login = resolveToken g login.
Proof. intros Ht. unfold resolveToken, fromFlag. by rewrite Ht. Qed.
Lemma newClient_agree f g auth :
  f.(fl_string) "token" = g.(fl_string) "token" → newClient b server login f auth = newClient b server login g auth.
Proof. intros Ht. unfold newClient. rewrite (resolveToken_agree f g Ht). unfold fromFlag. by rewrite Ht. Qed.
Lemma validateFormat_agree f g :
  f.(fl_string) "output" = g.(fl_string) "output" → validateFormat f = validateFormat g.
Proof. intros Ho. unfold validateFormat, fromFlag. by rewrite Ho. Qed.
Lemma isJSON_agree f g : f.(fl_string) "output" = g.(fl_string) "output" → isJSON f = isJSON g.
Proof. intros Ho. unfold isJSON, fromFlag. by rewrite Ho. Qed.
Lemma list_query_agree names f g :
  (∀ n, n ∈ names → f.(fl_string) n = g.(fl_string) n) → list_query f names = list_query g names.
Proof.
  unfold list_query, fromFlag. generalize (∅ : strmap, ∅ : strmap).
  induction names as [|n names IH]; intros [q fs] Hn; [done|]. simpl. rewrite (Hn n) by by left.
  apply IH. intros m Hm. apply Hn. by right.
Qed.

Lemma parseParams_agree f g : f.(fl_slice) "param" = g.(fl_slice) "param" → parseParams f = parseParams g.
Proof. intros Hp. unfold parseParams. by rewrite Hp. Qed.

(** Rewrites what a [RunE] reads of [f] to what it reads of [g]. *)
Ltac rewrite_reads f g :=
  unfold run_action_list, run_action_describe, run_action_run, run_submitted, run_request, run_execution_list,
    run_execution_get, run_execution_output, run_audit_list, run_version, with_api,
    handleJSONOutputAndEmptyLists, boolFlag;
  rewrite ?(validateFormat_agree f g), ?(isJSON_agree f g), ?(newClient_agree f g), ?(parseParams_agree f g)
    by auto.

Lemma run_leaf_agree c f g events args :
  c ∈ all_commands → agree_on (readable c) f g →
  run_leaf c.(lc_run) f events args = run_leaf c.(lc_run) g events args.
Proof.
  intros Hc Ha.
  assert (∀ n, bool_decide (n ∈ readable c) = true →
    fl_string f n = fl_string g n ∧ fl_bool f n = fl_bool g n ∧ fl_slice f n = fl_slice g n
    ∧ fl_duration f n = fl_duration g n) as Hr
    by (intros n Hn%bool_decide_eq_true; by apply Ha).
  assert (∀ n, bool_decide (n ∈ readable c) = true → fl_string f n = fl_string g n) as Hs by (intros n Hn; by apply Hr).
  assert (∀ n, bool_decide (n ∈ readable c) = true → fl_bool f n = fl_bool g n) as Hb by (intros n Hn; by apply Hr).
  assert (∀ n, bool_decide (n ∈ readable c) = true → fl_slice f n = fl_slice g n) as Hl by (intros n Hn; by apply Hr).
  assert (fl_string f "token" = fl_string g "token") as Ht by (apply Hs; apply bool_decide_eq_true; by left).
  clear Ha Hr. unfold all_commands in Hc. simpl in Hc.
  repeat (apply elem_of_cons in Hc as [->|Hc]); [..|by apply elem_of_nil in Hc]; simpl; unfold with_arg;
    try (destruct args as [|a args]; [done|]); rewrite_reads f g.
  all: try reflexivity.
  - unfold fromFlag. by rewrite (Hs "cluster"), (Hs "jira"), (Hb "dry-run"), (Hb "force"), (Hb "no-wait") by reflexivity.
  - rewrite (list_query_agree _ f g); [done|]. intros n Hn. apply Hs.
    repeat (apply elem_of_cons in Hn as [->|Hn]; [reflexivity|]). by apply elem_of_nil in Hn.
  - rewrite (list_query_agree _ f g); [done|]. intros n Hn. apply Hs.
    repeat (apply elem_of_cons in Hn as [->|Hn]; [reflexivity|]). by apply elem_of_nil in Hn.
Qed.

(** C27: the commands read what they declare. Two command lines that agree on the flags a
    command declares, and on the token, run it to the same requests, output and end:
    no [RunE] asks for a flag under a name its command does not have (pflag would answer
    with a zero value), and the persistent --verbose changes nothing anywhere. No flag is
    declared twice on a command, and no command indexes an argument its validator has not
    required. *)
Theorem commands_read_what_they_declare c f g events args s :
  c ∈ all_commands →
  (agree_on (readable c) f g → execute_command c f events args s = execute_command c g events args s)
  ∧ NoDup (fd_name <$> c.(lc_flags) ++ persistent_flags)
  ∧ (execute_command c f events args s).1 ≠ ArgPanic.
Proof.
  intros Hc. split; [|split].
  - intros Ha. unfold execute_command. by rewrite (run_leaf_agree c f g).
  - apply (bool_decide_eq_true (NoDup _)). revert Hc. unfold all_commands. simpl. intros Hc.
    repeat (apply elem_of_cons in Hc as [->|Hc]; [reflexivity|]). by apply elem_of_nil in Hc.
  - assert (∀ m : M cli exit, (ending m s).1 ≠ ArgPanic) as He
      by (intros m; unfold ending, bind; by destruct (m s)).
    unfold execute_command. destruct (validate_args c args) as [e|] eqn:Hv; [done|].
    revert Hc. unfold all_commands. simpl. intros Hc.
    repeat (apply elem_of_cons in Hc as [->|Hc]); [..|by apply elem_of_nil in Hc]; simpl; try apply He;
      destruct args as [|a args]; try done; simpl; try apply He.
    unfold bind. destruct (run_action_run _ _ _ _ _ _ s) as [[e|] s']; done.
Qed.
End run.

(** ** The version command, quiet and verbose *)
Module RtaTreeExample.
Import RtaExample ModelsExample.
#[local] Existing Instance ids.
Definition none : openapi_Execution :=
  Execution_ToOpenAPI (ExecutionFromRequest "" 0 "" (Build_ExecutionRequest "" "" None None None) "").
#[local] Instance codec : ApiCodec :=
  {| encode_request := λ _, "{}";
     decode_catalog := λ _, Err (EText "no"); zero_catalog := [];
     decode_action := λ _, Err (EText "no");
     zero_action := Build_TrustedAction (Build_TrustedActionSummary "" Read KubeApi "") None None None None;
     decode_execution := λ _, Err (EText "no"); zero_execution := none;
     decode_executions := λ _, Err (EText "no"); zero_executions := Build_ExecutionList [] 0 0 0 false;
     decode_output := λ _, Err (EText "no"); zero_output := Build_ExecutionOutput "" None;
     decode_audits := λ _, Err (EText "no"); zero_audits := Build_AuditList [] 0 0 0 false |}.
#[local] Instance offline : Transport := λ _ _, Err (EText "no network").
#[local] Instance order : MapOrder := map_to_list.
#[local] Instance json_codec : GoJson := TreeCodec.codec.

Definition line (verbose : bool) : flags :=
  {| fl_string := λ n, if bool_decide (n = "output") then "text" else "";
     fl_bool := λ n, bool_decide (n = "verbose") && verbose; fl_slice := λ _, [];
     fl_duration := λ _, 0 |}.
Definition idle : cli := Build_cli [] [] [].
Definition version_run (verbose : bool) :=
  execute_command release "" (Ok None) versionCommand (line verbose) [] [] idle.

Lemma commands_read_what_they_declare_witness :
  versionCommand ∈ all_commands ∧ version_run false = version_run true
  ∧ (version_run true).1 = Ends Done.
Proof.
  assert (versionCommand ∈ all_commands) as Hc
    by (unfold all_commands; apply elem_of_app; right; by left).
  split; [exact Hc|]. split; [|vm_compute; reflexivity].
  refine (proj1 (commands_read_what_they_declare release "" (Ok None) versionCommand (line false) (line true) [] []
    idle Hc) _).
  intros n Hn. repeat (apply elem_of_cons in Hn as [->|Hn]; [by vm_compute|]). by apply elem_of_nil in Hn.
Defined.
End RtaTreeExample.
