(* ===== verification/Openapi.v ===== *)
(** internal/openapi/api.go - the generated server code: the enumerations and error
    types, the wrappers that bind path and query parameters before the middlewares and the
    handler run, the stub implementation, and the registration of the routes.

    The binding functions of the oapi-codegen runtime and the router's matching are
    outside the repository: a [Binder] and, per request, the operation the router
    chose with its path parameters. *)

From S2P Require Import Prelude GoString Json Env Actions AwsGet Models StoreApi Catalog Http Auth Handlers Server RtaClient.
From Stdlib Require Import Ascii.
#[local] Open Scope Z_scope.

(** ** Enumerations and their [Valid] *)

Definition ActionType_Valid (e : string) : bool := contains ["read"; "write"] e.
Definition ApprovalState_Valid (e : string) : bool :=
  contains ["approved"; "not_required"; "pending"; "rejected"] e.
Definition AuditEntryMethod_Valid (e : string) : bool := contains ["GET"; "POST"] e.
Definition AuditListKind_Valid (e : string) : bool := contains ["AuditList"] e.
Definition ErrorKind_Valid (e : string) : bool := contains ["Error"] e.
Definition ExecutionStatus_Valid (e : string) : bool :=
  contains ["failed"; "pending"; "running"; "succeeded"; "timed_out"] e.
Definition Scope_Valid (e : string) : bool := contains ["aws-api"; "kube-api"] e.
Definition ListAuditEntriesParamsMethod_Valid (e : string) : bool := contains ["GET"; "POST"] e.
Definition ListExecutionsParamsDryRun_Valid (e : string) : bool := contains ["false"; "true"] e.
Definition ListExecutionsParamsForce_Valid (e : string) : bool := contains ["false"; "true"] e.

(** ** Errors of the wrappers *)

(** The generated error types; the wrappers of this API use two of them. *)
Inductive param_error :=
| UnescapedCookieParamError (name : string) (err : gerror)
| UnmarshalingParamError (name : string) (err : gerror)
| RequiredParamError (name : string)
| RequiredHeaderError (name : string) (err : gerror)
| InvalidParamFormatError (name : string) (err : gerror)
| TooManyValuesForParamError (name : string) (count : Z).
(** [Error]. *)
Definition param_error_text (e : param_error) : string :=
  match e with
  | UnescapedCookieParamError name _ => "error unescaping cookie parameter '" +:+ name +:+ "'"
  | UnmarshalingParamError name err =>
      "Error unmarshaling parameter " +:+ name +:+ " as JSON: " +:+ error_text err
  | RequiredParamError name => "Query argument " +:+ name +:+ " is required, but not found"
  | RequiredHeaderError name _ => "Header parameter " +:+ name +:+ " is required, but not found"
  | InvalidParamFormatError name err => "Invalid format for parameter " +:+ name +:+ ": " +:+ error_text err
  | TooManyValuesForParamError name count => "Expected one value for " +:+ name +:+ ", got " +:+ dec count
  end.
(** [Unwrap], where a type has it. *)
Definition param_error_unwrap (e : param_error) : option gerror :=
  match e with
  | UnescapedCookieParamError _ err | UnmarshalingParamError _ err | RequiredHeaderError _ err
  | InvalidParamFormatError _ err => Some err
  | RequiredParamError _ | TooManyValuesForParamError _ _ => None
  end.
(** [HandlerWithOptions]'s default [ErrorHandlerFunc]: [http.Error] with 400. *)
Definition ErrorHandlerFunc `{GoUUID} (e : param_error) : outcome_of_request :=
  Responded (Response 400 (BText (param_error_text e))).

(** ** Requests as they reach a wrapper *)

(** The operations, and the routes [HandlerWithOptions] registers for them. *)
Inductive operation :=
| OpCatalog | OpListAuditEntries | OpListExecutions | OpGetExecutionOutput | OpGetExecution
| OpDescribe | OpCreateExecution.
Definition routes (baseURL : string) : list (string * string * operation) :=
  [ ("GET", baseURL +:+ "/", OpCatalog); ("GET", baseURL +:+ "/{action}", OpDescribe);
    ("POST", baseURL +:+ "/{action}/run", OpCreateExecution);
    ("GET", baseURL +:+ "/runs/{id}", OpGetExecution);
    ("GET", baseURL +:+ "/runs/{exec_id}/output", OpGetExecutionOutput);
    ("GET", baseURL +:+ "/runs", OpListExecutions); ("GET", baseURL +:+ "/audit", OpListAuditEntries) ].

(** [url.Values]. *)
Definition query : Type := list (string * string).

(** The runtime's binding of an optional query parameter and of a path parameter,
    which it unescapes unless told that it is; whether an error is a
    [RequiredParameterError]. *)
Class Binder `{GoUUID} := {
  bind_query_int : string → query → res (option Z);
  bind_query_string : string → query → res (option string);
  bind_path_string : string → bool → res string;
  bind_path_uuid : string → bool → res uuid;
  is_required_error : gerror → bool }.

(** The runtime's documented behaviour on the string path parameter: it must not be
    empty, and it is unescaped exactly when it has not been yet. *)
Class BinderLaws `(Binder) : Prop := {
  bind_path_empty unescaped : is_ok (bind_path_string "" unescaped) = false;
  bind_path_plain raw : raw ≠ "" → bind_path_string raw true = Ok raw;
  bind_path_escaped raw v : raw ≠ "" → bind_path_string raw false = Ok v → path_unescape raw = Some v }.

Section wrappers.
Context `{Env} `{S : StoreInterface} `{!IdSource} `{GoJson} `{B : !Binder}.

(** The request behind a route: the path parameters as the router captured them,
    from the escaped path when there is one ([r.URL.RawPath]). *)
Record raw_request := {
  rr_Method : string; rr_Path : string; rr_RawPath : string; rr_Token : res (option token);
  rr_op : operation; rr_action : string; rr_id : string; rr_query : query;
  rr_body : res ExecutionRequest }.

(** [ValueIsUnescaped]. *)
Definition value_is_unescaped (q : raw_request) : bool := is_empty q.(rr_RawPath).

(** One query parameter of a wrapper: on an error the wrapper answers and returns. *)
Definition query_param {A} (name : string) (r : res (option A)) : sum (option A) param_error :=
  match r with
  | Ok v => inl v
  | Err e => inr (if is_required_error e then RequiredParamError name else InvalidParamFormatError name e)
  end.
Definition param_bind {A B} (m : sum A param_error) (k : A → sum B param_error) : sum B param_error :=
  match m with inl a => k a | inr e => inr e end.
Notation "'let!' x ':=' m 'in' k" := (param_bind m (λ x, k))
  (at level 10, x pattern, m at level 100, k at level 200) : go_scope.
Definition query_int (name : string) (q : query) := query_param name (bind_query_int name q).
Definition query_string (name : string) (q : query) := query_param name (bind_query_string name q).
Definition path_param {A} (name : string) (r : res A) : sum A param_error :=
  match r with Ok v => inl v | Err e => inr (InvalidParamFormatError name e) end.

(** [ServerInterfaceWrapper.ListAuditEntries]'s parameters. *)
Definition bind_ListAuditEntries (q : query) : sum ListAuditEntriesParams param_error :=
  let! page := query_int "page" q in
  let! limit := query_int "limit" q in
  let! action := query_string "action" q in
  let! target := query_string "target" q in
  let! operator := query_string "operator" q in
  let! method := query_string "method" q in
  let! approval_state := query_string "approval_state" q in
  let! since := query_string "since" q in
  inl {| la_Page := page; la_Limit := limit; la_Operator := operator; la_Action := action; la_Target := target;
         la_Since := since; la_Method := method; la_ApprovalState := approval_state |}.

(** [ServerInterfaceWrapper.ListExecutions]'s. *)
Definition bind_ListExecutions (q : query) : sum ListExecutionsParams param_error :=
  let! page := query_int "page" q in
  let! limit := query_int "limit" q in
  let! status := query_string "status" q in
  let! action := query_string "action" q in
  let! target := query_string "target" q in
  let! operator := query_string "operator" q in
  let! scope := query_string "scope" q in
  let! type := query_string "type" q in
  let! approval_state := query_string "approval_state" q in
  let! dry_run := query_string "dry_run" q in
  let! force := query_string "force" q in
  let! since := query_string "since" q in
  inl {| le_Page := page; le_Limit := limit; le_Status := status; le_Operator := operator; le_Action := action;
         le_Target := target; le_Since := since; le_Scope := scope; le_Type := type;
         le_ApprovalState := approval_state; le_DryRun := dry_run; le_Force := force |}.

(** The wrapper of each operation, up to its handler. *)
Definition bind_call (q : raw_request) : sum api_call param_error :=
  let unescaped := value_is_unescaped q in
  match q.(rr_op) with
  | OpCatalog => inl ApiCatalog
  | OpListAuditEntries => let! p := bind_ListAuditEntries q.(rr_query) in inl (ApiListAuditEntries p)
  | OpListExecutions => let! p := bind_ListExecutions q.(rr_query) in inl (ApiListExecutions p)
  | OpGetExecutionOutput =>
      let! id := path_param "exec_id" (bind_path_uuid q.(rr_id) unescaped) in inl (ApiGetExecutionOutput id)
  | OpGetExecution => let! id := path_param "id" (bind_path_uuid q.(rr_id) unescaped) in inl (ApiGetExecution id)
  | OpDescribe =>
      let! a := path_param "action" (bind_path_string q.(rr_action) unescaped) in inl (ApiDescribe a)
  | OpCreateExecution =>
      let! a := path_param "action" (bind_path_string q.(rr_action) unescaped) in
      inl (ApiCreateExecution a q.(rr_body))
  end.

(** What the middlewares see: the parameters as captured. *)
Definition captured_call (q : raw_request) (bound : api_call) : api_call :=
  match bound with
  | ApiDescribe _ => ApiDescribe q.(rr_action)
  | ApiCreateExecution _ body => ApiCreateExecution q.(rr_action) body
  | c => c
  end.
Definition request_of (q : raw_request) (call : api_call) : http_request :=
  {| hq_Method := q.(rr_Method); hq_Path := q.(rr_Path); hq_Token := q.(rr_Token); hq_Call := call |}.

(** [Unimplemented]: every operation answers 501. *)
Definition Unimplemented : handler := λ _ _, ret (Responded (Response 501 (BText ""))).

(** [ServerInterfaceWrapper]: bind, then the middlewares, each around the ones before
    it, around the handler with what was bound. *)
Record ServerInterfaceWrapper := {
  siw_Handler : handler; siw_HandlerMiddlewares : list (handler → handler);
  siw_ErrorHandlerFunc : param_error → outcome_of_request }.
Definition siw_serve (siw : ServerInterfaceWrapper) (ctx : context) (q : raw_request) : API outcome_of_request :=
  match bind_call q with
  | inr e => ret (siw.(siw_ErrorHandlerFunc) e)
  | inl call =>
      foldl (λ h (middleware : handler → handler), middleware h)
        (λ ctx _, siw.(siw_Handler) ctx (request_of q call)) siw.(siw_HandlerMiddlewares) ctx
        (request_of q (captured_call q call))
  end.

(** A router: the routes registered on it, with the handlers that serve them. *)
Definition router : Type := list ((string * string * operation) * (context → raw_request → API outcome_of_request)).
Record ChiServerOptions := {
  cso_BaseURL : string; cso_BaseRouter : option router; cso_Middlewares : list (handler → handler);
  cso_ErrorHandlerFunc : option (param_error → outcome_of_request) }.

Definition HandlerWithOptions (si : handler) (options : ChiServerOptions) : router :=
  let r := default [] options.(cso_BaseRouter) in
  let wrapper := {| siw_Handler := si; siw_HandlerMiddlewares := options.(cso_Middlewares);
                    siw_ErrorHandlerFunc := default ErrorHandlerFunc options.(cso_ErrorHandlerFunc) |} in
  r ++ ((λ rt, (rt, siw_serve wrapper)) <$> routes options.(cso_BaseURL)).
Definition openapi_Handler (si : handler) : router := HandlerWithOptions si (Build_ChiServerOptions "" None [] None).
Definition HandlerFromMux (si : handler) (r : router) : router :=
  HandlerWithOptions si (Build_ChiServerOptions "" (Some r) [] None).
Definition HandlerFromMuxWithBaseURL (si : handler) (r : router) (baseURL : string) : router :=
  HandlerWithOptions si (Build_ChiServerOptions baseURL (Some r) [] None).

(** The server's wrapper: runServer passes the action check as the only middleware. *)
Definition wrapper (catalog : Catalog) (h : handler) : context → raw_request → API outcome_of_request :=
  siw_serve {| siw_Handler := h; siw_HandlerMiddlewares := [CheckActionAccess catalog];
               siw_ErrorHandlerFunc := ErrorHandlerFunc |}.

(** ** The action that is checked is the action that runs *)

Context `{AwsSdk} `{GoDuration}.

(** The names of the catalog are their own unescaping. *)
Lemma catalog_names_plain raw a :
  catalog_GetAction catalog_New raw = Some a → path_unescape raw = Some raw.
Proof.
  intros Ha. destruct (decide (raw ∈ ad_Name <$> catalog_definitions)) as [Hin|Hout].
  - revert Hin. clear Ha. unfold catalog_definitions. simpl. intros Hin.
    repeat (apply elem_of_cons in Hin as [->|Hin]; [by vm_compute|]). by apply elem_of_nil in Hin.
  - destruct (registered catalog_definitions empty_catalog) as (_ & Hno & _); [decide_closed|].
    unfold catalog_GetAction in Ha. unfold catalog_New in Ha. rewrite Hno in Ha by done. done.
Qed.

Context `{!BinderLaws B}.

Lemma bound_action raw unescaped v :
  bind_path_string raw unescaped = Ok v → raw ≠ "" ∧ (v = raw ∨ path_unescape raw = Some v).
Proof.
  intros Hv. destruct (decide (raw = "")) as [->|Hne].
  { pose proof (bind_path_empty unescaped) as He. by rewrite Hv in He. }
  split; [done|]. destruct unescaped.
  - left. rewrite bind_path_plain in Hv by done. by injection Hv as <-.
  - right. by apply bind_path_escaped in Hv.
Qed.
(** C28: the action whose roles are checked is the action that runs. The role check
    sees the action as the router captured it, possibly still escaped, and the handler
    the action the wrapper bound from it; when a wrapper reaches its handler with a
    describe or run of an action, that action is the captured one, is in the catalog,
    and allows the caller's role. Otherwise the request is answered with 400 for an
    unusable parameter, 403 or 404, before any handler, with nothing changed. *)
Theorem checked_action_is_run h ctx q s :
  (∃ call, bind_call q = inl call ∧ wrapper catalog_New h ctx q s = h ctx (request_of q call) s
     ∧ (url_action call = "" ∨
        url_action call = q.(rr_action)
        ∧ ∃ a, catalog_GetAction catalog_New (url_action call) = Some a
               ∧ GetRoleFromContext ctx ∈ a.(aa_AllowedRoles)))
  ∨ (∃ e, bind_call q = inr e ∧ wrapper catalog_New h ctx q s = (ErrorHandlerFunc e, s))
  ∨ (∃ status msg, status ∈ [403; 404] ∧ wrapper catalog_New h ctx q s = (auth_error status msg, s)).
Proof.
  unfold wrapper, siw_serve. destruct (bind_call q) as [call|e] eqn:Hb; [|right; left; eauto]. simpl.
  destruct (action_access_cases catalog_New (λ ctx _, h ctx (request_of q call)) ctx
    (request_of q (captured_call q call)) s) as [[-> Ha]|(status & msg & Hst & ->)]; [|right; right; eauto].
  left. exists call. split; [done|]. split; [done|].
  assert (∀ v, bind_path_string q.(rr_action) (value_is_unescaped q) = Ok v →
    (q.(rr_action) ≠ "" → ∃ a, catalog_GetAction catalog_New q.(rr_action) = Some a
       ∧ GetRoleFromContext ctx ∈ a.(aa_AllowedRoles)) →
    v = q.(rr_action) ∧ ∃ a, catalog_GetAction catalog_New v = Some a
       ∧ GetRoleFromContext ctx ∈ a.(aa_AllowedRoles)) as Hv.
  { intros v [Hne Heq]%bound_action Hact. destruct (Hact Hne) as (a & Hg & Hr).
    assert (v = q.(rr_action)) as -> by (destruct Heq as [->|Heq]; [done|];
      apply catalog_names_plain in Hg; congruence). eauto. }
  unfold bind_call in Hb. destruct (rr_op q); simpl in Hb;
    repeat match type of Hb with
    | param_bind ?m _ = _ => destruct m eqn:?; [|done]; simpl in Hb
    end; injection Hb as <-; simpl in Ha |- *; auto.
  all: right; destruct (bind_path_string _ _) as [v|] eqn:Hp; simplify_eq/=; by apply Hv.
Qed.
End wrappers.

Module OpenapiExample.
Import AwsGetExample ModelsExample HandlersExample.
(** The runtime's binding of strings, and of ids that are their own text. *)
Definition unescaped_string (raw : string) (unescaped : bool) : res string :=
  if is_empty raw then Err (EText "parameter is empty, can't bind its value")
  else if unescaped then Ok raw
  else match path_unescape raw with Some v => Ok v | None => Err (EText "invalid URL escape") end.
#[local] Instance binder : Binder :=
  {| bind_query_int := λ name q, match List.find (λ kv, bool_decide (kv.1 = name)) q with
                                 | Some (_, v) => match atoi v with
                                                  | Some n => Ok (Some n)
                                                  | None => Err (EText "invalid syntax")
                                                  end
                                 | None => Ok None
                                 end;
     bind_query_string := λ name q, Ok (snd <$> List.find (λ kv, bool_decide (kv.1 = name)) q);
     bind_path_string := unescaped_string; bind_path_uuid := unescaped_string;
     is_required_error := λ _, false |}.
#[local] Instance binder_laws : BinderLaws binder.
Proof.
  split; unfold bind_path_string, binder, unescaped_string, is_empty.
  - done.
  - intros raw Hne. by rewrite bool_decide_eq_false_2.
  - intros raw v Hne. rewrite bool_decide_eq_false_2 by done. destruct (path_unescape raw); [|done]. by intros [= ->].
Qed.

(** "aws-terminate" with an escaped letter, by a caller with every role. *)
Definition sneaky : raw_request :=
  {| rr_Method := "POST"; rr_Path := "/aws-terminate/run"; rr_RawPath := "/aws-terminat%65/run";
     rr_Token := Ok None; rr_op := OpCreateExecution; rr_action := "aws-terminat%65"; rr_id := "";
     rr_query := []; rr_body := Ok ModelsExample.request |}.
Definition srep : context := Context_ None (Some "SREP") false.

Lemma checked_action_is_run_witness :
  (wrapper catalog_New (APIHandler catalog_New) srep sneaky start).1 = auth_error 404 "Unknown action"
  ∧ bind_call sneaky = inl (ApiCreateExecution "aws-terminate" (Ok ModelsExample.request))
  ∧ ((∃ call, bind_call sneaky = inl call ∧
        wrapper catalog_New (APIHandler catalog_New) srep sneaky start
        = APIHandler catalog_New srep (request_of sneaky call) start
        ∧ (url_action call = "" ∨ url_action call = "aws-terminat%65"
           ∧ ∃ a, catalog_GetAction catalog_New (url_action call) = Some a ∧ "SREP" ∈ a.(aa_AllowedRoles)))
     ∨ (∃ e, bind_call sneaky = inr e
          ∧ wrapper catalog_New (APIHandler catalog_New) srep sneaky start = (ErrorHandlerFunc e, start))
     ∨ (∃ status msg, status ∈ [403; 404]
          ∧ wrapper catalog_New (APIHandler catalog_New) srep sneaky start = (auth_error status msg, start))).
Proof.
  split; [vm_compute; reflexivity|]. split; [vm_compute; reflexivity|].
  exact (checked_action_is_run (APIHandler catalog_New) srep sneaky start).
Defined.
End OpenapiExample.
