(* ===== verification/Effects.v ===== *)
(** What serving a request does to the state the API shares with the worker pool - the
    store's queue, the calls made and the pool's notify channel - as a sequence of
    atomic steps, for every handler and middleware of the API. *)

From stdpp Require Import relations.
From S2P Require Import Prelude GoString Json Env Actions AwsGet Models StoreApi Worker Catalog Http Auth Handlers Server RtaClient Openapi.
#[local] Open Scope Z_scope.

(** ** The steps of a request *)
Section effects.
Context `{Env} `{S : StoreInterface} `{!IdSource} `{GoJson} `{V : !QueueView S}.

(** What the API and the pool share. *)
Record shared := Shared { shr_store : store_st; shr_world : world; shr_notify : bool }.
Definition shared_of (s : api_state) : shared := Shared s.(api_store) s.(api_world) s.(api_notify).

(** One store operation, one notification or some calls to the environment. [P] holds
    of the executions a request may create; only after it may it wake a worker. *)
Inductive request_step (P : Execution → Prop) : shared → shared → Prop :=
| rs_create e r st st' w n :
    P e → e.(ex_Status) = ExecutionStatusPending → st_CreateExecution e st = (r, st') →
    request_step P (Shared st w n) (Shared st' w n)
| rs_notify e st w n : P e → request_step P (Shared st w n) (Shared st w (Notify n))
| rs_read {A} (m : M store_st A) st w n :
    reads m → request_step P (Shared st w n) (Shared (m st).2 w n)
| rs_calls st w w' n :
    (∃ new, w'.(w_calls) = w.(w_calls) ++ new) → request_step P (Shared st w n) (Shared st w' n).

Lemma request_step_weaken (P Q : Execution → Prop) a b :
  (∀ e, P e → Q e) → rtc (request_step P) a b → rtc (request_step Q) a b.
Proof.
  intros HPQ. induction 1 as [|a b c Hs _ IH]; [done|]. eapply rtc_l; [|exact IH].
  destruct Hs; [eapply rs_create|eapply rs_notify|eapply rs_read|eapply rs_calls]; eauto.
Qed.

(** [m] does no more than the steps of [P]. *)
Definition effects {A} (P : Execution → Prop) (m : API A) : Prop :=
  ∀ s, rtc (request_step P) (shared_of s) (shared_of (m s).2).

Section combinators.
Context {A B : Type} (P : Execution → Prop).

Lemma effects_ret (a : A) : effects P (ret a).
Proof. intros s. apply rtc_refl. Qed.
Lemma effects_bind (m : API A) (k : A → API B) :
  effects P m → (∀ a, effects P (k a)) → effects P (bind m k).
Proof.
  intros Hm Hk s. unfold bind. specialize (Hm s). destruct (m s) as [a s1]. etrans; [exact Hm|apply Hk].
Qed.
Lemma effects_read (m : M store_st A) : reads m → effects P (with_store m).
Proof.
  intros Hm s. unfold with_store, shared_of. pose proof (rs_read P m (api_store s) (api_world s) (api_notify s) Hm) as Hs.
  destruct (m (api_store s)) as [a st]. by apply rtc_once.
Qed.
Lemma effects_world (m : W A) : makes (λ _, True) m → effects P (with_world m).
Proof.
  intros Hm s. unfold with_world, shared_of. destruct (Hm (api_world s)) as (new & Hn & _).
  destruct (m (api_world s)) as [a w]. simpl in *. apply rtc_once, rs_calls. by exists new.
Qed.
End combinators.

Lemma effects_create P e :
  P e → e.(ex_Status) = ExecutionStatusPending → effects P (with_store (st_CreateExecution e)).
Proof.
  intros HP He s. unfold with_store, shared_of. destruct (st_CreateExecution e (api_store s)) as [r st] eqn:Hc.
  apply rtc_once. by eapply rs_create.
Qed.
Lemma effects_notify P e : P e → effects P (notify_workers Notify).
Proof. intros HP s. by eapply rtc_once, rs_notify. Qed.
Lemma effects_local {A} P (m : API A) : (∀ s, shared_of (m s).2 = shared_of s) → effects P m.
Proof. intros Hm s. by rewrite Hm. Qed.

Lemma effects_weaken {A} (P Q : Execution → Prop) (m : API A) :
  (∀ e, P e → Q e) → effects P m → effects Q m.
Proof. intros HPQ Hm s. by eapply request_step_weaken. Qed.
End effects.

Create HintDb effects discriminated.
#[export] Hint Resolve effects_ret effects_bind effects_read effects_world : effects.
#[export] Hint Extern 3 (makes _ _) => solve [solve_makes] : effects.
#[export] Hint Extern 2 (effects _ _) => apply effects_local; reflexivity : effects.

(** Walks the code, splitting on its conditions. *)
Ltac solve_effects :=
  repeat match goal with
  | |- ∀ _, _ => intro
  | |- effects _ (ret _) => apply effects_ret
  | |- effects _ (bind _ _) => apply effects_bind
  | |- effects _ (if ?b then _ else _) => destruct b eqn:?
  | |- effects _ (match ?x with _ => _ end) => destruct x eqn:?
  | |- effects _ (let '(_, _) := ?x in _) => destruct x eqn:?
  end; eauto with effects.

(** ** The operations and the middlewares *)
Section server.
Context `{Env} `{S : StoreInterface} `{!IdSource} `{GoJson} `{V : !QueueView S} `{!QueueLaws V}.

Hint Resolve queue_get queue_output queue_list queue_audit queue_list_audit : effects.

(** What a request to run [action] with this body, by this user, may create. *)
Definition run_of (action username : string) (body : res ExecutionRequest) (e : Execution) : Prop :=
  ∃ uid now req, body = Ok req ∧ e = ExecutionFromRequest uid now action req username.

Lemma list_effects {A} P page limit since (query : Z → option Z → M store_st (res (ListResult A))) failed answer :
  (∀ offset t, reads (query offset t)) → effects P (list_handler page limit since query failed answer).
Proof. intros Hq. unfold list_handler, since_param. solve_effects. Qed.

Lemma create_effects catalog ctx path action body :
  effects (run_of action (context_username ctx) body) (api_CreateExecution catalog ctx path action body).
Proof.
  unfold api_CreateExecution. destruct (catalog_Get catalog action); [|solve_effects].
  destruct body as [req|]; [|solve_effects].
  apply effects_bind; [solve_effects|]. intros now. apply effects_bind; [solve_effects|]. intros uid. cbv zeta.
  assert (run_of action (context_username ctx) (Ok req)
    (ExecutionFromRequest uid now action req (context_username ctx))) as Hrun by by exists uid, now, req.
  apply effects_bind; [by apply effects_create|]. intros [_|]; [|solve_effects].
  apply effects_bind; [by eapply effects_notify|]. solve_effects.
Qed.

(** Only a run creates anything. *)
Definition created_by (ctx : context) (c : api_call) (e : Execution) : Prop :=
  match c with
  | ApiCreateExecution action body => run_of action (context_username ctx) body e
  | _ => False
  end.

Lemma handler_effects catalog ctx r : effects (created_by ctx r.(hq_Call)) (APIHandler catalog ctx r).
Proof.
  unfold APIHandler. destruct (hq_Call r); simpl; try solve [solve_effects].
  - apply create_effects.
  - apply list_effects. intros. apply queue_list_audit.
  - apply list_effects. intros. apply queue_list.
  - unfold api_GetExecution. solve_effects.
  - unfold api_GetExecutionOutput. solve_effects.
Qed.

Lemma audit_effects P next ctx r :
  effects P (next (SetAuditContext ctx) r) → effects P (AuditLogger next ctx r).
Proof.
  intros Hn. unfold AuditLogger. solve_effects.
Qed.

(** OCM's access reviews are calls. *)
Lemma access_review_makes conn me username action resource :
  makes (λ _, True) (AccessReview conn me username action resource).
Proof. unfold AccessReview. solve_makes. Qed.

Lemma review_makes (authz : Authorization) username roles hadErr :
  (∀ u a r, makes (λ _, True) (authz u a r)) → makes (λ _, True) (review_roles authz username roles hadErr).
Proof.
  intros Ha. revert hadErr. induction roles as [|role roles IH]; intros hadErr; simpl; [apply makes_ret|].
  apply makes_bind; [apply Ha|]. intros [[]|]; auto. apply makes_ret.
Qed.

Lemma authorize_effects P roles authz next ctx r :
  (∀ u a x, makes (λ _, True) (authz u a x)) →
  (∀ i role, ctx.(cx_identity) = Some i → i.(ci_Username) ≠ "" → role_granted authz i.(ci_Username) roles role →
     effects P (next (SetRoleInContext ctx role.(role_ID)) r)) →
  effects P (AuthorizeAPI roles authz next ctx r).
Proof.
  intros Ha Hn s. unfold AuthorizeAPI, GetCallerIdentityFromContext.
  destruct (cx_identity ctx) as [i|] eqn:Hi; [|apply rtc_refl].
  destruct (is_empty (ci_Username i)) eqn:Hu; [apply rtc_refl|].
  assert (ci_Username i ≠ "") as Hne by (intros Hz; by rewrite Hz in Hu).
  pose proof (effects_world P (review_roles authz (ci_Username i) roles false)
    (review_makes authz (ci_Username i) roles false Ha) s) as Hw.
  unfold bind, with_world in *.
  destruct (review_roles authz (ci_Username i) roles false (api_world s)) as [[role|[]] w'] eqn:Hr;
    [|exact Hw|exact Hw].
  etrans; [exact Hw|]. apply (Hn i role); [done|done|]. by apply review_granted in Hr.
Qed.

Lemma access_effects P catalog next ctx r :
  (url_action r.(hq_Call) = "" ∨
   (∃ a, catalog_GetAction catalog (url_action r.(hq_Call)) = Some a
         ∧ GetRoleFromContext ctx ∈ a.(aa_AllowedRoles)) → effects P (next ctx r)) →
  effects P (CheckActionAccess catalog next ctx r).
Proof.
  intros Hn s. destruct (action_access_cases catalog next ctx r s) as [[-> Ha]|(st & msg & _ & ->)];
    [|apply rtc_refl].
  apply Hn. destruct (decide (url_action (hq_Call r) = "")); [by left|right; auto].
Qed.

(** ** The generated wrappers *)
Context `{B : !Binder} `{!BinderLaws B} `{AwsSdk} `{GoDuration}.

(** The run an API request with role [role] may create: of the action the router
    captured, in the catalog and allowed to the role. *)
Definition permitted_run (ctx : context) (q : raw_request) (e : Execution) : Prop :=
  ∃ a, q.(rr_op) = OpCreateExecution ∧ catalog_GetAction catalog_New q.(rr_action) = Some a
       ∧ GetRoleFromContext ctx ∈ a.(aa_AllowedRoles)
       ∧ run_of q.(rr_action) (context_username ctx) q.(rr_body) e.

Lemma wrapper_effects ctx q :
  effects (permitted_run ctx q) (wrapper catalog_New (APIHandler catalog_New) ctx q).
Proof.
  unfold wrapper, siw_serve. destruct (bind_call q) as [call|e] eqn:Hb; [|apply effects_ret]. simpl.
  apply access_effects. intros Hallowed. eapply effects_weaken; [|apply handler_effects].
  intros e He. simpl in He. unfold permitted_run.
  destruct call; try done. simpl in He, Hallowed.
  unfold bind_call in Hb. destruct (rr_op q);
    repeat match type of Hb with
    | context [param_bind ?m _] => destruct m eqn:?; simpl in Hb; [|done]
    end; try done.
  injection Hb as -> ->.
  assert (bind_path_string (rr_action q) (value_is_unescaped q) = Ok action) as [Hne Heq]%bound_action.
  { destruct (bind_path_string _ _) as [v|err] eqn:Hv; simplify_eq/=; done. }
  destruct Hallowed as [?|(a & Hg & Hr)]; [done|].
  assert (action = rr_action q) as -> by (destruct Heq as [->|Heq]; [done|];
    apply catalog_names_plain in Hg; congruence). eauto 10.
Qed.
End server.
