(* ===== verification/Edge.v ===== *)
(** The edge of the server: the global middlewares (internal/middleware: logging.go,
    middleware.go), the health check, the mounted API routes and the token verification
    around them, as runServer (cmd/server/main.go) stacks them.

    chi's and go-chi/cors's middlewares, chi's matching of a path to a route and the OCM
    SDK's token verification are outside the repository ([EdgeLibrary]). The size and the
    rendering of a body are not modelled. *)

From stdpp Require Import relations.
From S2P Require Import Prelude GoString Json Env Actions AwsGet Models StoreApi Catalog Http Auth Handlers Server RtaClient Openapi Effects.
From Stdlib Require Import Ascii.
#[local] Open Scope Z_scope.

(** ** Requests and answers at the edge *)

Section data.
Context `{GoUUID}.

(** [http.Request], with the header the middlewares read. *)
Record incoming := {
  in_Method : string; in_RequestURI : string; in_Path : string; in_RawPath : string;
  in_RemoteAddr : string; in_UserAgent : string; in_XRequestID : string;
  in_query : query; in_body : res ExecutionRequest }.

(** The values of the edge's context: the "request_id", and the verified token. *)
Record edge_context := EdgeContext { ec_request_id : option string; ec_token : option token }.

Record edge_response := EdgeResponse {
  er_Status : Z; er_Body : http_body; er_Header : gmap string string }.
(** A panic keeps the status that was already written. *)
Inductive edge_outcome := EdgeResponded (r : edge_response) | EdgePanicked (written : option Z).

End data.

(** The fields of a "Request completed" line. *)
Record access_log := {
  lg_method : string; lg_uri : string; lg_status : Z; lg_duration_ms : Z; lg_user_agent : string;
  lg_remote_addr : string; lg_request_id : option string }.
(** The fields of a "Panic recovered" line. *)
Record panic_log := { pl_request_id : option string; pl_method : string; pl_uri : string }.

Section edge.
Context `{Env} `{S : StoreInterface} `{!IdSource} `{GoJson} `{B : !Binder}.

Record edge_state := EdgeState {
  ed_api : api_state; ed_access : list access_log; ed_panics : list panic_log; ed_rand : nat }.
Notation Edge := (M edge_state).
Definition edge_handler : Type := edge_context → incoming → Edge edge_outcome.

Definition on_api {A} (m : API A) : Edge A := λ s,
  let '(a, x) := m s.(ed_api) in (a, EdgeState x s.(ed_access) s.(ed_panics) s.(ed_rand)).
Definition log_access (l : access_log) : Edge unit := λ s,
  (tt, EdgeState s.(ed_api) (s.(ed_access) ++ [l]) s.(ed_panics) s.(ed_rand)).
Definition log_panic (l : panic_log) : Edge unit := λ s,
  (tt, EdgeState s.(ed_api) s.(ed_access) (s.(ed_panics) ++ [l]) s.(ed_rand)).
Definition edge_now : Edge Z := on_api (with_world (perform CNow)).

(** ** The environment of the edge *)

(** The options runServer gives the CORS middleware. *)
Record cors_Options := {
  co_AllowedOrigins : list string; co_AllowedMethods : list string; co_AllowedHeaders : list string;
  co_ExposedHeaders : list string; co_AllowCredentials : bool; co_MaxAge : Z }.
(** What the SDK's authentication handler is built with. *)
Record authn_config := { an_KeysURL : string; an_Public : list string; an_KeysFile : option string }.

(** A path below the API's base as the router matched it. *)
Inductive match_result := Matched (op : operation) (action id : string) | NotMatched (status : Z).
(** What token verification comes to: the request goes on with a token, or without one
    on a public path, or it is refused. *)
Inductive verification := Verified (t : option token) | Refused (status : Z).

Class EdgeLibrary := {
  crypto_rand8 : nat → list Z;
  chi_RealIP : edge_handler → edge_handler;
  chi_Timeout : Z → edge_handler → edge_handler;
  http_TimeoutHandler : Z → string → edge_handler → edge_handler;
  cors_Handler : cors_Options → edge_handler → edge_handler;
  chi_match : list (string * string * operation) → string → string → match_result;
  authn_verify : authn_config → incoming → verification }.

(** ** middleware.go *)
Context `{L : EdgeLibrary}.

(** [hex.EncodeToString]. *)
Definition hex_char (n : Z) : ascii :=
  default "0"%char (String.get (Z.to_nat n) "0123456789abcdef").
Fixpoint hex_encode (b : list Z) : string :=
  match b with
  | [] => ""
  | x :: b' => String (hex_char (Z.quot x 16)) (String (hex_char (Z.rem x 16)) (hex_encode b'))
  end.

Definition generateRequestID : Edge string := λ s,
  (hex_encode (crypto_rand8 s.(ed_rand)),
   EdgeState s.(ed_api) s.(ed_access) s.(ed_panics) (Datatypes.S s.(ed_rand))).

Definition set_header (key value : string) (o : edge_outcome) : edge_outcome :=
  match o with
  | EdgeResponded r => EdgeResponded (EdgeResponse r.(er_Status) r.(er_Body) (<[key := value]> r.(er_Header)))
  | EdgePanicked w => EdgePanicked w
  end.

(** [RequestID]: the header is set before the handler runs. *)
Definition RequestID (next : edge_handler) : edge_handler := λ ctx r,
  do reqID <- (if is_empty r.(in_XRequestID) then generateRequestID else ret r.(in_XRequestID));
  do o <- next (EdgeContext (Some reqID) ctx.(ec_token)) r;
  ret (set_header "X-Request-ID" reqID o).

(** [Recoverer]: [http.Error], to no effect when a status was already written. *)
Definition edge_Recoverer (next : edge_handler) : edge_handler := λ ctx r,
  do o <- next ctx r;
  match o with
  | EdgePanicked written =>
      do _ <- log_panic {| pl_request_id := ctx.(ec_request_id); pl_method := r.(in_Method);
                           pl_uri := r.(in_RequestURI) |};
      ret (EdgeResponded (EdgeResponse (default 500 written) (BText "Internal Server Error") ∅))
  | EdgeResponded resp => ret (EdgeResponded resp)
  end.

Definition Timeout (timeout : Z) (next : edge_handler) : edge_handler :=
  http_TimeoutHandler timeout "Request timeout" next.

(** ** logging.go *)

(** [NewLogger]: a deferred line, from the request and context it was called with. *)
Definition NewLogger (next : edge_handler) : edge_handler := λ ctx r,
  do start <- edge_now;
  do o <- next ctx r;
  do now <- edge_now;
  let status := match o with EdgeResponded resp => resp.(er_Status) | EdgePanicked w => default 0 w end in
  do _ <- log_access {| lg_method := r.(in_Method); lg_uri := r.(in_RequestURI); lg_status := status;
                        lg_duration_ms := Z.quot (now - start) 1000000; lg_user_agent := r.(in_UserAgent);
                        lg_remote_addr := r.(in_RemoteAddr); lg_request_id := ctx.(ec_request_id) |};
  ret o.

(** ** The router of runServer *)

Definition cors_options : cors_Options := {|
  co_AllowedOrigins := ["*"]; co_AllowedMethods := ["GET"; "POST"; "PUT"; "DELETE"; "OPTIONS"];
  co_AllowedHeaders := ["Accept"; "Authorization"; "Content-Type"; "X-CSRF-Token"; "X-Amz-Date";
                        "X-Amz-Security-Token"];
  co_ExposedHeaders := ["Link"]; co_AllowCredentials := true; co_MaxAge := 300 |}.

(** A field of a JSON object. *)
Definition json_field (name value : string) : string :=
  dquote +:+ name +:+ dquote +:+ ":" +:+ dquote +:+ value +:+ dquote.
Definition health (version buildDate gitCommit : string) : edge_outcome :=
  EdgeResponded (EdgeResponse 200
    (BText ("{" +:+ json_field "status" "healthy" +:+ "," +:+ json_field "version" version +:+ ","
            +:+ json_field "build_date" buildDate +:+ "," +:+ json_field "git_commit" gitCommit +:+ "}"))
    {["Content-Type" := "application/json"]}).

(** The path chi matches: the escaped one, when there is one. *)
Definition route_path (r : incoming) : string :=
  if is_empty r.(in_RawPath) then r.(in_Path) else r.(in_RawPath).

(** What a request is to the API's handlers. *)
Definition raw_of (ctx : edge_context) (r : incoming) (op : operation) (action id : string) : raw_request :=
  {| rr_Method := r.(in_Method); rr_Path := r.(in_Path); rr_RawPath := r.(in_RawPath);
     rr_Token := Ok ctx.(ec_token); rr_op := op; rr_action := action; rr_id := id;
     rr_query := r.(in_query); rr_body := r.(in_body) |}.
Definition outer_request (ctx : edge_context) (r : incoming) : http_request :=
  request_of (raw_of ctx r OpCatalog "" "") ApiCatalog.

(** The innermost handler of the API's sub-router: the matched wrapper, or its 404 or
    405. *)
Definition api_endpoint (catalog : Catalog) (h : handler) (ctx : edge_context) (r : incoming) : handler :=
  λ actx _,
  match chi_match (routes "") r.(in_Method) (route_path r) with
  | NotMatched status => ret (Responded (Response status (BText "")))
  | Matched op action id =>
      do _ <- set_routed action; wrapper catalog h actx (raw_of ctx r op action id)
  end.

(** "/api/v0/trusted-actions": authentication, audit, role, then the endpoint. *)
Definition api_subtree (authn authz : handler → handler) (catalog : Catalog) (h : handler)
    (ctx : edge_context) (r : incoming) : API outcome_of_request :=
  do _ <- set_routed "";
  authn (AuditLogger (authz (api_endpoint catalog h ctx r))) empty_context (outer_request ctx r).

Definition edge_answer (o : outcome_of_request) : edge_outcome :=
  match o with
  | Responded r => EdgeResponded (EdgeResponse r.(hr_Status) r.(hr_Body) ∅)
  | Panicked => EdgePanicked None
  end.

Definition api_base : string := "/api/v0/trusted-actions".
(** The path is the base or below it. *)
Definition below_base (path : string) : bool :=
  bool_decide (path = api_base) || has_prefix (api_base +:+ "/") path.

Definition mux (authn authz : handler → handler) (catalog : Catalog) (h : handler)
    (version buildDate gitCommit : string) : edge_handler := λ ctx r,
  if bool_decide (route_path r = "/health") then
    if bool_decide (r.(in_Method) = "GET") then ret (health version buildDate gitCommit)
    else ret (EdgeResponded (EdgeResponse 405 (BText "") ∅))
  else if below_base (route_path r) then
    do o <- on_api (api_subtree authn authz catalog h ctx r); ret (edge_answer o)
  else ret (EdgeResponded (EdgeResponse 404 (BText "404 page not found") ∅)).

(** The library middlewares of the stack. *)
Definition library_middlewares (next : edge_handler) : edge_handler :=
  chi_RealIP (chi_Timeout (60 * 1000000000) (cors_Handler cors_options next)).
(** The global middlewares, in the order of their [router.Use]. *)
Definition global_middlewares (next : edge_handler) : edge_handler :=
  NewLogger (RequestID (edge_Recoverer (library_middlewares next))).

(** The JWKS wrapper, built unless authentication is disabled. *)
Definition jwks_handler (cfg : option authn_config) (next : edge_handler) : edge_handler := λ ctx r,
  match cfg with
  | None => next ctx r
  | Some cfg =>
      match authn_verify cfg r with
      | Verified t => next (EdgeContext ctx.(ec_request_id) t) r
      | Refused status => ret (EdgeResponded (EdgeResponse status (BText "") ∅))
      end
  end.
Definition server_authn (JWKCertURL JWKCertFile : string) : authn_config :=
  {| an_KeysURL := JWKCertURL; an_Public := ["^/health$"];
     an_KeysFile := if is_empty JWKCertFile then None else Some JWKCertFile |}.

(** [mainHandler], with authentication enabled and disabled. *)
Definition server_handler (cfg : authn_config) (roles : list RoleMapping) (authz : Authorization)
    (catalog : Catalog) (version buildDate gitCommit : string) (r : incoming) : Edge edge_outcome :=
  jwks_handler (Some cfg)
    (global_middlewares (mux AuthenticateAccountJWT (AuthorizeAPI roles authz) catalog (APIHandler catalog)
                           version buildDate gitCommit)) (EdgeContext None None) r.
Definition dev_handler (catalog : Catalog) (version buildDate gitCommit : string) (r : incoming)
  : Edge edge_outcome :=
  jwks_handler None
    (global_middlewares (mux MockAuthenticate MockAuthorizeAPI catalog (APIHandler catalog)
                           version buildDate gitCommit)) (EdgeContext None None) r.

(** ** What the libraries promise *)

Definition with_remote (addr : string) (r : incoming) : incoming :=
  {| in_Method := r.(in_Method); in_RequestURI := r.(in_RequestURI); in_Path := r.(in_Path);
     in_RawPath := r.(in_RawPath); in_RemoteAddr := addr; in_UserAgent := r.(in_UserAgent);
     in_XRequestID := r.(in_XRequestID); in_query := r.(in_query); in_body := r.(in_body) |}.
Definition same_outcome (o o' : edge_outcome) : Prop :=
  match o, o' with
  | EdgeResponded r, EdgeResponded r' => r'.(er_Status) = r.(er_Status) ∧ r'.(er_Body) = r.(er_Body)
  | EdgePanicked _, EdgePanicked _ => True
  | _, _ => False
  end.

(** A middleware that answers by itself, as CORS does preflights, or serves the request,
    at most with another remote address or more headers. *)
Definition transparent (m : edge_handler → edge_handler) : Prop := ∀ next ctx r s,
  (∃ resp, m next ctx r s = (EdgeResponded resp, s))
  ∨ ∃ addr, let '(o, s1) := next ctx (with_remote addr r) s in
            ∃ o', m next ctx r s = (o', s1) ∧ same_outcome o o'.

Class EdgeLibraryLaws : Prop := {
  real_ip_transparent : transparent chi_RealIP;
  timeout_transparent d : transparent (chi_Timeout d);
  cors_transparent opts : transparent (cors_Handler opts);
  rand8_bytes n : length (crypto_rand8 n) = 8%nat;
  public_only cfg r : authn_verify cfg r = Verified None → r.(in_Path) = "/health" }.
Context `{Ll : !EdgeLibraryLaws}.

Lemma same_outcome_refl o : same_outcome o o.
Proof. by destruct o. Qed.
Lemma same_outcome_trans o1 o2 o3 : same_outcome o1 o2 → same_outcome o2 o3 → same_outcome o1 o3.
Proof. destruct o1, o2, o3; simpl; try done. intros [] []. split; congruence. Qed.

Lemma transparent_compose m1 m2 : transparent m1 → transparent m2 → transparent (λ next, m1 (m2 next)).
Proof.
  intros Ht1 Ht2 next ctx r s. destruct (Ht1 (m2 next) ctx r s) as [?|[addr Hm1]]; [by left|].
  destruct (Ht2 next ctx (with_remote addr r) s) as [[resp Hm2]|[addr2 Hm2]].
  - rewrite Hm2 in Hm1. destruct Hm1 as ([resp'|] & -> & Ho); [left; by exists resp'|done].
  - right. exists addr2. change (with_remote addr2 (with_remote addr r)) with (with_remote addr2 r) in Hm2.
    destruct (next ctx (with_remote addr2 r) s) as [o s1]. destruct Hm2 as (o2 & Hm2 & Ho2).
    rewrite Hm2 in Hm1. destruct Hm1 as (o3 & -> & Ho3). exists o3. split; [done|]. by eapply same_outcome_trans.
Qed.

Lemma library_transparent : transparent library_middlewares.
Proof.
  apply (transparent_compose chi_RealIP), (transparent_compose (chi_Timeout _));
    auto using real_ip_transparent, timeout_transparent, cors_transparent.
Qed.

(** ** Effects *)

Context `{V : !QueueView S} `{!QueueLaws V} `{!BinderLaws B} `{AwsSdk} `{GoDuration}.

Definition edge_effects (P : Execution → Prop) {A} (m : Edge A) : Prop :=
  ∀ s, rtc (request_step P) (shared_of s.(ed_api)) (shared_of (m s).2.(ed_api)).

Section combinators.
Context {A C : Type} (P : Execution → Prop).

Lemma edge_effects_local (m : Edge A) : (∀ s, (m s).2.(ed_api) = s.(ed_api)) → edge_effects P m.
Proof. intros Hm s. by rewrite Hm. Qed.
Lemma edge_effects_bind (m : Edge A) (k : A → Edge C) :
  edge_effects P m → (∀ a, edge_effects P (k a)) → edge_effects P (bind m k).
Proof.
  intros Hm Hk s. unfold bind. specialize (Hm s). destruct (m s) as [a s1]. etrans; [exact Hm|apply Hk].
Qed.
Lemma edge_effects_api (m : API A) : effects P m → edge_effects P (on_api m).
Proof. intros Hm s. unfold on_api. specialize (Hm (ed_api s)). by destruct (m (ed_api s)). Qed.
End combinators.

Lemma edge_now_effects P : edge_effects P edge_now.
Proof. apply edge_effects_api, effects_world. solve_makes. Qed.

Lemma library_effects P next ctx r :
  (∀ addr, edge_effects P (next ctx (with_remote addr r))) → edge_effects P (library_middlewares next ctx r).
Proof.
  intros Hn s. destruct (library_transparent next ctx r s) as [[resp ->]|[addr Hm]]; [apply rtc_refl|].
  specialize (Hn addr s). destruct (next ctx (with_remote addr r) s) as [o s1].
  by destruct Hm as (o' & -> & _).
Qed.

Lemma global_effects P next ctx r :
  (∀ id addr, edge_effects P (next (EdgeContext id ctx.(ec_token)) (with_remote addr r))) →
  edge_effects P (global_middlewares next ctx r).
Proof.
  intros Hn. unfold global_middlewares, NewLogger, RequestID, edge_Recoverer.
  repeat first [apply edge_effects_bind; [|intros ?] | apply edge_now_effects
    | apply edge_effects_local; reflexivity | case_match].
  by apply library_effects.
Qed.

(** A run the request may create: its token is verified, OCM grants its user a role,
    and the catalog allows the role the action its path names. *)
Definition authorised_run (cfg : authn_config) (roles : list RoleMapping) (authz : Authorization)
    (r : incoming) (e : Execution) : Prop :=
  ∃ t i role action id a,
    authn_verify cfg r = Verified t ∧ GetCallerIdentityFromJWT (Ok t) = Ok i ∧ i.(ci_Username) ≠ ""
    ∧ role_granted authz i.(ci_Username) roles role
    ∧ chi_match (routes "") r.(in_Method) (route_path r) = Matched OpCreateExecution action id
    ∧ catalog_GetAction catalog_New action = Some a ∧ role.(role_ID) ∈ a.(aa_AllowedRoles)
    ∧ run_of action i.(ci_Username) r.(in_body) e.

Lemma subtree_effects cfg roles authz t ctx r addr :
  (∀ u a x, makes (λ _, True) (authz u a x)) → authn_verify cfg r = Verified t → ctx.(ec_token) = t →
  effects (authorised_run cfg roles authz r)
    (api_subtree AuthenticateAccountJWT (AuthorizeAPI roles authz) catalog_New (APIHandler catalog_New) ctx
       (with_remote addr r)).
Proof.
  intros Ha Hv Ht. unfold api_subtree. apply effects_bind; [auto with effects|]. intros _.
  unfold AuthenticateAccountJWT. cbn [hq_Token outer_request request_of raw_of rr_Token]. rewrite Ht.
  destruct (GetCallerIdentityFromJWT (Ok t)) as [i|] eqn:Hi; [|solve_effects].
  destruct (is_empty (ci_Username i)) eqn:Hu; [solve_effects|].
  assert (ci_Username i ≠ "") as Hne by (intros Hz; by rewrite Hz in Hu).
  apply audit_effects, authorize_effects; [done|]. intros i' role [= <-] _ Hg.
  unfold api_endpoint. simpl. change (route_path (with_remote addr r)) with (route_path r).
  destruct (chi_match _ _ _) as [op action id|] eqn:Hm; [|solve_effects].
  apply effects_bind; [auto with effects|]. intros _.
  eapply effects_weaken; [|apply wrapper_effects]. intros e (act & Hop & Hc & Hr & Hrun). cbn [raw_of rr_op] in Hop. subst op.
  exists t, i, role, action, id, act. by split_and!.
Qed.

Lemma server_handler_effects cfg roles authz version buildDate gitCommit r :
  (∀ u a x, makes (λ _, True) (authz u a x)) →
  edge_effects (authorised_run cfg roles authz r)
    (server_handler cfg roles authz catalog_New version buildDate gitCommit r).
Proof.
  intros Ha. unfold server_handler, jwks_handler.
  destruct (authn_verify cfg r) as [t|] eqn:Hv; [|by apply edge_effects_local].
  apply global_effects. intros id addr. unfold mux. simpl.
  repeat case_match; try by apply edge_effects_local.
  apply edge_effects_bind; [|intros; by apply edge_effects_local].
  by eapply edge_effects_api, subtree_effects.
Qed.

(** C2: whatever arrives, the queue changes only by runs their caller may start. With
    authentication enabled, serving a request - through token verification, the global
    middlewares, the router, authentication, audit, roles, the generated wrapper and the
    handler - comes down to atomic steps on what the API shares with the worker pool:
    calls, operations that move no status, and the creation of a pending execution, or
    a notification after one, only for a run of a verified caller, in their name, of the
    catalog's action named by the path, with a role OCM granted them and the action
    allows. *)
Theorem edge_creates_only_authorised cfg roles authz version buildDate gitCommit r s :
  (∀ u a x, makes (λ _, True) (authz u a x)) →
  let '(_, s') := server_handler cfg roles authz catalog_New version buildDate gitCommit r s in
  rtc (request_step (authorised_run cfg roles authz r)) (shared_of s.(ed_api)) (shared_of s'.(ed_api)).
Proof.
  intros Ha. pose proof (server_handler_effects cfg roles authz version buildDate gitCommit r Ha s) as Hs.
  by destruct (server_handler _ _ _ _ _ _ _ r s).
Qed.

(** ** Answers and log lines *)

(** A handler that writes no line of its own. *)
Definition unlogged (next : edge_handler) : Prop := ∀ ctx r s,
  (next ctx r s).2.(ed_access) = s.(ed_access) ∧ (next ctx r s).2.(ed_panics) = s.(ed_panics).

Lemma mux_unlogged authn authz catalog h version buildDate gitCommit :
  unlogged (mux authn authz catalog h version buildDate gitCommit).
Proof.
  intros ctx r s. unfold mux, bind, on_api. repeat case_match; simplify_eq/=; try done.
  all: by repeat match goal with H : context [api_subtree ?a ?b ?c ?d ?e ?f ?x] |- _ =>
    destruct (api_subtree a b c d e f x); simplify_eq/= end.
Qed.

Lemma library_unlogged next : unlogged next → unlogged (library_middlewares next).
Proof.
  intros Hn ctx r s. destruct (library_transparent next ctx r s) as [[resp ->]|[addr Hm]]; [done|].
  specialize (Hn ctx (with_remote addr r) s). destruct (next ctx (with_remote addr r) s) as [o s1].
  by destruct Hm as (o' & -> & _).
Qed.

(** The id a request is answered with: its own, or eight random bytes in hex. *)
Definition answered_id (r : incoming) (id : string) : Prop :=
  if is_empty r.(in_XRequestID) then ∃ n, id = hex_encode (crypto_rand8 n) else id = r.(in_XRequestID).

(** What the global middlewares make of a request. *)
Definition logged_answer (ctx : edge_context) (r : incoming) (s : edge_state) (o : edge_outcome) (s' : edge_state) : Prop :=
  ∃ resp id l, o = EdgeResponded resp ∧ resp.(er_Header) !! "X-Request-ID" = Some id ∧ answered_id r id
    ∧ s'.(ed_access) = s.(ed_access) ++ [l]
    ∧ l.(lg_status) = resp.(er_Status) ∧ l.(lg_method) = r.(in_Method) ∧ l.(lg_uri) = r.(in_RequestURI)
    ∧ l.(lg_remote_addr) = r.(in_RemoteAddr) ∧ l.(lg_request_id) = ctx.(ec_request_id)
    ∧ (s'.(ed_panics) = s.(ed_panics)
       ∨ ∃ p, s'.(ed_panics) = s.(ed_panics) ++ [p] ∧ p.(pl_request_id) = Some id).

Lemma request_id_run next ctx r s :
  ∃ id s1, answered_id r id ∧ s1.(ed_access) = s.(ed_access) ∧ s1.(ed_panics) = s.(ed_panics)
    ∧ RequestID next ctx r s
      = let '(o, s2) := next (EdgeContext (Some id) ctx.(ec_token)) r s1 in (set_header "X-Request-ID" id o, s2).
Proof.
  unfold RequestID, answered_id, bind, generateRequestID. destruct (is_empty (in_XRequestID r)).
  - exists (hex_encode (crypto_rand8 (ed_rand s))),
      (EdgeState (ed_api s) (ed_access s) (ed_panics s) (Datatypes.S (ed_rand s))).
    split; [by eexists|]. repeat (split; [done|]). reflexivity.
  - exists (in_XRequestID r), s. repeat (split; [done|]). reflexivity.
Qed.

Lemma global_answers next ctx r s :
  unlogged next → let '(o, s') := global_middlewares next ctx r s in logged_answer ctx r s o s'.
Proof.
  intros Hn%library_unlogged. unfold global_middlewares, NewLogger, edge_now, on_api, with_world.
  unfold bind at 1. simpl. unfold bind at 1.
  match goal with |- context [RequestID ?n ctx r ?s0] =>
    destruct (request_id_run n ctx r s0) as (id & s1 & Hid & Ha & Hp & Heq) end.
  rewrite Heq. unfold edge_Recoverer, bind at 1.
  specialize (Hn (EdgeContext (Some id) (ec_token ctx)) r s1).
  destruct (library_middlewares next _ r s1) as [o s2]. simpl in *. destruct Hn as [Ha2 Hp2].
  rewrite Ha in Ha2. rewrite Hp in Hp2.
  destruct o as [resp|written]; simpl; unfold logged_answer; do 3 eexists; (split; [reflexivity|]);
    (split; [apply (lookup_insert_eq (M := gmap string))|]); (split; [exact Hid|]); simpl.
  - rewrite Ha2. split; [done|]. split_and!; auto.
  - rewrite Ha2, Hp2. split; [done|]. split_and!; auto. right. eexists. split; [done|]. done.
Qed.

Lemma hex_encode_length b : String.length (hex_encode b) = (2 * length b)%nat.
Proof. induction b as [|x b IH]; simpl; lia. Qed.

(** C22: every request is answered and logged once, and the log cannot tell which. A
    request the token verification lets pass is answered - whatever the handlers do, also
    when they panic - with an "X-Request-ID" that is the client's own or sixteen
    characters drawn for it, and with one line in the access log that has its method,
    URI, address and answered status. That line never has a request id: the logger is
    outside [RequestID] and reads the context it was given itself. Only a recovered
    panic's line has the id. A request the verification refuses is not logged at all. *)
Theorem edge_answers_and_logs cfg roles authz catalog version buildDate gitCommit r s :
  let '(o, s') := server_handler cfg roles authz catalog version buildDate gitCommit r s in
  match authn_verify cfg r with
  | Refused status => s' = s ∧ ∃ resp, o = EdgeResponded resp ∧ resp.(er_Status) = status
  | Verified _ =>
      ∃ resp id l, o = EdgeResponded resp ∧ resp.(er_Header) !! "X-Request-ID" = Some id
        ∧ (r.(in_XRequestID) ≠ "" → id = r.(in_XRequestID))
        ∧ (r.(in_XRequestID) = "" → String.length id = 16%nat)
        ∧ s'.(ed_access) = s.(ed_access) ++ [l]
        ∧ l.(lg_status) = resp.(er_Status) ∧ l.(lg_method) = r.(in_Method) ∧ l.(lg_uri) = r.(in_RequestURI)
        ∧ l.(lg_remote_addr) = r.(in_RemoteAddr) ∧ l.(lg_request_id) = None
        ∧ (s'.(ed_panics) = s.(ed_panics)
           ∨ ∃ p, s'.(ed_panics) = s.(ed_panics) ++ [p] ∧ p.(pl_request_id) = Some id)
  end.
Proof.
  unfold server_handler, jwks_handler. destruct (authn_verify cfg r) as [t|status]; [|split; [done|by eexists]].
  set (next := mux _ _ _ _ _ _ _).
  pose proof (global_answers next (EdgeContext None t) r s (mux_unlogged _ _ _ _ _ _ _)) as Hg.
  simpl. destruct (global_middlewares next _ r s) as [o s'].
  destruct Hg as (resp & id & l & -> & Hh & Hid & Hrest). exists resp, id, l. split; [done|]. split; [done|].
  unfold answered_id, is_empty in Hid. case_bool_decide as He.
  - destruct Hid as [n ->]. split; [done|]. split; [intros _; by rewrite hex_encode_length, rand8_bytes|done].
  - split; [done|]. split; [done|]. exact Hrest.
Qed.
End edge.
Notation Edge := (M edge_state).

(** ** A server whose libraries pass requests on *)
Module EdgeExample.
Import AwsGetExample ModelsExample HandlersExample OpenapiExample.
#[local] Existing Instance OpenapiExample.binder.
#[local] Existing Instance OpenapiExample.binder_laws.

Definition run_path : string := "/api/v0/trusted-actions/get/run".
#[export] Instance library : EdgeLibrary := {|
  crypto_rand8 := λ n, repeat (Z.of_nat n + 160) 8;
  chi_RealIP := λ next ctx r, next ctx (with_remote "203.0.113.9" r);
  chi_Timeout := λ _ next, next;
  http_TimeoutHandler := λ _ _ next, next;
  cors_Handler := λ _ next, next;
  chi_match := λ _ method path,
    if bool_decide (method = "POST" ∧ path = run_path) then Matched OpCreateExecution "get" "" else NotMatched 404;
  authn_verify := λ _ r,
    if bool_decide (r.(in_Path) = "/health") then Verified None
    else Verified (Some (MapClaims {["username" := JStr "sre"]})) |}.
#[export] Instance library_laws : EdgeLibraryLaws (L := library).
Proof.
  assert (∀ next ctx r s addr,
    let '(o, s1) := next ctx (with_remote addr r) s in
    ∃ o', (next : edge_handler) ctx (with_remote addr r) s = (o', s1) ∧ same_outcome o o') as Hpass.
  { intros next ctx r s addr. destruct (next ctx (with_remote addr r) s) as [o s1].
    exists o. split; [done|apply same_outcome_refl]. }
  split.
  - intros next ctx r s. right. exists "203.0.113.9". apply Hpass.
  - intros d next ctx r s. right. exists r.(in_RemoteAddr). destruct r. apply (Hpass next ctx (Build_incoming _ _ _ _ _ _ _ _ _)).
  - intros d next ctx r s. right. exists r.(in_RemoteAddr). destruct r. apply (Hpass next ctx (Build_incoming _ _ _ _ _ _ _ _ _)).
  - done.
  - intros cfg r. simpl. case_bool_decide; done.
Qed.

Definition roles : list RoleMapping := [Build_RoleMapping "SREP" "srep-resource"].
Definition ams : Authorization :=
  Mock_AccessReview {| mk_Permissions := {["sre" := ["srep-resource"]]} |}.
Definition post_run : incoming :=
  {| in_Method := "POST"; in_RequestURI := run_path; in_Path := run_path; in_RawPath := "";
     in_RemoteAddr := "10.0.0.7"; in_UserAgent := "rta"; in_XRequestID := ""; in_query := [];
     in_body := Ok ModelsExample.request |}.
Definition edge_start : edge_state := EdgeState start [] [] 0.
Definition answered := server_handler (server_authn "https://sso" "") roles ams catalog_New "v1" "today" "abc"
  post_run edge_start.

Example answered_accepted :
  match answered.1 with
  | EdgeResponded resp => resp.(er_Status) = 202 ∧ resp.(er_Header) !! "X-Request-ID" = Some "a0a0a0a0a0a0a0a0"
  | _ => False
  end.
Proof. vm_compute. split; reflexivity. Qed.

Lemma edge_creates_only_authorised_witness :
  q_status (QueueView := view) answered.2.(ed_api).(api_store) "u0" = Some "pending"
  ∧ rtc (request_step (V := view) (authorised_run (server_authn "https://sso" "") roles ams post_run))
      (shared_of edge_start.(ed_api)) (shared_of answered.2.(ed_api)).
Proof.
  split; [vm_compute; reflexivity|].
  pose proof (edge_creates_only_authorised (V := view) (server_authn "https://sso" "") roles ams "v1" "today" "abc"
    post_run edge_start (λ u a x, makes_ret (λ _, True) _)) as Hw.
  revert Hw. fold answered. destruct answered as [o s']. intros Hw. exact Hw.
Defined.

(** Its one access line has no id. *)
Lemma edge_answers_and_logs_witness :
  ∃ l, answered.2.(ed_access) = [] ++ [l] ∧ l.(lg_status) = 202 ∧ l.(lg_request_id) = None.
Proof.
  pose proof (edge_answers_and_logs (server_authn "https://sso" "") roles ams catalog_New "v1" "today" "abc"
    post_run edge_start) as Hw.
  revert Hw. fold answered.
  assert (match answered.1 with EdgeResponded r => r.(er_Status) = 202 | _ => False end) as Hs
    by (vm_compute; reflexivity).
  destruct answered as [o s']. change (authn_verify (server_authn "https://sso" "") post_run)
    with (Verified (Some (MapClaims {["username" := JStr "sre"]}))).
  intros (resp & id & l & -> & _ & _ & _ & Hl & Hst & _ & _ & _ & Hid & _). exists l.
  split; [exact Hl|]. split; [|exact Hid]. rewrite Hst. exact Hs.
Defined.
End EdgeExample.
