(* ===== verification/Shutdown.v ===== *)
(** The life of the server process (cmd/server/main.go, from the worker pool's start to
    the return of runServer): requests and workers side by side, the signal, the order in
    which the pool is cancelled, the HTTP server shut down and the workers waited for, and
    the deadline over both.

    A step is a step of a worker, one atomic step of a request ([Effects.request_step]),
    or one of the main goroutine. *)

From stdpp Require Import relations.
From S2P Require Import Prelude GoString Json Env Actions Models StoreApi Stores Pipeline Worker Catalog Http Auth Handlers Server Openapi Effects Edge.
#[local] Open Scope Z_scope.

Section lifecycle.
Context `{Env} `{S : StoreInterface} `{V : !QueueView S} (run : Execution → W RunResult).
(** Requests, and the executions each may create ([Edge.authorised_run]). *)
Context {R : Type} (may_create : R → Execution → Prop).

(** Where the main goroutine is: before the signal, in [srv.Shutdown], in the select on
    the workers, returned, or ended by [logger.Fatal]. *)
Inductive main_phase :=
| Serving
| ShuttingDown
| AwaitingWorkers
| Returned (result : res unit) (timed_out : bool)
| Killed.

(** [sv_requests] are the requests being served, [sv_expired] is the deadline of the
    shutdown's context. *)
Record server_state := ServerState {
  sv_main : main_phase; sv_pool : pool_state; sv_requests : list R; sv_expired : bool }.

Definition pool_shared (p : pool_state) : shared := Shared p.(ps_store) p.(ps_world) p.(ps_notify).
Definition set_shared (x : shared) (p : pool_state) : pool_state :=
  with_shared x.(shr_store) x.(shr_world) x.(shr_notify) p.(ps_cancelled) p.

(** The process still runs. *)
Definition live (m : main_phase) : bool := match m with Returned _ _ | Killed => false | _ => true end.

(** What the requests do. New ones are accepted until the listener is closed. *)
Inductive client_step : server_state → server_state → Prop :=
| sv_accept r m p n x :
    m = Serving ∨ m = ShuttingDown →
    client_step (ServerState m p n x) (ServerState m p (r :: n) x)
| sv_request r m p y n x :
    live m = true → r ∈ n → request_step (may_create r) (pool_shared p) y →
    client_step (ServerState m p n x) (ServerState m (set_shared y p) n x)
| sv_reply r m p n n' x :
    live m = true → client_step (ServerState m p (n ++ r :: n') x) (ServerState m p (n ++ n') x).

(** What the process does by itself. *)
Inductive process_step : server_state → server_state → Prop :=
| sv_worker m p p' n x :
    live m = true → worker_step run p p' → process_step (ServerState m p n x) (ServerState m p' n x)
(* [cancelWorkers], then the deadline is set *)
| sv_signal p n x :
    process_step (ServerState Serving p n x)
      (ServerState ShuttingDown (with_shared p.(ps_store) p.(ps_world) p.(ps_notify) true p) n false)
(* [ListenAndServe] fails *)
| sv_fatal p n x : process_step (ServerState Serving p n x) (ServerState Killed p n x)
| sv_deadline m p n :
    m = ShuttingDown ∨ m = AwaitingWorkers →
    process_step (ServerState m p n false) (ServerState m p n true)
(* [srv.Shutdown] returns nil once no request is being served, or an error *)
| sv_shutdown p x :
    process_step (ServerState ShuttingDown p [] x) (ServerState AwaitingWorkers p [] x)
| sv_forced p n x e :
    x = true ∨ n = [] →
    process_step (ServerState ShuttingDown p n x) (ServerState (Returned (Err e) false) p n x)
(* the select: [workerPool.Wait] has returned, or the deadline has passed *)
| sv_workers_done p n x :
    Forall (eq Exited) p.(ps_workers) →
    process_step (ServerState AwaitingWorkers p n x) (ServerState (Returned (Ok tt) false) p n x)
| sv_timed_out p n :
    process_step (ServerState AwaitingWorkers p n true) (ServerState (Returned (Ok tt) true) p n true).

Definition server_step (s s' : server_state) : Prop := client_step s s' ∨ process_step s s'.

(** The process as runServer starts it. *)
Definition server_start (cfg : PoolConfig) (st : store_st) (w : world) : server_state :=
  ServerState Serving (pool_start cfg st w) [] false.
Definition server_reachable (cfg : PoolConfig) (s : server_state) : Prop :=
  ∃ st w, q_ok st ∧ rtc server_step (server_start cfg st w) s.

(** [main]'s exit code. *)
Definition exit_code (m : main_phase) : option Z :=
  match m with
  | Returned (Ok _) _ => Some 0
  | Returned (Err _) _ | Killed => Some 1
  | _ => None
  end.

(** ** The invariant *)
Context `{!QueueLaws V} `{!TerminalRunner run}.

Record server_inv (cfg : PoolConfig) (s : server_state) : Prop := {
  si_pool : inv s.(sv_pool);
  si_workers : length s.(sv_pool).(ps_workers) = Z.to_nat cfg.(pc_concurrency);
  si_cancelled : s.(sv_main) = ShuttingDown ∨ s.(sv_main) = AwaitingWorkers
                 ∨ (∃ r b, s.(sv_main) = Returned r b) → s.(sv_pool).(ps_cancelled) = true;
  si_quiet : s.(sv_main) = AwaitingWorkers ∨ (∃ b, s.(sv_main) = Returned (Ok tt) b) → s.(sv_requests) = [];
  si_exited : s.(sv_main) = Returned (Ok tt) false → Forall (eq Exited) s.(sv_pool).(ps_workers) }.

Lemma inv_request P p y :
  request_step P (pool_shared p) y → inv p → inv (set_shared y p).
Proof.
  unfold inv, pool_shared. intros Hs Hi. inversion Hs as [e r st st' w n ? He Hc|e st w n|A m st w n Hm|st w w' n]; subst; simpl; try done.
  - exact (inv_step run p _ (run_is_terminal run) (step_create run p e r st' He Hc) Hi).
  - specialize (Hm _ (inv_ok _ _ _ _ Hi)). destruct (m (ps_store p)) as [x st'].
    destruct Hm. by eapply inv_unmoved.
Qed.

Lemma worker_frame p p' :
  worker_step run p p' → length p'.(ps_workers) = length p.(ps_workers) ∧ p'.(ps_cancelled) = p.(ps_cancelled).
Proof. intros Hs. destruct Hs; simpl; by rewrite length_insert. Qed.

(** Splits on the phases and closes the impossible ones. *)
Ltac phases :=
  intros; repeat match goal with
  | H : _ ∨ _ |- _ => destruct H
  | H : ∃ _, _ |- _ => destruct H
  end; simplify_eq; try done; eauto 8.

Lemma server_inv_step cfg s s' : server_step s s' → server_inv cfg s → server_inv cfg s'.
Proof.
  intros Hs [Hp Hw Hc Hq He]. destruct Hs as [Hs|Hs].
  - destruct Hs as [r m p n x Hm|r m p y n x Hm Hin Hr|r m p n n' x Hm]; simpl in *; split; simpl;
      eauto using inv_request; phases;
      specialize (Hq ltac:(eauto)); by (destruct n || subst n).
  - destruct Hs as [m p p' n x Hm Hr|p n x|p n x|m p n Hm|p x|p n x e Hx|p n x Hall|p n]; simpl in *;
      try (destruct (worker_frame _ _ Hr) as [Hl Hcn]); split; simpl; auto; try congruence; try solve [phases].
    exact (inv_step run p p' (run_is_terminal run) (step_worker run p p' Hr) Hp).
Qed.

Lemma server_inv_reachable cfg s : server_reachable cfg s → server_inv cfg s.
Proof.
  intros (st & w & Hok & Hs).
  assert (server_inv cfg (server_start cfg st w)) as Hi.
  { split; simpl; [by apply inv_start|by rewrite length_replicate|naive_solver..]. }
  revert Hi. induction Hs as [|s1 s2 s3 Hs _ IH]; [done|]. intros Hi. by eapply IH, server_inv_step.
Qed.

(** ** What is left when the process ends *)

Lemma omap_length {A B} (f : A → option B) l : (length (omap f l) ≤ length l)%nat.
Proof.
  induction l as [|a l IH]; [done|]. change (omap f (a :: l)) with (match f a with Some b => b :: omap f l | None => omap f l end).
  destruct (f a); simpl; lia.
Qed.

(** Executions that are claimed but not finished are held by workers. *)
Lemma unfinished_bound p l :
  inv p → p.(ps_failed) = false → NoDup l →
  (∀ id, id ∈ l → id ∈ p.(ps_claimed)
         ∧ ¬ ∃ v, q_status p.(ps_store) id = Some v ∧ terminal v = true) →
  (length l ≤ length p.(ps_workers))%nat.
Proof.
  intros Hi Hf Hnd Hl. etrans; [|apply (omap_length holds)].
  apply submseteq_length, NoDup_submseteq; [done|]. intros id [Hc Hn]%Hl.
  destruct (inv_accounted _ _ _ _ Hi Hf id Hc) as [?|(i & st & Hl' & Hh)]; [done|].
  apply list_elem_of_omap. exists st. split; [|done]. by eapply list_elem_of_lookup_2.
Qed.

(** ** The shutdown ends *)

(** How many steps a worker can take once the pool is cancelled. *)
Definition work (st : wstate) : nat :=
  match st with
  | Exited => 0 | AtTop => 1 | Waiting | Finishing _ _ => 2 | Processing _ | ClaimFailed => 3 | Claiming => 4
  end.
Definition pool_work (p : pool_state) : nat := sum_list_with work p.(ps_workers).

Lemma sum_insert (l : list wstate) i x y :
  l !! i = Some x → (sum_list_with work (<[i := y]> l) + work x = sum_list_with work l + work y)%nat.
Proof.
  revert i. induction l as [|z l IH]; intros [|i]; simpl; try done; [intros [= ->]; lia|].
  intros Hl. specialize (IH i Hl). lia.
Qed.

Lemma worker_decreases p p' :
  worker_step run p p' → p.(ps_cancelled) = true → (pool_work p' < pool_work p)%nat.
Proof.
  unfold pool_work. intros Hs Hc.
  destruct Hs as [i p [Hl|Hl]|i p Hl|i p r s' Hl Hcl|i p Hl|i p e st w' Hl Hrun|i p e r now u s' Hl Hf|i p Hl|i p Hl];
    simpl; match type of Hl with _ !! _ = Some ?x =>
      match goal with |- context [<[i := ?y]> _] => pose proof (sum_insert _ _ x y Hl) as Hsum end end;
    cbn [work] in Hsum; try lia; try congruence.
  - destruct r as [e|err]; cbn [after_claim work] in *; [lia|]. destruct (errors_is err ErrNotFound); cbn [work] in *; lia.
  - rewrite Hc in *. cbn [work] in Hsum. lia.
  - unfold process_run, bind in Hrun. destruct (run e (ps_world p)). injection Hrun as <- <-. cbn [work] in Hsum. lia.
Qed.

Lemma worker_can_step p i st :
  p.(ps_workers) !! i = Some st → st ≠ Exited → p.(ps_cancelled) = true → ∃ p', worker_step run p p'.
Proof.
  intros Hl Hne Hc. destruct st; try done.
  - eexists. eapply step_exit; eauto.
  - destruct (st_ClaimNextExecution (ps_store p)) eqn:He. eexists. by eapply step_claim.
  - destruct (process_run run e (ps_world p)) eqn:He. eexists. by eapply step_run.
  - destruct (process_finish e r 0 (ps_store p)) eqn:He. eexists. by eapply step_finish.
  - eexists. by eapply step_claim_failed.
  - eexists. eapply step_exit; eauto.
Qed.

Lemma exited_or_not p :
  Forall (eq Exited) p.(ps_workers) ∨ ∃ i st, p.(ps_workers) !! i = Some st ∧ st ≠ Exited.
Proof.
  induction (ps_workers p) as [|st l [IH|(i & st' & Hl & Hne)]]; [by left|..].
  - destruct st; try (by right; eexists 0%nat, _; split; [reflexivity|done]). left. by constructor.
  - right. by exists (Datatypes.S i), st'.
Qed.

(** A cancelled pool drains, by steps of its workers alone. *)
Lemma pool_drains p :
  p.(ps_cancelled) = true →
  ∃ p', rtc (worker_step run) p p' ∧ Forall (eq Exited) p'.(ps_workers).
Proof.
  remember (pool_work p) as k eqn:Hk. revert p Hk. induction (lt_wf k) as [k _ IH]. intros p -> Hc.
  destruct (exited_or_not p) as [?|(i & st & Hl & Hne)]; [by exists p|].
  destruct (worker_can_step _ _ _ Hl Hne Hc) as [p1 Hs].
  destruct (worker_frame _ _ Hs) as [_ Hc1].
  destruct (IH _ (worker_decreases _ _ Hs Hc) p1 eq_refl) as (p' & Hs' & Hall); [congruence|].
  exists p'. split; [by eapply rtc_l|done].
Qed.

Lemma pool_work_bound p : (pool_work p ≤ 4 * length p.(ps_workers))%nat.
Proof.
  unfold pool_work. induction (ps_workers p) as [|st l IH]; simpl; [lia|]. destruct st; simpl; lia.
Qed.

(** What the main goroutine, the deadline and the workers have still to do. *)
Definition shutdown_work (s : server_state) : nat :=
  match s.(sv_main) with Serving => 3 | ShuttingDown => 2 | AwaitingWorkers => 1 | _ => 0 end
  + (if s.(sv_expired) then 0 else 1) + pool_work s.(sv_pool).

Definition in_shutdown (s : server_state) : Prop :=
  (s.(sv_main) = ShuttingDown ∨ s.(sv_main) = AwaitingWorkers ∨ live s.(sv_main) = false)
  ∧ (live s.(sv_main) = true → s.(sv_pool).(ps_cancelled) = true).

Lemma client_keeps s s' : client_step s s' → in_shutdown s → in_shutdown s' ∧ shutdown_work s' = shutdown_work s.
Proof. intros Hs [Hm Hc]. by destruct Hs. Qed.

Lemma process_decreases s s' :
  process_step s s' → in_shutdown s → in_shutdown s' ∧ (shutdown_work s' < shutdown_work s)%nat.
Proof.
  intros Hs [Hm Hc]. unfold in_shutdown, shutdown_work.
  destruct Hs as [m p p' n x Hlive Hr|p n x|p n x|m p n Hd|p x|p n x e Hx|p n x Hall|p n]; simpl in *;
    try (destruct Hm as [|[]]; done).
  - destruct (worker_frame _ _ Hr) as [_ Hc1]. split; [split; [done|]; intros; rewrite Hc1; auto|].
    pose proof (worker_decreases _ _ Hr (Hc Hlive)). lia.
  - split; [done|]. destruct Hd as [->| ->]; lia.
  - split; [split; [auto|done]|lia].
  - split; [split; [auto|done]|lia].
  - split; [split; [auto|done]|lia].
  - split; [split; [auto|done]|lia].
Qed.

(** One step of the process, after any number of the clients'. *)
Definition round (s s' : server_state) : Prop := ∃ s1, rtc client_step s s1 ∧ process_step s1 s'.

Lemma clients_keep s s' :
  rtc client_step s s' → in_shutdown s → in_shutdown s' ∧ shutdown_work s' = shutdown_work s.
Proof.
  induction 1 as [|s1 s2 s3 Hs _ IH]; [done|]. intros Hi. destruct (client_keeps _ _ Hs Hi) as [Hi2 <-]. auto.
Qed.

Lemma rounds_bounded n s s' : nsteps round n s s' → in_shutdown s → (n + shutdown_work s' ≤ shutdown_work s)%nat.
Proof.
  induction 1 as [|n s1 s2 s3 (sc & Hcl & Hp) _ IH]; [lia|]. intros Hi.
  destruct (clients_keep _ _ Hcl Hi) as [Hic Heq]. destruct (process_decreases _ _ Hp Hic) as [Hi2 Hlt].
  specialize (IH Hi2). lia.
Qed.

(** C11: a shutdown ends, and would end cleanly if it were given the time. Once the
    signal has come: until runServer has returned, the process has a step to take on its
    own; whatever the requests do and however the workers are scheduled, it takes at most
    [4 * concurrency + 3] of them; and while the workers are awaited, the workers' own
    steps alone bring a state in which runServer returns nil without timing out. *)
Theorem shutdown_terminates cfg s :
  server_reachable cfg s → s.(sv_main) = ShuttingDown ∨ s.(sv_main) = AwaitingWorkers →
  (∃ s', process_step s s')
  ∧ (∀ n s', nsteps round n s s' → (n ≤ 4 * Z.to_nat cfg.(pc_concurrency) + 3)%nat)
  ∧ (s.(sv_main) = AwaitingWorkers →
     ∃ p', rtc (worker_step run) s.(sv_pool) p'
       ∧ rtc process_step s (ServerState (Returned (Ok tt) false) p' s.(sv_requests) s.(sv_expired))).
Proof.
  intros Hr Hm. apply server_inv_reachable in Hr as [Hp Hw Hc Hq He].
  assert (s.(sv_pool).(ps_cancelled) = true) as Hcan by (apply Hc; tauto).
  destruct s as [m p n x]; simpl in *. split_and!.
  - destruct x; [|eexists; by apply sv_deadline].
    destruct Hm as [->| ->]; [|eexists; apply sv_timed_out].
    eexists. apply (sv_forced _ _ _ (ESentinel ErrDeadline)). by left.
  - intros k s' Hk%rounds_bounded; [|split; simpl; tauto].
    pose proof (pool_work_bound p). rewrite Hw in *. unfold shutdown_work in Hk at 2. simpl in Hk.
    destruct Hm as [->| ->], x; lia.
  - intros ->. destruct (pool_drains p Hcan) as (p' & Hs & Hall). exists p'. split; [done|].
    eapply rtc_r; [|by apply sv_workers_done].
    clear Hm Hall Hp Hw Hc Hq He Hcan. induction Hs as [|p1 p2 p3 Hs _ IH]; [done|].
    eapply rtc_l; [by apply sv_worker|exact IH].
Qed.

(** ** Executions of an earlier process *)

(** Recorded as running, though no worker of this process claimed it. *)
Definition orphan (id : uuid) (p : pool_state) : Prop :=
  q_status p.(ps_store) id = Some "running" ∧ id ∉ p.(ps_claimed).

Lemma moved_other (f g : uuid → option string) id id' v : moved f g id v → id' ≠ id → g id' = f id'.
Proof. intros Hm Hne. by rewrite Hm, bool_decide_eq_false_2. Qed.

Lemma orphan_worker id p p' : worker_step run p p' → inv p → orphan id p → orphan id p'.
Proof.
  unfold orphan. intros Hs Hi [Hq Hc].
  destruct Hs as [i p Hl|i p Hl|i p r s' Hl Hcl|i p Hl|i p e st w' Hl Hrun|i p e r now u s' Hl Hf|i p Hl|i p Hl];
    simpl; try done.
  - pose proof (queue_claim _ (inv_ok _ _ _ _ Hi)) as Hqc. rewrite Hcl in Hqc. destruct Hqc as [_ Hqc].
    destruct r as [e|err]; simpl.
    + destruct Hqc as (Hpend & _ & Hm). assert (id ≠ ex_ID e) as Hne by congruence.
      rewrite (moved_other _ _ _ _ _ Hm Hne). set_solver.
    + rewrite app_nil_r. destruct Hqc as [Hu|(x & Hpend & Hm)]; [by rewrite Hu|].
      rewrite (moved_other _ _ _ _ _ Hm); [done|congruence].
  - destruct (inv_running _ _ _ _ Hi i (ex_ID e)) as [_ Hin]; [by exists (Finishing e r)|].
    assert (id ≠ ex_ID e) as Hne by (by intros ->).
    unfold process_finish in Hf. destruct (persisted r) as [status output].
    pose proof (queue_update (ex_ID e) status (Some now) output _ (inv_ok _ _ _ _ Hi)) as Hqu.
    rewrite Hf in Hqu. destruct Hqu as [_ Hqu]. split; [|done].
    destruct u; [destruct Hqu as [_ Hm]|destruct Hqu as [Hu|[_ Hm]]; [by rewrite Hu|]];
      by rewrite (moved_other _ _ _ _ _ Hm Hne).
Qed.

Lemma orphan_request P id p y :
  request_step P (pool_shared p) y → inv p → orphan id p → orphan id (set_shared y p).
Proof.
  unfold orphan, pool_shared. intros Hs Hi [Hq Hc].
  inversion Hs as [e r st st' w n ? He Hcr|e st w n|A m st w n Hm|st w w' n]; subst; simpl; try done; split; try done.
  - pose proof (queue_create e _ (inv_ok _ _ _ _ Hi)) as Hqc. rewrite Hcr in Hqc. destruct Hqc as [_ Hqc].
    destruct r; [destruct Hqc as [Hn Hm]|by rewrite Hqc].
    rewrite (moved_other _ _ _ _ _ Hm); [done|congruence].
  - specialize (Hm _ (inv_ok _ _ _ _ Hi)). destruct (m (ps_store p)) as [x st'].
    destruct Hm as [_ Hu]. simpl. by rewrite Hu.
Qed.

(** Whatever is requested and run, no worker of a process claims the executions that were
    running when it started. *)
Lemma interrupted_stays_running cfg st w id s :
  q_ok st → q_status st id = Some "running" → rtc server_step (server_start cfg st w) s →
  orphan id s.(sv_pool).
Proof.
  intros Hok Hst Hs.
  assert (server_inv cfg (server_start cfg st w)) as Hi.
  { apply server_inv_reachable. exists st, w. split; [done|apply rtc_refl]. }
  assert (orphan id (sv_pool (server_start cfg st w))) as Ho by (split; [done|apply not_elem_of_nil]).
  revert Hi Ho. induction Hs as [|s1 s2 s3 Hs _ IH]; [done|]. intros Hi Ho.
  apply IH; [by eapply server_inv_step|]. destruct Hi as [Hp _ _ _ _].
  destruct Hs as [Hs|Hs]; destruct Hs; simpl in *; try done.
  - by eapply orphan_request.
  - by eapply orphan_worker.
Qed.

(** C10: what a server leaves behind when it ends. Through any interleaving of requests,
    workers, the signal and the deadline: an exit code of 0 means every request was
    answered; a clean end - runServer returned nil and did not time out - means also that
    every worker returned. Unless a store operation of a worker failed, after a clean end
    every execution ever claimed has a terminal status, and after any other end at most
    one execution per worker is claimed and has none. What a server leaves recorded as
    running is still so in every later state of a server started on its store, which
    never claims it: an execution cut off by the deadline or a crash is never finished. *)
Theorem server_end_state cfg s :
  server_reachable cfg s → live s.(sv_main) = false →
  let p := s.(sv_pool) in
  (exit_code s.(sv_main) = Some 0 → s.(sv_requests) = [])
  ∧ (s.(sv_main) = Returned (Ok tt) false →
     Forall (eq Exited) p.(ps_workers)
     ∧ (p.(ps_failed) = false → ∀ id, id ∈ p.(ps_claimed) →
          ∃ v, q_status p.(ps_store) id = Some v ∧ terminal v = true))
  ∧ (p.(ps_failed) = false → ∀ l, NoDup l →
       (∀ id, id ∈ l → id ∈ p.(ps_claimed) ∧ ¬ ∃ v, q_status p.(ps_store) id = Some v ∧ terminal v = true) →
       (length l ≤ Z.to_nat cfg.(pc_concurrency))%nat)
  ∧ (∀ id cfg' w' s', q_status p.(ps_store) id = Some "running" →
       rtc server_step (server_start cfg' p.(ps_store) w') s' → orphan id s'.(sv_pool)).
Proof.
  intros Hr Hlive. apply server_inv_reachable in Hr as [Hp Hw _ Hq He]. split_and!.
  - intros Hx. apply Hq. right. destruct (sv_main s) as [| | |[[]|] b|]; try done. by exists b.
  - intros Hm. split; [by apply He|]. intros Hf id Hid.
    destruct (inv_accounted _ _ _ _ Hp Hf id Hid) as [?|(i & st & Hl & Hh)]; [done|].
    assert (Exited = st) as <- by (eapply (Forall_lookup_1 _ _ i _ (He Hm)), Hl). done.
  - intros Hf l Hnd Hl. rewrite <- Hw. by eapply unfinished_bound.
  - intros id cfg' w' s' Hrun Hs. by eapply interrupted_stays_running, Hs; [eapply inv_ok|].
Qed.

(** ** Where claimed executions come from *)

(** A step in which a request that is being served stores [e]. *)
Definition creates (r : R) (e : Execution) (s s' : server_state) : Prop :=
  client_step s s' ∧ r ∈ s.(sv_requests) ∧ may_create r e ∧ e.(ex_Status) = ExecutionStatusPending
  ∧ st_CreateExecution e s.(sv_pool).(ps_store) = (Ok tt, s'.(sv_pool).(ps_store)).

(** Pending, or claimed by a worker of this process. *)
Definition queued (id : uuid) (p : pool_state) : Prop :=
  q_status p.(ps_store) id = Some "pending" ∨ id ∈ p.(ps_claimed).

Lemma moved_pending (f g : uuid → option string) id v id' :
  moved f g id v → v ≠ "pending" → g id' = Some "pending" → f id' = Some "pending".
Proof. intros Hm Hv. rewrite (Hm id'). case_bool_decide; congruence. Qed.

(** A worker queues nothing. *)
Lemma queued_worker id p p' : worker_step run p p' → inv p → queued id p' → queued id p.
Proof.
  unfold queued. intros Hs Hi.
  destruct Hs as [i p Hl|i p Hl|i p r s' Hl Hcl|i p Hl|i p e st w' Hl Hrun|i p e r now u s' Hl Hf|i p Hl|i p Hl];
    simpl; try done.
  - pose proof (queue_claim _ (inv_ok _ _ _ _ Hi)) as Hq. rewrite Hcl in Hq. destruct Hq as [_ Hq].
    destruct r as [e|err]; simpl.
    + destruct Hq as (Hpend & _ & Hm). intros [Hid|[Hid|Hid%list_elem_of_singleton]%elem_of_app]; [|auto|].
      * left. by eapply moved_pending.
      * subst id. by left.
    + rewrite app_nil_r. intros [Hid|?]; [left|auto].
      destruct Hq as [Hu|(x & _ & Hm)]; [by rewrite <- Hu|by eapply moved_pending].
  - intros [Hid|?]; [left|auto].
    pose proof (inv_result _ _ _ _ Hi i e r Hl) as Ht. unfold process_finish in Hf.
    destruct (persisted r) as [status output]. simpl in Ht.
    assert (status ≠ "pending") as Hne by (by intros ->).
    pose proof (queue_update (ex_ID e) status (Some now) output _ (inv_ok _ _ _ _ Hi)) as Hq.
    rewrite Hf in Hq. destruct Hq as [_ Hq].
    destruct u; [destruct Hq as [_ Hm]|destruct Hq as [Hu|[_ Hm]]; [by rewrite <- Hu|]]; by eapply moved_pending.
Qed.

(** A request queues what it creates. *)
Lemma queued_request P id p y :
  request_step P (pool_shared p) y → inv p → queued id (set_shared y p) →
  queued id p ∨ ∃ e, P e ∧ e.(ex_Status) = ExecutionStatusPending ∧ e.(ex_ID) = id
                     ∧ st_CreateExecution e p.(ps_store) = (Ok tt, (set_shared y p).(ps_store)).
Proof.
  unfold queued, pool_shared. intros Hs Hi.
  inversion Hs as [e r st st' w n He Hst Hcr|e st w n|A m st w n Hm|st w w' n]; subst; simpl; auto; intros [Hid|?]; auto.
  - pose proof (queue_create e _ (inv_ok _ _ _ _ Hi)) as Hq. rewrite Hcr in Hq. destruct Hq as [_ Hq].
    destruct r as [[]|err]; [destruct Hq as [_ Hm]|by rewrite <- Hq; auto].
    rewrite (Hm id) in Hid. case_bool_decide as Hx; [|auto]. right. by exists e.
  - specialize (Hm _ (inv_ok _ _ _ _ Hi)). destruct (m (ps_store p)) as [x st'].
    destruct Hm as [_ Hu]. simpl in Hid. rewrite <- Hu. auto.
Qed.

Lemma queued_step cfg id s s' :
  server_step s s' → server_inv cfg s → queued id s'.(sv_pool) →
  queued id s.(sv_pool) ∨ ∃ r e, creates r e s s' ∧ e.(ex_ID) = id.
Proof.
  intros Hs [Hi _ _ _ _] Hq. destruct Hs as [Hs|Hs].
  - destruct Hs as [r m p n x Hm|r m p y n x Hm Hin Hr|r m p n n' x Hm]; simpl in *; auto.
    destruct (queued_request _ _ _ _ Hr Hi Hq) as [?|(e & ? & ? & ? & ?)]; [auto|].
    right. exists r, e. split; [|done]. split; [by apply (sv_request r)|done].
  - left. destruct Hs; simpl in *; try done. by eapply queued_worker.
Qed.

(** An execution that a worker claimed was pending in the store when the process started,
    or was stored since, in a step of a request that was being served and that was allowed
    to create it. *)
Lemma claimed_was_requested cfg st w s id :
  q_ok st → rtc server_step (server_start cfg st w) s → id ∈ s.(sv_pool).(ps_claimed) →
  q_status st id = Some "pending"
  ∨ ∃ r e s1 s2, rtc server_step (server_start cfg st w) s1 ∧ creates r e s1 s2 ∧ rtc server_step s2 s
      ∧ e.(ex_ID) = id.
Proof.
  intros Hok Hs Hid. assert (queued id s.(sv_pool)) as Hq by by right. clear Hid. revert Hq.
  revert s Hs. refine (rtc_ind_r _ _ _ _); [intros [?|?%elem_of_nil]; [by left|done]|].
  intros s1 s2 Hs1 Hs IH Hq.
  assert (server_inv cfg s1) as Hi by (apply server_inv_reachable; by exists st, w).
  destruct (queued_step cfg id s1 s2 Hs Hi Hq) as [Hq1|(r & e & Hc & He)].
  - destruct (IH Hq1) as [?|(r & e & t1 & t2 & ? & ? & ? & ?)]; [by left|]. right.
    exists r, e, t1, t2. split_and!; try done. by eapply rtc_r.
  - right. exists r, e, s1, s2. by split_and!.
Qed.
End lifecycle.

(** ** Two workers, one execution, and a signal while it is claimed *)
Module ShutdownExample.
Import ModelsExample StoresExample WorkerExample.
#[local] Existing Instance WorkerExample.store.
#[local] Existing Instance WorkerExample.view.
#[local] Existing Instance WorkerExample.laws.
#[local] Existing Instance WorkerExample.env.

Definition cfg : PoolConfig := pool_New 2 0.
Notation run := WorkerExample.run.
Definition anything (r : unit) (e : Execution) : Prop := True.
Definition waiting : server_state (R := unit) := ServerState AwaitingWorkers claimed_state [] false.
Definition ended : server_state (R := unit) := ServerState (Returned (Ok tt) false) down [] false.

Lemma waiting_steps : rtc (server_step run anything) (server_start cfg (db, 0%nat) fresh_world) waiting.
Proof.
  eapply rtc_l; [right; apply sv_worker; [done|apply (step_check run 0 before); reflexivity]|].
  eapply rtc_l; [right; apply sv_signal|].
  eapply rtc_l; [right; apply sv_shutdown|].
  eapply rtc_once. right. apply sv_worker; [done|].
  unfold claimed_state. destruct (st_ClaimNextExecution _) as [r s'] eqn:Hc.
  exact (step_claim run 0 claiming r s' eq_refl Hc).
Qed.
Lemma waiting_reachable : server_reachable run anything cfg waiting.
Proof. exists (db, 0%nat), fresh_world. split; [exact db_ok|exact waiting_steps]. Qed.

Lemma ended_reachable : server_reachable run anything cfg ended.
Proof.
  destruct waiting_reachable as (st & w & Hok & Hs). exists st, w. split; [done|]. etrans; [exact Hs|].
  assert (∀ p p' s', worker_step run p p' → rtc (server_step run anything) (ServerState AwaitingWorkers p' [] false) s' →
    rtc (server_step run anything) (ServerState AwaitingWorkers p [] false) s') as Hstep.
  { intros p p' s' Hw Hr. eapply rtc_l; [right; by apply sv_worker|exact Hr]. }
  eapply Hstep; [apply (step_run run 0 claimed_state e1 (Finishing e1 r1)); vm_compute; reflexivity|].
  eapply Hstep; [apply (step_finish run 0 ran_state e1 r1 0 finish1.1 finish1.2); vm_compute; reflexivity|].
  eapply Hstep; [apply (step_exit run 0 finished_state); [left|]; vm_compute; reflexivity|].
  eapply Hstep; [apply (step_exit run 1 (set_worker 0 Exited finished_state)); [left|]; vm_compute; reflexivity|].
  eapply rtc_once. right. apply (sv_workers_done run down).
  replace (ps_workers down) with [Exited; Exited] by (vm_compute; reflexivity). by repeat constructor.
Qed.

(** The same process when the deadline passes instead, and the one that follows it. *)
Definition cut_off : server_state (R := unit) := ServerState (Returned (Ok tt) true) claimed_state [] true.
Lemma cut_off_reachable : server_reachable run anything cfg cut_off.
Proof.
  destruct waiting_reachable as (st & w & Hok & Hs). exists st, w. split; [done|]. etrans; [exact Hs|].
  eapply rtc_l; [right; apply sv_deadline; by right|]. eapply rtc_once. right. apply sv_timed_out.
Qed.
Definition next_process : server_state (R := unit) :=
  ServerState Serving (pool_start cfg claimed_state.(ps_store) fresh_world) [tt] false.

Lemma server_end_state_witness :
  (∃ v, q_status (QueueView := view) down.(ps_store) "e1" = Some v ∧ terminal v = true)
  ∧ q_status (QueueView := view) next_process.(sv_pool).(ps_store) "e1" = Some "running".
Proof.
  split.
  - pose proof (server_end_state run anything (TerminalRunner0 := executor_runner_terminal ∅ []) cfg ended
      ended_reachable eq_refl) as (_ & Hw & _).
    destruct (Hw eq_refl) as [_ Hf]. apply (Hf ltac:(vm_compute; reflexivity)).
    replace (ps_claimed (sv_pool ended)) with ["e1"] by (vm_compute; reflexivity). by left.
  - pose proof (server_end_state run anything (TerminalRunner0 := executor_runner_terminal ∅ []) cfg cut_off
      cut_off_reachable eq_refl) as (_ & _ & _ & Hw).
    refine (proj1 (Hw "e1" cfg fresh_world next_process _ _)); [vm_compute; reflexivity|].
    eapply rtc_once. left. apply (sv_accept anything tt Serving). by left.
Defined.

Lemma shutdown_terminates_witness :
  (∃ s', process_step run waiting s')
  ∧ ∃ p', rtc (worker_step run) claimed_state p'
      ∧ rtc (process_step run) waiting (ServerState (Returned (Ok tt) false) p' [] false).
Proof.
  destruct (shutdown_terminates run anything (TerminalRunner0 := executor_runner_terminal ∅ []) cfg waiting
    waiting_reachable (or_intror eq_refl)) as (Hs & _ & Hd).
  split; [exact Hs|exact (Hd eq_refl)].
Defined.
End ShutdownExample.
