(* ===== verification/Migrations.v ===== *)
(** internal/store/migrations.go - applying and rolling back the schema migrations.

    The database is its schema, changed only by scripts whose effect is the engine's
    ([ScriptEngine]), the schema_migrations table, and the session's advisory lock.
    Every call to it may report a failure ([mg_fault], by the number of calls made),
    whether its work was done or not; a transaction's changes are kept only by its
    commit. A transaction whose beginning failed is not open, and one whose commit or
    rollback failed is over. *)

From S2P Require Import Prelude GoString Env Actions TimeText.
From Stdlib Require Import Ascii.
#[local] Open Scope Z_scope.

(** [strings.HasSuffix] and [strings.TrimSuffix]. *)
Definition has_suffix (suffix s : string) : bool := has_prefix (string_rev suffix) (string_rev s).
Definition trim_suffix (suffix s : string) : string := string_rev (trim_prefix (string_rev s) (string_rev suffix)).

(** [errors.Join] of an error and a call's error, if any. *)
Definition errors_join (e : gerror) (r : option gerror) : gerror :=
  match r with
  | None => e
  | Some e' => EText (error_text e +:+ bytes [10]%nat +:+ error_text e')
  end.

(** What executing a script makes of a schema, and the order in which the version
    column's collation sorts. *)
Class ScriptEngine := {
  schema : Type;
  exec_script : string → schema → res schema;
  version_order : list string → list string }.

(** The calls that report a failure, by the number of calls before, and whether
    their work was done all the same; and the clock. *)
Class Faults := {
  mg_fault : nat → option (bool * gerror);
  mg_clock : nat → Z }.

(** The embedded file system: the files of each dialect's directory. *)
Class MigrationsFS := migration_files : string → option (gmap string string).

Section migrations.
Context `{ScriptEngine} `{Faults} `{MigrationsFS}.

(** The committed state: the schema and the rows (version, applied_at) of
    schema_migrations, oldest first, if the table exists; what an open transaction has
    made of them; and whether this session holds the advisory lock. *)
Record content := { mc_schema : schema; mc_applied : option (list (string * string)) }.
Record mig_db := { mg_content : content; mg_tx : option content; mg_locked : bool; mg_calls : nat }.
Notation DB := (M mig_db).

Definition set_content (c : content) (d : mig_db) : mig_db :=
  {| mg_content := c; mg_tx := d.(mg_tx); mg_locked := d.(mg_locked); mg_calls := d.(mg_calls) |}.
Definition set_tx (t : option content) (d : mig_db) : mig_db :=
  {| mg_content := d.(mg_content); mg_tx := t; mg_locked := d.(mg_locked); mg_calls := d.(mg_calls) |}.
Definition set_lock (l : bool) (d : mig_db) : mig_db :=
  {| mg_content := d.(mg_content); mg_tx := d.(mg_tx); mg_locked := l; mg_calls := d.(mg_calls) |}.
Definition next_call (d : mig_db) : mig_db :=
  {| mg_content := d.(mg_content); mg_tx := d.(mg_tx); mg_locked := d.(mg_locked);
     mg_calls := Datatypes.S d.(mg_calls) |}.

(** One call. *)
Definition call_db {A} (work : mig_db → res A * mig_db) : DB (res A) := λ d,
  match mg_fault d.(mg_calls) with
  | Some (happened, e) => (Err e, if happened then (work (next_call d)).2 else next_call d)
  | None => work (next_call d)
  end.

(** [db.Conn], the dedicated connection. *)
Definition acquire_conn : DB (res unit) := call_db (λ d, (Ok tt, d)).
Definition advisory_lock : DB (res unit) := call_db (λ d, (Ok tt, set_lock true d)).
(** The deferred release, with a context of its own; its failure is only logged, and
    closing the connection returns it to the pool, its session still open. *)
Definition advisory_unlock : DB (res unit) := call_db (λ d, (Ok tt, set_lock false d)).

(** CREATE TABLE IF NOT EXISTS schema_migrations. *)
Definition create_table : DB (res unit) := call_db (λ d,
  (Ok tt, set_content {| mc_schema := d.(mg_content).(mc_schema);
                         mc_applied := Some (default [] d.(mg_content).(mc_applied)) |} d)).

Definition no_table : gerror := EText "no such table: schema_migrations".

(** SELECT COUNT of a version. *)
Definition count_version (version : string) : DB (res nat) := call_db (λ d,
  match d.(mg_content).(mc_applied) with
  | Some rows => (Ok (length (filter (λ row, row.1 = version) rows)), d)
  | None => (Err no_table, d)
  end).

Definition begin_tx : DB (res unit) := λ d,
  match mg_fault d.(mg_calls) with
  | Some (_, e) => (Err e, next_call d)
  | None => (Ok tt, set_tx (Some d.(mg_content)) (next_call d))
  end.
(** A statement inside the transaction. *)
Definition tx_run (work : content → res content) : DB (res unit) := call_db (λ d,
  match d.(mg_tx) with
  | None => (Err (ESentinel ErrTxDone), d)
  | Some c => match work c with
              | Ok c' => (Ok tt, set_tx (Some c') d)
              | Err e => (Err e, d)
              end
  end).
Definition script_work (text : string) (c : content) : res content :=
  let? s := exec_script text c.(mc_schema) in
  Ok {| mc_schema := s; mc_applied := c.(mc_applied) |}.
(** The primary key refuses a version twice. *)
Definition insert_work (version applied_at : string) (c : content) : res content :=
  match c.(mc_applied) with
  | None => Err no_table
  | Some rows =>
      if bool_decide (version ∈ rows.*1) then Err (EText "UNIQUE constraint failed")
      else Ok {| mc_schema := c.(mc_schema); mc_applied := Some (rows ++ [(version, applied_at)]) |}
  end.
Definition delete_work (version : string) (c : content) : res content :=
  match c.(mc_applied) with
  | None => Err no_table
  | Some rows => Ok {| mc_schema := c.(mc_schema);
                       mc_applied := Some (filter (λ row, row.1 ≠ version) rows) |}
  end.

(** [tx.Rollback]: its error, if any; the changes are gone either way. *)
Definition rollback_tx : DB (option gerror) := λ d,
  (snd <$> mg_fault d.(mg_calls), set_tx None (next_call d)).
Definition commit_tx : DB (res unit) := λ d,
  let (r, d') := call_db (λ d, (Ok tt, set_content (default d.(mg_content) d.(mg_tx)) d)) d in
  (r, set_tx None d').
(** [time.Now().UTC().Format(time.RFC3339)]. *)
Definition rfc3339_text (t : Z) : string :=
  format_days (days_of t) +:+ "T" +:+ format_hms (t mod day_nanos) +:+ "Z".
Definition now_text : DB string := λ d, (rfc3339_text (mg_clock d.(mg_calls)), d).

(** [if _, err := tx.Exec(...); err != nil { return errors.Join(err, tx.Rollback()) }]. *)
Definition or_rollback (msg : string) (stmt : DB (res unit)) : DB (res unit) :=
  do r <- stmt;
  match r with
  | Ok _ => ret (Ok tt)
  | Err e => do rolled <- rollback_tx; ret (Err (errors_join (EWrap msg e) rolled))
  end.

(** ** migrations.go *)

Definition migrationLockKey : Z := 0x526F7361.

Definition listMigrations (dialect suffix : string) : res (list string) :=
  match migration_files dialect with
  | None => Err (EWrap ("reading migrations directory for dialect " +:+ quoted dialect) (EText "file does not exist"))
  | Some files => Ok (sort_strings (filter (λ name, has_suffix suffix name = true) (map_to_list files).*1))
  end.

Definition read_file (dialect name : string) : res string :=
  match migration_files dialect with
  | None => Err (EText "file does not exist")
  | Some files => match files !! name with Some c => Ok c | None => Err (EText "file does not exist") end
  end.

(** The body of [runMigrations]'s loop. *)
Definition apply_migration (dialect name : string) : DB (res unit) :=
  let version := trim_suffix ".up.sql" name in
  do? count <- wrap_errM ("checking migration " +:+ version) (count_version version);
  if (0 <? count)%nat then ret (Ok tt)
  else
    do? text <- ret (wrap_err ("reading migration " +:+ name) (read_file dialect name));
    do? _ <- wrap_errM ("beginning transaction for migration " +:+ version) begin_tx;
    do? _ <- or_rollback ("applying migration " +:+ version) (tx_run (script_work text));
    do at_ <- now_text;
    do? _ <- or_rollback ("recording migration " +:+ version) (tx_run (insert_work version at_));
    wrap_errM ("committing migration " +:+ version) commit_tx.

Fixpoint apply_migrations (dialect : string) (names : list string) : DB (res unit) :=
  match names with
  | [] => ret (Ok tt)
  | name :: names => do? _ <- apply_migration dialect name; apply_migrations dialect names
  end.

(** [runMigrations] past the lock. *)
Definition migrate (dialect : string) : DB (res unit) :=
  do? _ <- wrap_errM "creating schema_migrations table" create_table;
  do? names <- ret (listMigrations dialect ".up.sql");
  apply_migrations dialect names.

(** [runMigrations]: for Postgres, under the advisory lock, whose release is deferred. *)
Definition runMigrations (dialect : string) : DB (res unit) :=
  if bool_decide (dialect = "postgres") then
    do? _ <- wrap_errM "acquiring migration connection" acquire_conn;
    do? _ <- wrap_errM "acquiring migration advisory lock" advisory_lock;
    do r <- migrate dialect;
    do _ <- advisory_unlock;
    ret r
  else migrate dialect.

Definition rollbackMigration (dialect version : string) : DB (res unit) :=
  do? count <- wrap_errM ("checking migration " +:+ version) (count_version version);
  if Nat.eqb count 0 then ret (Err (EText ("migration " +:+ version +:+ " is not applied")))
  else
    let downFile := version +:+ ".down.sql" in
    do? text <- ret (wrap_err ("reading down migration " +:+ downFile) (read_file dialect downFile));
    do? _ <- wrap_errM ("beginning transaction for rollback " +:+ version) begin_tx;
    do? _ <- or_rollback ("rolling back migration " +:+ version) (tx_run (script_work text));
    do? _ <- or_rollback ("removing migration record " +:+ version) (tx_run (delete_work version));
    wrap_errM ("committing rollback " +:+ version) commit_tx.

(** SELECT version ... ORDER BY version DESC LIMIT 1, a NULL-free column. *)
Definition last_version : DB (res string) := call_db (λ d,
  match d.(mg_content).(mc_applied) with
  | None => (Err no_table, d)
  | Some rows => match last (version_order rows.*1) with
                 | Some v => (Ok v, d)
                 | None => (Err (ESentinel ErrNoRows), d)
                 end
  end).

Definition RollbackLastMigration (dialect : string) : DB (res unit) :=
  do? version <- wrap_errM "finding last migration" last_version;
  rollbackMigration dialect version.
End migrations.
Notation DB := (M mig_db).

(** ** What the files' names say *)

#[local] Arguments string_rev : simpl never.
Lemma string_rev_app_spec s acc : string_rev_app s acc = string_rev s +:+ acc.
Proof.
  unfold string_rev. revert acc. induction s as [|a s IH]; intros acc; [done|]. simpl.
  rewrite IH, (IH (String a "")), <- string_app_assoc. done.
Qed.
Lemma string_rev_cons a s : string_rev (String a s) = string_rev s +:+ String a "".
Proof. unfold string_rev at 1. simpl. by rewrite string_rev_app_spec. Qed.
Lemma string_rev_append s t : string_rev (s +:+ t) = string_rev t +:+ string_rev s.
Proof.
  induction s as [|a s IH]; [by rewrite string_app_nil_r|].
  by rewrite string_app_cons, !string_rev_cons, IH, string_app_assoc.
Qed.
Lemma string_rev_involutive s : string_rev (string_rev s) = s.
Proof. induction s as [|a s IH]; [done|]. by rewrite string_rev_cons, string_rev_append, IH. Qed.

Lemma trim_suffix_app suffix s : has_suffix suffix s = true → trim_suffix suffix s +:+ suffix = s.
Proof.
  unfold has_suffix, trim_suffix, trim_prefix. intros (r & Hr)%has_prefix_spec.
  rewrite Hr, drop_prefix_app, <- (string_rev_involutive suffix) at 1.
  by rewrite <- string_rev_append, <- Hr, string_rev_involutive.
Qed.

Section proofs.
Context `{ScriptEngine} `{Faults} `{MigrationsFS}.

(** The recorded versions, and the schema they stand for: their up scripts, in order. *)
Definition versions_of (c : content) : list string := (default [] c.(mc_applied)).*1.
Fixpoint replay (dialect : string) (versions : list string) (s : schema) : res schema :=
  match versions with
  | [] => Ok s
  | v :: versions =>
      let? text := read_file dialect (v +:+ ".up.sql") in
      let? s' := exec_script text s in
      replay dialect versions s'
  end.

Lemma replay_snoc dialect versions v s :
  replay dialect (versions ++ [v]) s
  = (let? s1 := replay dialect versions s in
     let? text := read_file dialect (v +:+ ".up.sql") in exec_script text s1).
Proof.
  revert s. induction versions as [|w versions IH]; intros s; simpl.
  - destruct (read_file _ _); simpl; [|done]. by destruct (exec_script _ _).
  - destruct (read_file _ (w +:+ _)) as [text|]; simpl; [|done].
    by destruct (exec_script text s); simpl.
Qed.

(** The record and the schema agree: the schema is the replay of the recorded versions
    over the schema [s0] of the empty database, and no version is recorded twice. *)
Definition consistent (dialect : string) (s0 : schema) (c : content) : Prop :=
  NoDup (versions_of c) ∧ replay dialect (versions_of c) s0 = Ok c.(mc_schema).

(** One step of the record: version [v] and the effect of its up script. *)
Definition advanced (dialect v : string) (c c' : content) : Prop :=
  ∃ text, v ∉ versions_of c ∧ read_file dialect (v +:+ ".up.sql") = Ok text
          ∧ exec_script text c.(mc_schema) = Ok c'.(mc_schema)
          ∧ versions_of c' = versions_of c ++ [v].

Lemma advanced_consistent dialect v s0 c c' :
  consistent dialect s0 c → advanced dialect v c c' → consistent dialect s0 c'.
Proof.
  intros [Hnd Hr] (text & Hv & Ht & Hs & Hc'). unfold consistent. rewrite Hc'. split.
  - apply NoDup_app. split; [done|]. split; [|apply NoDup_singleton].
    intros x Hx ->%list_elem_of_singleton. by apply Hv.
  - by rewrite replay_snoc, Hr; simpl; rewrite Ht.
Qed.
(** No transaction is open, and the lock is as it was. *)
Definition closed_again (d d' : mig_db) : Prop :=
  d'.(mg_tx) = None ∧ d'.(mg_locked) = d.(mg_locked).

Lemma or_rollback_spec msg work d c r d' :
  d.(mg_tx) = Some c → or_rollback msg (tx_run work) d = (r, d') →
  d'.(mg_content) = d.(mg_content) ∧ d'.(mg_locked) = d.(mg_locked)
  ∧ match r with
    | Ok _ => ∃ c', work c = Ok c' ∧ d'.(mg_tx) = Some c'
    | Err _ => d'.(mg_tx) = None
    end.
Proof.
  unfold or_rollback, bind, tx_run, call_db, rollback_tx, ret. simpl. intros Htx. rewrite Htx.
  destruct (mg_fault _) as [[[] e]|]; simpl; destruct (work c) as [c'|e'] eqn:Hw; simpl;
    intros [= <- <-]; simpl; eauto.
Qed.

Lemma commit_tx_spec d c r d' :
  d.(mg_tx) = Some c → commit_tx d = (r, d') →
  closed_again d d'
  ∧ (d'.(mg_content) = c ∨ d'.(mg_content) = d.(mg_content) ∧ is_ok r = false).
Proof.
  unfold commit_tx, call_db, closed_again. intros Htx.
  destruct (mg_fault _) as [[[] e]|]; simpl; intros [= <- <-]; simpl; rewrite ?Htx; eauto.
Qed.

Lemma insert_work_spec v at_ c c' :
  insert_work v at_ c = Ok c' →
  v ∉ versions_of c ∧ c'.(mc_schema) = c.(mc_schema) ∧ versions_of c' = versions_of c ++ [v].
Proof.
  unfold insert_work, versions_of. destruct (mc_applied c) as [rows|]; [|done].
  case_bool_decide as Hin; [done|]. intros [= <-]; simpl. by rewrite fmap_app.
Qed.

Lemma count_version_spec v d r d' :
  count_version v d = (r, d') →
  d'.(mg_content) = d.(mg_content) ∧ d'.(mg_tx) = d.(mg_tx) ∧ d'.(mg_locked) = d.(mg_locked)
  ∧ ∀ n, r = Ok n → (0 < n)%nat ↔ v ∈ versions_of d.(mg_content).
Proof.
  unfold count_version, call_db, versions_of. intros Hc.
  assert (∀ rows, (0 < length (filter (λ row : string * string, row.1 = v) rows))%nat ↔ v ∈ rows.*1) as Hlen.
  { intros rows. rewrite list_elem_of_fmap. split.
    - intros Hl. destruct (filter _ rows) as [|row rest] eqn:Hf; simpl in Hl; [lia|].
      assert (row ∈ filter (λ row, row.1 = v) rows) as [? ?]%list_elem_of_filter by (rewrite Hf; left).
      by exists row.
    - intros (row & -> & Hrow). assert (row ∈ filter (λ row', row'.1 = row.1) rows) as Hf
        by by apply list_elem_of_filter.
      destruct (filter _ rows); [by apply not_elem_of_nil in Hf|simpl; lia]. }
  destruct (mg_fault _) as [[[] e]|]; simplify_eq/=; repeat (case_match; simplify_eq/=);
    split_and!; try done; intros n Hn; simplify_eq; apply Hlen.
Qed.
Lemma apply_migration_spec dialect name d r d' :
  d.(mg_tx) = None → has_suffix ".up.sql" name = true →
  apply_migration dialect name d = (r, d') →
  let v := trim_suffix ".up.sql" name in
  closed_again d d'
  ∧ (d'.(mg_content) = d.(mg_content) ∨ advanced dialect v d.(mg_content) d'.(mg_content))
  ∧ (r = Ok tt → v ∈ versions_of d'.(mg_content)).
Proof.
  intros Htx Hname Hrun v. unfold apply_migration, bind_res, wrap_errM, bind, ret in Hrun. fold v in Hrun.
  assert (v +:+ ".up.sql" = name) as Hv by by apply trim_suffix_app.
  destruct (count_version v d) as [[n|e] d1] eqn:Hc; simpl in Hrun; apply count_version_spec in Hc
    as (Hc1 & Ht1 & Hl1 & Hn); rewrite Htx in Ht1; unfold closed_again.
  2: { simplify_eq. rewrite Hc1. naive_solver. }
  specialize (Hn n eq_refl). destruct (Nat.ltb_spec 0 n) as [Hlt|Hge]; [simplify_eq; rewrite Hc1; naive_solver|].
  destruct (read_file dialect name) as [text|e] eqn:Hf; simpl in Hrun; [|simplify_eq; rewrite Hc1; naive_solver].
  unfold begin_tx in Hrun. destruct (mg_fault _) as [[? e]|]; simpl in Hrun; [simplify_eq; simpl; rewrite Hc1; naive_solver|].
  destruct (or_rollback _ (tx_run (script_work text)) _) as [r2 d2] eqn:H2.
  eapply or_rollback_spec in H2 as (Hc2 & Hl2 & H2); [|done]. simpl in *.
  destruct r2 as [[]|e2]; [|simplify_eq; rewrite Hc2, Hc1; naive_solver].
  destruct H2 as (c2 & (s2 & Hs2 & [= <-])%res_bind_ok & Htx2). unfold now_text in Hrun.
  destruct (or_rollback _ (tx_run (insert_work v _)) _) as [r3 d3] eqn:H3.
  eapply or_rollback_spec in H3 as (Hc3 & Hl3 & H3); [|done]. simpl in *.
  destruct r3 as [[]|e3]; [|simplify_eq; rewrite Hc3, Hc2, Hc1; naive_solver].
  destruct H3 as (c3 & (Hnew & Hsch & Hvers)%insert_work_spec & Htx3).
  destruct (commit_tx d3) as [r4 d4] eqn:H4. eapply commit_tx_spec in H4 as ((Ht4 & Hl4) & H4); [|done].
  injection Hrun as <- <-. split; [split; congruence|]. destruct H4 as [->|[-> Hr4]].
  - split; [right; exists text; rewrite Hv, Hsch, <- Hc1; naive_solver|].
    intros _. rewrite Hvers. set_solver.
  - split; [left; congruence|]. by destruct r4.
Qed.
(** What any number of steps over the files [names] keeps and reaches. *)
Definition progressed (dialect : string) (names : list string) (d : mig_db) (r : res unit) (d' : mig_db) : Prop :=
  let listed := trim_suffix ".up.sql" <$> names in
  d'.(mg_tx) = None
  ∧ (∀ s0, consistent dialect s0 d.(mg_content) → consistent dialect s0 d'.(mg_content))
  ∧ (∃ news, versions_of d'.(mg_content) = versions_of d.(mg_content) ++ news ∧ news `sublist_of` listed)
  ∧ (r = Ok tt → ∀ v, v ∈ listed → v ∈ versions_of d'.(mg_content)).

Lemma apply_migrations_spec dialect names d r d' :
  d.(mg_tx) = None → Forall (λ name, has_suffix ".up.sql" name = true) names →
  apply_migrations dialect names d = (r, d') →
  d'.(mg_locked) = d.(mg_locked) ∧ progressed dialect names d r d'.
Proof.
  intros Htx Hnames. revert d Htx. unfold progressed.
  induction Hnames as [|name names Hname _ IH]; intros d Htx Hrun; simpl in *.
  - injection Hrun as <- <-. split_and!; try done; [by exists []; rewrite app_nil_r|set_solver].
  - unfold bind_res in Hrun. destruct (apply_migration dialect name d) as [r1 d1] eqn:Hstep.
    apply apply_migration_spec in Hstep as ((Ht1 & Hl1) & Hadv & Hok); [|done..].
    assert (∀ s0, consistent dialect s0 (mg_content d) → consistent dialect s0 (mg_content d1)) as Hcon.
    { intros s0 Hc. destruct Hadv as [->|?]; [done|by eapply advanced_consistent]. }
    assert (∃ new, versions_of (mg_content d1) = versions_of (mg_content d) ++ new
                   ∧ new `sublist_of` [trim_suffix ".up.sql" name]) as (new & Hnew & Hsub).
    { destruct Hadv as [->|(? & _ & _ & _ & ->)]; [exists []; rewrite app_nil_r|eexists]; split; try done.
      apply sublist_nil_l. }
    destruct r1 as [[]|e]; [|injection Hrun as <- <-]; [|split_and!; try done; exists new; split; [done|]].
    + destruct (IH d1 Ht1 Hrun) as (Hl & Ht & Hc & (news & Hv & Hs) & Ho). split; [congruence|].
      split_and!; [done|naive_solver| |].
      * exists (new ++ news). rewrite Hv, Hnew, (assoc (++)). split; [done|]. by apply (sublist_app new [_]).
      * intros Hr v [->|Hin]%elem_of_cons; [|by apply Ho]. rewrite Hv. apply elem_of_app. left. by apply Hok.
    + etrans; [exact Hsub|]. by apply sublist_skip, sublist_nil_l.
Qed.

Lemma listMigrations_spec dialect suffix names :
  listMigrations dialect suffix = Ok names → Forall (λ name, has_suffix suffix name = true) names.
Proof.
  unfold listMigrations. destruct (migration_files dialect) as [files|]; [|done]. intros [= <-].
  apply Forall_forall. intros name Hin.
  rewrite elem_of_sort_strings, list_elem_of_filter in Hin. apply Hin.
Qed.

(** The versions a dialect's files offer, in the order they are applied. *)
Definition listed_files (dialect : string) : list string :=
  match listMigrations dialect ".up.sql" with Ok names => names | Err _ => [] end.

Lemma migrate_spec dialect d r d' :
  d.(mg_tx) = None → migrate dialect d = (r, d') →
  d'.(mg_locked) = d.(mg_locked) ∧ progressed dialect (listed_files dialect) d r d'.
Proof.
  intros Htx Hrun. unfold migrate, bind_res at 1, wrap_errM, bind, ret in Hrun.
  destruct (create_table d) as [r1 d1] eqn:Htable.
  assert (mg_tx d1 = None ∧ mg_locked d1 = mg_locked d ∧ versions_of (mg_content d1) = versions_of (mg_content d)
          ∧ mc_schema (mg_content d1) = mc_schema (mg_content d)) as (Ht1 & Hl1 & Hv1 & Hs1).
  { unfold create_table, call_db in Htable. destruct (mg_fault _) as [[[] e]|]; by simplify_eq/=. }
  assert (∀ names r, progressed dialect names d1 r d' → progressed dialect names d r d') as Hback.
  { unfold progressed, consistent. by rewrite Hv1, Hs1. }
  assert (∀ e, progressed dialect (listed_files dialect) d1 (Err e) d1) as Hstop.
  { intros e. split_and!; try done. exists []. rewrite app_nil_r. split; [done|apply sublist_nil_l]. }
  destruct r1 as [[]|e]; simpl in Hrun; [|injection Hrun as <- <-; by eauto].
  unfold bind_res, listed_files in *. destruct (listMigrations dialect ".up.sql") as [names|e] eqn:Hn;
    [|injection Hrun as <- <-; by eauto].
  apply apply_migrations_spec in Hrun as [Hl Hp]; [|done|by eapply listMigrations_spec].
  split; [congruence|by apply Hback].
Qed.
(** The lock is still held only if the last call, the one to acquire or release it,
    reported a failure. *)
Definition lock_released (d : mig_db) : Prop :=
  d.(mg_locked) = true → mg_fault (Nat.pred d.(mg_calls)) ≠ None.

Lemma runMigrations_spec dialect d r d' :
  d.(mg_tx) = None → d.(mg_locked) = false → runMigrations dialect d = (r, d') →
  progressed dialect (listed_files dialect) d r d' ∧ lock_released d'.
Proof.
  intros Htx Hlk Hrun. unfold runMigrations in Hrun. case_bool_decide as Hd.
  2: { apply migrate_spec in Hrun as [Hl Hp]; [|done]. split; [done|]. unfold lock_released. congruence. }
  assert (∀ e d1, mg_tx d1 = None → mg_content d1 = mg_content d →
    progressed dialect (listed_files dialect) d (Err e) d1) as Hstop.
  { intros e d1 Ht Hc. unfold progressed. rewrite Hc. split_and!; try done.
    exists []. rewrite app_nil_r. split; [done|apply sublist_nil_l]. }
  unfold bind_res, wrap_errM, bind, ret, acquire_conn, advisory_lock, advisory_unlock, call_db, lock_released in *.
  destruct (mg_fault (mg_calls d)) as [[h e]|] eqn:H1f; simpl in Hrun.
  { destruct h; injection Hrun as <- <-; simpl; split; try (by eauto); congruence. }
  destruct (mg_fault (S (mg_calls d))) as [[h e]|] eqn:H2f; simpl in Hrun.
  { destruct h; injection Hrun as <- <-; simpl; split; try (by eauto); congruence. }
  destruct (migrate dialect _) as [r1 d1] eqn:Hm. apply migrate_spec in Hm as [_ Hp]; [|done].
  destruct (mg_fault (mg_calls d1)) as [[h e]|] eqn:H3f; simpl in Hrun;
    [destruct h|]; injection Hrun as <- <-; simpl; split; congruence || done.
Qed.

(** C29: migrating is safe under any failures: started with the record and the schema in
    agreement, [runMigrations] leaves no transaction open and the two in agreement - the
    schema is what the up scripts of the recorded versions make, each once - whichever
    calls fail; it only adds listed versions, in the order of their names; a nil error
    means every listed version is recorded; and the advisory lock is left held only when
    the call acquiring or releasing it failed. *)
Theorem migrations_safe dialect s0 d r d' :
  d.(mg_tx) = None → d.(mg_locked) = false → consistent dialect s0 d.(mg_content) →
  runMigrations dialect d = (r, d') →
  d'.(mg_tx) = None ∧ lock_released d' ∧ consistent dialect s0 d'.(mg_content)
  ∧ (∃ news, versions_of d'.(mg_content) = versions_of d.(mg_content) ++ news
             ∧ news `sublist_of` (trim_suffix ".up.sql" <$> listed_files dialect))
  ∧ (r = Ok tt → ∀ name, name ∈ listed_files dialect →
       trim_suffix ".up.sql" name ∈ versions_of d'.(mg_content)).
Proof.
  intros Htx Hlk Hc ((Ht & Hcon & Hnews & Hok) & Hl)%runMigrations_spec; [|done..].
  split_and!; auto. intros Hr name Hn. by apply Hok, list_elem_of_fmap_2.
Qed.

(** Migrating twice is migrating once: after a run that returned nil, another run -
    at every start of the server - leaves the recorded versions and the schema as they
    are, whichever of its calls fail. *)
Theorem migrations_idempotent dialect s0 d d1 r d2 :
  d.(mg_tx) = None → d.(mg_locked) = false → consistent dialect s0 d.(mg_content) →
  runMigrations dialect d = (Ok tt, d1) → d1.(mg_locked) = false →
  runMigrations dialect d1 = (r, d2) →
  versions_of d2.(mg_content) = versions_of d1.(mg_content)
  ∧ d2.(mg_content).(mc_schema) = d1.(mg_content).(mc_schema).
Proof.
  intros Htx Hlk Hc ((Ht1 & Hc1 & _ & Hok1) & _)%runMigrations_spec; [|done..].
  intros Hlk1 ((_ & Hc2 & (news & Hv & Hsub) & _) & _)%runMigrations_spec; [|done..].
  specialize (Hc1 _ Hc). specialize (Hc2 _ Hc1). destruct Hc1 as [_ Hr1], Hc2 as [Hnd Hr2].
  assert (news = []) as ->.
  { destruct news as [|v news]; [done|]. rewrite Hv in Hnd. apply NoDup_app in Hnd as (_ & Hdis & _).
    exfalso. apply (Hdis v); [|left]. apply Hok1; [done|]. eapply elem_of_sublist; [|done]. left. }
  rewrite app_nil_r in Hv. split; [done|]. congruence.
Qed.

Lemma filter_all {A} (P : A → Prop) `{∀ x, Decision (P x)} l : Forall P l → filter P l = l.
Proof. induction 1 as [|x l Hx _ IH]; [done|]. by rewrite filter_cons_True, IH. Qed.
Lemma filter_none {A} (P : A → Prop) `{∀ x, Decision (P x)} l : Forall (λ x, ¬ P x) l → filter P l = [].
Proof. induction 1 as [|x l Hx _ IH]; [done|]. by rewrite filter_cons_False. Qed.

(** One step of a run whose call succeeds. *)
Lemma bind_res_step {S A B} (m : M S (res A)) (k : A → M S (res B)) s a s' :
  m s = (Ok a, s') → bind_res m k s = k a s'.
Proof. unfold bind_res. by intros ->. Qed.
Lemma wrap_step {S A} msg (m : M S (res A)) s a s' : m s = (Ok a, s') → wrap_errM msg m s = (Ok a, s').
Proof. unfold wrap_errM, bind, ret. by intros ->. Qed.

(** The runs whose calls all succeed. *)
Section sound.
Hypothesis sound : ∀ n, mg_fault n = None.

Lemma call_ok {A} (work : mig_db → res A * mig_db) d : call_db work d = work (next_call d).
Proof. unfold call_db. by rewrite sound. Qed.

Lemma stmt_ok msg work d c c' :
  d.(mg_tx) = Some c → work c = Ok c' →
  or_rollback msg (tx_run work) d = (Ok tt, set_tx (Some c') (next_call d)).
Proof. intros Htx Hw. unfold or_rollback, bind, tx_run. rewrite call_ok. simpl. by rewrite Htx, Hw. Qed.

Lemma begin_ok msg d :
  wrap_errM msg begin_tx d = (Ok tt, set_tx (Some d.(mg_content)) (next_call d)).
Proof. apply wrap_step. unfold begin_tx. by rewrite sound. Qed.

Lemma commit_ok msg d c :
  d.(mg_tx) = Some c →
  ∃ d', wrap_errM msg commit_tx d = (Ok tt, d') ∧ d'.(mg_content) = c ∧ d'.(mg_tx) = None.
Proof.
  intros Htx. eexists. split; [apply wrap_step; unfold commit_tx; by rewrite call_ok|].
  simpl. by rewrite Htx.
Qed.

#[local] Ltac finish_commit :=
  match goal with
  | |- context [wrap_errM ?m commit_tx ?d] =>
      destruct (commit_ok m d _ eq_refl) as (? & ? & ? & ?); eauto
  end.

Lemma count_ok msg v d rows n :
  d.(mg_content).(mc_applied) = Some rows → length (filter (λ row, row.1 = v) rows) = n →
  wrap_errM msg (count_version v) d = (Ok n, next_call d).
Proof. intros Hr Hn. apply wrap_step. unfold count_version. rewrite call_ok. simpl. by rewrite Hr, Hn. Qed.

Lemma apply_ok dialect name d rows text s' :
  let v := trim_suffix ".up.sql" name in
  d.(mg_content).(mc_applied) = Some rows → Forall (λ row, row.1 ≠ v) rows →
  read_file dialect name = Ok text → exec_script text d.(mg_content).(mc_schema) = Ok s' →
  ∃ d' at_, apply_migration dialect name d = (Ok tt, d') ∧ d'.(mg_tx) = None
    ∧ d'.(mg_content) = {| mc_schema := s'; mc_applied := Some (rows ++ [(v, at_)]) |}.
Proof.
  intros v Hrows Hnew Htext Hs. unfold apply_migration. fold v.
  erewrite bind_res_step by (eapply count_ok; [done|]; by rewrite (filter_none _ rows Hnew)).
  simpl. erewrite bind_res_step by (unfold ret; by rewrite Htext).
  erewrite bind_res_step by apply begin_ok.
  erewrite bind_res_step by (eapply stmt_ok; [done|]; unfold script_work; simpl; by rewrite Hs).
  unfold bind at 1, now_text at 1. erewrite bind_res_step.
  2: { eapply stmt_ok; [done|]. unfold insert_work; simpl. rewrite Hrows, bool_decide_eq_false_2; [done|].
       intros (row & -> & Hin)%list_elem_of_fmap. by eapply Forall_forall in Hnew. }
  finish_commit.
Qed.

Lemma rollback_ok dialect v d rows at_ text s' :
  d.(mg_content).(mc_applied) = Some (rows ++ [(v, at_)]) → Forall (λ row, row.1 ≠ v) rows →
  read_file dialect (v +:+ ".down.sql") = Ok text → exec_script text d.(mg_content).(mc_schema) = Ok s' →
  ∃ d', rollbackMigration dialect v d = (Ok tt, d') ∧ d'.(mg_tx) = None
    ∧ d'.(mg_content) = {| mc_schema := s'; mc_applied := Some rows |}.
Proof.
  intros Hrows Hnew Htext Hs. unfold rollbackMigration.
  erewrite bind_res_step.
  2: { eapply count_ok; [done|]. by rewrite filter_app, (filter_none _ rows Hnew), filter_cons_True. }
  simpl. erewrite bind_res_step by (unfold ret; by rewrite Htext).
  erewrite bind_res_step by apply begin_ok.
  erewrite bind_res_step by (eapply stmt_ok; [done|]; unfold script_work; simpl; by rewrite Hs).
  erewrite bind_res_step.
  2: { eapply stmt_ok; [done|]. unfold delete_work; simpl. rewrite Hrows, filter_app, (filter_all _ rows Hnew).
       by rewrite filter_cons_False, app_nil_r by naive_solver. }
  finish_commit.
Qed.
End sound.

(** Rolling back undoes applying: with the connection sound, applying a new version
    and then rolling it back - whose down script undoes its up script - returns nil twice
    and leaves schema and record exactly as they were. *)
Theorem rollback_undoes_migration dialect name d rows up down s' :
  let v := trim_suffix ".up.sql" name in
  (∀ n, mg_fault n = None) →
  d.(mg_content).(mc_applied) = Some rows → v ∉ rows.*1 →
  read_file dialect name = Ok up → exec_script up d.(mg_content).(mc_schema) = Ok s' →
  read_file dialect (v +:+ ".down.sql") = Ok down → exec_script down s' = Ok d.(mg_content).(mc_schema) →
  ∃ d', (do? _ <- apply_migration dialect name; rollbackMigration dialect v) d = (Ok tt, d')
        ∧ d'.(mg_content) = d.(mg_content) ∧ d'.(mg_tx) = None.
Proof.
  intros v Hok Hrows Hv Hup Hexec Hdown Hundo.
  assert (Forall (λ row : string * string, row.1 ≠ v) rows) as Hnew.
  { apply Forall_forall. intros row Hin <-. by apply Hv, list_elem_of_fmap_2. }
  destruct (apply_ok Hok dialect name d rows up s') as (d1 & at_ & Happly & _ & Hc1); [done..|].
  destruct (rollback_ok Hok dialect v d1 rows at_ down d.(mg_content).(mc_schema)) as (d2 & Hroll & Ht2 & Hc2);
    [by rewrite Hc1|done..|by rewrite Hc1|].
  exists d2. erewrite bind_res_step by done. split; [done|]. split; [|done].
  rewrite Hc2, <- Hrows. by destruct (mg_content d).
Qed.
End proofs.

(** ** A run *)

Module MigrationsExample.
(** A schema as the list of its statements; a script "-X" drops the statement X last made. *)
#[local] Instance engine : ScriptEngine := {|
  schema := list string;
  exec_script text s :=
    match text, s with
    | String "-" x, y :: s => if String.eqb x y then Ok s else Err (EText "no such table")
    | String "-" _, [] => Err (EText "no such table")
    | _, _ => Ok (text :: s)
    end;
  version_order := sort_strings |}.
#[local] Instance files : MigrationsFS := λ dialect,
  if bool_decide (dialect ∈ ["sqlite"; "postgres"])
  then Some {[ "001_init.up.sql" := "T"; "001_init.down.sql" := "-T"; "002_index.up.sql" := "I";
               "002_index.down.sql" := "-I" ]} else None.
(** The commit of the second version, call 10, reports a failure. *)
#[local] Instance flaky : Faults := {|
  mg_fault n := if Nat.eqb n 10 then Some (false, EText "connection reset") else None;
  mg_clock _ := 0 |}.
Definition fresh : mig_db :=
  {| mg_content := {| mc_schema := []; mc_applied := None |}; mg_tx := None; mg_locked := false; mg_calls := 0 |}.
Definition after_flaky : mig_db := Eval vm_compute in (runMigrations "sqlite" fresh).2.

Example flaky_run :
  runMigrations "sqlite" fresh
  = (Err (EWrap "committing migration 002_index" (EText "connection reset")),
     {| mg_content := {| mc_schema := ["T"]; mc_applied := Some [("001_init", "1970-01-01T00:00:00Z")] |};
        mg_tx := None; mg_locked := false; mg_calls := 11 |}).
Proof. reflexivity. Qed.

Lemma migrations_safe_witness : consistent "sqlite" [] after_flaky.(mg_content).
Proof.
  refine (proj1 (proj2 (proj2 (migrations_safe "sqlite" [] fresh
    (runMigrations "sqlite" fresh).1 after_flaky _ _ _ _)))); [reflexivity..| |].
  - split; [constructor|reflexivity].
  - reflexivity.
Defined.

Definition after_retry : mig_db := Eval vm_compute in (runMigrations "postgres" after_flaky).2.
Lemma migrations_idempotent_witness :
  versions_of (runMigrations "postgres" after_retry).2.(mg_content) = ["001_init"; "002_index"].
Proof.
  assert (consistent "postgres" [] after_flaky.(mg_content)) as Hc.
  { unfold consistent. split; [decide_closed|reflexivity]. }
  destruct (runMigrations "postgres" after_retry) as [r d2] eqn:Hrun. simpl.
  assert (runMigrations "postgres" after_flaky = (Ok tt, after_retry)) as Hfirst by (reflexivity).
  pose proof (migrations_idempotent "postgres" [] after_flaky after_retry r d2
    eq_refl eq_refl Hc Hfirst eq_refl Hrun) as [Hv _].
  rewrite Hv. reflexivity.
Defined.

(** The second version rolled back after being applied. *)
#[local] Instance steady : Faults := {| mg_fault _ := None; mg_clock _ := 0 |}.
Definition first_applied : mig_db :=
  {| mg_content := {| mc_schema := ["T"] : list string; mc_applied := Some [("001_init", "")] |};
     mg_tx := None; mg_locked := false; mg_calls := 0 |}.
Lemma rollback_undoes_migration_witness :
  ∃ d', (do? _ <- apply_migration (H0 := steady) "sqlite" "002_index.up.sql";
         rollbackMigration (H0 := steady) "sqlite" "002_index") first_applied = (Ok tt, d')
        ∧ d'.(mg_content) = first_applied.(mg_content) ∧ d'.(mg_tx) = None.
Proof.
  apply (rollback_undoes_migration (H0 := steady) "sqlite" "002_index.up.sql" first_applied
    [("001_init", "")] "I" "-I" (["I"; "T"] : list string)); try reflexivity.
  - change (trim_suffix ".up.sql" "002_index.up.sql") with "002_index". simpl. set_solver.
Defined.
End MigrationsExample.
