(* ===== verification/StoreOpen.v ===== *)
(** internal/store: opening a store - New (store.go), NewSQLiteStore and
    withSQLitePragmas (sqlite.go), NewPostgresStore (postgres.go) - over the
    migrations.

    The SQL driver is outside the repository ([StoreDriver]); what is kept is the
    database behind it and the number of open database handles. *)

From S2P Require Import Prelude GoString Actions Migrations.
From Stdlib Require Import Ascii.
#[local] Open Scope Z_scope.

(** [sqlx.Open] and [db.PingContext], by driver and data source name. *)
Class StoreDriver := { sql_open : string → string → res unit; sql_ping : string → string → res unit }.

(** ** withSQLitePragmas *)

(** [strings.Contains]. *)
Fixpoint str_contains (sub s : string) : bool :=
  has_prefix sub s || match s with "" => false | String _ s' => str_contains sub s' end.

(** One turn of the loop: the data source name and the separator. *)
Definition add_pragma (acc : string * string) (kv : string * string) : string * string :=
  let '(dsn, sep) := acc in
  if str_contains (kv.1 +:+ "=") dsn then (dsn, sep)
  else (dsn +:+ sep +:+ kv.1 +:+ "=" +:+ kv.2, "&").

(** The pragmas come in the iteration order of a Go map. *)
Definition withSQLitePragmas (dsn : string) (pragmas : list (string * string)) : string :=
  let sep := if mem_char "?" dsn then "&" else "?" in
  (foldl add_pragma (dsn, sep) pragmas).1.

Definition sqlite_pragmas : list (string * string) :=
  [("_journal_mode", "WAL"); ("_foreign_keys", "on"); ("_busy_timeout", "5000")].

(** ** The stores *)

(** [PostgresConfig], and the handle a constructor returns. *)
Record PostgresConfig := { pg_MaxOpenConns : Z; pg_MaxIdleConns : Z; pg_ConnMaxLifetime : Z }.
Record store_handle := {
  sh_driver : string; sh_dsn : string;
  sh_MaxOpenConns : option Z; sh_MaxIdleConns : option Z; sh_ConnMaxLifetime : option Z }.

Section opening.
Context `{ScriptEngine} `{Faults} `{MigrationsFS} `{StoreDriver}.

Record process := { pr_db : mig_db; pr_open : nat }.

Definition db_open (driver dsn : string) : M process (res unit) := λ p,
  match sql_open driver dsn with
  | Ok _ => (Ok tt, {| pr_db := p.(pr_db); pr_open := S p.(pr_open) |})
  | Err e => (Err e, p)
  end.
Definition db_ping (driver dsn : string) : M process (res unit) := ret (sql_ping driver dsn).
(** [db.Close], whose error is only logged. *)
Definition db_close : M process unit := λ p,
  (tt, {| pr_db := p.(pr_db); pr_open := Nat.pred p.(pr_open) |}).
Definition on_db {A} (m : M mig_db A) : M process A := λ p,
  let '(a, d) := m p.(pr_db) in (a, {| pr_db := d; pr_open := p.(pr_open) |}).

(** [if err := step; err != nil { db.Close(); return fmt.Errorf("msg: %w", err) }]. *)
Definition or_close (msg : string) (step : M process (res unit)) : M process (res unit) :=
  do r <- step;
  match r with
  | Ok _ => ret (Ok tt)
  | Err e => do _ <- db_close; ret (Err (EWrap msg e))
  end.

Definition NewSQLiteStore (dsn : string) (pragmas : list (string * string)) : M process (res store_handle) :=
  let dsn := if is_empty dsn then "trusted_actions.db" else dsn in
  let dsn := withSQLitePragmas dsn pragmas in
  do? _ <- wrap_errM "opening database" (db_open "sqlite" dsn);
  do? _ <- or_close "pinging database" (db_ping "sqlite" dsn);
  do? _ <- or_close "running migrations" (on_db (runMigrations "sqlite"));
  ret (Ok {| sh_driver := "sqlite"; sh_dsn := dsn; sh_MaxOpenConns := Some 1;
             sh_MaxIdleConns := None; sh_ConnMaxLifetime := None |}).

Definition positive (z : Z) : option Z := if 0 <? z then Some z else None.

Definition NewPostgresStore (dsn : string) (cfg : PostgresConfig) : M process (res store_handle) :=
  do? _ <- wrap_errM "opening postgres database" (db_open "pgx" dsn);
  do? _ <- or_close "pinging postgres database" (db_ping "pgx" dsn);
  do? _ <- or_close "running postgres migrations" (on_db (runMigrations "postgres"));
  ret (Ok {| sh_driver := "pgx"; sh_dsn := dsn; sh_MaxOpenConns := positive cfg.(pg_MaxOpenConns);
             sh_MaxIdleConns := positive cfg.(pg_MaxIdleConns);
             sh_ConnMaxLifetime := positive cfg.(pg_ConnMaxLifetime) |}).

Definition is_postgres_url (databaseURL : string) : bool :=
  has_prefix "postgres://" databaseURL || has_prefix "postgresql://" databaseURL.

(** [New]. *)
Definition store_New (databaseURL : string) (cfg : PostgresConfig) (pragmas : list (string * string))
  : M process (res store_handle) :=
  if is_postgres_url databaseURL then NewPostgresStore databaseURL cfg else NewSQLiteStore databaseURL pragmas.
End opening.

(** ** Pragmas *)

Lemma str_contains_spec sub s : str_contains sub s = true ↔ ∃ l r, s = l +:+ sub +:+ r.
Proof.
  split.
  - induction s as [|a s IH]; cbn [str_contains]; rewrite orb_true_iff, has_prefix_spec.
    + intros [[r Hr]|]; [by exists "", r|done].
    + intros [[r Hr]|(l & r & ->)%IH]; [by exists "", r|by exists (String a l), r].
  - intros (l & r & ->). induction l as [|a l IH]; cbn [String.app].
    + assert (has_prefix sub (sub +:+ r) = true) as Hp by (apply has_prefix_spec; by exists r).
      change ("" +:+ sub +:+ r) with (sub +:+ r). destruct (sub +:+ r); cbn [str_contains]; by rewrite Hp.
    + rewrite string_app_cons. cbn [str_contains]. by rewrite IH, orb_true_r.
Qed.

Lemma str_contains_app sub s t : str_contains sub s = true → str_contains sub (s +:+ t) = true.
Proof. rewrite !str_contains_spec. intros (l & r & ->). exists l, (r +:+ t). by rewrite <- !string_app_assoc. Qed.

Lemma add_pragma_spec dsn sep kv :
  ∃ added, (add_pragma (dsn, sep) kv).1 = dsn +:+ added
           ∧ str_contains (kv.1 +:+ "=") (add_pragma (dsn, sep) kv).1 = true.
Proof.
  unfold add_pragma. destruct (str_contains (kv.1 +:+ "=") dsn) eqn:Hc.
  - exists "". by rewrite string_app_nil_r.
  - exists (sep +:+ kv.1 +:+ "=" +:+ kv.2). split; [done|]. apply str_contains_spec.
    exists (dsn +:+ sep), kv.2. simpl. by rewrite <- !string_app_assoc.
Qed.

(** The pragmas are appended to the data source name, each unless it is set already,
    in whichever order the map gives them. *)
Lemma withSQLitePragmas_spec dsn pragmas :
  (∃ added, withSQLitePragmas dsn pragmas = dsn +:+ added)
  ∧ ∀ kv, kv ∈ pragmas → str_contains (kv.1 +:+ "=") (withSQLitePragmas dsn pragmas) = true.
Proof.
  unfold withSQLitePragmas. cbv zeta. generalize (if mem_char "?" dsn then "&" else "?") as sep.
  revert dsn. induction pragmas as [|kv pragmas IH]; intros dsn sep; cbn [foldl].
  - split; [exists ""; by rewrite string_app_nil_r|by intros kv ?%elem_of_nil].
  - destruct (add_pragma_spec dsn sep kv) as (added & Ha & Hc).
    destruct (add_pragma (dsn, sep) kv) as [dsn' sep'] eqn:He. simpl in Ha, Hc. subst dsn'.
    destruct (IH (dsn +:+ added) sep') as [[more Hm] Hin]. split.
    + exists (added +:+ more). by rewrite Hm, <- string_app_assoc.
    + intros x [->|Hx]%elem_of_cons; [|by apply Hin]. rewrite Hm. by apply str_contains_app.
Qed.

(** ** Opening *)
Section proofs.
Context `{ScriptEngine} `{Faults} `{MigrationsFS} `{StoreDriver}.

(** The dialect a database URL selects. *)
Definition url_dialect (databaseURL : string) : string :=
  if is_postgres_url databaseURL then "postgres" else "sqlite".

(** What opening leaves: the database as its migrations leave it, and one more open
    handle exactly on success, when every listed version is recorded. *)
Definition opened (dialect : string) (p : process) (ok : bool) (p' : process) : Prop :=
  p'.(pr_open) = (if ok then S p.(pr_open) else p.(pr_open))
  ∧ ∃ r, progressed dialect (listed_files dialect) p.(pr_db) r p'.(pr_db) ∧ (ok = true → r = Ok tt).

Lemma untouched dialect names d e : d.(mg_tx) = None → progressed dialect names d (Err e) d.
Proof. intros Ht. split_and!; try done. exists []. rewrite app_nil_r. split; [done|apply sublist_nil_l]. Qed.

(** Opening, pinging and migrating, for either driver. *)
Lemma open_migrated dialect driver dsn m1 m2 m3 (h : store_handle) p :
  p.(pr_db).(mg_tx) = None → p.(pr_db).(mg_locked) = false →
  let '(r, p') := (do? _ <- wrap_errM m1 (db_open driver dsn);
                   do? _ <- or_close m2 (db_ping driver dsn);
                   do? _ <- or_close m3 (on_db (runMigrations dialect));
                   ret (Ok h)) p in
  opened dialect p (is_ok r) p' ∧ (∀ h', r = Ok h' → h' = h).
Proof.
  intros Ht Hl. unfold opened, bind_res, wrap_errM, or_close, db_open, db_ping, db_close, on_db, bind, ret.
  destruct (sql_open driver dsn) as [[]|e]; simpl; [|split; [split; [done|]; exists (Err e); split; [by apply untouched|done]|done]].
  destruct (sql_ping driver dsn) as [[]|e]; simpl; [|split; [split; [done|]; exists (Err e); split; [by apply untouched|done]|done]].
  destruct (runMigrations dialect (pr_db p)) as [r d] eqn:Hr.
  destruct (runMigrations_spec dialect _ _ _ Ht Hl Hr) as [Hp _].
  destruct r as [[]|e]; simpl.
  - split; [split; [done|]; by exists (Ok tt)|by intros h' [= <-]].
  - split; [split; [done|]; by exists (Err e)|done].
Qed.

(** What that comes to. *)
Lemma opened_spec dialect s0 p ok p' :
  consistent dialect s0 p.(pr_db).(mg_content) → opened dialect p ok p' →
  p'.(pr_open) = (if ok then S p.(pr_open) else p.(pr_open)) ∧ p'.(pr_db).(mg_tx) = None
  ∧ consistent dialect s0 p'.(pr_db).(mg_content)
  ∧ (ok = true → ∀ name, name ∈ listed_files dialect →
       trim_suffix ".up.sql" name ∈ versions_of p'.(pr_db).(mg_content)).
Proof.
  intros Hc (Hn & r & (Ht & Hcon & _ & Hok) & Hr). split_and!; auto.
  intros Hk name Hin. apply Hok; [auto|]. by apply list_elem_of_fmap_2.
Qed.

(** [New], for the dialect its URL selects. *)
Lemma store_New_opened databaseURL cfg pragmas p :
  p.(pr_db).(mg_tx) = None → p.(pr_db).(mg_locked) = false →
  let '(r, p') := store_New databaseURL cfg pragmas p in
  opened (url_dialect databaseURL) p (is_ok r) p'
  ∧ ∀ h, r = Ok h →
      (h.(sh_driver) = "pgx" ↔ is_postgres_url databaseURL = true)
      ∧ (h.(sh_driver) = "sqlite" → h.(sh_MaxOpenConns) = Some 1).
Proof.
  intros Ht Hl. unfold url_dialect, store_New. destruct (is_postgres_url databaseURL).
  - pose proof (open_migrated "postgres" "pgx" databaseURL "opening postgres database" "pinging postgres database"
      "running postgres migrations" (Build_store_handle "pgx" databaseURL (positive (pg_MaxOpenConns cfg))
      (positive (pg_MaxIdleConns cfg)) (positive (pg_ConnMaxLifetime cfg))) p Ht Hl) as Ho.
    unfold NewPostgresStore. destruct (bind_res _ _ p) as [r p']. destruct Ho as [Ho Hh].
    split; [done|]. intros h Hr. by rewrite (Hh h Hr).
  - unfold NewSQLiteStore. cbv zeta. set (dsn := withSQLitePragmas _ _).
    pose proof (open_migrated "sqlite" "sqlite" dsn "opening database" "pinging database" "running migrations"
      (Build_store_handle "sqlite" dsn (Some 1) None None) p Ht Hl) as Ho.
    destruct (bind_res _ _ p) as [r p']. destruct Ho as [Ho Hh].
    split; [done|]. intros h Hr. by rewrite (Hh h Hr).
Qed.

(** A store is handed out only over a migrated database, and no failure leaks a
    handle. [New] picks Postgres exactly for its two URL schemes; when it returns a
    store, one handle is open, every migration listed for the dialect is recorded, and
    SQLite is limited to one connection; when it fails, whatever was opened is closed;
    and either way no transaction is open and record and schema agree. *)
Theorem store_New_opens databaseURL cfg pragmas s0 p :
  let dialect := url_dialect databaseURL in
  p.(pr_db).(mg_tx) = None → p.(pr_db).(mg_locked) = false → consistent dialect s0 p.(pr_db).(mg_content) →
  let '(r, p') := store_New databaseURL cfg pragmas p in
  p'.(pr_open) = (if is_ok r then S p.(pr_open) else p.(pr_open))
  ∧ p'.(pr_db).(mg_tx) = None ∧ consistent dialect s0 p'.(pr_db).(mg_content)
  ∧ ∀ h, r = Ok h →
      (∀ name, name ∈ listed_files dialect → trim_suffix ".up.sql" name ∈ versions_of p'.(pr_db).(mg_content))
      ∧ (h.(sh_driver) = "pgx" ↔ is_postgres_url databaseURL = true)
      ∧ (h.(sh_driver) = "sqlite" → h.(sh_MaxOpenConns) = Some 1).
Proof.
  intros dialect Ht Hl Hc. subst dialect.
  pose proof (store_New_opened databaseURL cfg pragmas p Ht Hl) as Ho.
  destruct (store_New databaseURL cfg pragmas p) as [r p']. destruct Ho as [Ho Hh].
  destruct (opened_spec _ _ _ _ _ Hc Ho) as (Hn & Ht' & Hcon & Hall). split_and!; [done..|].
  intros h Hr. destruct (Hh h Hr) as [Hd Hs]. split; [apply Hall; by rewrite Hr|]. done.
Qed.
End proofs.

(** ** A start *)

Module StoreOpenExample.
Import MigrationsExample.
#[local] Existing Instance engine.
#[local] Existing Instance files.
#[local] Existing Instance steady.
#[local] Instance driver : StoreDriver := {| sql_open _ _ := Ok tt; sql_ping _ _ := Ok tt |}.

Example pragmas_added :
  withSQLitePragmas "f.db?_busy_timeout=1" sqlite_pragmas = "f.db?_busy_timeout=1&_journal_mode=WAL&_foreign_keys=on".
Proof. reflexivity. Qed.

Definition cold : process := {| pr_db := fresh; pr_open := 0 |}.

Lemma store_New_opens_witness :
  let p' := (store_New "" (Build_PostgresConfig 10 5 0) sqlite_pragmas cold).2 in
  pr_open p' = 1%nat ∧ "002_index" ∈ versions_of p'.(pr_db).(mg_content).
Proof.
  assert (consistent "sqlite" ([] : list string) cold.(pr_db).(mg_content)) as Hc
    by (split; [constructor|reflexivity]).
  pose proof (store_New_opens "" (Build_PostgresConfig 10 5 0) sqlite_pragmas ([] : list string) cold
    eq_refl eq_refl Hc) as Hn.
  destruct (store_New "" _ _ cold) as [r p'] eqn:Hr. simpl.
  assert (∃ h, r = Ok h) as [h ->].
  { assert ((store_New "" (Build_PostgresConfig 10 5 0) sqlite_pragmas cold).1 = r) as <- by by rewrite Hr.
    eexists. reflexivity. }
  destruct Hn as (Ho & _ & _ & Hh). split; [exact Ho|]. destruct (Hh h eq_refl) as (Hall & _ & _).
  change "002_index" with (trim_suffix ".up.sql" "002_index.up.sql"). apply Hall.
  assert (listed_files (url_dialect "") = ["001_init.up.sql"; "002_index.up.sql"]) as -> by reflexivity.
  right. left.
Defined.
End StoreOpenExample.
