(* ===== verification/OcmClient.v ===== *)
(** internal/ocm/client.go - the OCM connection and the name it acts under - and the
    two ways runServer (cmd/server/main.go) configures it.

    The OCM SDK, the JWT parser and the OCM CLI's saved configuration are outside the
    repository ([OcmSdk]). *)

From S2P Require Import Prelude GoString Json Env Actions Http Auth AwsApi Backplane Config.
From Stdlib Require Import Ascii.
#[local] Open Scope Z_scope.

(** ** Configuration *)

(** [ocm.Config]. *)
Record ocm_Config := {
  oc_BaseURL : string; oc_ClientID : string; oc_ClientSecret : string; oc_Tokens : list string; oc_Debug : bool }.

(** What the connection builder has been told. *)
Record conn_builder := {
  cb_URL : string; cb_Client : option (string * string); cb_Tokens : option (list string) }.

(** The SDK: parsing a token without verifying it, building a logger and a connection,
    and a connection's token. *)
Class OcmSdk := {
  jwt_ParseUnverified : string → res token;
  build_logger : bool → res unit;
  sdk_connection : Type;
  build_connection : conn_builder → res sdk_connection;
  sdk_Tokens : sdk_connection → res string;
  sdk_Close : sdk_connection → res unit }.

Section client.
Context `{OcmSdk}.

(** [ocmConnection]: the SDK's connection, or a test's fake. *)
Inductive ocmConnection := SdkConn (c : sdk_connection) | FakeConn (tokens : res string) (close : res unit).
Definition conn_Tokens (c : ocmConnection) : res string :=
  match c with SdkConn c => sdk_Tokens c | FakeConn tokens _ => tokens end.
Definition conn_Close (c : ocmConnection) : res unit :=
  match c with SdkConn c => sdk_Close c | FakeConn _ close => close end.

(** [Client], with its [connection] nil until [newConnection] succeeds. *)
Record ocm_Client := {
  ocl_config : ocm_Config; ocl_connection : option ocmConnection; ocl_connUsername : string;
  ocl_buildConn : option (ocm_Config → res ocmConnection) }.

Definition getUsernameFromJWT (t : string) : string :=
  match jwt_ParseUnverified t with
  | Err _ | Ok OtherClaims => "anonymous"
  | Ok (MapClaims claims) =>
      match claims !! "username" with Some (JStr username) => username | _ => "anonymous" end
  end.

Definition buildDefaultConnection (c : ocm_Client) : res sdk_connection :=
  let config := c.(ocl_config) in
  let client := if negb (is_empty config.(oc_ClientID)) || negb (is_empty config.(oc_ClientSecret))
                then Some (config.(oc_ClientID), config.(oc_ClientSecret)) else None in
  let? tokens := match config.(oc_Tokens) with
                 | [] => if is_empty config.(oc_ClientSecret)
                         then Err (EText ("can't build OCM client connection: no client secret or token has "
                                          +:+ "been provided"))
                         else Ok None
                 | tokens => Ok (Some tokens)
                 end in
  match build_connection {| cb_URL := config.(oc_BaseURL); cb_Client := client; cb_Tokens := tokens |} with
  | Ok conn => Ok conn
  | Err e => Err (EText ("can't build OCM client connection: " +:+ error_text e))
  end.

Definition newConnection (c : ocm_Client) : res ocm_Client :=
  let? conn := match c.(ocl_buildConn) with
               | Some build => build c.(ocl_config)
               | None => res_map SdkConn (buildDefaultConnection c)
               end in
  let username := match conn_Tokens conn with Ok t => getUsernameFromJWT t | Err _ => "anonymous" end in
  Ok {| ocl_config := c.(ocl_config); ocl_connection := Some conn; ocl_connUsername := username;
        ocl_buildConn := c.(ocl_buildConn) |}.

(** [NewClient]. *)
Definition ocm_NewClient (config : ocm_Config) : res ocm_Client :=
  match build_logger config.(oc_Debug) with
  | Err e => Err (EText ("unable to build OCM logger: " +:+ error_text e))
  | Ok _ =>
      match newConnection {| ocl_config := config; ocl_connection := None; ocl_connUsername := "";
                             ocl_buildConn := None |} with
      | Ok client => Ok client
      | Err e => Err (EText ("unable to build OCM connection: " +:+ error_text e))
      end
  end.

Definition sdkConn (c : ocm_Client) : res sdk_connection :=
  match c.(ocl_connection) with
  | Some (SdkConn conn) => Ok conn
  | _ => Err (EText "ocm: client connection is not a *sdkClient.Connection")
  end.

Definition ocm_Close (c : ocm_Client) : res unit :=
  match c.(ocl_connection) with Some conn => conn_Close conn | None => Ok tt end.

(** ** runServer's OCM client *)

(** The OCM CLI's saved configuration; nil when there is none. *)
Record saved_login := {
  sl_URL : string; sl_ClientID : string; sl_ClientSecret : string; sl_AccessToken : string;
  sl_RefreshToken : string }.

Definition appendIfNotEmpty (l : list string) (s : string) : list string :=
  if is_empty s then l else l ++ [s].

(** The client of the two policies that check tokens. Reading a field of the nil
    configuration panics. *)
Definition server_ocm_client (cfg : Config) (login : res (option saved_login)) : res ocm_Client :=
  if bool_decide (cfg.(cfg_AuthPolicy) = EnabledAuthPolicy) then
    ocm_NewClient {| oc_BaseURL := cfg.(OCMBaseURL); oc_ClientID := cfg.(OCMClientID);
                     oc_ClientSecret := cfg.(OCMClientSecret); oc_Tokens := appendIfNotEmpty [] cfg.(OCMToken);
                     oc_Debug := false |}
  else
    let? saved := login in
    match saved with
    | None => Err EPanic
    | Some saved =>
        ocm_NewClient {| oc_BaseURL := saved.(sl_URL); oc_ClientID := saved.(sl_ClientID);
                         oc_ClientSecret := saved.(sl_ClientSecret);
                         oc_Tokens := appendIfNotEmpty (appendIfNotEmpty [] saved.(sl_AccessToken))
                                        saved.(sl_RefreshToken);
                         oc_Debug := false |}
    end.
End client.

(** ** What a client is built with *)
Section proofs.
Context `{OcmSdk}.

(** The builder has been given something to authenticate with. *)
Definition credentialed (b : conn_builder) : Prop :=
  match b.(cb_Tokens) with
  | Some tokens => tokens ≠ [] ∧ "" ∉ tokens
  | None => ∃ id secret, b.(cb_Client) = Some (id, secret) ∧ secret ≠ ""
  end.

(** The name a connection's token gives: its username claim when it makes one, and
    "anonymous" only when it makes none. *)
Definition named_by (conn : sdk_connection) (username : string) : Prop :=
  (∀ t claims v, sdk_Tokens conn = Ok t → jwt_ParseUnverified t = Ok (MapClaims claims) →
     claims !! "username" = Some (JStr v) → username = v)
  ∧ (username = "anonymous"
     ∨ ∃ t claims, sdk_Tokens conn = Ok t ∧ jwt_ParseUnverified t = Ok (MapClaims claims)
                   ∧ claims !! "username" = Some (JStr username)).

(** Where the two policies take the login from: URL, client id and secret, tokens. *)
Record login_source := LoginSource { ls_URL : string; ls_ID : string; ls_Secret : string; ls_Tokens : list string }.
Definition source_of (cfg : Config) (login : res (option saved_login)) : option login_source :=
  match cfg.(cfg_AuthPolicy), login with
  | EnabledAuthPolicy, _ =>
      Some (LoginSource cfg.(OCMBaseURL) cfg.(OCMClientID) cfg.(OCMClientSecret) [cfg.(OCMToken)])
  | _, Ok (Some l) =>
      Some (LoginSource l.(sl_URL) l.(sl_ClientID) l.(sl_ClientSecret) [l.(sl_AccessToken); l.(sl_RefreshToken)])
  | _, _ => None
  end.
(** The builder was told exactly that, less what is empty. *)
Definition built_from (src : login_source) (b : conn_builder) : Prop :=
  b.(cb_URL) = src.(ls_URL)
  ∧ b.(cb_Client) = (if bool_decide (src.(ls_ID) = "" ∧ src.(ls_Secret) = "") then None
                     else Some (src.(ls_ID), src.(ls_Secret)))
  ∧ default [] b.(cb_Tokens) = filter (λ t, t ≠ "") src.(ls_Tokens).

Lemma is_empty_spec s : is_empty s = true ↔ s = "".
Proof. unfold is_empty. by rewrite bool_decide_eq_true. Qed.

Lemma getUsernameFromJWT_named conn t :
  sdk_Tokens conn = Ok t → named_by conn (getUsernameFromJWT t).
Proof.
  intros Ht. unfold named_by, getUsernameFromJWT. split.
  - intros t' claims v Ht' Hp Hc. assert (t' = t) as -> by congruence. by rewrite Hp, Hc.
  - destruct (jwt_ParseUnverified t) as [[claims|]|e] eqn:Hp; [|by left..].
    destruct (claims !! "username") as [[]|] eqn:Hc; try (by left). right. eauto 10.
Qed.

Lemma filter_nonempty (l : list string) : "" ∉ l → filter (λ t, t ≠ "") l = l.
Proof.
  induction l as [|t l IH]; [done|]. intros [Ht Hl]%not_elem_of_cons.
  rewrite filter_cons_True by congruence. by rewrite IH.
Qed.

Lemma buildDefaultConnection_ok c conn :
  let config := c.(ocl_config) in
  "" ∉ config.(oc_Tokens) → buildDefaultConnection c = Ok conn →
  ∃ b, build_connection b = Ok conn ∧ credentialed b
    ∧ built_from (LoginSource config.(oc_BaseURL) config.(oc_ClientID) config.(oc_ClientSecret) config.(oc_Tokens)) b.
Proof.
  unfold buildDefaultConnection, credentialed, built_from. cbv zeta. intros Hne (tokens & Ht & Hb)%res_bind_ok.
  destruct (build_connection _) as [conn'|e] eqn:Hconn; [|done]. injection Hb as <-.
  eexists. split; [exact Hconn|]. simpl. rewrite filter_nonempty by done.
  assert (∀ x y : string, negb (is_empty x) || negb (is_empty y) = negb (bool_decide (x = "" ∧ y = ""))) as Hor
    by (intros x y; unfold is_empty; repeat case_bool_decide; tauto).
  rewrite Hor. split; [|split; [done|]; split; [by case_bool_decide|]];
    (destruct (oc_Tokens (ocl_config c)) as [|t ts]; [|by injection Ht as <-]);
    destruct (is_empty (oc_ClientSecret _)) eqn:Hs; try done; injection Ht as <-; [|done].
  assert (oc_ClientSecret (ocl_config c) ≠ "") as Hsec by (intros Hz; by rewrite Hz in Hs).
  rewrite bool_decide_eq_false_2 by tauto. eauto.
Qed.

(** A client over the connection its configuration's builder gives. *)
Lemma ocm_NewClient_ok config client :
  "" ∉ config.(oc_Tokens) → ocm_NewClient config = Ok client →
  ∃ conn b, sdkConn client = Ok conn ∧ build_connection b = Ok conn ∧ credentialed b
    ∧ built_from (LoginSource config.(oc_BaseURL) config.(oc_ClientID) config.(oc_ClientSecret) config.(oc_Tokens)) b
    ∧ named_by conn client.(ocl_connUsername).
Proof.
  intros Hne Hn. unfold ocm_NewClient, newConnection in Hn. simpl in Hn.
  destruct (build_logger _); [|done].
  destruct (buildDefaultConnection _) as [conn|e] eqn:Hb; simpl in Hn; [|done]. injection Hn as <-.
  apply buildDefaultConnection_ok in Hb as (b & Hb & Hcr & Hu); [|done].
  exists conn, b. split_and!; [done..|]. simpl.
  destruct (sdk_Tokens conn) as [t|e] eqn:Ht; [by apply getUsernameFromJWT_named|].
  split; [congruence|by left].
Qed.

Lemma appendIfNotEmpty_no_empty l s : "" ∉ l → "" ∉ appendIfNotEmpty l s.
Proof.
  unfold appendIfNotEmpty. destruct (is_empty s) eqn:Hs; [done|]. intros Hl [?|Heq%list_elem_of_singleton]%elem_of_app; [done|].
  subst s. done.
Qed.

Lemma filter_appendIfNotEmpty l s :
  filter (λ t, t ≠ "") (appendIfNotEmpty l s) = filter (λ t, t ≠ "") (l ++ [s]).
Proof.
  unfold appendIfNotEmpty. destruct (is_empty s) eqn:Hs; [|done]. apply is_empty_spec in Hs as ->.
  by rewrite filter_app, app_nil_r.
Qed.

(** Empty tokens do not count. *)
Lemma built_from_tokens url id secret l l' b :
  filter (λ t, t ≠ "") l = filter (λ t, t ≠ "") l' →
  built_from (LoginSource url id secret l) b → built_from (LoginSource url id secret l') b.
Proof. unfold built_from. simpl. by intros ->. Qed.

Lemma server_ocm_client_ok cfg login client :
  server_ocm_client cfg login = Ok client →
  ∃ src conn b, source_of cfg login = Some src ∧ built_from src b ∧ sdkConn client = Ok conn
    ∧ build_connection b = Ok conn ∧ credentialed b ∧ named_by conn client.(ocl_connUsername).
Proof.
  unfold server_ocm_client, source_of. case_bool_decide as Hp.
  - intros (conn & b & ? & ? & ? & Hb & ?)%ocm_NewClient_ok; [|simpl; apply appendIfNotEmpty_no_empty; set_solver].
    rewrite Hp. eexists _, conn, b. split_and!; [done| |done..].
    eapply built_from_tokens, Hb. apply filter_appendIfNotEmpty.
  - intros ([saved|] & -> & Hn)%res_bind_ok; [|done].
    apply ocm_NewClient_ok in Hn as (conn & b & ? & ? & ? & Hb & ?);
      [|simpl; apply appendIfNotEmpty_no_empty, appendIfNotEmpty_no_empty; set_solver].
    eexists _, conn, b. split_and!; [by destruct (cfg_AuthPolicy cfg); [destruct Hp|..]| |done..].
    eapply built_from_tokens, Hb. simpl. rewrite filter_appendIfNotEmpty, filter_app, filter_appendIfNotEmpty. by rewrite <- filter_app.
Qed.

(** C32: the server's OCM client is the one its policy's login describes. Whichever policy
    configures it - the environment's settings, or the OCM CLI's saved login - a client
    that is built has an SDK connection, so the connection check at startup passes; its
    builder was told that login's URL, its client id and secret unless both are empty, and
    its tokens less the empty ones, which leaves a token or a client secret to
    authenticate with; and it acts as the username claim of the connection's own token,
    as "anonymous" only when the token makes no such claim. Without a token and a secret
    the environment's policy is refused with an error; with the policy that reuses the
    OCM CLI's login, a missing login is a nil dereference. *)
Theorem server_ocm_client_credentialed cfg login :
  (∀ client, server_ocm_client cfg login = Ok client →
     ∃ src conn b, source_of cfg login = Some src ∧ built_from src b ∧ sdkConn client = Ok conn
       ∧ build_connection b = Ok conn ∧ credentialed b ∧ named_by conn client.(ocl_connUsername))
  ∧ (cfg.(cfg_AuthPolicy) = EnabledAuthPolicy → cfg.(OCMToken) = "" → cfg.(OCMClientSecret) = "" →
     ∃ msg, server_ocm_client cfg login = Err (EText msg))
  ∧ (cfg.(cfg_AuthPolicy) = OcmConfigAuthPolicy → login = Ok None →
     server_ocm_client cfg login = Err EPanic).
Proof.
  split; [intros client; apply server_ocm_client_ok|]. unfold server_ocm_client. split.
  - intros Hp Ht Hs. rewrite bool_decide_eq_true_2, Ht, Hs by done.
    unfold ocm_NewClient, newConnection, buildDefaultConnection. simpl. destruct (build_logger false); eauto.
  - intros Hp ->. by rewrite bool_decide_eq_false_2 by congruence.
Qed.
End proofs.

(** ** A client *)
Module OcmClientExample.
(** Tokens are their own username; a connection is what it was built with. *)
#[local] Instance sdk : OcmSdk := {|
  jwt_ParseUnverified := λ t, if bool_decide (t = "") then Err (EText "token is malformed")
                              else Ok (MapClaims {["username" := JStr t]});
  build_logger := λ _, Ok tt;
  sdk_connection := conn_builder;
  build_connection := λ b, Ok b;
  sdk_Tokens := λ b, match b.(cb_Tokens) with Some (t :: _) => Ok t | _ => Err (EText "no token") end;
  sdk_Close := λ _, Ok tt |}.
Definition with_token : ocm_Config :=
  {| oc_BaseURL := "https://api.openshift.com"; oc_ClientID := "id"; oc_ClientSecret := "";
     oc_Tokens := ["service-account"]; oc_Debug := false |}.

Example named_by_token :
  res_map ocl_connUsername (ocm_NewClient with_token) = Ok "service-account".
Proof. vm_compute. reflexivity. Qed.
Example closed : res_bind (ocm_NewClient with_token) ocm_Close = Ok tt.
Proof. vm_compute. reflexivity. Qed.
End OcmClientExample.
