(* ===== verification/Startup.v ===== *)
(** runServer (cmd/server/main.go) from its flags to the running server: the
    configuration and its overrides, the logger, the store, the OCM client, the backplane
    connection, the token verification, and the executor, handler and worker pool built
    from them - the constructors of the other files, in the order the server calls them.

    logrus's levels, the builders of the SDK and of the generated backplane client, and
    url.Parse of the proxy URL are outside the repository. *)

From S2P Require Import Prelude GoString Json Env Authorization Actions AwsGet AwsApi Backplane Executor Pipeline Models StoreApi Worker Catalog Http Auth Handlers Flags Config Openapi Migrations StoreOpen OcmClient Effects Edge Shutdown.
From Stdlib Require Import Ascii.
#[local] Open Scope Z_scope.

(** ** Flags and logging *)

(** [newRootCmd]'s flags, with their defaults. *)
Definition server_declared : list flag_decl :=
  [ string_flag "config-file"; flag "listen-addr" (TString ":8080"); flag "log-level" (TString "info");
    bool_flag "log-json" ].

(** The flags as runServer reads them; [None] is one that was not changed. *)
Record server_flags := {
  fl_config_file : string; fl_listen_addr : option string; fl_log_level : option string;
  fl_log_json : option bool }.

Definition read_server_flags (cmd : flags) (changed : string → bool) : server_flags :=
  let changed_to {A} (n : string) (v : A) := if changed n then Some v else None in
  {| fl_config_file := cmd.(fl_string) "config-file";
     fl_listen_addr := changed_to "listen-addr" (cmd.(fl_string) "listen-addr");
     fl_log_level := changed_to "log-level" (cmd.(fl_string) "log-level");
     fl_log_json := changed_to "log-json" (cmd.(fl_bool) "log-json") |}.

(** The overrides of runServer. *)
Definition override_flags (fl : server_flags) (c : Config) : Config :=
  {| ListenAddr := default c.(ListenAddr) fl.(fl_listen_addr); LogLevel := default c.(LogLevel) fl.(fl_log_level);
     LogJSON := default c.(LogJSON) fl.(fl_log_json);
     AWSRegion := c.(AWSRegion); AWSAccessKeyID := c.(AWSAccessKeyID);
     AWSSecretAccessKey := c.(AWSSecretAccessKey); AWSSessionToken := c.(AWSSessionToken);
     AWSEndpointURL := c.(AWSEndpointURL); AWSProxyURL := c.(AWSProxyURL);
     S3Bucket := c.(S3Bucket); S3KeyPrefix := c.(S3KeyPrefix);
     AllowedAccounts := c.(AllowedAccounts); Roles := c.(Roles); JWKCertFile := c.(JWKCertFile);
     JWKCertURL := c.(JWKCertURL);
     OCMBaseURL := c.(OCMBaseURL); OCMClientID := c.(OCMClientID); OCMClientSecret := c.(OCMClientSecret);
     OCMToken := c.(OCMToken);
     DatabaseURL := c.(DatabaseURL); DBMaxOpenConns := c.(DBMaxOpenConns); DBMaxIdleConns := c.(DBMaxIdleConns);
     DBConnMaxLifetime := c.(DBConnMaxLifetime);
     WorkerConcurrency := c.(WorkerConcurrency); WorkerPollInterval := c.(WorkerPollInterval);
     WorkerExecutionTimeout := c.(WorkerExecutionTimeout);
     BackplaneURL := c.(BackplaneURL); BackplaneClientID := c.(BackplaneClientID);
     BackplaneClientSecret := c.(BackplaneClientSecret);
     BackplaneAssumeInitialARN := c.(BackplaneAssumeInitialARN); BackplaneProxyURL := c.(BackplaneProxyURL);
     Kubeconfig := c.(Kubeconfig);
     AllowedNamespaces := c.(AllowedNamespaces); AllowedSecrets := c.(AllowedSecrets);
     AWSAllowedRegions := c.(AWSAllowedRegions); AWSAllowedOperations := c.(AWSAllowedOperations);
     cfg_AuthPolicy := c.(cfg_AuthPolicy) |}.

(** logrus: its levels, and the parsing of their names. *)
Class Logrus := { ParseLevel : string → option Z; InfoLevel : Z; DebugLevel : Z }.

Record go_logger := { lo_Level : Z; lo_JSON : bool }.
Definition setupLogging `{Logrus} (cfg : Config) : go_logger :=
  {| lo_Level := default InfoLevel (ParseLevel cfg.(LogLevel)); lo_JSON := cfg.(LogJSON) |}.

(** ** The server that runs *)
Section startup.
Context `{Env} `{GoJson} `{GoURL} `{GoDuration} `{OcmSdk} `{Logrus}.

(** The constructors that are outside: the generated backplane client's, and the build of
    the SDK's authentication handler. *)
Class ServerBuilders := {
  bpclient_NewClient : string → res unit;
  authn_Build : authn_config → res unit;
  proxy_url_error : string → option gerror }.
Context `{ServerBuilders}.

(** The backplane connection's builder. *)
Definition backplane_connection (cfg : Config) : res sdk_connection :=
  build_connection {| cb_URL := cfg.(OCMBaseURL);
                      cb_Client := Some (cfg.(BackplaneClientID), cfg.(BackplaneClientSecret));
                      cb_Tokens := None |}.

Definition connected {A} (r : res A) : res unit := res_map (λ _, tt) r.

(** What the constructors answer to the configuration. *)
Definition startup_deps (cfg : Config) (login : res (option saved_login)) (store : res store_handle) : StartupDeps :=
  let client := server_ocm_client cfg login in
  {| sd_store := connected store; sd_ocmClient := connected client;
     sd_ocmConnection := connected (res_bind client sdkConn);
     sd_bpConnection := connected (backplane_connection cfg);
     sd_bpProvider := connected (NewBackplaneProvider bpclient_NewClient cfg.(BackplaneURL)) |}.

(** The JWKS wrapper's builders, run unless authentication is disabled. *)
Definition startup_authn (cfg : Config) (logger : go_logger) (su : ServerSetup) : res (option authn_config) :=
  if su.(su_jwks) then
    let authn := server_authn cfg.(JWKCertURL) cfg.(JWKCertFile) in
    let? _ := wrap_err "Failed to create OCM authentication logger"
                (build_logger (DebugLevel <=? logger.(lo_Level))) in
    let? _ := wrap_err "Failed to build OCM authentication handler" (authn_Build authn) in
    Ok (Some authn)
  else Ok None.

Record server_up := {
  rn_config : Config; rn_logger : go_logger; rn_setup : ServerSetup; rn_store : store_handle;
  rn_ocm : option ocm_Client; rn_authn : option authn_config }.

(** The OCM client of the policies that have one. *)
Definition startup_client (cfg : Config) (login : res (option saved_login)) : res (option ocm_Client) :=
  match cfg.(cfg_AuthPolicy) with
  | DisabledAuthPolicy => Ok None
  | _ => res_map Some (server_ocm_client cfg login)
  end.

Context `{ScriptEngine} `{Faults} `{MigrationsFS} `{StoreDriver}.

(** runServer up to the point where it listens. The workers, which have started by the time
    the token verification is built, are the process's ([running_process]). *)
Definition runServer_start (getenv : string → string) (file : res configFile) (fl : server_flags)
    (login : res (option saved_login)) (pragmas : list (string * string)) : M process (res server_up) :=
  match wrap_err "load configuration" (Load getenv file) with
  | Err e => ret (Err e)
  | Ok loaded =>
      let cfg := override_flags fl loaded in
      let logger := setupLogging cfg in
      do store <- store_New cfg.(DatabaseURL)
                    {| pg_MaxOpenConns := cfg.(DBMaxOpenConns); pg_MaxIdleConns := cfg.(DBMaxIdleConns);
                       pg_ConnMaxLifetime := cfg.(DBConnMaxLifetime) |} pragmas;
      ret (let? su := runServer_setup cfg (startup_deps cfg login store) in
           let? handle := store in
           let? client := startup_client cfg login in
           let? authn := startup_authn cfg logger su in
           Ok {| rn_config := cfg; rn_logger := logger; rn_setup := su; rn_store := handle;
                 rn_ocm := client; rn_authn := authn |})
  end.

(** ** What it is built of *)

Definition running_kube (rn : server_up) : KubeClientProvider :=
  match rn.(rn_setup).(su_kube) with
  | KubeKubeconfig path => KubeconfigProvider path
  | KubeBackplane baseURL => BackplaneProvider baseURL
  end.

(** [ocmClient.Connection]; without a client there is none. *)
Definition running_connection (rn : server_up) : res unit :=
  match rn.(rn_ocm) with Some client => connected (sdkConn client) | None => Err EPanic end.
Definition running_aws (rn : server_up) : ClientProvider :=
  match rn.(rn_setup).(su_aws) with
  | AwsStatic cfg => StaticProvider cfg
  | AwsCloud cfg =>
      NewCloudCredentialsProvider cfg (ocm_deps (running_connection rn) (running_connection rn) proxy_url_error)
  end.

Definition running_scopes (rn : server_up) : list Scope :=
  server_scopes rn.(rn_setup).(su_namespaces) rn.(rn_setup).(su_secrets) rn.(rn_setup).(su_policy)
    (running_kube rn) (running_aws rn).

Context `{AwsSdk} `{GoUUID}.
(** The worker pool's runner. *)
Definition running_runner (rn : server_up) : Execution → W RunResult :=
  ExecutorRunner_Run action_registry (running_scopes rn).

(** The request path: with an OCM client its access reviews decide the roles. *)
Context `{St : !StoreInterface} `{!IdSource} `{Bd : !Binder} `{L : !EdgeLibrary}.
Definition running_handler (rn : server_up) (version buildDate gitCommit : string) (r : incoming)
  : Edge edge_outcome :=
  match rn.(rn_setup).(su_auth), rn.(rn_ocm), rn.(rn_authn) with
  | AuthOCM roles, Some client, Some authn =>
      server_handler authn roles (AccessReview (connected (sdkConn client)) client.(ocl_connUsername))
        catalog_New version buildDate gitCommit r
  | _, _, _ => dev_handler catalog_New version buildDate gitCommit r
  end.

(** The process once its workers have started. *)
Definition running_process (rn : server_up) (st : store_st) (w : world) : server_state (R := incoming) :=
  server_start rn.(rn_setup).(su_pool) st w.

(** ** A start, taken apart *)

Lemma runServer_start_ok getenv file fl login pragmas p rn p' :
  runServer_start getenv file fl login pragmas p = (Ok rn, p') →
  ∃ cfg0 pgcfg, Load getenv file = Ok cfg0 ∧ rn.(rn_config) = override_flags fl cfg0
    ∧ rn.(rn_logger) = setupLogging rn.(rn_config)
    ∧ store_New rn.(rn_config).(DatabaseURL) pgcfg pragmas p = (Ok rn.(rn_store), p')
    ∧ runServer_setup rn.(rn_config) (startup_deps rn.(rn_config) login (Ok rn.(rn_store))) = Ok rn.(rn_setup)
    ∧ startup_client rn.(rn_config) login = Ok rn.(rn_ocm)
    ∧ startup_authn rn.(rn_config) rn.(rn_logger) rn.(rn_setup) = Ok rn.(rn_authn).
Proof.
  unfold runServer_start. destruct (Load getenv file) as [cfg0|e]; [|done]. simpl.
  set (cfg := override_flags fl cfg0). unfold bind.
  destruct (store_New _ _ _ p) as [store p1] eqn:Hs. intros [= Hr <-].
  apply res_bind_ok in Hr as (su & Hsu & (handle & -> & (client & Hc & (authn & Ha & [= <-])%res_bind_ok)%res_bind_ok)%res_bind_ok).
  eexists cfg0, _. by split_and!.
Qed.

(** The lists of the setup are the configuration's. *)
Lemma setup_lists cfg deps su :
  runServer_setup cfg deps = Ok su →
  su.(su_namespaces) = cfg.(AllowedNamespaces) ∧ su.(su_secrets) = cfg.(AllowedSecrets)
  ∧ su.(su_policy) = Aws.Policy cfg.(AWSAllowedRegions) cfg.(AWSAllowedOperations).
Proof.
  unfold runServer_setup. intros (? & _ & (auth & _ & (kube & _ & Hrest)%res_bind_ok)%res_bind_ok)%res_bind_ok.
  destruct (AWSAllowedRegions cfg); [done|]. apply res_bind_ok in Hrest as (aws & _ & [= <-]). by split_and!.
Qed.

#[export] Instance running_aws_laws rn : ProviderLaws (running_aws rn).
Proof. unfold running_aws. destruct (su_aws _); apply _. Qed.

(** C5: the environment's lists reach every run. Whatever a server that started runs, the
    policy the run is held to is the one its own environment and config file state: the
    run's action is registered and its target is permitted by their namespace and secret
    allowlists, or their region and write allowlists, or else it fails without touching
    a cluster or an AWS account. *)
Theorem configured_policy_reaches_runs getenv file fl login pragmas p rn p' cfg e w :
  runServer_start getenv file fl login pragmas p = (Ok rn, p') → Load getenv file = Ok cfg →
  let '(r, w') := running_runner rn e w in
  (∃ a params t, action_registry !! e.(ex_Action) = Some a ∧ decodeParams e.(ex_Params) = Ok params
     ∧ judged_target (running_aws rn) (runner_request e a params) t
     ∧ policy_permits cfg.(AllowedNamespaces) cfg.(AllowedSecrets)
         (Aws.Policy cfg.(AWSAllowedRegions) cfg.(AWSAllowedOperations)) a t)
  ∨ r.(rr_Status) = "failed" ∧ ∃ new, w'.(w_calls) = w.(w_calls) ++ new ∧ Forall harmless new.
Proof.
  intros (cfg0 & pgcfg & Hl & Hcfg & _ & _ & Hsu & _)%runServer_start_ok Hcl.
  assert (cfg0 = cfg) as -> by congruence.
  apply setup_lists in Hsu as (Hns & Hsec & Hpol). rewrite Hcfg in Hns, Hsec, Hpol. simpl in Hns, Hsec, Hpol.
  unfold running_runner, running_scopes. rewrite Hns, Hsec, Hpol. by apply run_gated, running_aws_laws.
Qed.

(** ** What is up when the server is *)

Lemma startup_auth_client cfg login store roles :
  startup_auth cfg (startup_deps cfg login store) = Ok (AuthOCM roles) →
  ∃ client, server_ocm_client cfg login = Ok client ∧ startup_client cfg login = Ok (Some client).
Proof.
  unfold startup_auth, startup_client. simpl.
  destruct (cfg_AuthPolicy cfg); [|by repeat case_match|];
    (destruct (Roles cfg); [done|]; case_match; [done|];
     destruct (server_ocm_client cfg login) as [client|]; [|done]; intros _; by exists client).
Qed.

(** Which policy an authentication comes from. *)
Lemma startup_auth_policy cfg deps auth :
  startup_auth cfg deps = Ok auth → (auth = AuthMock ↔ cfg.(cfg_AuthPolicy) = DisabledAuthPolicy).
Proof.
  unfold startup_auth. destruct (cfg_AuthPolicy cfg).
  2: { repeat (case_match; [done|]). by intros [= <-]. }
  all: destruct (Roles cfg); [done|]; destruct (existsb _ _); [done|]; by intros (? & _ & [= <-])%res_bind_ok.
Qed.

(** Once a client is there, the AWS provider can be built. *)
Lemma startup_aws_total cfg login store auth :
  startup_auth cfg (startup_deps cfg login store) = Ok auth →
  is_ok (startup_aws cfg (startup_deps cfg login store) auth) = true.
Proof.
  intros Ha. unfold startup_aws. destruct (is_empty (AWSEndpointURL cfg)) eqn:He; simpl; [|done].
  destruct auth as [roles|].
  - destruct (startup_auth_client _ _ _ _ Ha) as (client & Hc & _).
    destruct (server_ocm_client_ok _ _ _ Hc) as (src & conn & b & _ & _ & Hconn & _).
    rewrite Hc. simpl. by rewrite Hconn.
  - apply startup_auth_policy in Ha as Hp. unfold startup_auth in Ha. rewrite (proj1 Hp eq_refl), He in Ha.
    by case_match.
Qed.

(** What a running server authenticates with: an OCM client over a connection built from
    the login its policy names, and verified tokens; or neither. *)
Definition auth_ready (rn : server_up) (login : res (option saved_login)) : Prop :=
  match rn.(rn_setup).(su_auth) with
  | AuthMock => rn.(rn_ocm) = None ∧ rn.(rn_authn) = None
  | AuthOCM roles =>
      ∃ client src conn b authn, rn.(rn_ocm) = Some client
        ∧ source_of rn.(rn_config) login = Some src ∧ built_from src b ∧ credentialed b
        ∧ sdkConn client = Ok conn ∧ build_connection b = Ok conn ∧ named_by conn client.(ocl_connUsername)
        ∧ rn.(rn_authn) = Some authn
        ∧ running_handler rn
          = server_handler authn roles (AccessReview (Ok tt) client.(ocl_connUsername)) catalog_New
  end.

Lemma started_auth_ready rn login store :
  runServer_setup rn.(rn_config) (startup_deps rn.(rn_config) login store) = Ok rn.(rn_setup) →
  startup_client rn.(rn_config) login = Ok rn.(rn_ocm) →
  startup_authn rn.(rn_config) rn.(rn_logger) rn.(rn_setup) = Ok rn.(rn_authn) →
  auth_ready rn login.
Proof.
  unfold runServer_setup, auth_ready. intros Hsu Hcl Han.
  apply res_bind_ok in Hsu as (? & _ & (auth & Ha & (kube & _ & Hrest)%res_bind_ok)%res_bind_ok).
  destruct (AWSAllowedRegions _); [done|]. apply res_bind_ok in Hrest as (aws & _ & Hsu). injection Hsu as Hsu.
  rewrite <- Hsu in Han |- *. cbn [su_auth]. unfold startup_authn in Han. cbn [su_jwks] in Han.
  destruct auth as [roles|].
  - destruct (startup_auth_client _ _ _ _ Ha) as (client & Hoc & Hsc).
    assert (rn_ocm rn = Some client) as Hclient by congruence.
    destruct (server_ocm_client_ok _ _ _ Hoc) as (src & conn & b & Hsrc & Hfrom & Hconn & Hb & Hcr & Hnamed).
    destruct (cfg_AuthPolicy (rn_config rn)) eqn:Hp; simpl in Han.
    2: { by apply (startup_auth_policy _ _ _ Ha) in Hp. }
    all: apply res_bind_ok in Han as (? & _ & (? & _ & Han)%res_bind_ok); injection Han as Han;
      eexists client, src, conn, b, _; do 7 (split; [done|]); split; [by rewrite <- Han|];
      unfold running_handler; rewrite <- Hsu, Hclient, <- Han; simpl; by rewrite Hconn.
  - assert (cfg_AuthPolicy (rn_config rn) = DisabledAuthPolicy) as Hp by by apply (startup_auth_policy _ _ _ Ha).
    rewrite Hp in Han. simpl in Han. unfold startup_client in Hcl. rewrite Hp in Hcl. split; congruence.
Qed.

(** C12: a server that starts has everything it serves with. From a database at rest: if
    runServer gets as far as listening - past the build of the token verification - exactly
    one more database handle is open, every migration listed for the dialect of its URL is
    recorded, and record and schema agree; with real authentication it has an OCM client
    over a connection built from exactly the login its policy names, which acts as the
    username claim of the connection's token, or as "anonymous" when the token makes none;
    it verifies tokens, and it serves with the roles that client grants. Without, it has
    neither. And whenever authentication, cluster access and a region list are set up, so
    is the AWS provider: the two later guards of runServer, on a missing OCM client and on
    its connection, are never what stops it. *)
Theorem server_starts_ready getenv file fl login pragmas s0 p :
  p.(pr_db).(mg_tx) = None → p.(pr_db).(mg_locked) = false →
  (∀ cfg, Load getenv file = Ok cfg →
     consistent (url_dialect cfg.(DatabaseURL)) s0 p.(pr_db).(mg_content)) →
  let '(r, p') := runServer_start getenv file fl login pragmas p in
  (∀ rn, r = Ok rn →
     p'.(pr_open) = S p.(pr_open)
     ∧ consistent (url_dialect rn.(rn_config).(DatabaseURL)) s0 p'.(pr_db).(mg_content)
     ∧ (∀ name, name ∈ listed_files (url_dialect rn.(rn_config).(DatabaseURL)) →
          trim_suffix ".up.sql" name ∈ versions_of p'.(pr_db).(mg_content))
     ∧ auth_ready rn login)
  ∧ (∀ cfg store auth kube, let deps := startup_deps cfg login store in
       connected store = Ok tt → startup_auth cfg deps = Ok auth → startup_kube cfg deps = Ok kube →
       cfg.(AWSAllowedRegions) ≠ [] → is_ok (runServer_setup cfg deps) = true).
Proof.
  intros Ht Hl Hc. destruct (runServer_start getenv file fl login pragmas p) as [r p'] eqn:Hrun. split.
  - intros rn ->. apply runServer_start_ok in Hrun as (cfg0 & pgcfg & Hload & Hcfg & _ & Hs & Hsu & Hcl & Han).
    apply Hc in Hload. assert (DatabaseURL (rn_config rn) = DatabaseURL cfg0) as Hurl by by rewrite Hcfg.
    rewrite <- Hurl in Hload.
    pose proof (store_New_opened (DatabaseURL (rn_config rn)) pgcfg pragmas p Ht Hl) as Ho.
    rewrite Hs in Ho. destruct Ho as [Ho _]. destruct (opened_spec _ s0 _ _ _ Hload Ho) as (Hn & _ & Hcon & Hall).
    split_and!; [done|done|by apply Hall|by eapply started_auth_ready].
  - intros cfg store auth kube deps Hst Ha Hk Hr. unfold runServer_setup. subst deps. cbn [sd_store startup_deps].
    rewrite Hst. simpl. rewrite Ha. simpl. rewrite Hk. simpl.
    pose proof (startup_aws_total _ _ _ _ Ha) as Haws. destruct (AWSAllowedRegions cfg); [done|].
    by destruct (startup_aws _ _ _).
Qed.

(** ** The whole server *)
Context `{V : !QueueView St} `{!QueueLaws V} `{!BinderLaws Bd} `{!EdgeLibraryLaws (L := L)}.

(** C4: nothing runs that nobody with the role asked for. Take a server that started with
    real authentication. Handling a request is a sequence of atomic steps which create only
    executions that this request's verified caller, whom OCM grants a configured role
    that the action allows, asked for. Let such steps, of whatever requests arrive,
    interleave with the workers, the signal and the deadline: for every execution a worker
    claims, either it was pending in the store when the process started, or the process
    took a step in which one of the requests it was serving stored that execution, and
    that request was authorised to create it. *)
Theorem server_runs_what_was_asked getenv file fl login pragmas p rn p' roles :
  runServer_start getenv file fl login pragmas p = (Ok rn, p') → rn.(rn_setup).(su_auth) = AuthOCM roles →
  ∃ client authn, rn.(rn_ocm) = Some client ∧ rn.(rn_authn) = Some authn
  ∧ let asked := authorised_run authn roles (AccessReview (Ok tt) client.(ocl_connUsername)) in
    (∀ version buildDate gitCommit r s,
       rtc (request_step (asked r)) (shared_of s.(ed_api))
         (shared_of (running_handler rn version buildDate gitCommit r s).2.(ed_api)))
    ∧ ∀ st w s id, q_ok st → rtc (server_step (running_runner rn) asked) (running_process rn st w) s →
        id ∈ s.(sv_pool).(ps_claimed) →
        q_status st id = Some "pending"
        ∨ ∃ r e s1 s2, rtc (server_step (running_runner rn) asked) (running_process rn st w) s1
            ∧ r ∈ s1.(sv_requests) ∧ asked r e ∧ e.(ex_ID) = id ∧ e.(ex_Status) = ExecutionStatusPending
            ∧ st_CreateExecution e s1.(sv_pool).(ps_store) = (Ok tt, s2.(sv_pool).(ps_store))
            ∧ client_step asked s1 s2 ∧ rtc (server_step (running_runner rn) asked) s2 s.
Proof.
  intros (cfg0 & pgcfg & _ & _ & _ & _ & Hsu & Hcl & Han)%runServer_start_ok Ho.
  pose proof (started_auth_ready _ _ _ Hsu Hcl Han) as Hr. unfold auth_ready in Hr. rewrite Ho in Hr.
  destruct Hr as (client & src & conn & b & authn & Hc & _ & _ & _ & _ & _ & _ & Ha & Hh).
  exists client, authn. split; [done|]. split; [done|]. split.
  - intros version buildDate gitCommit r s. rewrite Hh.
    exact (server_handler_effects authn roles _ version buildDate gitCommit r
      (access_review_makes (Ok tt) client.(ocl_connUsername)) s).
  - intros st w s id Hok Hs Hid.
    destruct (claimed_was_requested _ _ _ _ _ _ _ Hok Hs Hid)
      as [?|(r & e & s1 & s2 & ? & (? & ? & ? & ? & ?) & ? & ?)]; [by left|].
    right. exists r, e, s1, s2. by split_and!.
Qed.
End startup.

(** ** A development server *)
Module StartupExample.
Import MigrationsExample StoreOpenExample OcmClientExample BackplaneExample AwsGetExample PipelineExample ConfigExample.
Import ModelsExample HandlersExample OpenapiExample EdgeExample.
#[local] Existing Instance OpenapiExample.binder.
#[local] Existing Instance OpenapiExample.binder_laws.
#[local] Existing Instance MigrationsExample.engine.
#[local] Existing Instance MigrationsExample.files.
#[local] Existing Instance MigrationsExample.steady.
#[local] Existing Instance StoreOpenExample.driver.
#[local] Existing Instance OcmClientExample.sdk.
#[local] Existing Instance url_stub.
#[local] Instance levels : Logrus :=
  {| ParseLevel := λ s, if bool_decide (s = "debug") then Some 5 else None; InfoLevel := 4; DebugLevel := 5 |}.
#[local] Instance builders : ServerBuilders :=
  {| bpclient_NewClient := λ _, Ok tt; authn_Build := λ _, Ok tt; proxy_url_error := λ _, None |}.
Definition no_flags : server_flags := Build_server_flags "" (Some ":9090") None None.
Definition started := runServer_start getenv (Ok default_configFile) no_flags (Ok None) sqlite_pragmas cold.

Example listens : res_map (λ rn, ListenAddr (rn_config rn)) started.1 = Ok ":9090".
Proof. vm_compute. reflexivity. Qed.

Lemma server_starts_ready_witness :
  is_ok started.1 = true ∧ pr_open started.2 = 1%nat.
Proof.
  split; [vm_compute; reflexivity|].
  assert (∀ cfg, Load getenv (Ok default_configFile) = Ok cfg →
    consistent (url_dialect cfg.(DatabaseURL)) ([] : list string) cold.(pr_db).(mg_content)) as Hc
    by (intros cfg _; split; [constructor|reflexivity]).
  pose proof (server_starts_ready getenv (Ok default_configFile) no_flags (Ok None) sqlite_pragmas
    ([] : list string) cold eq_refl eq_refl Hc) as Hw.
  revert Hw. fold started. assert (is_ok started.1 = true) as Hok by (vm_compute; reflexivity).
  destruct started as [[rn|e] p']; [|discriminate Hok]. intros [Hw _]. exact (proj1 (Hw rn eq_refl)).
Defined.

Lemma configured_policy_reaches_runs_witness :
  is_ok started.1 = true ∧
  match started.1 with
  | Ok rn =>
      let '(r, _) := running_runner rn RunnerExample.zones_run fresh_world in
      (∃ a t, action_registry !! "aws-get" = Some a
              ∧ policy_permits [] [] (Aws.Policy ["us-east-1"; "us-west-2"] []) a t)
      ∨ r.(rr_Status) = "failed"
  | Err _ => False
  end.
Proof.
  split; [vm_compute; reflexivity|].
  assert (is_ok started.1 = true) as Hok by (vm_compute; reflexivity). revert Hok.
  destruct started as [[rn|e] p'] eqn:Hs; [intros _|done]. cbn [fst].
  pose proof (configured_policy_reaches_runs getenv (Ok default_configFile) no_flags (Ok None) sqlite_pragmas cold rn p'
    dev_config RunnerExample.zones_run fresh_world Hs ltac:(vm_compute; reflexivity)) as Hw.
  destruct (running_runner rn RunnerExample.zones_run fresh_world) as [r w'].
  destruct Hw as [(a & params & t & Ha & _ & _ & Hp)|[Hf _]]; [left; exists a, t; split; [exact Ha|exact Hp]|by right].
Defined.

(** A server with real authentication. *)
Definition ocm_getenv (key : string) : string :=
  if bool_decide (key = "ROSA_TA_AUTH") then "enabled"
  else if bool_decide (key = "ROSA_TA_OCM_TOKEN") then "service-account"
  else if bool_decide (key = "ROSA_TA_BACKPLANE_URL") then "https://bp"
  else if bool_decide (key = "ROSA_TA_AWS_ALLOWED_REGIONS") then "us-east-1"
  else "".
Definition with_roles : configFile :=
  {| cf_Concurrency := 1; cf_PollInterval := 5 * 1000000000; cf_ExecutionTimeout := 120 * 1000000000;
     cf_AllowedNamespaces := ["openshift-monitoring"]; cf_AllowedSecrets := []; cf_AWSAllowedRegions := [];
     cf_AWSAllowedOperations := []; cf_AWSEndpointURL := ""; cf_AWSProxyURL := "";
     cf_AssumeInitialARN := ""; cf_BackplaneProxyURL := ""; cf_Roles := EdgeExample.roles |}.
Definition online := runServer_start ocm_getenv (Ok with_roles) no_flags (Ok None) sqlite_pragmas cold.

Lemma online_setup :
  res_map (λ rn, ((rn_setup rn).(su_auth), (rn_setup rn).(su_pool))) online.1
  = Ok (AuthOCM EdgeExample.roles, pool_New 1 5000000000).
Proof. vm_compute. reflexivity. Qed.

(** Its first worker claims the execution that was pending. *)
Lemma claims_pending run (may : incoming → Execution → Prop) rn :
  (rn_setup rn).(su_pool) = pool_New 1 5000000000 →
  ∃ s, rtc (server_step (V := view) run may) (running_process rn start.(api_store) fresh_world) s
       ∧ ps_claimed s.(sv_pool) = ["e1"].
Proof.
  intros Hp. unfold running_process. rewrite Hp.
  destruct (st_ClaimNextExecution start.(api_store)) as [r st] eqn:Hc.
  assert (claim_id r = ["e1"]) as Hid.
  { change r with (r, st).1. rewrite <- Hc. vm_compute. reflexivity. }
  eexists. split.
  - eapply rtc_l; [right; apply sv_worker; [done|apply (step_check _ 0); reflexivity]|].
    eapply rtc_once. right. apply sv_worker; [done|]. by apply (step_claim _ 0 _ r st).
  - simpl. exact Hid.
Qed.

Lemma server_runs_what_was_asked_witness :
  ∃ rn (asked : incoming → Execution → Prop), online.1 = Ok rn
    ∧ rtc (request_step (V := view) (asked post_run)) (shared_of edge_start.(ed_api))
        (shared_of (running_handler rn "v1" "today" "abc" post_run edge_start).2.(ed_api))
    ∧ (q_status (QueueView := view) start.(api_store) "e1" = Some "pending" ∨ ∃ r e, asked r e ∧ e.(ex_ID) = "e1").
Proof.
  pose proof online_setup as Hset. destruct online as [[rn|e] p'] eqn:Hs; [|discriminate Hset].
  injection Hset as Hauth Hpool.
  destruct (server_runs_what_was_asked (V := view) (Bd := OpenapiExample.binder) ocm_getenv (Ok with_roles) no_flags (Ok None) sqlite_pragmas cold rn p'
    EdgeExample.roles Hs Hauth) as (client & authn & _ & _ & Hh & Hrun).
  set (asked := authorised_run authn EdgeExample.roles (AccessReview (Ok tt) (ocl_connUsername client))) in *.
  exists rn, asked. split; [reflexivity|]. split; [apply Hh|].
  destruct (claims_pending (running_runner rn) asked rn Hpool) as (s & Hst & Hcl).
  destruct (Hrun start.(api_store) fresh_world s "e1" start_ok Hst) as [Hp|(r & e & s1 & s2 & _ & _ & Ha & He & _)].
  - rewrite Hcl. by left.
  - by left.
  - right. exists r, e. by split.
Defined.
End StartupExample.
