(* ===== verification/ActionCli.v ===== *)
(** cmd/action-cli - the command that runs one action against a cluster: it wires up
    the modelled executor with the one scope that claims the action.

    Flag parsing is cobra's: [options] are what the parsed flags are bound to, and
    [getenv] is os.Getenv. *)

From S2P Require Import Prelude GoString Json Env Authorization Actions AwsGet AwsWrite AwsApi Backplane Executor Pipeline Flags Config.
From Stdlib Require Import Ascii.
#[local] Open Scope Z_scope.

(** ** Helpers *)

Definition setIfNotEmpty (params : strmap) (name value : string) : strmap :=
  if is_empty value then params else <[name := value]> params.

Definition splitCSV (s : string) : list string :=
  if is_empty s then []
  else omap (λ p, let trimmed := trim_space p in if is_empty trimmed then None else Some trimmed)
         (split_char "," s).

(** ** The run command *)

Record options := {
  o_kubeconfig : string; o_action : string; o_namespace : string; o_group : string; o_version : string;
  o_resource : string; o_name : string; o_patch : string; o_clusterID : string; o_callerID : string;
  o_clusterVersion : string; o_allowedNS : string; o_allowedSecrets : string; o_clusterScoped : bool;
  o_severity : string; o_alertState : string; o_silences : bool;
  o_awsRegion : string; o_awsEndpointURL : string; o_awsInfraID : string; o_awsID : string;
  o_awsFilters : string; o_awsSince : string }.

(** The flags of [run], with the defaults the environment gives three of them. *)
Definition run_declared (getenv : string → string) : list flag_decl :=
  [ flag "kubeconfig" (TString (getenv "KUBECONFIG")); mark_required (string_flag "action"); string_flag "namespace";
    string_flag "group"; flag "version" (TString "v1"); string_flag "resource"; string_flag "name";
    string_flag "patch"; flag "cluster-id" (TString "local"); flag "caller-id" (TString "cli-user");
    string_flag "cluster-version"; string_flag "allowed-namespaces"; string_flag "allowed-secrets";
    bool_flag "cluster-scoped"; string_flag "severity"; string_flag "alert-state"; bool_flag "silences";
    flag "aws-region" (TString (getenv "AWS_REGION"));
    flag "aws-endpoint-url" (TString (getenv "ROSA_TA_AWS_ENDPOINT_URL"));
    string_flag "aws-infra-id"; string_flag "aws-id"; string_flag "aws-filters"; string_flag "aws-since" ].
(** The persistent flags of the root. *)
Definition cli_persistent : list flag_decl := [flag "log-level" (TString "debug"); bool_flag "log-json"].

(** The variables the flags are bound to. *)
Definition options_of (f : flags) : options :=
  {| o_kubeconfig := f.(fl_string) "kubeconfig"; o_action := f.(fl_string) "action";
     o_namespace := f.(fl_string) "namespace"; o_group := f.(fl_string) "group";
     o_version := f.(fl_string) "version"; o_resource := f.(fl_string) "resource";
     o_name := f.(fl_string) "name"; o_patch := f.(fl_string) "patch";
     o_clusterID := f.(fl_string) "cluster-id"; o_callerID := f.(fl_string) "caller-id";
     o_clusterVersion := f.(fl_string) "cluster-version"; o_allowedNS := f.(fl_string) "allowed-namespaces";
     o_allowedSecrets := f.(fl_string) "allowed-secrets"; o_clusterScoped := f.(fl_bool) "cluster-scoped";
     o_severity := f.(fl_string) "severity"; o_alertState := f.(fl_string) "alert-state";
     o_silences := f.(fl_bool) "silences"; o_awsRegion := f.(fl_string) "aws-region";
     o_awsEndpointURL := f.(fl_string) "aws-endpoint-url"; o_awsInfraID := f.(fl_string) "aws-infra-id";
     o_awsID := f.(fl_string) "aws-id"; o_awsFilters := f.(fl_string) "aws-filters";
     o_awsSince := f.(fl_string) "aws-since" |}.

(** The options are read from declared flags, none of which is declared twice. *)
Lemma options_declared getenv f g :
  NoDup (fd_name <$> run_declared getenv ++ cli_persistent)
  ∧ (agree_on (fd_name <$> run_declared getenv) f g → options_of f = options_of g).
Proof.
  split; [apply (bool_decide_eq_true (NoDup _)); reflexivity|]. intros Ha.
  assert (∀ n, bool_decide (n ∈ fd_name <$> run_declared getenv) = true →
    fl_string f n = fl_string g n ∧ fl_bool f n = fl_bool g n) as Hn
    by (intros n Hn%bool_decide_eq_true; by destruct (Ha n Hn) as (? & ? & _)).
  unfold options_of. f_equal; by apply Hn.
Qed.
Example default_options : (options_of (defaults (run_declared (λ _, "")))).(o_callerID) = "cli-user".
Proof. reflexivity. Qed.

(** What the command prints. *)
Inductive shown := Shown (line : string) | ShownResource (r : object).

Definition bool_text (b : bool) : string := if b then "true" else "false".

Section cli.
Context `{Env} (registry : gmap string action) (getenv : string → string).

(** The params every action gets. *)
Definition cli_params (o : options) : strmap :=
  let params := setIfNotEmpty ∅ "patch" o.(o_patch) in
  let params := setIfNotEmpty params "severity" o.(o_severity) in
  let params := setIfNotEmpty params "state" o.(o_alertState) in
  if o.(o_silences) then <["silences" := "true"]> params else params.

Definition aws_params (o : options) : strmap :=
  let params := setIfNotEmpty (cli_params o) "resource" o.(o_resource) in
  let params := setIfNotEmpty params "id" o.(o_awsID) in
  let params := setIfNotEmpty params "filters" o.(o_awsFilters) in
  setIfNotEmpty params "since" o.(o_awsSince).

Definition cli_aws_policy : Aws.policy :=
  Aws.Policy (splitCSV (getenv "ROSA_TA_AWS_ALLOWED_REGIONS")) (splitCSV (getenv "ROSA_TA_AWS_ALLOWED_OPERATIONS")).

Definition cli_provider (o : options) : ClientProvider :=
  StaticProvider {| sc_Region := o.(o_awsRegion); sc_AccessKeyID := ""; sc_SecretAccessKey := "";
                    sc_SessionToken := ""; sc_EndpointURL := o.(o_awsEndpointURL);
                    sc_InfraID := o.(o_awsInfraID) |}.

(** The namespace allowlist, which the target's namespace stands in for. *)
Definition cli_namespaces (o : options) : list string :=
  match splitCSV o.(o_allowedNS) with
  | [] => if is_empty o.(o_namespace) then [] else [o.(o_namespace)]
  | nsList => nsList
  end.

Definition cli_target (o : options) : target :=
  TKube {| rt_group := o.(o_group); rt_version := o.(o_version); rt_resource := o.(o_resource);
           rt_namespace := o.(o_namespace); rt_name := o.(o_name); rt_clusterScoped := o.(o_clusterScoped) |}.

(** The executor's scope, the target and the params the action's subtype selects. *)
Definition cli_wiring (o : options) (act : action) : res (list Scope * option target * strmap) :=
  match as_aws act with
  | Some _ =>
      match Aws.AllowedRegions cli_aws_policy with
      | [] => Err (EText ("no AWS region allowlist configured: set ROSA_TA_AWS_ALLOWED_REGIONS, "
                 +:+ "the same variable the server reads (e.g. ROSA_TA_AWS_ALLOWED_REGIONS=us-east-1)"))
      | _ => Ok ([AWSScope (Aws.Authorize (Aws.NewAWS cli_aws_policy)) (cli_provider o)], None, aws_params o)
      end
  | None =>
      Ok ([KubeScope (Kube.Authorize (Kube.New (cli_namespaces o) (splitCSV o.(o_allowedSecrets))))
             (KubeconfigProvider o.(o_kubeconfig))], Some (cli_target o), cli_params o)
  end.

(** The report on a result. *)
Definition cli_report (r : Result) : list shown * res unit :=
  let head := [Shown ""; Shown ("Allowed:  " +:+ bool_text r.(rs_Allowed)); Shown ("Reason:   " +:+ r.(rs_Reason))] in
  match r.(rs_Error) with
  | Some e => (head, Err (EWrap "action failed" e))
  | None =>
      if negb r.(rs_Allowed) then (head, Err (EText ("denied: " +:+ r.(rs_Reason))))
      else
        match r.(rs_Output) with
        | None => (head, Ok tt)
        | Some out =>
            let resources := default [] out.(ar_resources) in
            (head ++ [Shown ("Message:  " +:+ out.(ar_message))]
             ++ (match resources with
                 | [] => []
                 | _ => Shown ("Resources (" +:+ dec (Z.of_nat (length resources)) +:+ "):")
                        :: (ShownResource <$> resources)
                 end), Ok tt)
        end
  end.

(** [runCmd]'s [RunE]. *)
Definition cli_run (o : options) : W (list shown * res unit) :=
  match CreateAction registry o.(o_action) with
  | None => ret ([], Err (EText ("unknown action " +:+ quoted o.(o_action) +:+ ", must be one of: "
                                 +:+ join ", " (GetActionsNames registry))))
  | Some act =>
      let isAWSWrite := match as_aws_write act with Some _ => true | None => false end in
      if is_empty o.(o_resource) && negb isAWSWrite
      then ret ([], Err (EText ("--resource is required for action " +:+ quoted o.(o_action))))
      else
        match cli_wiring o act with
        | Err e => ret ([], Err e)
        | Ok (scopes, target, params) =>
            do r <- Execute scopes {| rq_CallerID := o.(o_callerID); rq_ClusterID := o.(o_clusterID);
                                      rq_ClusterVersion := o.(o_clusterVersion); rq_Action := act;
                                      rq_Target := target; rq_Params := params |};
            ret (cli_report r)
        end
  end.
End cli.

(** ** The same lists as the server's *)

Lemma omap_filter_trim (l : list string) :
  omap (λ p, let trimmed := trim_space p in if is_empty trimmed then None else Some trimmed) l
  = filter (λ s, s ≠ "") (trim_space <$> l).
Proof.
  induction l as [|p l IH]; [done|]. cbn [omap list_omap fmap list_fmap]. cbv zeta. unfold is_empty at 1.
  case_bool_decide as Hp.
  - rewrite filter_cons_False by (by intros ?). exact IH.
  - rewrite filter_cons_True by done. f_equal. exact IH.
Qed.

Lemma splitCSV_getStringSliceEnv getenv key : splitCSV (getenv key) = getStringSliceEnv getenv key [].
Proof. unfold splitCSV, getStringSliceEnv. cbv zeta. destruct (is_empty _); [done|]. apply omap_filter_trim. Qed.

Section proofs.
Context `{Env} `{GoDuration} (registry : gmap string action) (getenv : string → string).

Lemma cli_policy_is_servers cfg :
  Load getenv (Ok default_configFile) = Ok cfg →
  cli_aws_policy getenv = Aws.Policy cfg.(AWSAllowedRegions) cfg.(AWSAllowedOperations).
Proof.
  unfold Load, cli_aws_policy. simpl. intros (p & _ & [= <-])%res_bind_ok. simpl.
  by rewrite !splitCSV_getStringSliceEnv.
Qed.

(** Which scopes there are matters only through the one that claims the action. *)
Lemma Execute_scopeFor scopes1 scopes2 req w :
  scopeFor scopes1 req.(rq_Action) = scopeFor scopes2 req.(rq_Action) →
  Execute scopes1 req w = Execute scopes2 req w.
Proof. intros Hs. unfold Execute, execute_body. by rewrite Hs. Qed.

(** The target and scopes of the wiring, as the server would have them. *)
Lemma cli_wiring_server o act scopes target params :
  cli_wiring getenv o act = Ok (scopes, target, params) →
  scopeFor scopes act
  = scopeFor (server_scopes (cli_namespaces o) (splitCSV o.(o_allowedSecrets)) (cli_aws_policy getenv)
      (KubeconfigProvider o.(o_kubeconfig)) (cli_provider o)) act
  ∧ target = (if as_aws act then None else Some (cli_target o)).
Proof.
  unfold cli_wiring. rewrite server_scope_for. intros Hw.
  destruct act; simpl in Hw; [by simplify_eq| | |by simplify_eq];
    (destruct (splitCSV (getenv "ROSA_TA_AWS_ALLOWED_REGIONS")); by simplify_eq).
Qed.
(** An entry of a comma-separated list, trimmed and not blank. *)
Definition listed (csv x : string) : Prop := x ≠ "" ∧ ∃ part, part ∈ split_char "," csv ∧ trim_space part = x.

Lemma elem_of_splitCSV csv x : x ∈ splitCSV csv ↔ listed csv x.
Proof.
  assert (x ∈ filter (λ s, s ≠ "") (trim_space <$> split_char "," csv) ↔ listed csv x) as Hl.
  { rewrite list_elem_of_filter, list_elem_of_fmap. unfold listed. naive_solver. }
  unfold splitCSV, is_empty. rewrite omap_filter_trim. case_bool_decide as He; [|done].
  rewrite <- Hl, He. split; [by intros ?%elem_of_nil|]. by intros ?.
Qed.

(** What the flags and the environment permit. An AWS action needs its region listed in
    the environment, and its operation when it writes. A Kubernetes action needs the
    namespace listed, if a namespace or a list is given at all - without a list the
    namespace asked for is the list - and for a secret its namespace/name. *)
Definition flags_permit (o : options) (act : action) : Prop :=
  let no_list := ¬ ∃ ns, listed o.(o_allowedNS) ns in
  match act with
  | ActKube _ =>
      no_list ∧ o.(o_namespace) = ""
      ∨ (o.(o_namespace) ≠ "" ∧ (listed o.(o_allowedNS) o.(o_namespace) ∨ no_list)
         ∨ o.(o_namespace) = "" ∧ o.(o_clusterScoped) = true)
        ∧ (o.(o_resource) = "secrets" →
           o.(o_name) ≠ "" ∧ listed o.(o_allowedSecrets) (o.(o_namespace) +:+ "/" +:+ o.(o_name)))
  | ActAws _ => o.(o_resource) ≠ "" ∧ listed (getenv "ROSA_TA_AWS_ALLOWED_REGIONS") o.(o_awsRegion)
  | ActAwsWrite _ =>
      listed (getenv "ROSA_TA_AWS_ALLOWED_REGIONS") o.(o_awsRegion)
      ∧ (action_operation act = "" ∨ listed (getenv "ROSA_TA_AWS_ALLOWED_OPERATIONS") (action_operation act))
  | ActOther _ => False
  end.

Lemma cli_namespaces_listed o :
  (∀ ns, ns ∈ cli_namespaces o ↔
     listed o.(o_allowedNS) ns ∨ (¬ ∃ ns, listed o.(o_allowedNS) ns) ∧ ns = o.(o_namespace) ∧ ns ≠ "")
  ∧ (cli_namespaces o = [] → (¬ ∃ ns, listed o.(o_allowedNS) ns) ∧ o.(o_namespace) = "").
Proof.
  pose proof (elem_of_splitCSV (o_allowedNS o)) as Hl. unfold cli_namespaces, is_empty.
  destruct (splitCSV _) as [|n nsList].
  - assert (¬ ∃ ns, listed (o_allowedNS o) ns) as Hno by (intros [ns ?%Hl%elem_of_nil]; done).
    case_bool_decide; (split; [intros ns|done]).
    + rewrite elem_of_nil. naive_solver.
    + rewrite list_elem_of_singleton. naive_solver.
  - split; [|done]. intros ns. rewrite Hl. split; [by left|]. intros [?|(Hno & _)]; [done|].
    destruct Hno. exists n. apply Hl. by left.
Qed.

Lemma param_setIfNotEmpty m name value k :
  param (setIfNotEmpty m name value) k
  = if bool_decide (k = name ∧ value ≠ "") then value else param m k.
Proof.
  unfold setIfNotEmpty, is_empty, param. case_bool_decide as Hv.
  - rewrite bool_decide_eq_false_2; [done|]. by intros [_ ?].
  - case_bool_decide as Hk; [destruct Hk as [-> _]; by rewrite lookup_insert_eq|].
    rewrite lookup_insert_ne; [done|]. intros ->. by destruct Hk.
Qed.

Lemma cli_params_other o k :
  k ∉ ["patch"; "severity"; "state"; "silences"] → param (cli_params o) k = "".
Proof.
  intros Hk. rewrite !not_elem_of_cons in Hk. destruct Hk as (H1 & H2 & H3 & H4 & _).
  assert (∀ m n v, k ≠ n → param (setIfNotEmpty m n v) k = param m k) as Hset
    by (intros m n v Hn; rewrite param_setIfNotEmpty, bool_decide_eq_false_2; [done|by intros [? _]]).
  assert (∀ m, param (<["silences" := "true"]> m) k = param m k) as Hins
    by (intros m; unfold param; by rewrite lookup_insert_ne).
  unfold cli_params. destruct (o_silences o); by rewrite ?Hins, !Hset.
Qed.

Lemma aws_params_read o : param (aws_params o) "resource" = o.(o_resource).
Proof.
  unfold aws_params. rewrite !param_setIfNotEmpty, cli_params_other by set_solver.
  repeat (rewrite bool_decide_eq_false_2 by (by intros [? _])).
  case_bool_decide as Hr; [done|]. destruct (decide (o_resource o = "")); [done|by destruct Hr].
Qed.

#[local] Arguments Load : simpl never.

(** The action is registered, and the flags and the environment permit it. *)
Definition cli_ran (o : options) : Prop :=
  ∃ act, registry !! o.(o_action) = Some act ∧ flags_permit o act.

(** The lists permit the target the options name only when the flags do. *)
Lemma judged_flags_permit o scopes target params req t :
  cli_wiring getenv o req.(rq_Action) = Ok (scopes, target, params) →
  req.(rq_Target) = target → req.(rq_Params) = params → judged_target (cli_provider o) req t →
  policy_permits (cli_namespaces o) (splitCSV o.(o_allowedSecrets)) (cli_aws_policy getenv) req.(rq_Action) t →
  flags_permit o req.(rq_Action).
Proof.
  intros Hw Ht Hp Hj Hperm. pose proof Hw as [_ ->]%cli_wiring_server.
  assert (is_Some (as_aws (rq_Action req)) → params = aws_params o) as Hparams.
  { intros [k Hk]. unfold cli_wiring in Hw. rewrite Hk in Hw. destruct (Aws.AllowedRegions _); by simplify_eq. }
  unfold judged_target in Hj. rewrite Ht, Hp in Hj.
  pose proof (aws_params_read o) as Hres. destruct (cli_namespaces_listed o) as [Hin Hnil].
  destruct (rq_Action req) as [k|k|k|n] eqn:Ha; simpl in Hj, Hperm, Hparams; [|..|done].
  - subst t. destruct Hperm as [Hn|[Hns Hsec]]; [left; by apply Hnil|right]. simpl in Hns, Hsec.
    rewrite Hin in Hns. split; [naive_solver|]. intros Hr. rewrite <- elem_of_splitCSV. by apply Hsec.
  - destruct t as [|at']; [done|]. destruct Hj as ((w & Hr) & _ & Hj), Hperm as (Hne & _ & Hreg & _).
    simpl in *. injection Hr as Hr. rewrite Hj, Hparams, Hres in Hne by done. rewrite <- Hr in Hreg.
    split; [done|]. by apply elem_of_splitCSV.
  - destruct t as [|at']; [done|]. destruct Hj as ((w & Hr) & _), Hperm as (_ & _ & Hreg & Hop).
    simpl in *. injection Hr as Hr. rewrite <- Hr in Hreg. rewrite elem_of_splitCSV in Hreg, Hop.
    by split.
Qed.

Lemma cli_report_ok r out : cli_report r = (out, Ok tt) → r.(rs_Allowed) = true.
Proof. unfold cli_report. cbv zeta. destruct (rs_Error r); [done|]. by destruct (rs_Allowed r). Qed.

End proofs.

(** ** Runs *)

Module ActionCliExample.
Import AwsGetExample.
Definition zones : options :=
  {| o_kubeconfig := "kc"; o_action := "aws-get"; o_namespace := ""; o_group := ""; o_version := "v1";
     o_resource := "route53-hosted-zones"; o_name := ""; o_patch := ""; o_clusterID := "local";
     o_callerID := "cli-user"; o_clusterVersion := ""; o_allowedNS := ""; o_allowedSecrets := "";
     o_clusterScoped := false; o_severity := ""; o_alertState := ""; o_silences := false;
     o_awsRegion := "us-east-1"; o_awsEndpointURL := ""; o_awsInfraID := ""; o_awsID := "";
     o_awsFilters := ""; o_awsSince := "" |}.
Definition allow (key : string) : string :=
  if bool_decide (key = "ROSA_TA_AWS_ALLOWED_REGIONS") then " us-east-1,," else "".

Example zones_listed :
  (cli_run action_registry allow zones fresh_world).1.2 = Ok tt.
Proof. vm_compute. reflexivity. Qed.
Example zones_refused :
  is_ok (cli_run action_registry (λ _, "") zones fresh_world).1.2 = false
  ∧ (cli_run action_registry (λ _, "") zones fresh_world).2.(w_calls) = [].
Proof. vm_compute. by split. Qed.
End ActionCliExample.
