(* ===== verification/TestClient.v ===== *)
(** cmd/test-client - the HTTP client for testing the API: submits one run and polls
    it to its end.

    Unlike rta it sets no deadline of its own, so its loop is bounded here by a number of
    polls, and a run that needs more has no result; the network is RtaClient's
    [Transport]. *)

From S2P Require Import Prelude GoString Json Env Actions ListAlerts Backplane Models Catalog Http Flags RtaClient RtaCommands.
From Stdlib Require Import Ascii.
#[local] Open Scope Z_scope.

(** The parsed flags; durations are in nanoseconds. *)
Record tc_flags := {
  tc_server : string; tc_action : string; tc_clusterID : string; tc_jira : string; tc_params : list string;
  tc_dryRun : bool; tc_force : bool; tc_token : string; tc_pollInterval : Z }.

(** The flags, and the variables they are bound to. *)
Definition tc_declared : list flag_decl :=
  [ flag "server" (TString "http://localhost:8080"); mark_required (string_flag "action");
    mark_required (string_flag "cluster-id"); mark_required (string_flag "jira"); flag "param" TStringSlice;
    bool_flag "dry-run"; bool_flag "force"; string_flag "token"; flag "poll-interval" (TDuration (2 * 1000000000)) ].
Definition tc_flags_of (f : flags) : tc_flags :=
  {| tc_server := f.(fl_string) "server"; tc_action := f.(fl_string) "action";
     tc_clusterID := f.(fl_string) "cluster-id"; tc_jira := f.(fl_string) "jira";
     tc_params := f.(fl_slice) "param"; tc_dryRun := f.(fl_bool) "dry-run"; tc_force := f.(fl_bool) "force";
     tc_token := f.(fl_string) "token"; tc_pollInterval := f.(fl_duration) "poll-interval" |}.

(** [parseParams]. *)
Fixpoint tc_parseParams (raw : list string) (m : strmap) : res strmap :=
  match raw with
  | [] => Ok m
  | p :: raw =>
      match cut "=" p with
      | None => Err (EText ("invalid --param " +:+ quoted p +:+ ": expected key=value"))
      | Some (k, v) => tc_parseParams raw (<[k := v]> m)
      end
  end.

Definition isTerminal (status : string) : bool :=
  bool_decide (status = "succeeded") || bool_decide (status = "failed") || bool_decide (status = "timed_out").

Section client.
Context `{U : GoURL} `{!UrlParts} `{GoJson} `{Transport} `{ApiCodec}.
Notation Net := (M (list api_request)).

(** What doPost and doGet share from the response on. *)
Definition tc_answer (what : string) (resp : res api_response) : res openapi_Execution :=
  let? resp := wrap_err what resp in
  let? body := wrap_err (what +:+ ": read body") resp.(ap_data) in
  if (resp.(ap_status) <? 200) || (300 <=? resp.(ap_status))
  then Err (EText (what +:+ " returned " +:+ dec resp.(ap_status) +:+ ": " +:+ body))
  else wrap_err "decode response" (decode_execution body).

Definition tc_request (method u token : string) (contentType body : option string) : res api_request :=
  let? _ := url_parse u in
  Ok {| aq_method := method; aq_url := u; aq_authorization := Some ("Bearer " +:+ token); aq_userAgent := "";
        aq_accept := ""; aq_contentType := contentType; aq_body := body |}.

Definition doPost (u token : string) (body : ExecutionRequest) : Net (res openapi_Execution) :=
  do? req <- ret (tc_request "POST" u token (Some "application/json") (Some (encode_request body)));
  do resp <- send req;
  ret (tc_answer ("POST " +:+ u) resp).

Definition doGet (u token : string) : Net (res openapi_Execution) :=
  do? req <- ret (tc_request "GET" u token None None);
  do resp <- send req;
  ret (tc_answer ("GET " +:+ u) resp).

Definition run_url (f : tc_flags) : string :=
  f.(tc_server) +:+ "/api/v0/trusted-actions/" +:+ f.(tc_action) +:+ "/run".
Definition poll_url (f : tc_flags) (e : openapi_Execution) : string :=
  f.(tc_server) +:+ "/api/v0/trusted-actions/runs/" +:+ uuid_string e.(oa_exec).(ex_ID) +:+ "?include=output".

Definition tc_body (f : tc_flags) (params : strmap) : ExecutionRequest :=
  {| er_TargetCluster := f.(tc_clusterID); er_Jira := f.(tc_jira);
     er_DryRun := if f.(tc_dryRun) then Some true else None;
     er_Force := if f.(tc_force) then Some true else None;
     er_Params := if bool_decide (params = ∅) then None else Some params |}.

(** The polling loop, for at most [polls] turns. *)
Fixpoint tc_poll (polls : nat) (f : tc_flags) (token : string) (e : openapi_Execution)
  : Net (option (res openapi_Execution)) :=
  if isTerminal e.(oa_exec).(ex_Status) then ret (Some (Ok e))
  else
    match polls with
    | O => ret None
    | S polls =>
        do r <- doGet (poll_url f e) token;
        match r with
        | Err err => ret (Some (Err (EWrap "poll failed" err)))
        | Ok e => tc_poll polls f token e
        end
    end.

(** The command: the execution it prints with the process's exit code, or an error.
    [ocm_token] is the output of running ocm token; the refusal of an interval names it,
    which is left out. *)
Definition tc_run (polls : nat) (f : tc_flags) (ocm_token : res string)
  : Net (option (res (openapi_Execution * Z))) :=
  if f.(tc_pollInterval) <=? 0 then ret (Some (Err (EText "--poll-interval must be positive")))
  else
    let setup :=
      let? token := if is_empty f.(tc_token)
                    then res_map trim_space (wrap_err "--token not set and 'ocm token' failed" ocm_token)
                    else Ok f.(tc_token) in
      let? params := tc_parseParams f.(tc_params) ∅ in
      Ok (token, params) in
    match setup with
    | Err e => ret (Some (Err e))
    | Ok (token, params) =>
        do created <- doPost (run_url f) token (tc_body f params);
        match created with
        | Err e => ret (Some (Err e))
        | Ok e =>
            do r <- tc_poll polls f token e;
            ret (match r with
                 | None => None
                 | Some (Err e) => Some (Err e)
                 | Some (Ok e) =>
                     Some (Ok (e, if bool_decide (e.(oa_exec).(ex_Status) = "succeeded") then 0 else 1))
                 end)
        end
    end.
End client.

(** ** What it sends and says *)
Section proofs.
Context `{U : GoURL} `{!UrlParts} `{GoJson} `{Transport} `{ApiCodec}.

Lemma isTerminal_cli status : isTerminal status = cli_terminal status.
Proof.
  unfold isTerminal, cli_terminal. apply eq_bool_prop_intro. rewrite !orb_True, !bool_decide_spec.
  rewrite Is_true_true, contains_true. set_solver.
Qed.

(** A request with this method and token, when the URL is one. *)
Definition tc_sent (method u token : string) (q : api_request) : Prop :=
  q.(aq_method) = method ∧ q.(aq_url) = u ∧ q.(aq_authorization) = Some ("Bearer " +:+ token).

Lemma doGet_sends u token sent :
  ∃ new, (doGet u token sent).2 = sent ++ new ∧ (length new ≤ 1)%nat ∧ Forall (tc_sent "GET" u token) new.
Proof.
  unfold doGet, tc_request, bind_res, bind, ret, send. destruct (url_parse u); simpl.
  - eexists. split; [done|]. split; [done|]. by constructor.
  - exists []. rewrite app_nil_r. split; [done|]. split; [simpl; lia|done].
Qed.

Lemma doPost_sends u token body sent :
  ∃ new, (doPost u token body sent).2 = sent ++ new ∧ (length new ≤ 1)%nat ∧ Forall (tc_sent "POST" u token) new.
Proof.
  unfold doPost, tc_request, bind_res, bind, ret, send. destruct (url_parse u); simpl.
  - eexists. split; [done|]. split; [done|]. by constructor.
  - exists []. rewrite app_nil_r. split; [done|]. split; [simpl; lia|done].
Qed.

(** A poll of some execution of the server. *)
Definition tc_polled (f : tc_flags) (token : string) (q : api_request) : Prop :=
  ∃ e, tc_sent "GET" (poll_url f e) token q.

Lemma tc_poll_spec polls f token e sent :
  let '(r, sent') := tc_poll polls f token e sent in
  (∃ new, sent' = sent ++ new ∧ (length new ≤ polls)%nat ∧ Forall (tc_polled f token) new)
  ∧ ∀ e', r = Some (Ok e') → isTerminal e'.(oa_exec).(ex_Status) = true.
Proof.
  revert e sent. induction polls as [|polls IH]; intros e sent; cbn [tc_poll];
    (destruct (isTerminal (ex_Status (oa_exec e))) eqn:Ht;
     [split; [exists []; rewrite app_nil_r; split_and!; [done|simpl; lia|done]|by intros e' [= <-]]|]).
  - split; [exists []; rewrite app_nil_r; split_and!; [done|simpl; lia|done]|done].
  - destruct (doGet_sends (poll_url f e) token sent) as (n1 & E1 & L1 & F1). unfold bind.
    destruct (doGet (poll_url f e) token sent) as [[e1|err] sent1]; simpl in E1; subst sent1.
    2: { split; [|done]. exists n1. split_and!; [done|lia|]. eapply Forall_impl; [exact F1|]. by exists e. }
    specialize (IH e1 (sent ++ n1)). destruct (tc_poll polls f token e1 _) as [r sent'].
    destruct IH as [(n2 & -> & L2 & F2) Hr]. split; [|exact Hr]. exists (n1 ++ n2).
    rewrite app_assoc, length_app. split_and!; [done|lia|]. apply Forall_app. split; [|done].
    eapply Forall_impl; [exact F1|]. by exists e.
Qed.

(** The test client submits the run it was asked for once, then only polls it, all with
    one token; it prints an execution only once its status is final, and exits with 0
    only if that is succeeded. *)
Theorem test_client_polls polls f ocm_token sent :
  let '(r, sent') := tc_run polls f ocm_token sent in
  (∃ token posts gets, sent' = sent ++ posts ++ gets
     ∧ (length posts ≤ 1)%nat ∧ Forall (tc_sent "POST" (run_url f) token) posts
     ∧ (length gets ≤ polls)%nat ∧ Forall (tc_polled f token) gets)
  ∧ ∀ e code, r = Some (Ok (e, code)) →
      isTerminal e.(oa_exec).(ex_Status) = true ∧ (code = 0 ↔ e.(oa_exec).(ex_Status) = "succeeded").
Proof.
  assert (∃ token posts gets, sent = sent ++ posts ++ gets
     ∧ (length posts ≤ 1)%nat ∧ Forall (tc_sent "POST" (run_url f) token) posts
     ∧ (length gets ≤ polls)%nat ∧ Forall (tc_polled f token) gets) as Hnone.
  { exists "", [], []. rewrite app_nil_r. split_and!; simpl; try done; lia. }
  unfold tc_run. destruct (tc_pollInterval f <=? 0); [by split|].
  cbv zeta. destruct (let? token := _ in _) as [[token params]|e]; [|by split].
  unfold bind. destruct (doPost_sends (run_url f) token (tc_body f params) sent) as (posts & E1 & L1 & F1).
  destruct (doPost _ _ _ sent) as [[e|err] sent1]; simpl in E1; subst sent1.
  2: { split; [|done]. exists token, posts, []. rewrite app_nil_r. split_and!; simpl; try done; lia. }
  pose proof (tc_poll_spec polls f token e (sent ++ posts)) as Hp.
  destruct (tc_poll polls f token e _) as [r sent']. destruct Hp as [(gets & -> & L2 & F2) Hr].
  split; [exists token, posts, gets; by rewrite <- app_assoc|].
  intros e' code. destruct r as [[e2|err]|]; [|done..]. intros [= -> <-]. split; [by apply Hr|].
  case_bool_decide; by split.
Qed.
End proofs.
